(* ===== verification/_CoqProject ===== *)
-Q . S2P
Prelude.v
GoStrings.v
GoNet.v
GoBytes.v
Types.v
Hosts.v
TLSFragment.v
TLSSession.v
CFPool.v
AutoRouting.v
Settings.v
Base64.v
Rules.v
ImportConfig.v
Dial.v
Connect.v
TunFlow.v
CertVerify.v
Socks5.v
Server.v
Doh.v
GoText.v
GoURL.v
GasCache.v
GasHTTP.v
GasPool.v
GasRelay.v
GasBatch.v
GasProxy.v
Forward.v
PlainHTTP.v
UpstreamTLS.v
MITM.v
CertManager.v
PortManager.v
V2RayConfig.v
V2RayCore.v
V2RayManager.v
GasManager.v
GasServer.v
ProcMon.v
CoreRuntime.v
CoreService.v
CoreClient.v
SysProxy.v
ErrorPage.v
Tunnel.v
OneConn.v
LeafCerts.v
