(* ===== verification/Prelude.v ===== *)
(** * Nova Proxy: a verification library of the core

    Nova Proxy is a local HTTP/HTTPS proxy.  A request is matched against rules,
    the rule fixes a mode (direct, transparent, mitm, tls-rf, quic, server, v2ray,
    gas), the mode and the rule fix which addresses are dialled, and the tunnel is
    then handed to a transport.  Around that path stand the configuration (site
    groups, upstreams, DNS nodes, ECH profiles, settings, import and export), an
    automatic router fed by a list of blocked domains, and a pool of measured
    Cloudflare addresses.  This library models that core as executable functions
    translated from the Go sources in [src/proxy], and proves them correct, or
    proves how exactly they are not.

    ** Conventions

    - A Go call returns normally, returns an error, or panics: [outcome] keeps the
      three apart.  Index and slice bounds are checked by [byte_at] and [slice].
    - Strings are Rocq strings of bytes; [GoStrings] models the [strings] package,
      [GoNet] the parts of [net] and [net/netip], [GoBytes] byte slices,
      [Base64] [encoding/base64], [GoText] the searching, cutting and number parsing
      of texts, [GoURL] [net/url].  These are the language's standard library and
      are modelled as far as the sources use them, on ASCII text.
    - State is passed explicitly and records keep the source's field names; an
      update is written [x {{ f := v; g ::= h }}].
    - What the world answers is an argument: the clock ([now]), dials and writes,
      resolvers ([resolver] for DoH, [system_dns]), file saves ([write_result]),
      probes, regular expressions, SHA-256 and the platform's chain verification.
    - The iteration order of Go maps is unspecified: [MapRange] promises only a
      permutation of the entries, and the theorems hold for every instance.
    - A mutex is part of the state where a component misuses it ([CFPool],
      [V2RayManager]): an operation that must wait for a lock nobody releases
      answers [None], and a CONNECT then ends [Blocked].  Elsewhere an operation holds its mutex from
      entry to exit and is one atomic step.
    - Recursion is structural wherever the loop is over a list.  Fuel: [ext_loop]
      gets the number of bytes of the extension block plus one; running out is a
      [Panic], and [parseClientHello_no_panic] excludes it.  [tls_loop] and
      [relay_loop] get the number of bytes the client sent plus one, and every request
      read consumes at least one of them.  [unit_loop] gets 7 divisions by 1024, more than an int
      admits.  [relayHTTP1] and [heartbeatLoop] take a bound on the redirects
      followed, which the source does not have; theorems that give a result hold for
      every bound above zero.  [await_up] and [await_down] ping 30 and 10 times as the
      source does.
      [establish_rounds] gets 2, one round for the rule and one for its fallback
      ([establish_fuel]).  [exchange] takes the depth of nested lookups, of ECH configurations and of the
      addresses of QUIC nodes: [exchange_terminates] says when one level is enough and
      [exchange_diverges] when none is.  [hex_digits]
      gets 16 digits, enough for every 64-bit clock reading, [sort_rounds] the
      length of the list it sorts, and [Errorf_from] the length of the text, of which
      each step reads a byte.

    ** Files, in dependency order

    - [Prelude]: outcomes, notations, tactics, hints, lemmas on lists and Go maps.
    - [GoStrings], [GoNet], [GoBytes]: the standard library of Go.
    - [Types]: data shared by the components ([Rule], [SiteGroup], [Upstream],
      [ECHProfile], [DNSNode], [CloudflareConfig], [TUNConfig]).
    - [Hosts] (proxy.go, [normalizeHost] to [chooseUpstreamSNI]): host names,
      addresses with ports, domain patterns and their scores, DNS modes.
    - [TLSFragment] (tls_fragment.go): the ClientHello parser and the splitting of
      a record; [TLSSession]: [handleTLSFragment] with its fallback, and what a TLS
      receiver reads from the wire.
    - [CFPool] (cf_pool.go): the address pool, each critical section one operation
      on a store of statistics objects shared by a map and a slice.
    - [AutoRouting] (gfwlist.go, auto_routing.go): the blocked-domain list and the
      router with its Cloudflare cache.
    - [Settings] (proxy.go): the settings of [RuleManager], their file and setters.
    - [Rules] (proxy.go): site groups, upstreams, DNS nodes, ECH profiles,
      [buildRules], [matchRule] and the rules file.
    - [ImportConfig] (config.go): export, import and the merge, and the operations of a
      rule manager over its life.
    - [Dial] (proxy.go): [buildDialCandidates] and the two resolutions under it.
    - [Connect] (proxy.go): [handleRequest] and [handleConnect] as a trace of
      events and the transport they end in.
    - [TunFlow] (tun_flow.go): [PlanTUNFlow].
    - [CertVerify] (cert_verify.go): the verification callback of upstream TLS.
    - [Socks5] (proxy.go, [handleSOCKS5] to [socksDirect]): the SOCKS5 greeting and
      request of one connection as reads and writes, and what becomes of the request.
    - [Server] (proxy.go, [Start], [Stop], [serveSOCKS5], hot reload): the server's
      lifecycle as an interleaving of goroutines over the shared proxy state.
    - [Doh] (doh.go, [resolveRuleECHConfig] of proxy.go): the failover exchange,
      the lookups that call back into it, for ECH configurations and for the addresses of
      QUIC nodes, concurrent address lookups.
    - [GasCache], [GasHTTP], [GasPool], [GasRelay], [GasBatch] (gas_relay.go,
      gas_constants.go): the relay through Google Apps Script: its response cache,
      HTTP texts and JSON answers, connection pool with the HTTP/1.1 transport,
      circuit breaker and choice of script, request batching and coalescing.
    - [GasProxy] (gas_relay.go): the local proxy in front of the relay, with the
      loop that reads HTTP requests out of a TLS tunnel.
    - [V2RayConfig] (v2ray_config.go): the configuration of a V2Ray server and the
      parsers of share links; [V2RayCore] (v2ray_manager.go, [GenerateCoreJSON]):
      the configuration handed to the core, as a JSON value;
      [V2RayManager] (v2ray_manager.go): stored configurations, selection,
      subscriptions, life cycle of the core, pings and connection tests.
    - [Forward] (proxy.go, [directConnect], [handleGASConnect], [handleV2RayConnect],
      [handleGASRelayConnect]): the ends of a CONNECT without upstream TLS, with the
      SOCKS5 client and the request loops of the one-port relay.
    - [PlainHTTP] (proxy.go, [handleHTTP], [handleGASRelayHTTP], [handleGASHTTP],
      [handleV2RayHTTP]): requests that are not a CONNECT.
    - [UpstreamTLS] (proxy.go, [GetUConn], [establishUpstreamConn]; doh.go): the
      configuration of upstream TLS, ECH with its refresh and fallback, the
      candidates; what it asks of a resolver is a class that [Doh] is an instance of.
    - [MITM] (proxy.go, [handleMITM], [handleServerMITM], [handleQUICMITM]): the
      interception modes with what their transports do to upstream and QUIC connections,
      the certificates shown to clients and the headers dropped.
    - [CertManager] (cert/cert.go, cert/installer.go): the certificate authority,
      its two files, and the trust stores it is installed in.
    - [PortManager] (port_manager.go): the port to listen on and the processes in
      its way, which are ended with their children.
    - [GasManager] (gas.go, gas_lan.go): configuration, start and stop of the relay
      in interleaved halves, statistics, the scan for Google addresses, rotation.
    - [GasServer] (gas_relay.go, gas.go): the heartbeat with its pings and restarts
      over the relay's client, pool and batches, the standalone server as a step
      relation, the tests of the GAS page and the fallback authority.
    - [ProcMon] (procmon*.go, [trackingListener] of proxy.go): the attribution of
      connections and bytes to processes.
    - [CoreRuntime] (core_runtime.go, core_api.go): the core process, which joins the
      rule manager, the server, the V2Ray manager and the authority behind remote
      calls; a call returns, waits for ever or ends the process ([call_result]).
    - [CoreService] (core_api.go, the log of core_runtime.go): the remote calls with
      their answers, and the core process as a run of events: connections, calls, the
      replies still to be sent, the delayed stop of the TUN device, the end.
    - [CoreClient] (core_client.go): the user interface's client, which starts,
      replaces and calls the core over a world of one core, its files and the cores that
      were left stuck.
    - [SysProxy] (sysproxy_windows.go): the proxy settings of a Windows user, entered,
      saved and restored.
    - [ErrorPage] (error_page.go): the diagnosis of a failed connection, its page and
      the response around it.
    - [Tunnel] (the tunnels of proxy.go, [relayRawTCP] of gas_relay.go): two goroutines
      that copy bytes between two connections, in steps interleaved with the peers', with
      what was read of the connections before they start.
    - [OneConn] (proxy.go, [singleConnListener]): how an interception serves its one
      connection.
    - [LeafCerts] (proxy.go, gas_relay.go): the templates of certificates and the name
      check of a client.

    [Connect] composes [Rules] (matching, twice when the upstream has a rule of its
    own), [AutoRouting] (for hosts no rule covers), [Dial] (candidates) and
    [CFPool] (candidates and reports), the way [handleConnect] calls them.
    [CoreRuntime] composes [Rules], [Settings], [Server], [V2RayManager],
    [CertManager] and [PortManager]; [CoreService] answers calls with it, and
    [CoreClient] makes them.  [GasServer] composes
    [GasRelay], [GasPool] and [GasBatch] into one relay.

    ** What the theorems show

    - Fragmentation: the parser finds the server name of every well-formed
      ClientHello and never indexes out of range; the records written carry exactly
      the handshake and none carries the whole name; each session settles both
      connections, except that a ClientHello whose last extension is the server
      name crashes the handler.
    - Matching: the two domain matchers agree, exact names outrank patterns, the
      first rule of highest score serves, and the rules are those of the enabled
      site groups, with what their fields resolve to, after every history of a manager.
    - Configuration: loading reaches a normal form that a new process loads back,
      successful edits and settings survive a restart, imports account for each rule and
      are idempotent.
    - Pool: an invariant over all interleavings, ranking by latency, terminating
      health checks, and the lock that [ReportFailure] never releases together with
      what it does to a request.
    - Connections: every CONNECT closes or hands over what it opened exactly once;
      candidates are dialable, except those of [resolveSystemDNS] for IPv6.
    - Certificates: the callback accepts exactly the connections its mode describes.
    - Lifecycle: a running server owns its listeners and serving goroutines in every
      interleaving; SOCKS5 requests reach the same handler as CONNECT; and one order
      of failures in which [Stop] waits for ever.
    - DoH: when an exchange ends, when it cannot, for the lookups it needs itself, and how
      two concurrent lookups lose addresses.
    - Relay: the cache refines a list, JSON answers keep the body, the ranges of a
      chunked download tile the file (and why none is ever started), the breaker
      and the number of requests are bounded; every batched or coalesced request is
      accounted for, answered unless a restart dropped it; a healthy network keeps
      the connection pool sound, and how it breaks otherwise.
    - Relay front end: every request of a tunnel is read once, in order.
    - Transports: every connection opened is closed, used only while open but for a tunnel's
      last goroutine, and the client is answered once; the SOCKS5 client and the proxy's own SOCKS5 server
      understand each other and lose no byte, the two layers of the GAS proxy lose
      those read along with the answer; plain HTTP gets what the script answered,
      and under transparent rules is dialled on the TLS port.
    - Tunnels: what arrives is what was sent, in order, but for the bytes that some tunnels
      never get to see, and who is told of the end; a tunnel
      whose goroutines close behind themselves ends, in every interleaving, once a peer
      has finished, and so cuts off the answer to a client that only ended its sending;
      the raw relay closes nothing and can wait for ever.
    - Upstream TLS: connecting ends, falls back once and leaves at most one
      connection; which certificates it accepts, and what the ECH fallback gives away.
    - Interception: both ends and every QUIC connection are closed however it ends, and
      only HTTP/1's transport writes to a closed connection; certificates are made once
      and never renewed; the server mode does not survive its upstream connection.
    - Authority: one made by this program survives every history without failures, and an
      interrupted regeneration leaves a pair that does not belong together.
    - Port: the one found is among ten and was free or its holder, known by its name as one
      of the program's, was ended with its children; the holder may have been a mere client
      of that port elsewhere.
    - Relay manager: it runs exactly when it has a relay and closes every relay it
      replaces, unless a stop falls inside a start; the scan stores an address of
      least latency, which the running relay never uses.
    - Relay upkeep: an outage counts failures modulo five, and with an idle connection
      in the pool ends the process at the second heartbeat; the standalone server
      leaves nothing running when its start returns.
    - Processes: the bytes shown never exceed the server's and belong to the process
      that last held the port; no process ever has a name.
    - Core: a started proxy serves a port near the one asked for, unless the port is
      the core's own, when it ends itself; a restart of the core or its replacement by
      the client loses the mode, the host and the relay.
    - Core process: it listens until it is told to shut down and then ends, unless the
      server's lock or the pool's is stuck, but the answer to that call can be lost; it is told to stop the TUN
      device last of all, but a stop can overtake a later start.
    - Error page: the page is read back whole, shows the error as it is, and only a
      request for the bypass changes what is verified.
    - System proxy: a change is seen at once, and what a restore gives back and loses.
    - V2Ray: share links parse back to the server they were made for, the core's
      configuration sends everything to the server selected, with its credentials and
      stream settings, its rules name declared tags and every link but a Shadowsocks-2022
      one can be run; the selection always names a stored
      configuration; and [StopCore] never returns.

    ** What is not modelled

    The start of processes and of the settings page and the sending of urgent data,
    which are calls of the operating system; the log buffer and the Mihomo manager,
    which are not in the repository.  TLS stacks, QUIC and platform calls stay outside
    as arguments; so do keys, signatures and JSON decoding.  Of the V2Ray manager the
    maps of results for the user interface and the computed rate of a speed test are
    left out, as is the slice that [GetStore] shares with
    the manager. *)

From Stdlib Require Export ZArith Lia Ascii.
From Stdlib Require String.
From stdpp Require Export base gmap strings list sorting pretty numbers.

(** * Outcomes of Go code

    A Go call returns normally, returns a non-nil [error], or panics (an index
    or slice bound out of range, a nil dereference).  The three are kept apart:
    "never panics" is a theorem about a definition, not a modelling choice. *)
Inductive outcome (A : Type) : Type :=
  | Ok (a : A)
  | Err (msg : string)
  | Panic.
Arguments Ok {A} _.
Arguments Err {A} _.
Arguments Panic {A}.

Definition obind {A B} (m : outcome A) (k : A → outcome B) : outcome B :=
  match m with Ok a => k a | Err e => Err e | Panic => Panic end.

Definition of_option {A} (o : option A) : outcome A :=
  match o with Some a => Ok a | None => Panic end.

(** [guard_err b msg]: [if b { return errors.New(msg) }]. *)
Definition guard_err (b : bool) (msg : string) : outcome unit :=
  if b then Err msg else Ok tt.

Declare Scope go_scope.
Delimit Scope go_scope with go.
Notation "x <~ m ;; k" := (obind m (fun x => k))
  (at level 100, m at next level, right associativity) : go_scope.
Notation "m ~;; k" := (obind m (fun _ => k))
  (at level 100, right associativity) : go_scope.

Definition panics {A} (m : outcome A) : Prop := m = Panic.

Definition is_ok {A} (m : outcome A) : bool :=
  match m with Ok _ => true | _ => false end.

Section outcome_lemmas.
Context {A B : Type}.

Lemma obind_no_panic (m : outcome A) (k : A → outcome B) :
  ¬ panics m → (∀ a, m = Ok a → ¬ panics (k a)) → ¬ panics (obind m k).
Proof. unfold panics. destruct m; simpl; naive_solver. Qed.

Lemma guard_err_no_panic b msg : ¬ panics (guard_err b msg).
Proof. unfold guard_err, panics. by destruct b. Qed.

Lemma obind_ok_inv (m : outcome A) (k : A → outcome B) b :
  obind m k = Ok b → ∃ a, m = Ok a ∧ k a = Ok b.
Proof. destruct m; simpl; [eauto|discriminate..]. Qed.

Lemma guard_err_ok_inv b msg u : guard_err b msg = Ok u → b = false.
Proof. unfold guard_err. by destruct b. Qed.
End outcome_lemmas.

(** [post m P]: [m] does not panic, and a value it returns satisfies [P]. *)
Definition post {A} (m : outcome A) (P : A → Prop) : Prop :=
  match m with Ok a => P a | Err _ => True | Panic => False end.

Lemma post_bind {A B} (m : outcome A) (k : A → outcome B) Q P :
  post m Q → (∀ a, Q a → post (k a) P) → post (obind m k) P.
Proof. destruct m; simpl; auto. Qed.

Lemma post_guard {B} b msg (k : unit → outcome B) P :
  (b = false → post (k tt) P) → post (obind (guard_err b msg) k) P.
Proof. unfold guard_err. destruct b; simpl; auto. Qed.

Lemma post_mono {A} (m : outcome A) (P Q : A → Prop) :
  post m P → (∀ a, P a → Q a) → post m Q.
Proof. destruct m; simpl; auto. Qed.

Lemma post_no_panic {A} (m : outcome A) P : post m P → ¬ panics m.
Proof. unfold panics. destruct m; simpl; naive_solver. Qed.

Lemma post_Ok {A} (m : outcome A) P a : post m P → m = Ok a → P a.
Proof. intros H ->. exact H. Qed.

(** Decompose a hypothesis [obind .. = Ok _] into the steps that succeeded. *)
Ltac ok_inv :=
  repeat match goal with
  | H : obind _ _ = Ok _ |- _ =>
      apply obind_ok_inv in H; destruct H as (? & ? & ?)
  | H : guard_err _ _ = Ok _ |- _ => apply guard_err_ok_inv in H
  | H : Ok _ = Ok _ |- _ => injection H as ?
  | H : Err _ = Ok _ |- _ => discriminate H
  | H : Panic = Ok _ |- _ => discriminate H
  | x : unit |- _ => destruct x
  end; subst.

(** Turn boolean comparisons in the context into propositions for [lia]. *)
Ltac bool_prop :=
  repeat match goal with
  | H : (_ && _)%bool = true |- _ => apply andb_prop in H as [? ?]
  | H : (_ || _)%bool = false |- _ => apply orb_false_elim in H as [? ?]
  | H : negb _ = true |- _ => apply negb_true_iff in H
  | H : negb _ = false |- _ => apply negb_false_iff in H
  | H : bool_decide _ = true |- _ => apply bool_decide_eq_true_1 in H
  | H : bool_decide _ = false |- _ => apply bool_decide_eq_false_1 in H
  | H : (_ =? _)%Z = true |- _ => apply Z.eqb_eq in H
  | H : (_ =? _)%Z = false |- _ => apply Z.eqb_neq in H
  | H : (_ <? _)%Z = true |- _ => apply Z.ltb_lt in H
  | H : (_ <? _)%Z = false |- _ => apply Z.ltb_ge in H
  | H : (_ <=? _)%Z = true |- _ => apply Z.leb_le in H
  | H : (_ <=? _)%Z = false |- _ => apply Z.leb_gt in H
  | H : (_ =? _)%nat = true |- _ => apply Nat.eqb_eq in H
  | H : (_ =? _)%nat = false |- _ => apply Nat.eqb_neq in H
  | H : (_ <? _)%nat = true |- _ => apply Nat.ltb_lt in H
  | H : (_ <? _)%nat = false |- _ => apply Nat.ltb_ge in H
  | H : (_ <=? _)%nat = true |- _ => apply Nat.leb_le in H
  | H : (_ <=? _)%nat = false |- _ => apply Nat.leb_gt in H
  end.

(** * Generic lemmas on lists *)

(** Order-preserving removal of repetitions, keeping the first occurrence:
    the [seen := map[string]struct{}] idiom of the source. *)
Section dedup.
Context {A : Type} `{EqDecision A}.

Fixpoint dedup_from (seen : list A) (l : list A) : list A :=
  match l with
  | [] => []
  | x :: l' =>
      if decide (x ∈ seen) then dedup_from seen l'
      else x :: dedup_from (x :: seen) l'
  end.

Definition dedup (l : list A) : list A := dedup_from [] l.

Lemma elem_of_dedup_from x l : ∀ seen, x ∈ dedup_from seen l ↔ x ∈ l ∧ x ∉ seen.
Proof.
  induction l as [|y l IH]; intros seen; simpl; [set_solver|].
  case_decide; rewrite ?elem_of_cons, IH; [set_solver|].
  destruct (decide (x = y)); set_solver.
Qed.

Lemma elem_of_dedup x l : x ∈ dedup l ↔ x ∈ l.
Proof. unfold dedup. rewrite elem_of_dedup_from. set_solver. Qed.

Lemma NoDup_dedup_from l : ∀ seen, NoDup (dedup_from seen l).
Proof.
  induction l as [|y l IH]; intros seen; simpl; [constructor|].
  case_decide; [done|]. constructor; [|done].
  rewrite elem_of_dedup_from. set_solver.
Qed.

Lemma NoDup_dedup l : NoDup (dedup l).
Proof. apply NoDup_dedup_from. Qed.

Lemma dedup_from_sublist l : ∀ seen, dedup_from seen l `sublist_of` l.
Proof.
  induction l as [|y l IH]; intros seen; simpl; [done|].
  case_decide; [by apply sublist_cons|by apply sublist_skip].
Qed.

Lemma dedup_sublist l : dedup l `sublist_of` l.
Proof. apply dedup_from_sublist. Qed.

Lemma dedup_from_id l : ∀ seen,
  NoDup l → (∀ x, x ∈ l → x ∉ seen) → dedup_from seen l = l.
Proof.
  induction l as [|y l IH]; intros seen Hnd Hs; simpl; [done|].
  apply list.NoDup_cons in Hnd as [Hy Hnd].
  rewrite decide_False by set_solver. f_equal. apply IH; set_solver.
Qed.

Lemma dedup_idemp l : dedup (dedup l) = dedup l.
Proof. apply dedup_from_id; [apply NoDup_dedup|set_solver]. Qed.
End dedup.

(** [v[i] = x] for the first element that satisfies [p], the
    [for i, s := range v { if .. { v[i] = x; break } }] idiom. *)
Section first_match.
Context {A : Type}.

Fixpoint update_first (p : A → bool) (f : A → A) (l : list A) : list A :=
  match l with
  | [] => []
  | y :: l' => if p y then f y :: l' else y :: update_first p f l'
  end.

(** [v = append(v[:i], v[i+1:]...)] for the first match. *)
Fixpoint remove_first (p : A → bool) (l : list A) : list A :=
  match l with
  | [] => []
  | y :: l' => if p y then l' else y :: remove_first p l'
  end.

Fixpoint find_index (p : A → bool) (l : list A) : option nat :=
  match l with
  | [] => None
  | y :: l' => if p y then Some 0 else S <$> find_index p l'
  end.

Lemma length_update_first p f l : length (update_first p f l) = length l.
Proof. induction l as [|y l IH]; simpl; [done|]. destruct (p y); simpl; auto. Qed.

Lemma find_index_Some p l i :
  find_index p l = Some i →
  ∃ x, l !! i = Some x ∧ p x = true ∧ ∀ j y, j < i → l !! j = Some y → p y = false.
Proof.
  revert i. induction l as [|x l IH]; intros i; simpl; [done|].
  destruct (p x) eqn:Hx.
  - intros [= <-]. exists x. repeat split; [done|intros; lia].
  - destruct (find_index p l) as [k|]; simpl; [|done]. intros [= <-].
    destruct (IH k eq_refl) as (z & Hz & Hpz & Hmin). exists z.
    repeat split; [done..|]. intros [|j] y Hj Hy; simpl in *; [congruence|].
    apply (Hmin j y); [lia|done].
Qed.

Lemma find_index_None p l :
  find_index p l = None ↔ ∀ x, x ∈ l → p x = false.
Proof.
  induction l as [|x l IH]; simpl; [set_solver|].
  destruct (p x) eqn:Hx.
  - split; [done|]. intros H. rewrite (H x) in Hx; [done|set_solver].
  - destruct (find_index p l); simpl; split; try done; intros H.
    + enough (Some n = None) by done. apply IH. set_solver.
    + intros y [->|Hy]%elem_of_cons; [done|]. by apply IH.
Qed.

Lemma update_first_no_match p f l :
  (∀ x, x ∈ l → p x = false) → update_first p f l = l.
Proof.
  induction l as [|x l IH]; simpl; [done|]. intros H.
  rewrite (H x) by set_solver. f_equal. apply IH. set_solver.
Qed.

Lemma remove_first_sublist p l : remove_first p l `sublist_of` l.
Proof.
  induction l as [|x l IH]; simpl; [done|].
  destruct (p x); [by apply sublist_cons|by apply sublist_skip].
Qed.
End first_match.

Lemma elem_of_filter_bool {A} (p : A → bool) x (l : list A) :
  x ∈ List.filter p l ↔ x ∈ l ∧ p x = true.
Proof. rewrite !list_elem_of_In. apply filter_In. Qed.

(** A fold that keeps the first maximum, the [if score > bestScore] idiom. *)
Section best.
Context {A : Type} (score : A → Z).

Fixpoint best_from (cur : option A) (best : Z) (l : list A) : option A * Z :=
  match l with
  | [] => (cur, best)
  | x :: l' =>
      if (best <? score x)%Z then best_from (Some x) (score x) l'
      else best_from cur best l'
  end.

Lemma best_from_spec l : ∀ cur b r s,
  best_from cur b l = (r, s) →
  (b ≤ s)%Z ∧ (∀ x, x ∈ l → (score x ≤ s)%Z) ∧
  ((r = cur ∧ s = b ∧ ∀ x, x ∈ l → (score x ≤ b)%Z) ∨
   ∃ l1 x l2, l = l1 ++ x :: l2 ∧ r = Some x ∧ s = score x ∧ (b < s)%Z ∧
     ∀ y, y ∈ l1 → (score y < s)%Z).
Proof.
  induction l as [|x l IH]; intros cur b r s; simpl.
  - intros [= <- <-]. split; [lia|]. split; [set_solver|]. left. set_solver.
  - destruct (Z.ltb_spec b (score x)) as [Hlt|Hge]; intros H;
      apply IH in H as (Hb & Hmax & Hcase).
    + split; [lia|]. split; [set_solver|]. right.
      destruct Hcase as [(-> & -> & Hall)|(l1 & y & l2 & -> & -> & -> & Hlt' & Hl1)].
      * exists [], x, l. repeat split; try done; try lia; set_solver.
      * exists (x :: l1), y, l2. repeat split; try done; try lia.
        intros z [->|Hz]%elem_of_cons; [lia|auto].
    + split; [lia|]. split; [set_solver by lia|].
      destruct Hcase as [(-> & -> & Hall)|(l1 & y & l2 & -> & -> & -> & Hlt' & Hl1)].
      * left. set_solver.
      * right. exists (x :: l1), y, l2. repeat split; try done.
        intros z [->|Hz]%elem_of_cons; [lia|auto].
Qed.
End best.

Create HintDb nova discriminated.
#[export] Hint Resolve NoDup_dedup dedup_sublist guard_err_no_panic : nova.
#[export] Hint Rewrite @elem_of_dedup @length_update_first : nova.
