(* ===== verification/GoStrings.v ===== *)
(** Go's [strings] package, as far as the sources use it.

    A Go string is a sequence of bytes; it is modelled by Rocq's [string], one
    [ascii] per byte.  [ToLower], [TrimSpace] and [EqualFold] act on the ASCII
    bytes and leave bytes from 128 on unchanged: on ASCII text, which is what
    host names, modes and policies are, that is Go's behaviour. *)

From S2P Require Import Prelude.

Open Scope nat_scope.

(** * Bytes *)

Definition byte_val (c : ascii) : nat := nat_of_ascii c.

(** [unicode.IsSpace] on ASCII: tab, newline, vertical tab, form feed,
    carriage return, space. *)
Definition is_space (c : ascii) : bool :=
  let n := byte_val c in ((9 <=? n) && (n <=? 13)) || (n =? 32).

Definition is_upper (c : ascii) : bool :=
  let n := byte_val c in (65 <=? n) && (n <=? 90).

Definition is_digit (c : ascii) : bool :=
  let n := byte_val c in (48 <=? n) && (n <=? 57).

Definition lower_byte (c : ascii) : ascii :=
  if is_upper c then ascii_of_nat (byte_val c + 32) else c.

Definition ceq (a b : ascii) : bool := Ascii.eqb a b.

(** * Length, slices, search *)

Definition slen (s : string) : nat := Stdlib.Strings.String.length s.

(** [s[:n]] and [s[n:]] for [n <= len(s)]. *)
Fixpoint str_take (n : nat) (s : string) : string :=
  match n, s with
  | S n', String c s' => String c (str_take n' s')
  | _, _ => ""
  end.

Fixpoint str_drop (n : nat) (s : string) : string :=
  match n, s with
  | S n', String _ s' => str_drop n' s'
  | _, _ => s
  end.

(** [s[i:j]]. *)
Definition str_slice (i j : nat) (s : string) : string := str_take (j - i) (str_drop i s).

Fixpoint str_rev_app (s acc : string) : string :=
  match s with "" => acc | String c s' => str_rev_app s' (String c acc) end.

(** [strings.IndexByte]; [None] for [-1]. *)
Fixpoint index_byte (c : ascii) (s : string) : option nat :=
  match s with
  | "" => None
  | String d s' => if ceq c d then Some 0 else S <$> index_byte c s'
  end.

(** [strings.LastIndexByte]. *)
Fixpoint last_index_byte (c : ascii) (s : string) : option nat :=
  match s with
  | "" => None
  | String d s' =>
      match last_index_byte c s' with
      | Some i => Some (S i)
      | None => if ceq c d then Some 0 else None
      end
  end.

Definition contains_byte (c : ascii) (s : string) : bool :=
  match index_byte c s with Some _ => true | None => false end.

Fixpoint count_byte (c : ascii) (s : string) : nat :=
  match s with
  | "" => 0
  | String d s' => (if ceq c d then 1 else 0) + count_byte c s'
  end.

Fixpoint is_prefix (pre s : string) : bool :=
  match pre, s with
  | "", _ => true
  | String c pre', String d s' => ceq c d && is_prefix pre' s'
  | _, "" => false
  end.

Definition HasPrefix (s pre : string) : bool := is_prefix pre s.

Definition HasSuffix (s suf : string) : bool :=
  (slen suf <=? slen s) && bool_decide (str_drop (slen s - slen suf) s = suf).

Definition TrimPrefix (s pre : string) : string :=
  if HasPrefix s pre then str_drop (slen pre) s else s.

Definition TrimSuffix (s suf : string) : string :=
  if HasSuffix s suf then str_take (slen s - slen suf) s else s.

Fixpoint Contains (s sub : string) : bool :=
  is_prefix sub s || match s with "" => false | String _ s' => Contains s' sub end.

(** [strings.ReplaceAll] for a non-empty [old]: leftmost, non-overlapping.
    [skip] counts the bytes of the occurrence just replaced that are still to
    be passed over. *)
Fixpoint replace_from (skip : nat) (s old new : string) : string :=
  match s with
  | "" => ""
  | String c s' =>
      match skip with
      | S k => replace_from k s' old new
      | 0 =>
          if is_prefix old s then new +:+ replace_from (slen old - 1) s' old new
          else String c (replace_from 0 s' old new)
      end
  end.

Definition ReplaceAll (s old new : string) : string := replace_from 0 s old new.

(** * Trimming and case *)

Fixpoint trim_left_by (p : ascii → bool) (s : string) : string :=
  match s with
  | "" => ""
  | String c s' => if p c then trim_left_by p s' else s
  end.

Fixpoint trim_right_by (p : ascii → bool) (s : string) : string :=
  match s with
  | "" => ""
  | String c s' =>
      match trim_right_by p s' with
      | "" => if p c then "" else String c ""
      | r => String c r
      end
  end.

Definition trim_by (p : ascii → bool) (s : string) : string :=
  trim_right_by p (trim_left_by p s).

Definition TrimSpace (s : string) : string := trim_by is_space s.

(** [strings.Trim(s, cutset)]. *)
Definition Trim (s cutset : string) : string := trim_by (λ c, contains_byte c cutset) s.

Fixpoint ToLower (s : string) : string :=
  match s with "" => "" | String c s' => String (lower_byte c) (ToLower s') end.

Definition EqualFold (s t : string) : bool := bool_decide (ToLower s = ToLower t).

(** [strings.ToLower(strings.TrimSpace(s))], the normal form of modes,
    policies and domains throughout the sources. *)
Definition norm (s : string) : string := ToLower (TrimSpace s).

(** * Splitting and joining *)

(** [strings.Split(s, sep)] for a one-byte [sep]; never empty. *)
Fixpoint Split (s : string) (sep : ascii) : list string :=
  match s with
  | "" => [""]
  | String c s' =>
      if ceq sep c then "" :: Split s' sep
      else match Split s' sep with
           | w :: ws => String c w :: ws
           | [] => [String c ""]
           end
  end.

(** [strings.Join(l, sep)]. *)
Fixpoint Join (l : list string) (sep : string) : string :=
  match l with
  | [] => ""
  | [w] => w
  | w :: ws => w +:+ sep +:+ Join ws sep
  end.

(** [strconv.Itoa], [fmt.Sprintf("%d", n)]. *)
Definition Itoa (n : Z) : string := pretty n.

(** The value of a string of ASCII digits; [None] when empty or not digits. *)
Fixpoint digits_val (acc : Z) (s : string) : option Z :=
  match s with
  | "" => Some acc
  | String c s' =>
      if is_digit c then digits_val (10 * acc + (Z.of_nat (byte_val c) - 48)) s' else None
  end.

Definition nonempty (s : string) : bool := negb (bool_decide (s = "")).

(** * Lemmas *)

Lemma ceq_true a b : ceq a b = true ↔ a = b.
Proof. apply Ascii.eqb_eq. Qed.

Lemma ceq_false a b : ceq a b = false ↔ a ≠ b.
Proof. apply Ascii.eqb_neq. Qed.

Lemma ceq_refl a : ceq a a = true.
Proof. by apply ceq_true. Qed.

Lemma str_app_cons c (s t : string) : String c s +:+ t = String c (s +:+ t).
Proof. done. Qed.

Lemma str_app_nil_r (s : string) : s +:+ "" = s.
Proof. induction s as [|c s IH]; [done|]. by rewrite str_app_cons, IH. Qed.

Lemma str_app_empty (t : string) : "" +:+ t = t.
Proof. done. Qed.

Lemma str_app_assoc (s t u : string) : (s +:+ t) +:+ u = s +:+ t +:+ u.
Proof. induction s as [|c s IH]; [done|]. by rewrite !str_app_cons, IH. Qed.

Lemma slen_app s t : slen (s +:+ t) = slen s + slen t.
Proof. induction s as [|c s IH]; [done|]. rewrite str_app_cons. cbn. by f_equal. Qed.

#[export] Hint Rewrite str_app_nil_r str_app_assoc str_app_cons str_app_empty slen_app ceq_refl : gostr.

Lemma str_take_app s t : str_take (slen s) (s +:+ t) = s.
Proof. induction s as [|c s IH]; [by destruct t|]. rewrite str_app_cons. cbn. by f_equal. Qed.

Lemma str_drop_app s t : str_drop (slen s) (s +:+ t) = t.
Proof. induction s as [|c s IH]; [done|]. by rewrite str_app_cons. Qed.

Lemma str_take_drop n s : str_take n s +:+ str_drop n s = s.
Proof.
  revert s; induction n as [|n IH]; intros [|c s]; try done.
  cbn [str_take str_drop]. by rewrite str_app_cons, IH.
Qed.

Lemma slen_drop n s : slen (str_drop n s) = slen s - n.
Proof. revert s; induction n as [|n IH]; intros [|c s]; simpl; auto. Qed.

Lemma slen_take n s : slen (str_take n s) = n `min` slen s.
Proof. revert s; induction n as [|n IH]; intros [|c s]; simpl; try done. f_equal. apply IH. Qed.

Lemma HasPrefix_spec s pre : HasPrefix s pre = true ↔ ∃ t, s = pre +:+ t.
Proof.
  unfold HasPrefix. revert s. induction pre as [|c pre IH]; intros s; simpl.
  - split; [by exists s|done].
  - destruct s as [|d s]; [split; [done|intros (t & Ht); rewrite str_app_cons in Ht; done]|].
    rewrite andb_true_iff, ceq_true, IH. split.
    + intros [-> (t & ->)]. by exists t.
    + intros (t & Ht). rewrite str_app_cons in Ht. injection Ht as -> ->. eauto.
Qed.

Lemma HasSuffix_spec s suf : HasSuffix s suf = true ↔ ∃ t, s = t +:+ suf.
Proof.
  unfold HasSuffix. rewrite andb_true_iff, bool_decide_eq_true, Nat.leb_le. split.
  - intros [Hle Hd]. exists (str_take (slen s - slen suf) s).
    rewrite <- Hd at 2. by rewrite str_take_drop.
  - intros (t & ->). rewrite slen_app. split; [lia|].
    replace (slen t + slen suf - slen suf) with (slen t) by lia. apply str_drop_app.
Qed.

Lemma TrimPrefix_app pre s : TrimPrefix (pre +:+ s) pre = s.
Proof.
  unfold TrimPrefix. rewrite (proj2 (HasPrefix_spec _ _)) by eauto. apply str_drop_app.
Qed.

Lemma TrimSuffix_app s suf : TrimSuffix (s +:+ suf) suf = s.
Proof.
  unfold TrimSuffix. rewrite (proj2 (HasSuffix_spec _ _)) by eauto. rewrite slen_app.
  replace (slen s + slen suf - slen suf) with (slen s) by lia. apply str_take_app.
Qed.

(** Index of a byte. *)
Lemma index_byte_None c s : index_byte c s = None ↔ contains_byte c s = false.
Proof. unfold contains_byte. by destruct (index_byte c s). Qed.

Lemma contains_byte_cons c d s :
  contains_byte c (String d s) = ceq c d || contains_byte c s.
Proof.
  unfold contains_byte; simpl. destruct (ceq c d); [done|]. by destruct (index_byte c s).
Qed.

Lemma contains_byte_app c s t :
  contains_byte c (s +:+ t) = contains_byte c s || contains_byte c t.
Proof.
  induction s as [|d s IH]; [done|].
  by rewrite str_app_cons, !contains_byte_cons, IH, orb_assoc.
Qed.

Lemma contains_byte_empty c : contains_byte c "" = false.
Proof. done. Qed.

#[export] Hint Rewrite contains_byte_app contains_byte_cons contains_byte_empty : gostr.

Lemma index_byte_app_fresh c s t :
  contains_byte c s = false → index_byte c (s +:+ String c t) = Some (slen s).
Proof.
  induction s as [|d s IH]; rewrite ?str_app_empty, ?str_app_cons; simpl.
  - by rewrite ceq_refl.
  - rewrite contains_byte_cons. intros [Hd Hs]%orb_false_elim. rewrite Hd.
    by rewrite (IH Hs).
Qed.

Lemma last_index_byte_None c s :
  contains_byte c s = false → last_index_byte c s = None.
Proof.
  induction s as [|d s IH]; simpl; [done|].
  rewrite contains_byte_cons. intros [Hd Hs]%orb_false_elim. by rewrite (IH Hs), Hd.
Qed.

Lemma last_index_byte_app c s t :
  contains_byte c t = false → last_index_byte c (s +:+ String c t) = Some (slen s).
Proof.
  intros Ht. induction s as [|d s IH]; rewrite ?str_app_empty, ?str_app_cons; simpl.
  - by rewrite (last_index_byte_None _ _ Ht), ceq_refl.
  - by rewrite IH.
Qed.

Lemma last_index_byte_spec c s i :
  last_index_byte c s = Some i →
  ∃ a b, s = a +:+ String c b ∧ slen a = i ∧ contains_byte c b = false.
Proof.
  revert i. induction s as [|d s IH]; intros i; simpl; [done|].
  destruct (last_index_byte c s) as [j|] eqn:Hj.
  - intros [= <-]. destruct (IH _ eq_refl) as (a & b & -> & <- & Hb).
    exists (String d a), b. by rewrite str_app_cons.
  - destruct (ceq c d) eqn:Hcd; [|done]. intros [= <-].
    apply ceq_true in Hcd as ->. exists "", s. split; [done|]. split; [done|].
    clear IH. induction s as [|e s IH]; [done|]. simpl in Hj. rewrite contains_byte_cons.
    destruct (last_index_byte d s); [done|]. destruct (ceq d e); [done|]. by apply IH.
Qed.

(** Trimming. *)
Section trim.
Context (p : ascii → bool).

Definition starts_ok (s : string) : Prop :=
  match s with "" => True | String c _ => p c = false end.

Lemma trim_left_starts s : starts_ok (trim_left_by p s).
Proof. induction s as [|c s IH]; simpl; [done|]. by destruct (p c) eqn:?. Qed.

Lemma trim_left_id s : starts_ok s → trim_left_by p s = s.
Proof. destruct s as [|c s]; simpl; [done|]. by intros ->. Qed.

Lemma trim_right_starts s : starts_ok s → starts_ok (trim_right_by p s).
Proof.
  destruct s as [|c s]; simpl; [done|]. intros Hc.
  destruct (trim_right_by p s); simpl; by rewrite ?Hc.
Qed.

Lemma trim_right_idemp s : trim_right_by p (trim_right_by p s) = trim_right_by p s.
Proof.
  induction s as [|c s IH]; simpl; [done|].
  destruct (trim_right_by p s) as [|d r] eqn:Hr.
  - destruct (p c) eqn:Hc; simpl; by rewrite ?Hc.
  - cbn [trim_right_by] in *. by rewrite IH.
Qed.

Lemma trim_by_idemp s : trim_by p (trim_by p s) = trim_by p s.
Proof.
  unfold trim_by at 1.
  rewrite (trim_left_id (trim_by p s)).
  - apply trim_right_idemp.
  - apply trim_right_starts, trim_left_starts.
Qed.

Lemma trim_by_contains c s :
  contains_byte c s = false → contains_byte c (trim_by p s) = false.
Proof.
  assert (Hl : ∀ t, contains_byte c t = false → contains_byte c (trim_left_by p t) = false).
  { induction t as [|d t IH]; simpl; [done|]. intros Ht. destruct (p d); [|done].
    rewrite contains_byte_cons in Ht. apply orb_false_elim in Ht as [_ Ht]. auto. }
  assert (Hr : ∀ t, contains_byte c t = false → contains_byte c (trim_right_by p t) = false).
  { induction t as [|d t IH]; simpl; [done|].
    rewrite contains_byte_cons. intros [Hd Ht]%orb_false_elim.
    specialize (IH Ht). destruct (trim_right_by p t).
    - destruct (p d); [done|]. by rewrite contains_byte_cons, Hd.
    - by rewrite contains_byte_cons, Hd. }
  intros. by apply Hr, Hl.
Qed.
End trim.

Lemma TrimSpace_idemp s : TrimSpace (TrimSpace s) = TrimSpace s.
Proof. apply trim_by_idemp. Qed.

Lemma TrimSpace_empty : TrimSpace "" = "".
Proof. done. Qed.

Lemma lower_byte_idemp c : lower_byte (lower_byte c) = lower_byte c.
Proof. by destruct c as [[] [] [] [] [] [] [] []]. Qed.

Lemma is_space_lower c : is_space (lower_byte c) = is_space c.
Proof. by destruct c as [[] [] [] [] [] [] [] []]. Qed.

Lemma ToLower_idemp s : ToLower (ToLower s) = ToLower s.
Proof. induction s as [|c s IH]; simpl; [done|]. by rewrite lower_byte_idemp, IH. Qed.

Lemma ToLower_empty_iff s : ToLower s = "" ↔ s = "".
Proof. by destruct s. Qed.

Lemma ToLower_app s t : ToLower (s +:+ t) = ToLower s +:+ ToLower t.
Proof. induction s as [|c s IH]; [done|]. rewrite str_app_cons. cbn. by rewrite IH. Qed.

Lemma ToLower_TrimSpace s : ToLower (TrimSpace s) = TrimSpace (ToLower s).
Proof.
  assert (Hl : ∀ t, ToLower (trim_left_by is_space t) = trim_left_by is_space (ToLower t)).
  { induction t as [|c t IH]; simpl; [done|]. rewrite is_space_lower. by destruct (is_space c). }
  assert (Hr : ∀ t, ToLower (trim_right_by is_space t) = trim_right_by is_space (ToLower t)).
  { induction t as [|c t IH]; simpl; [done|]. rewrite is_space_lower, <- IH.
    destruct (trim_right_by is_space t); simpl; [by destruct (is_space c)|done]. }
  unfold TrimSpace, trim_by. by rewrite Hr, Hl.
Qed.

Lemma norm_idemp s : norm (norm s) = norm s.
Proof.
  unfold norm. rewrite <- ToLower_TrimSpace, TrimSpace_idemp. apply ToLower_idemp.
Qed.

Lemma TrimSpace_norm s : TrimSpace (norm s) = norm s.
Proof. unfold norm. by rewrite <- ToLower_TrimSpace, TrimSpace_idemp. Qed.

Lemma ToLower_norm s : ToLower (norm s) = norm s.
Proof. apply ToLower_idemp. Qed.

Lemma EqualFold_refl s : EqualFold s s = true.
Proof. by apply bool_decide_eq_true. Qed.

#[export] Hint Rewrite TrimSpace_idemp ToLower_idemp norm_idemp TrimSpace_norm ToLower_norm : gostr.

(** Splitting and joining. *)
Lemma Split_nonempty s sep : Split s sep ≠ [].
Proof. destruct s as [|c s]; simpl; [done|]. destruct (ceq sep c); [done|]. by destruct (Split s sep). Qed.

Lemma Split_fresh s sep : contains_byte sep s = false → Split s sep = [s].
Proof.
  induction s as [|c s IH]; simpl; [done|]. rewrite contains_byte_cons.
  intros [Hc Hs]%orb_false_elim. by rewrite Hc, (IH Hs).
Qed.

Lemma Split_app s sep t :
  contains_byte sep s = false → Split (s +:+ String sep t) sep = s :: Split t sep.
Proof.
  induction s as [|c s IH]; rewrite ?str_app_empty, ?str_app_cons; simpl.
  - by rewrite ceq_refl.
  - rewrite contains_byte_cons. intros [Hc Hs]%orb_false_elim. by rewrite Hc, (IH Hs).
Qed.

Lemma Join_cons2 w v ws sep : Join (w :: v :: ws) sep = w +:+ sep +:+ Join (v :: ws) sep.
Proof. done. Qed.

Lemma Join_Split s sep : Join (Split s sep) (String sep "") = s.
Proof.
  induction s as [|c s IH]; simpl; [done|].
  pose proof (Split_nonempty s sep). destruct (Split s sep) as [|w ws]; [done|].
  destruct (ceq sep c) eqn:Hc.
  - apply ceq_true in Hc as <-.
    by rewrite Join_cons2, str_app_empty, str_app_cons, str_app_empty, IH.
  - destruct ws; rewrite ?Join_cons2, ?str_app_cons in *; cbn [Join] in *; by rewrite IH.
Qed.

Lemma Split_Join l sep :
  l ≠ [] → Forall (λ w, contains_byte sep w = false) l →
  Split (Join l (String sep "")) sep = l.
Proof.
  intros Hne Hall. induction Hall as [|w l Hw Hall IH]; [done|].
  destruct l as [|v l].
  - by apply Split_fresh.
  - cbn [Join] in *. rewrite str_app_cons, str_app_empty, Split_app by done.
    by rewrite IH.
Qed.

(** A suffix that starts at a separator: the tails of [Split]. *)
Lemma Split_drop_suffix s sep k :
  k < length (Split s sep) → 0 < k →
  ∃ t, s = t +:+ String sep (Join (drop k (Split s sep)) (String sep "")).
Proof.
  revert s. induction k as [|k IH]; intros s Hk H0; [lia|]. clear H0.
  induction s as [|c s IHs]; simpl in *; [lia|].
  destruct (ceq sep c) eqn:Hc.
  - apply ceq_true in Hc as <-. destruct k as [|k].
    + exists "". cbn [drop]. rewrite drop_0, Join_Split. done.
    + simpl in Hk. destruct (IH s) as (t & Ht); [lia..|].
      exists (String sep t). rewrite str_app_cons. f_equal. exact Ht.
  - destruct (Split s sep) as [|w ws] eqn:Hs; simpl in *; [lia|].
    destruct IHs as (t & Ht); [lia|]. exists (String c t). rewrite str_app_cons. by f_equal.
Qed.

Lemma digits_val_nonneg s : ∀ acc v, (0 ≤ acc)%Z → digits_val acc s = Some v → (0 ≤ v)%Z.
Proof.
  induction s as [|c s IH]; intros acc v Ha; simpl; [intros [= <-]; done|].
  destruct (is_digit c) eqn:Hd; [|done]. apply IH.
  unfold is_digit in Hd. apply andb_prop in Hd as [H1 H2].
  apply Nat.leb_le in H1. lia.
Qed.

Lemma contains_byte_take c n s : contains_byte c s = false → contains_byte c (str_take n s) = false.
Proof.
  revert s. induction n as [|n IH]; intros [|d s]; simpl; try done.
  rewrite !contains_byte_cons. intros [-> Hs]%orb_false_elim. by rewrite (IH s Hs).
Qed.

(** Before the first occurrence of [c] there is no [c]. *)
Lemma index_byte_take c s k : index_byte c s = Some k → contains_byte c (str_take k s) = false.
Proof.
  revert k. induction s as [|d s IH]; intros k; simpl; [done|].
  destruct (ceq c d) eqn:Hd; [by intros [= <-]|].
  destruct (index_byte c s) as [j|]; simpl; [|done]. intros [= <-].
  cbn [str_take]. by rewrite contains_byte_cons, Hd, IH.
Qed.

(** Lengths, and what trimming leaves. *)
Lemma Split_app_sep s sep t : Split (s +:+ String sep t) sep = Split s sep ++ Split t sep.
Proof.
  induction s as [|c s IH]; rewrite ?str_app_empty, ?str_app_cons; simpl.
  - by rewrite ceq_refl.
  - destruct (ceq sep c); [by rewrite IH|]. rewrite IH.
    pose proof (Split_nonempty s sep). by destruct (Split s sep).
Qed.

Lemma slen_ToLower s : slen (ToLower s) = slen s.
Proof. induction s as [|c s IH]; simpl; [done|]. unfold slen in *. simpl. by rewrite IH. Qed.

Lemma slen_cons c s : slen (String c s) = S (slen s).
Proof. done. Qed.

Lemma slen_trim_right p s : slen (trim_right_by p s) <= slen s.
Proof.
  induction s as [|c s IH]; simpl; [done|].
  destruct (trim_right_by p s); [destruct (p c)|]; rewrite ?slen_cons in *; cbn in *; lia.
Qed.

Lemma slen_trim_left p s : slen (trim_left_by p s) <= slen s.
Proof. induction s as [|c s IH]; simpl; [done|]. destruct (p c); rewrite ?slen_cons in *; lia. Qed.

Lemma slen_TrimSpace s : slen (TrimSpace s) <= slen s.
Proof.
  unfold TrimSpace, trim_by. pose proof (slen_trim_right is_space (trim_left_by is_space s)).
  pose proof (slen_trim_left is_space s). lia.
Qed.

Lemma trim_right_space p s c : p c = true → trim_right_by p (s +:+ String c "") = trim_right_by p s.
Proof.
  intros Hc. induction s as [|d s IH]; rewrite ?str_app_empty, ?str_app_cons; simpl; [by rewrite Hc|].
  by rewrite IH.
Qed.

Lemma trim_left_app_space p s c :
  p c = true →
  trim_left_by p (s +:+ String c "") = "" ∨
  trim_left_by p (s +:+ String c "") = trim_left_by p s +:+ String c "".
Proof.
  intros Hc. induction s as [|d s IH]; rewrite ?str_app_empty, ?str_app_cons; simpl; [rewrite Hc; auto|].
  destruct (p d); [done|]. right. by rewrite str_app_cons.
Qed.

Lemma TrimSpace_no_trailing s c :
  is_space c = true → TrimSpace (s +:+ String c "") ≠ s +:+ String c "".
Proof.
  intros Hc H. assert (Hlen : slen (TrimSpace (s +:+ String c "")) <= slen s).
  - unfold TrimSpace, trim_by. destruct (trim_left_app_space is_space s c Hc) as [->| ->]; [cbn; lia|].
    rewrite trim_right_space by done. pose proof (slen_trim_right is_space (trim_left_by is_space s)).
    pose proof (slen_trim_left is_space s). lia.
  - rewrite H, slen_app, slen_cons in Hlen. cbn in Hlen. lia.
Qed.

(** A byte that is not a letter is not affected by [ToLower]. *)
Definition caseless (d : ascii) : Prop := ∀ c, ceq d (lower_byte c) = ceq d c.

Lemma HasPrefix_ToLower_caseless d s pre :
  caseless d → HasPrefix (ToLower s) (String d pre) =
    match s with "" => false | String c s' => ceq d c && HasPrefix (ToLower s') pre end.
Proof. intros Hd. destruct s as [|c s]; [done|]. unfold HasPrefix. simpl. by rewrite Hd. Qed.

Lemma contains_byte_ToLower d s : caseless d → contains_byte d (ToLower s) = contains_byte d s.
Proof. intros Hd. induction s as [|c s IH]; simpl; [done|]. by rewrite !contains_byte_cons, Hd, IH. Qed.

Lemma contains_byte_TrimSpace c s : contains_byte c s = false → contains_byte c (TrimSpace s) = false.
Proof. apply trim_by_contains. Qed.

Lemma Split_no_sep s sep : Forall (λ w, contains_byte sep w = false) (Split s sep).
Proof.
  induction s as [|c s IH]; simpl; [by repeat constructor|].
  destruct (ceq sep c) eqn:Hc; [by constructor|].
  pose proof (Split_nonempty s sep). destruct (Split s sep) as [|w ws]; [done|].
  inversion IH; subst. constructor; [|done]. rewrite contains_byte_cons. by rewrite Hc.
Qed.

(** ** Decimal numbers *)

Section Itoa.
Open Scope Z_scope.

Lemma digit_char_fresh c d : is_digit c = false → ceq c (pretty_N_char d) = false.
Proof.
  intros H. apply ceq_false. intros ->. revert H. unfold pretty_N_char.
  by repeat case_match.
Qed.

Lemma pretty_N_go_fresh c x : is_digit c = false → ∀ s, contains_byte c s = false → contains_byte c (pretty_N_go x s) = false.
Proof.
  intros Hc. induction (N.lt_wf_0 x) as [x _ IH]; intros s Hs.
  destruct (decide (0 < x)%N) as [Hx|Hx].
  - rewrite pretty_N_go_step by done. apply IH; [apply N.div_lt; lia|].
    rewrite contains_byte_cons, Hs, digit_char_fresh by done. done.
  - replace x with 0%N by lia. by rewrite pretty_N_go_0.
Qed.

Lemma Itoa_fresh c n : is_digit c = false → c ≠ "-"%char → contains_byte c (Itoa n) = false.
Proof.
  intros Hc Hm.
  assert (Hp : ∀ p, contains_byte c (pretty (Npos p)) = false).
  { intros p. unfold pretty, pretty_N. case_decide; [done|]. by apply pretty_N_go_fresh. }
  destruct n as [|p|p]; [|apply Hp|].
  - change (contains_byte c "0" = false). rewrite contains_byte_cons. apply orb_false_iff. split; [|done]. apply ceq_false. intros ->. done.
  - change (contains_byte c ("-" +:+ pretty (Npos p)) = false). rewrite contains_byte_app, Hp, orb_false_r, contains_byte_cons.
    apply orb_false_iff. split; [|done]. by apply ceq_false.
Qed.

Lemma pretty_N_char_digit d : (d < 10)%N →
  is_digit (pretty_N_char d) = true ∧ Z.of_nat (byte_val (pretty_N_char d)) - 48 = Z.of_N d.
Proof.
  intros H. assert (Hd : d ∈ [0; 1; 2; 3; 4; 5; 6; 7; 8; 9]%N).
  { rewrite !elem_of_cons. lia. }
  repeat (apply elem_of_cons in Hd as [->|Hd]; [done|]). by apply not_elem_of_nil in Hd.
Qed.

Lemma digits_val_pretty x : ∀ s, digits_val 0 (pretty_N_go x s) = digits_val (Z.of_N x) s.
Proof.
  induction (N.lt_wf_0 x) as [x _ IH]; intros s. destruct (decide (0 < x)%N) as [Hx|Hx].
  - rewrite pretty_N_go_step by done. rewrite IH by (apply N.div_lt; lia). cbn [digits_val].
    destruct (pretty_N_char_digit (x mod 10)%N) as [-> Hv]; [by apply N.mod_lt|]. f_equal.
    rewrite Hv. pose proof (N.div_mod' x 10). lia.
  - replace x with 0%N by lia. by rewrite pretty_N_go_0.
Qed.

Lemma digits_val_Itoa n : 0 ≤ n → digits_val 0 (Itoa n) = Some n.
Proof.
  intros Hn. destruct n as [|p|p]; [done| |lia]. change (digits_val 0 (pretty (Npos p)) = Some (Zpos p)).
  unfold pretty, pretty_N. case_decide; [done|]. rewrite digits_val_pretty. done.
Qed.

Lemma Itoa_nonempty n : Itoa n ≠ "".
Proof.
  intros H. destruct n as [|p|p].
  - discriminate H.
  - assert (E := digits_val_Itoa (Zpos p)). rewrite H in E. discriminate E; lia.
  - change ("-" +:+ pretty (Npos p) = "") in H. discriminate H.
Qed.
End Itoa.
