(* ===== verification/GoNet.v ===== *)
(** Go's [net] and [net/netip] packages, as far as the sources use them:
    [SplitHostPort], [JoinHostPort], [ParseIP], [IP.To4], [IP.String],
    [ParseCIDR]/[IPNet.Contains] on IPv4, [IsPrivate]. *)

From S2P Require Import Prelude GoStrings.

Open Scope Z_scope.

(** * host:port *)

Definition colon : ascii := ":".
Definition lbrack : ascii := "[".
Definition rbrack : ascii := "]".
Definition dot : ascii := ".".

(** [net.SplitHostPort]; [None] for an error (callers never inspect it). *)
Definition SplitHostPort (hostport : string) : option (string * string) :=
  match last_index_byte colon hostport with
  | None => None
  | Some i =>
      let finish host j k :=
        if contains_byte lbrack (str_drop j hostport) then None
        else if contains_byte rbrack (str_drop k hostport) then None
        else Some (host, str_drop (S i) hostport) in
      if HasPrefix hostport "[" then
        match index_byte rbrack hostport with
        | None => None
        | Some e =>
            if (S e =? slen hostport)%nat then None
            else if (S e =? i)%nat then finish (str_slice 1 e hostport) 1%nat (S e)
            else None
        end
      else
        let host := str_take i hostport in
        if contains_byte colon host then None else finish host 0%nat 0%nat
  end.

(** [net.JoinHostPort]. *)
Definition JoinHostPort (host port : string) : string :=
  if contains_byte colon host then "[" +:+ host +:+ "]:" +:+ port
  else host +:+ ":" +:+ port.

(** * IP addresses

    [net.IP]: a byte slice of length 4 or 16; [nil] is the empty slice. *)
Definition IP := list Z.

(** One IPv4 field: one to three digits, no leading zero, at most 255. *)
Definition parse_octet (w : string) : option Z :=
  match w with
  | "" => None
  | String c rest =>
      if nonempty rest && ceq c "0" then None
      else match digits_val 0 w with
           | Some v => if (v <=? 255) && (slen w <=? 3)%nat then Some v else None
           | None => None
           end
  end.

(** [netip.parseIPv4]. *)
Definition parseIPv4 (s : string) : option IP :=
  match Split s dot with
  | [a; b; c; d] =>
      match parse_octet a, parse_octet b, parse_octet c, parse_octet d with
      | Some a, Some b, Some c, Some d => Some [a; b; c; d]
      | _, _, _, _ => None
      end
  | _ => None
  end.

Definition hex_digit (c : ascii) : option Z :=
  let n := Z.of_nat (byte_val c) in
  if (48 <=? n) && (n <=? 57) then Some (n - 48)
  else if (97 <=? n) && (n <=? 102) then Some (n - 87)
  else if (65 <=? n) && (n <=? 70) then Some (n - 55)
  else None.

(** The hexadecimal group at the head of [s]: number of digits, value, rest.
    [None] when it has more than four digits. *)
Fixpoint hex_group (off : nat) (acc : Z) (s : string) : option (nat * Z * string) :=
  match s with
  | "" => Some (off, acc, "")
  | String c s' =>
      match hex_digit c with
      | None => Some (off, acc, s)
      | Some d => if (3 <? off)%nat then None else hex_group (S off) (16 * acc + d) s'
      end
  end.

(** The group loop of [netip.parseIPv6].  [ip] holds the bytes written so far,
    [ell] the position of the ellipsis.  Eight groups at most are read, so the
    callers' fuel of 9 is never exhausted. *)
Fixpoint parse_groups (fuel : nat) (ip : list Z) (ell : option nat) (s : string)
    : option (list Z * option nat * string) :=
  match fuel with
  | O => Some (ip, ell, s)
  | S fuel' =>
      if (16 <=? length ip)%nat then Some (ip, ell, s) else
      match hex_group 0 0 s with
      | None => None
      | Some (off, acc, rest) =>
          if (off =? 0)%nat then None else
          match rest with
          | "" => Some (ip ++ [acc / 256; acc mod 256], ell, "")
          | String c rest' =>
              if ceq c dot then
                if bool_decide (ell = None) && negb (length ip =? 12)%nat then None
                else if (16 <? length ip + 4)%nat then None
                else match parseIPv4 s with
                     | None => None
                     | Some v4 => Some (ip ++ v4, ell, "")
                     end
              else if negb (ceq c colon) then None
              else
                let ip' := ip ++ [acc / 256; acc mod 256] in
                match rest' with
                | "" => None
                | String c2 rest2 =>
                    if ceq c2 colon then
                      match ell with
                      | Some _ => None
                      | None =>
                          if nonempty rest2 then parse_groups fuel' ip' (Some (length ip')) rest2
                          else Some (ip', Some (length ip'), "")
                      end
                    else parse_groups fuel' ip' ell rest'
                end
          end
      end
  end.

(** [netip.parseIPv6] without a zone ([net.ParseIP] rejects zones). *)
Definition parseIPv6 (s : string) : option IP :=
  let lead := HasPrefix s "::" in
  let s1 := if lead then str_drop 2 s else s in
  if lead && negb (nonempty s1) then Some (replicate 16 0) else
  match parse_groups 9 [] (if lead then Some 0%nat else None) s1 with
  | None => None
  | Some (ip, ell, rest) =>
      if nonempty rest then None
      else if (length ip <? 16)%nat then
        match ell with
        | None => None
        | Some e => Some (take e ip ++ replicate (16 - length ip) 0 ++ drop e ip)
        end
      else match ell with Some _ => None | None => Some ip end
  end.

(** [net.ParseIP] through [netip.ParseAddr]: the first '.', ':' or '%' decides
    the family.  Go returns the 16-byte form; here an IPv4 address keeps its
    four bytes, the value [To4] gives. *)
Fixpoint ip_family (s : string) : option bool :=
  match s with
  | "" => None
  | String c s' =>
      if ceq c dot then Some true
      else if ceq c colon then Some false
      else if ceq c "%" then None
      else ip_family s'
  end.

Definition ParseIP (s : string) : option IP :=
  match ip_family s with
  | Some true => parseIPv4 s
  | Some false => if contains_byte "%" s then None else parseIPv6 s
  | None => None
  end.

Definition v4in6_prefix : list Z := replicate 10 0 ++ [255; 255].

(** [ip.To4()]; [None] for nil. *)
Definition To4 (ip : IP) : option IP :=
  if (length ip =? 4)%nat then Some ip
  else if (length ip =? 16)%nat && bool_decide (take 12 ip = v4in6_prefix) then Some (drop 12 ip)
  else None.

(** ** [ip.String()] *)

Definition dotted (ip : IP) : string := Join (Itoa <$> ip) ".".

Definition hex_char (d : Z) : string :=
  String (ascii_of_nat (Z.to_nat (if d <? 10 then 48 + d else 87 + d))) "".

(** [appendHex] without leading zeros. *)
Definition hex16 (v : Z) : string :=
  let d3 := v / 4096 in let d2 := (v / 256) mod 16 in
  let d1 := (v / 16) mod 16 in let d0 := v mod 16 in
  (if 4096 <=? v then hex_char d3 else "") +:+
  (if 256 <=? v then hex_char d2 else "") +:+
  (if 16 <=? v then hex_char d1 else "") +:+ hex_char d0.

Fixpoint groups16 (bs : list Z) : list Z :=
  match bs with
  | a :: b :: bs' => (256 * a + b) :: groups16 bs'
  | _ => []
  end.

(** Length of the run of zero groups at the head. *)
Fixpoint zero_run (gs : list Z) : nat :=
  match gs with
  | g :: gs' => if g =? 0 then S (zero_run gs') else O
  | [] => O
  end.

(** The leftmost longest run of at least two zero groups: (start, length). *)
Fixpoint best_run (i : nat) (gs : list Z) (best : nat * nat) : nat * nat :=
  match gs with
  | [] => best
  | _ :: gs' =>
      let l := zero_run gs in
      best_run (S i) gs' (if (2 <=? l)%nat && (snd best <? l)%nat then (i, l) else best)
  end.

Definition v6_string (ip : IP) : string :=
  let gs := groups16 ip in
  match best_run 0 gs (0%nat, 0%nat) with
  | (_, O) => Join (hex16 <$> gs) ":"
  | (st, len) =>
      Join (hex16 <$> take st gs) ":" +:+ "::" +:+ Join (hex16 <$> drop (st + len) gs) ":"
  end.

Definition IP_String (ip : IP) : string :=
  match To4 ip with
  | Some v4 => dotted v4
  | None => if (length ip =? 16)%nat then v6_string ip else "<nil>"
  end.

(** ** IPv4 networks *)

Definition u32_of_ip (ip : IP) : Z := fold_left (λ acc b, 256 * acc + b) ip 0.

(** [_, n, err := net.ParseCIDR("a.b.c.d/p")] on IPv4, as (address, prefix). *)
Definition ParseCIDR4 (s : string) : option (Z * Z) :=
  match Split s "/" with
  | [a; p] =>
      match parseIPv4 a, digits_val 0 p with
      | Some ip, Some n =>
          if nonempty p && (n <=? 32)
          then Some (Z.shiftl (Z.shiftr (u32_of_ip ip) (32 - n)) (32 - n), n) else None
      | _, _ => None
      end
  | _ => None
  end.

(** [n.Contains(ip)] for an IPv4 network. *)
Definition net_contains (n : Z * Z) (ip : IP) : bool :=
  match To4 ip with
  | Some v4 => Z.shiftr (u32_of_ip v4) (32 - snd n) =? Z.shiftr (fst n) (32 - snd n)
  | None => false
  end.

(** [addr.IsPrivate() || addr.IsLinkLocalUnicast()] on an IPv4 address. *)
Definition v4_private (ip : IP) : bool :=
  match ip with
  | [a; b; _; _] =>
      (a =? 10) || ((a =? 172) && (Z.land b 240 =? 16)) || ((a =? 192) && (b =? 168))
      || ((a =? 169) && (b =? 254))
  | _ => false
  end.

(** * Lemmas *)

Definition plain (s : string) : Prop :=
  contains_byte lbrack s = false ∧ contains_byte rbrack s = false.

Lemma SplitHostPort_no_colon s : contains_byte colon s = false → SplitHostPort s = None.
Proof. intros H. unfold SplitHostPort. by rewrite last_index_byte_None. Qed.

Lemma str_drop_0 s : str_drop 0 s = s.
Proof. done. Qed.

Lemma str_drop_app_S s c t : str_drop (S (slen s)) (s +:+ String c t) = t.
Proof. induction s as [|d s IH]; [done|]. rewrite str_app_cons. exact IH. Qed.

(** [SplitHostPort] inverts [JoinHostPort] on a bracket-free host and a port
    without brackets or colons. *)
Lemma SplitHostPort_JoinHostPort host port :
  plain host → plain port → contains_byte colon port = false →
  SplitHostPort (JoinHostPort host port) = Some (host, port).
Proof.
  intros [Hhl Hhr] [Hpl Hpr] Hpc. unfold JoinHostPort.
  destruct (contains_byte colon host) eqn:Hc.
  - change ("[" +:+ host +:+ "]:" +:+ port)
      with (String lbrack (host +:+ String rbrack (String colon port))).
    set (hp := String lbrack _).
    assert (Hhp : hp = String lbrack (host +:+ String rbrack "") +:+ String colon port)
      by (subst hp; rewrite str_app_cons, str_app_assoc; done).
    assert (Hlen : slen (String lbrack (host +:+ String rbrack "")) = S (S (slen host)))
      by (cbn; f_equal; rewrite slen_app; cbn; lia).
    unfold SplitHostPort. rewrite Hhp, last_index_byte_app, <- Hhp by done.
    rewrite Hlen. change (HasPrefix hp "[") with true. cbv iota.
    assert (Hi : index_byte rbrack hp = Some (S (slen host))).
    { subst hp. cbn [index_byte]. change (ceq rbrack lbrack) with false. cbv iota.
      by rewrite index_byte_app_fresh. }
    assert (Hl : slen hp = S (S (S (slen host + slen port))))
      by (rewrite Hhp, slen_app, Hlen; change (slen (String colon port)) with (S (slen port)); lia).
    rewrite Hi, Hl, (proj2 (Nat.eqb_neq _ _)), Nat.eqb_refl by lia.
    assert (Hd2 : str_drop (S (S (slen host))) hp = String colon port)
      by (subst hp; cbn [str_drop]; apply str_drop_app_S).
    assert (Hd3 : str_drop (S (S (S (slen host)))) hp = port)
      by (rewrite Hhp, <- Hlen; apply str_drop_app_S).
    rewrite Hd2, Hd3. subst hp. unfold str_slice. cbn [str_drop].
    rewrite contains_byte_app, !contains_byte_cons, Hhl, Hpl, Hpr. cbn -[str_take].
    replace (slen host - 0)%nat with (slen host) by lia. by rewrite str_take_app.
  - unfold SplitHostPort. change (":" +:+ port) with (String colon port).
    rewrite last_index_byte_app by done.
    assert (Hnp : HasPrefix (host +:+ String colon port) "[" = false).
    { destruct host as [|c host]; [done|]. rewrite str_app_cons.
      rewrite contains_byte_cons in Hhl. apply orb_false_elim in Hhl as [Hhl _].
      unfold HasPrefix. cbn [is_prefix]. unfold lbrack in Hhl. by rewrite Hhl. }
    rewrite Hnp, str_take_app, Hc, !str_drop_0.
    rewrite !contains_byte_app, !contains_byte_cons, Hhl, Hhr, Hpl, Hpr.
    cbn -[str_drop]. by rewrite str_drop_app_S.
Qed.

Lemma JoinHostPort_nonempty h p : JoinHostPort h p ≠ "".
Proof. unfold JoinHostPort. destruct (contains_byte colon h); [done|]. by destruct h. Qed.

(** What [SplitHostPort] returns carries no stray bracket, and a port has no
    colon. *)
Lemma SplitHostPort_port_no_colon s h p :
  SplitHostPort s = Some (h, p) → contains_byte colon p = false.
Proof.
  unfold SplitHostPort. destruct (last_index_byte colon s) as [i|] eqn:Hi; [|done].
  apply last_index_byte_spec in Hi as (a & b & -> & <- & Hb). intros H.
  assert (p = b) as ->; [|done].
  rewrite str_drop_app_S in H. repeat case_match; naive_solver.
Qed.

Lemma SplitHostPort_no_rbrack s h p :
  SplitHostPort s = Some (h, p) → plain p.
Proof.
  unfold SplitHostPort, plain. destruct (last_index_byte colon s) as [i|] eqn:Hi; [|done].
  apply last_index_byte_spec in Hi as (a & b & -> & <- & Hb). intros H.
  assert (Hp : p = b) by (rewrite str_drop_app_S in H; repeat case_match; naive_solver).
  subst p. revert H.
  assert (Hsuf : ∀ c k, (k ≤ slen a)%nat →
    contains_byte c (str_drop k (a +:+ String colon b)) = false → contains_byte c b = false).
  { clear. intros c k. revert a. induction k as [|k IH]; intros a Hk Hc.
    - rewrite str_drop_0, contains_byte_app, contains_byte_cons in Hc.
      apply orb_false_elim in Hc as [_ Hc]. by apply orb_false_elim in Hc as [_ Hc].
    - destruct a as [|d a]; [cbn in Hk; lia|]. rewrite str_app_cons in Hc. cbn in Hc, Hk.
      apply (IH a); [|done]. unfold slen. lia. }
  assert (Hal : HasPrefix (a +:+ String colon b) "[" = true → (1 ≤ slen a)%nat).
  { destruct a as [|d a]; [|change (slen (String d a)) with (S (slen a)); lia].
    change (HasPrefix ("" +:+ String colon b) "[") with false. done. }
  destruct (HasPrefix _ "[") eqn:Hpre.
  - destruct (index_byte rbrack _) as [e|]; [|done].
    destruct (S e =? slen _)%nat; [done|].
    destruct (S e =? slen a)%nat eqn:He; [|done]. bool_prop.
    destruct (contains_byte lbrack (str_drop _ _)) eqn:Hl; [done|].
    destruct (contains_byte rbrack (str_drop _ _)) eqn:Hr; [done|]. intros _.
    split; [eapply (Hsuf _ 1%nat)|eapply (Hsuf _ (S e))]; eauto; lia.
  - cbv beta zeta. destruct (contains_byte colon (str_take _ _)); [done|].
    destruct (contains_byte lbrack (str_drop _ _)) eqn:Hl; [done|].
    destruct (contains_byte rbrack (str_drop _ _)) eqn:Hr; [done|]. intros _.
    split; eapply (Hsuf _ 0%nat); eauto; lia.
Qed.

Example ParseIP_examples :
  ParseIP "216.239.38.120" = Some [216; 239; 38; 120] ∧
  ParseIP "1.2.3.04" = None ∧ ParseIP "1.2.3" = None ∧ ParseIP "example.com" = None ∧
  ParseIP "::1" = Some (replicate 15 0 ++ [1]) ∧
  ParseIP "2606:4700::6810:84e5"
    = Some [38; 6; 71; 0; 0; 0; 0; 0; 0; 0; 0; 0; 104; 16; 132; 229] ∧
  ParseIP "::ffff:1.2.3.4" = Some (v4in6_prefix ++ [1; 2; 3; 4]) ∧
  ParseIP "1::2::3" = None ∧ ParseIP "fe80::1%eth0" = None.
Proof. vm_compute. repeat split. Qed.

Example IP_String_examples :
  IP_String [10; 0; 0; 1] = "10.0.0.1" ∧
  IP_String (v4in6_prefix ++ [1; 2; 3; 4]) = "1.2.3.4" ∧
  IP_String [38; 6; 71; 0; 0; 0; 0; 0; 0; 0; 0; 0; 104; 16; 132; 229] = "2606:4700::6810:84e5" ∧
  IP_String (replicate 15 0 ++ [1]) = "::1" ∧
  ParseCIDR4 "104.16.0.0/13" = Some (1745879040, 13) ∧
  net_contains (1745879040, 13) [104; 23; 255; 255] = true ∧
  net_contains (1745879040, 13) [104; 24; 0; 0] = false.
Proof. vm_compute. repeat split. Qed.

(** ** Addresses are bytes *)

Notation ip_bytes := (Forall (λ b : Z, 0 ≤ b < 256)).

Lemma parse_octet_range w v : parse_octet w = Some v → 0 ≤ v < 256.
Proof.
  unfold parse_octet. destruct w as [|c w]; [done|]. destruct (_ && _); [done|].
  destruct (digits_val 0 (String c w)) as [d|] eqn:E; [|done]. apply digits_val_nonneg in E; [|done].
  destruct (Z.leb_spec d 255); [|done]. destruct (slen _ <=? 3)%nat; [|done]. intros [= <-]. lia.
Qed.

Lemma parseIPv4_range s ip : parseIPv4 s = Some ip → length ip = 4%nat ∧ ip_bytes ip.
Proof.
  unfold parseIPv4. destruct (Split s dot) as [|a [|b [|c [|d [|]]]]]; try done.
  destruct (parse_octet a) eqn:Ea, (parse_octet b) eqn:Eb, (parse_octet c) eqn:Ec, (parse_octet d) eqn:Ed; try done.
  intros [= <-]. apply parse_octet_range in Ea, Eb, Ec, Ed. split; [done|]. by rewrite !list.Forall_cons.
Qed.

Lemma hex_digit_range c d : hex_digit c = Some d → 0 ≤ d < 16.
Proof. unfold hex_digit. intros H. repeat case_match; simplify_eq; lia. Qed.

Lemma hex_group_range s : ∀ off acc off' v rest,
  0 ≤ acc < 16 ^ Z.of_nat off → (off <= 4)%nat → hex_group off acc s = Some (off', v, rest) → 0 ≤ v < 65536.
Proof.
  assert (Hend : ∀ off acc, 0 ≤ acc < 16 ^ Z.of_nat off → (off <= 4)%nat → 0 ≤ acc < 65536).
  { intros off acc Ha Ho. pose proof (Z.pow_le_mono_r 16 (Z.of_nat off) 4). lia. }
  induction s as [|c s IH]; intros off acc off' v rest Ha Ho; cbn [hex_group]; [intros [= _ <- _]; eauto|].
  destruct (hex_digit c) as [d|] eqn:Ed; [|intros [= _ <- _]; eauto]. apply hex_digit_range in Ed.
  destruct (Nat.ltb_spec 3 off); [done|]. apply IH; [|lia].
  rewrite Nat2Z.inj_succ, Z.pow_succ_r by lia. lia.
Qed.

Lemma pair_bytes acc : 0 ≤ acc < 65536 → ip_bytes [acc / 256; acc mod 256].
Proof.
  intros H. rewrite !list.Forall_cons. split; [|split; [apply Z.mod_pos_bound; lia|done]].
  split; [apply Z.div_pos; lia|apply Z.div_lt_upper_bound; lia].
Qed.

Lemma parse_groups_range fuel : ∀ ip ell s ip' ell' rest,
  ip_bytes ip → Nat.Even (length ip) → (length ip <= 16)%nat → parse_groups fuel ip ell s = Some (ip', ell', rest) →
  ip_bytes ip' ∧ (length ip' <= 16)%nat.
Proof.
  induction fuel as [|fuel IH]; intros ip ell s ip' ell' rest Hb He Hl; cbn [parse_groups]; [by intros [= <- _ _]|].
  destruct (Nat.leb_spec 16 (length ip)) as [|Hlt]; [by intros [= <- _ _]|].
  destruct (hex_group 0 0 s) as [[[off acc] r]|] eqn:Eg; [|done]. apply hex_group_range in Eg; [|simpl; lia|lia].
  pose proof (pair_bytes acc Eg) as Hpair.
  assert (Hb' : ip_bytes (ip ++ [acc / 256; acc mod 256])) by by apply Forall_app.
  assert (Hl' : length (ip ++ [acc / 256; acc mod 256]) = (length ip + 2)%nat) by (rewrite length_app; simpl; lia).
  assert (He' : Nat.Even (length ip + 2)) by (destruct He as [k Hk]; exists (S k); lia).
  assert (Hle : (length ip + 2 <= 16)%nat) by (destruct He as [k Hk]; lia).
  destruct (off =? 0)%nat; [done|]. destruct r as [|c r]; [intros [= <- _ _]; rewrite Hl'; done|].
  destruct (ceq c dot).
  { destruct (_ && _); [done|]. destruct (Nat.ltb_spec 16 (length ip + 4)); [done|].
    destruct (parseIPv4 s) as [v4|] eqn:E4; [|done]. apply parseIPv4_range in E4 as [H4 Hb4]. intros [= <- _ _].
    rewrite length_app, H4. split; [by apply Forall_app|lia]. }
  destruct (negb (ceq c colon)); [done|]. destruct r as [|c2 r]; [done|]. destruct (ceq c2 colon).
  - destruct ell; [done|]. destruct (nonempty r); [|intros [= <- _ _]; rewrite Hl'; done].
    apply IH; rewrite ?Hl'; done.
  - apply IH; rewrite ?Hl'; done.
Qed.

Lemma parseIPv6_range s ip : parseIPv6 s = Some ip → length ip = 16%nat ∧ ip_bytes ip.
Proof.
  unfold parseIPv6. set (s1 := if HasPrefix s "::" then _ else s).
  assert (H0 : ∀ n, ip_bytes (replicate n 0)) by (intros n; apply Forall_replicate; lia).
  destruct (_ && _); [intros [= <-]; split; [done|apply (H0 16%nat)]|].
  destruct (parse_groups 9 [] _ s1) as [[[l ell] rest]|] eqn:E; [|done].
  apply parse_groups_range in E as [Hb Hl]; [|constructor|by exists 0%nat|simpl; lia].
  destruct (nonempty rest); [done|]. destruct (Nat.ltb_spec (length l) 16).
  - destruct ell as [k|]; [|done]. intros [= <-]. split.
    + rewrite !length_app, length_replicate, length_take, length_drop. lia.
    + apply Forall_app. split; [by apply Forall_take|]. apply Forall_app. split; [apply H0|by apply Forall_drop].
  - destruct ell; [done|]. intros [= <-]. split; [lia|done].
Qed.

Lemma ParseIP_range s ip : ParseIP s = Some ip → (length ip = 4%nat ∨ length ip = 16%nat) ∧ ip_bytes ip.
Proof.
  unfold ParseIP. destruct (ip_family s) as [[]|]; [| |done].
  - intros [? ?]%parseIPv4_range. split; [by left|done].
  - destruct (contains_byte _ _); [done|]. intros [? ?]%parseIPv6_range. split; [by right|done].
Qed.
