(* ===== verification/GoBytes.v ===== *)
(** Byte slices of Go, with bounds-checked indexing and slicing, and
    [encoding/binary]'s big-endian 16-bit accessors. *)

From Stdlib Require Import Strings.Byte.
From S2P Require Import Prelude.

Open Scope Z_scope.

Definition bval (b : byte) : Z := Z.of_N (Byte.to_N b).

Definition byte_of (z : Z) : byte :=
  match Byte.of_N (Z.to_N (z mod 256)) with Some b => b | None => x00 end.

Definition blen (data : list byte) : Z := Z.of_nat (length data).

(** [data[i]]. *)
Definition byte_at (data : list byte) (i : Z) : outcome byte :=
  if (0 <=? i) then of_option (data !! Z.to_nat i) else Panic.

(** [data[i:j]] (the capacity of the slices here is their length). *)
Definition slice (data : list byte) (i j : Z) : outcome (list byte) :=
  if (0 <=? i) && (i <=? j) && (j <=? blen data)
  then Ok (take (Z.to_nat (j - i)) (drop (Z.to_nat i) data)) else Panic.

(** [binary.BigEndian.Uint16]. *)
Definition be16 (hi lo : byte) : Z := Z.lor (Z.shiftl (bval hi) 8) (bval lo).

(** [binary.BigEndian.Uint16(data[i:i+2])]. *)
Definition u16_at (data : list byte) (i : Z) : outcome Z :=
  obind (byte_at data i) (λ hi, obind (byte_at data (i + 1)) (λ lo, Ok (be16 hi lo))).

(** [binary.BigEndian.PutUint16(_, uint16(n))]: [uint16] wraps. *)
Definition put16 (n : Z) : list byte :=
  let n := n mod 65536 in [byte_of (Z.shiftr n 8); byte_of n].

#[export] Instance byte_eq_dec : EqDecision byte := Byte.byte_eq_dec.

(** * Lemmas *)

Lemma bval_range b : 0 <= bval b < 256.
Proof.
  unfold bval. pose proof (Byte.to_N_bounded b). lia.
Qed.

Lemma bval_byte_of z : bval (byte_of z) = z mod 256.
Proof.
  unfold byte_of. pose proof (Z.mod_pos_bound z 256 eq_refl) as Hb.
  destruct (Byte.of_N (Z.to_N (z mod 256))) as [b|] eqn:Hz.
  - unfold bval. apply Byte.to_of_N in Hz. rewrite Hz. lia.
  - apply Byte.of_N_None_iff in Hz. lia.
Qed.

(** Or-ing a byte below a shifted value adds it. *)
Lemma byte_of_bval b : byte_of (bval b) = b.
Proof.
  unfold byte_of, bval. pose proof (bval_range b). unfold bval in *.
  rewrite Z.mod_small, N2Z.id by lia. by rewrite Byte.of_to_N.
Qed.

Lemma lor_shift8 x c : 0 <= c < 256 → Z.lor (Z.shiftl x 8) c = 256 * x + c.
Proof.
  intros Hc. rewrite Z.shiftl_mul_pow2 by lia. change (2 ^ 8) with 256.
  pose proof (Z.add_lor_land (x * 256) c) as Hal.
  enough (Z.land (x * 256) c = 0) by lia. change 256 with (2 ^ 8).
  apply Z.bits_inj'. intros n Hn. rewrite Z.land_spec, Z.bits_0.
  destruct (Z.ltb_spec n 8).
  - rewrite Z.mul_pow2_bits_low by lia. done.
  - rewrite andb_comm, (Z.bits_above_log2 c); [done|lia|].
    destruct (Z.eq_dec c 0) as [->|]; [change (Z.log2 0) with 0; lia|].
    apply Z.log2_lt_pow2; [lia|]. apply Z.lt_le_trans with (2 ^ 8); [cbn; lia|].
    apply Z.pow_le_mono_r; lia.
Qed.

Lemma be16_val hi lo : be16 hi lo = 256 * bval hi + bval lo.
Proof. apply lor_shift8, bval_range. Qed.

(** The three-byte big-endian length of a handshake message. *)
Definition put24 (n : Z) : list byte :=
  [byte_of (Z.shiftr n 16); byte_of (Z.shiftr n 8); byte_of n].

Lemma be24_put24 n : 0 <= n < 2 ^ 24 →
  Z.lor (Z.lor (Z.shiftl (bval (byte_of (Z.shiftr n 16))) 16)
               (Z.shiftl (bval (byte_of (Z.shiftr n 8))) 8)) (bval (byte_of n)) = n.
Proof.
  intros Hn. change 16 with (8 + 8) at 2. rewrite <- Z.shiftl_shiftl, <- Z.shiftl_lor by lia.
  rewrite lor_shift8 by apply bval_range. rewrite lor_shift8 by apply bval_range.
  rewrite !bval_byte_of, !Z.shiftr_div_pow2 by lia.
  change (2 ^ 16) with (256 * 256). change (2 ^ 8) with 256.
  rewrite <- Z.div_div by lia.
  rewrite (Z.mod_small (n / 256 / 256)).
  - pose proof (Z.div_mod n 256). pose proof (Z.div_mod (n / 256) 256). lia.
  - split; [apply Z.div_pos; [apply Z.div_pos|]; lia|].
    apply Z.div_lt_upper_bound; [lia|]. apply Z.div_lt_upper_bound; lia.
Qed.

Lemma be16_range hi lo : 0 <= be16 hi lo < 65536.
Proof. rewrite be16_val. pose proof (bval_range hi). pose proof (bval_range lo). lia. Qed.

Lemma be16_put16 n : 0 <= n < 65536 → ∃ hi lo, put16 n = [hi; lo] ∧ be16 hi lo = n.
Proof.
  intros Hn. unfold put16. rewrite (Z.mod_small n) by lia. do 2 eexists. split; [reflexivity|].
  rewrite be16_val, !bval_byte_of, Z.shiftr_div_pow2 by lia.
  change (2 ^ 8) with 256. rewrite (Z.mod_small (n / 256)).
  - pose proof (Z.div_mod n 256). lia.
  - split; [apply Z.div_pos; lia|]. apply Z.div_lt_upper_bound; lia.
Qed.

Lemma length_put16 n : length (put16 n) = 2%nat.
Proof. done. Qed.

Lemma blen_nonneg data : 0 <= blen data.
Proof. unfold blen. lia. Qed.

Lemma blen_app a b : blen (a ++ b) = blen a + blen b.
Proof. unfold blen. rewrite length_app. lia. Qed.

Lemma byte_at_ok data i : 0 <= i < blen data → ∃ b, byte_at data i = Ok b.
Proof.
  unfold byte_at, blen. intros Hi. rewrite (proj2 (Z.leb_le 0 i)) by lia.
  destruct (lookup_lt_is_Some_2 data (Z.to_nat i)) as [b ->]; [lia|]. by exists b.
Qed.

Lemma byte_at_Ok_inv data i b : byte_at data i = Ok b → 0 <= i < blen data ∧ data !! Z.to_nat i = Some b.
Proof.
  unfold byte_at, blen. destruct (Z.leb_spec 0 i); [|done].
  destruct (data !! Z.to_nat i) as [c|] eqn:Hl; [|done]. intros [= ->].
  pose proof (lookup_lt_Some _ _ _ Hl). split; [lia|done].
Qed.

Lemma byte_at_app_r a b i : blen a <= i → byte_at (a ++ b) i = byte_at b (i - blen a).
Proof.
  unfold byte_at, blen. intros Hi.
  rewrite (proj2 (Z.leb_le 0 i)), (proj2 (Z.leb_le 0 (i - _))) by lia.
  rewrite lookup_app_r by lia. do 2 f_equal. lia.
Qed.

Lemma byte_at_cons_0 x l : byte_at (x :: l) 0 = Ok x.
Proof. done. Qed.

Lemma byte_at_cons_S x l i : 0 < i → byte_at (x :: l) i = byte_at l (i - 1).
Proof.
  intros Hi. change (x :: l) with ([x] ++ l).
  rewrite byte_at_app_r by (change (blen [x]) with 1; lia). done.
Qed.

Lemma u16_at_ok data i : 0 <= i → i + 2 <= blen data → ∃ v, u16_at data i = Ok v ∧ 0 <= v < 65536.
Proof.
  intros H0 Hi. unfold u16_at.
  destruct (byte_at_ok data i) as [hi ->]; [lia|].
  destruct (byte_at_ok data (i + 1)) as [lo ->]; [lia|].
  eexists. split; [done|]. apply be16_range.
Qed.

Lemma u16_at_range data i v : u16_at data i = Ok v → 0 <= v < 65536.
Proof. unfold u16_at. intros H. ok_inv. apply be16_range. Qed.

Lemma u16_at_app_r a b i : blen a <= i → u16_at (a ++ b) i = u16_at b (i - blen a).
Proof.
  intros Hi. unfold u16_at. rewrite !byte_at_app_r by lia.
  by replace (i + 1 - blen a) with (i - blen a + 1) by lia.
Qed.

Lemma slice_ok data i j : 0 <= i <= j → j <= blen data → ∃ s, slice data i j = Ok s.
Proof.
  intros Hi Hj. unfold slice.
  rewrite (proj2 (Z.leb_le 0 i)), (proj2 (Z.leb_le i j)), (proj2 (Z.leb_le j _)) by lia. eauto.
Qed.
