(* ===== verification/Types.v ===== *)
(** The data types of [proxy/proxy.go], [proxy/cert_verify.go] and
    [proxy/auto_routing.go] that several components share.  A field keeps the
    source's name behind a prefix that tells the struct. *)

From S2P Require Import Prelude GoStrings.

(** cert_verify.go: CertVerifyConfig. *)
Record CertVerifyConfig := mkCertVerifyConfig {
  cv_Mode : string;
  cv_Names : list string;
  cv_Suffixes : list string;
  cv_SPKISHA256 : list string;
  cv_AllowUnknownAuthority : bool;
}.

Definition CertVerify_zero : CertVerifyConfig := mkCertVerifyConfig "" [] [] [] false.

(** cert_verify.go: [CertVerifyConfig.IsZero]. *)
Definition IsZero (c : CertVerifyConfig) : bool :=
  bool_decide (TrimSpace (cv_Mode c) = "")
  && (length (cv_Names c) =? 0)
  && (length (cv_Suffixes c) =? 0)
  && (length (cv_SPKISHA256 c) =? 0)
  && negb (cv_AllowUnknownAuthority c).

(** proxy.go: Rule. *)
Record Rule := mkRule {
  r_Domain : string;
  r_Upstream : string;
  r_Upstreams : list string;
  r_DNSMode : string;
  r_Mode : string;
  r_SniFake : string;
  r_ConnectPolicy : string;
  r_SniPolicy : string;
  r_Enabled : bool;
  r_SiteID : string;
  r_ECHEnabled : bool;
  r_ECHProfileID : string;
  r_UseCFPool : bool;
  r_ECHDiscoveryDomain : string;
  r_ECHDoHUpstream : string;
  r_ECHAutoUpdate : bool;
  r_CertVerify : CertVerifyConfig;
  r_AutoRouted : bool;
  r_FallbackMode : string;
}.

(** [Rule{}]. *)
Definition Rule_zero : Rule :=
  mkRule "" "" [] "" "" "" "" "" false "" false "" false "" "" false CertVerify_zero false "".

(** [Rule{Mode: m, Enabled: true, AutoRouted: a}]. *)
Definition Rule_mode (m : string) (a : bool) : Rule :=
  mkRule "" "" [] "" m "" "" "" true "" false "" false "" "" false CertVerify_zero a "".

(** [rule.Mode = m]. *)
Definition set_Mode (r : Rule) (m : string) : Rule :=
  mkRule (r_Domain r) (r_Upstream r) (r_Upstreams r) (r_DNSMode r) m (r_SniFake r)
    (r_ConnectPolicy r) (r_SniPolicy r) (r_Enabled r) (r_SiteID r) (r_ECHEnabled r)
    (r_ECHProfileID r) (r_UseCFPool r) (r_ECHDiscoveryDomain r) (r_ECHDoHUpstream r)
    (r_ECHAutoUpdate r) (r_CertVerify r) (r_AutoRouted r) (r_FallbackMode r).

(** [rule.FallbackMode = f]. *)
Definition set_FallbackMode (r : Rule) (f : string) : Rule :=
  mkRule (r_Domain r) (r_Upstream r) (r_Upstreams r) (r_DNSMode r) (r_Mode r) (r_SniFake r)
    (r_ConnectPolicy r) (r_SniPolicy r) (r_Enabled r) (r_SiteID r) (r_ECHEnabled r)
    (r_ECHProfileID r) (r_UseCFPool r) (r_ECHDiscoveryDomain r) (r_ECHDoHUpstream r)
    (r_ECHAutoUpdate r) (r_CertVerify r) (r_AutoRouted r) f.

(** proxy.go: mergeRule. *)
Definition mergeRule (base overlay : Rule) : Rule :=
  let pick f := if nonempty (TrimSpace (f overlay)) then f overlay else f base in
  mkRule (r_Domain base)
    (pick r_Upstream)
    (if (0 <? length (r_Upstreams overlay)) then r_Upstreams overlay else r_Upstreams base)
    (pick r_DNSMode) (r_Mode base) (pick r_SniFake) (pick r_ConnectPolicy) (pick r_SniPolicy)
    (r_Enabled base) (r_SiteID base) (r_ECHEnabled base) (r_ECHProfileID base)
    (r_UseCFPool base) (r_ECHDiscoveryDomain base) (r_ECHDoHUpstream base)
    (r_ECHAutoUpdate base)
    (if negb (IsZero (r_CertVerify overlay)) then r_CertVerify overlay else r_CertVerify base)
    (r_AutoRouted base) (r_FallbackMode base).

(** proxy.go: SiteGroup. *)
Record SiteGroup := mkSiteGroup {
  sg_ID : string;
  sg_Name : string;
  sg_Website : string;
  sg_Domains : list string;
  sg_Mode : string;
  sg_Upstream : string;
  sg_Upstreams : list string;
  sg_DNSMode : string;
  sg_SniFake : string;
  sg_ConnectPolicy : string;
  sg_SniPolicy : string;
  sg_Enabled : bool;
  sg_ECHEnabled : bool;
  sg_ECHProfileID : string;
  sg_ECHDomain : string;
  sg_UseCFPool : bool;
  sg_CertVerify : CertVerifyConfig;
}.

(** The same site group with [ID], [Website] or the ECH reference replaced. *)
Definition set_sgID (sg : SiteGroup) (id : string) : SiteGroup :=
  mkSiteGroup id (sg_Name sg) (sg_Website sg) (sg_Domains sg) (sg_Mode sg) (sg_Upstream sg)
    (sg_Upstreams sg) (sg_DNSMode sg) (sg_SniFake sg) (sg_ConnectPolicy sg) (sg_SniPolicy sg)
    (sg_Enabled sg) (sg_ECHEnabled sg) (sg_ECHProfileID sg) (sg_ECHDomain sg)
    (sg_UseCFPool sg) (sg_CertVerify sg).

Definition set_sgWebsite (sg : SiteGroup) (w : string) : SiteGroup :=
  mkSiteGroup (sg_ID sg) (sg_Name sg) w (sg_Domains sg) (sg_Mode sg) (sg_Upstream sg)
    (sg_Upstreams sg) (sg_DNSMode sg) (sg_SniFake sg) (sg_ConnectPolicy sg) (sg_SniPolicy sg)
    (sg_Enabled sg) (sg_ECHEnabled sg) (sg_ECHProfileID sg) (sg_ECHDomain sg)
    (sg_UseCFPool sg) (sg_CertVerify sg).

Definition set_sgECH (sg : SiteGroup) (profile domain : string) : SiteGroup :=
  mkSiteGroup (sg_ID sg) (sg_Name sg) (sg_Website sg) (sg_Domains sg) (sg_Mode sg)
    (sg_Upstream sg) (sg_Upstreams sg) (sg_DNSMode sg) (sg_SniFake sg) (sg_ConnectPolicy sg)
    (sg_SniPolicy sg) (sg_Enabled sg) (sg_ECHEnabled sg) profile domain
    (sg_UseCFPool sg) (sg_CertVerify sg).

Definition set_sgDNSMode (sg : SiteGroup) (m : string) : SiteGroup :=
  mkSiteGroup (sg_ID sg) (sg_Name sg) (sg_Website sg) (sg_Domains sg) (sg_Mode sg)
    (sg_Upstream sg) (sg_Upstreams sg) m (sg_SniFake sg) (sg_ConnectPolicy sg)
    (sg_SniPolicy sg) (sg_Enabled sg) (sg_ECHEnabled sg) (sg_ECHProfileID sg) (sg_ECHDomain sg)
    (sg_UseCFPool sg) (sg_CertVerify sg).

(** proxy.go: Upstream. *)
Record Upstream := mkUpstream {
  up_ID : string;
  up_Name : string;
  up_Address : string;
  up_Enabled : bool;
}.

(** proxy.go: ECHProfile. *)
Record ECHProfile := mkECHProfile {
  ep_ID : string;
  ep_Name : string;
  ep_Config : string;
  ep_DiscoveryDomain : string;
  ep_DoHUpstream : string;
  ep_AutoUpdate : bool;
}.

Definition ECHProfile_zero : ECHProfile := mkECHProfile "" "" "" "" "" false.

(** proxy.go: DNSNode. *)
Record DNSNode := mkDNSNode {
  dn_ID : string;
  dn_Name : string;
  dn_URL : string;
  dn_SNI : string;
  dn_IPs : list string;
  dn_ECHEnabled : bool;
  dn_ECHProfileID : string;
  dn_ECHAutoUpdate : bool;
  dn_QUIC : bool;
  dn_CertVerify : CertVerifyConfig;
  dn_Enabled : bool;
}.

(** proxy.go: CloudflareConfig, TUNConfig. *)
Record CloudflareConfig := mkCloudflareConfig {
  cf_PreferredIPs : list string;
  cf_AutoUpdate : bool;
  cf_APIKey : string;
}.

Record TUNConfig := mkTUNConfig {
  tun_Enabled : bool;
  tun_MTU : Z;
  tun_DNSHijack : bool;
  tun_AutoRoute : bool;
  tun_StrictRoute : bool;
}.

(** auto_routing.go: AutoRoutingMode is a string; AutoRoutingConfig. *)
Definition AutoRoutingOff : string := "".
Definition AutoRoutingDefault : string := "default".
Definition AutoRoutingServerFallback : string := "server".
Definition AutoRoutingGAS : string := "gas".
Definition AutoRoutingV2Ray : string := "v2ray".

Record AutoRoutingConfig := mkAutoRoutingConfig {
  ar_Mode : string;
  ar_GFWListURL : string;
  ar_LastUpdate : string;
}.

#[export] Instance CertVerifyConfig_eq_dec : EqDecision CertVerifyConfig.
Proof. solve_decision. Defined.
#[export] Instance Rule_eq_dec : EqDecision Rule.
Proof. solve_decision. Defined.
#[export] Instance SiteGroup_eq_dec : EqDecision SiteGroup.
Proof. solve_decision. Defined.
#[export] Instance DNSNode_eq_dec : EqDecision DNSNode.
Proof. solve_decision. Defined.
#[export] Instance ECHProfile_eq_dec : EqDecision ECHProfile.
Proof. solve_decision. Defined.
#[export] Instance Upstream_eq_dec : EqDecision Upstream.
Proof. solve_decision. Defined.
