(* ===== verification/Hosts.v ===== *)
(** Host names, addresses and domain patterns: the pure helpers of
    [proxy/proxy.go] between [normalizeHost] and [chooseUpstreamSNI]. *)

From S2P Require Import Prelude GoStrings GoNet Types.

Open Scope nat_scope.

(** * Host names *)

Definition normalizeHost (hostport : string) : string :=
  let hostport := TrimSpace hostport in
  if negb (nonempty hostport) then ""
  else match SplitHostPort hostport with
       | Some (host, _) => norm host
       | None =>
           if HasPrefix hostport "[" && HasSuffix hostport "]"
           then ToLower (TrimSuffix (TrimPrefix hostport "[") "]")
           else ToLower hostport
       end.

Definition cleanWebsiteToken (token : string) : string :=
  let token := normalizeHost token in
  let token := TrimPrefix token "*." in
  let token := TrimSuffix token "$" in
  let token := Trim token "[]" in
  match index_byte colon token with
  | Some i => str_take i token
  | None => token
  end.

Definition tokenMatchesDomain (token domain : string) : bool :=
  let token := cleanWebsiteToken token in
  let domain := cleanWebsiteToken domain in
  if negb (nonempty token) || negb (nonempty domain) then false
  else bool_decide (token = domain) || HasSuffix token ("." +:+ domain).

(** The [switch] of [inferWebsiteFromSiteGroup], case by case in its order. *)
Definition website_table : list (list string * string) := [
  (["google.com"; "youtube.com"; "gstatic.com"; "googlevideo.com"; "gvt1.com"; "ytimg.com";
    "youtu.be"; "ggpht.com"], "google");
  (["github.com"; "githubusercontent.com"; "githubassets.com"; "github.io"], "github");
  (["telegram.org"; "web.telegram.org"; "cdn-telegram.org"; "t.me"; "telesco.pe"; "tg.dev";
    "telegram.me"], "telegram");
  (["proton.me"], "proton");
  (["pixiv.net"; "fanbox.cc"; "pximg.net"; "pixiv.org"], "pixiv");
  (["nyaa.si"], "nyaa");
  (["wikipedia.org"; "wikimedia.org"; "mediawiki.org"; "wikibooks.org"; "wikidata.org";
    "wikifunctions.org"; "wikinews.org"; "wikiquote.org"; "wikisource.org"; "wikiversity.org";
    "wikivoyage.org"; "wiktionary.org"], "wikipedia");
  (["e-hentai.org"; "exhentai.org"; "ehgt.org"; "hentaiverse.org"; "ehwiki.org";
    "ehtracker.org"], "ehentai");
  (["facebook.com"; "fbcdn.net"; "instagram.com"; "cdninstagram.com"; "instagr.am"; "ig.me";
    "whatsapp.com"; "whatsapp.net"], "meta");
  (["twitter.com"; "x.com"; "t.co"; "twimg.com"], "x");
  (["steamcommunity.com"; "steampowered.com"], "steam");
  (["mega.nz"; "mega.io"; "mega.co.nz"], "mega");
  (["dailymotion.com"], "dailymotion");
  (["duckduckgo.com"], "duckduckgo");
  (["reddit.com"; "redd.it"; "redditmedia.com"; "redditstatic.com"], "reddit");
  (["twitch.tv"], "twitch");
  (["bbc.com"; "bbc.co.uk"; "bbci.co.uk"], "bbc")
].

(** The fallback loops: the last label but one of the first usable token. *)
Fixpoint first_label (tokens : list string) : option string :=
  match tokens with
  | [] => None
  | t :: rest =>
      let d := cleanWebsiteToken t in
      if negb (nonempty d) || bool_decide (d = "off") then first_label rest
      else
        let parts := Split d dot in
        if 2 <=? length parts then parts !! (length parts - 2) else Some d
  end.

Definition inferWebsiteFromSiteGroup (sg : SiteGroup) : string :=
  let tokens := [sg_Name sg; sg_Upstream sg; sg_SniFake sg] ++ sg_Domains sg in
  let hasDomain ds := existsb (λ t, existsb (tokenMatchesDomain t) ds) tokens in
  match List.find (λ row, hasDomain (fst row)) website_table with
  | Some (_, w) => w
  | None =>
      match first_label (sg_Domains sg) with
      | Some w => w
      | None => match first_label tokens with Some w => w | None => "misc" end
      end
  end.

(** * Addresses *)

Definition ensureAddrWithPort (addr defaultPort : string) : string :=
  let addr := TrimSpace addr in
  if negb (nonempty addr) then ""
  else match SplitHostPort addr with
       | Some (host, port) =>
           JoinHostPort host (if nonempty port then port else defaultPort)
       | None =>
           if HasPrefix addr "[" && HasSuffix addr "]"
           then JoinHostPort (TrimSuffix (TrimPrefix addr "[") "]") defaultPort
           else JoinHostPort addr defaultPort
       end.

Definition resolveUpstreamHost (targetHost upstream : string) : string :=
  let upstream := TrimSpace upstream in
  if negb (nonempty upstream) then ""
  else if Contains upstream "$1" then
    let firstLabel :=
      match index_byte dot targetHost with
      | Some (S i) => str_take (S i) targetHost
      | _ => targetHost
      end in
    ReplaceAll upstream "$1" firstLabel
  else upstream.

Definition resolveRuleUpstream (targetHost : string) (rule : Rule) : string :=
  let resolved := resolveUpstreamHost targetHost (r_Upstream rule) in
  let trimmed := TrimSpace resolved in
  if negb (nonempty trimmed) && (0 <? length (r_Upstreams rule)) then Join (r_Upstreams rule) ","
  else
    let low := ToLower trimmed in
    if HasPrefix low "$backend_ip" || HasPrefix low "$upstream_host" || HasPrefix trimmed "$" then
      if 0 <? length (r_Upstreams rule) then Join (r_Upstreams rule) ","
      else JoinHostPort targetHost "443"
    else resolved.

Definition splitUpstreamCandidates (targetHost upstream defaultPort : string) : list string :=
  let resolved := resolveUpstreamHost targetHost upstream in
  if negb (nonempty resolved) then []
  else dedup (List.filter nonempty
         ((λ p, ensureAddrWithPort (TrimSpace p) defaultPort) <$> Split resolved ",")).

Definition firstUpstreamHost (targetHost upstream : string) : string :=
  match splitUpstreamCandidates targetHost upstream "443" with
  | [] => ""
  | c :: _ =>
      match SplitHostPort c with
      | None => normalizeHost c
      | Some (host, _) => normalizeHost host
      end
  end.

Definition isLiteralIP (host : string) : bool :=
  match ParseIP (Trim host "[]") with Some _ => true | None => false end.

(** * Domain patterns *)

(** The nested loops over [hostParts] and [baseParts]: a window of the host's
    labels, not reaching its last label, equal to the base's labels. *)
Definition label_window (hostParts baseParts : list string) : bool :=
  existsb (λ i,
    forallb (λ j, bool_decide (hostParts !! (i + j) = baseParts !! j))
      (seq 0 (length baseParts)))
    (seq 0 (length hostParts - length baseParts)).

Definition hostMatchesDomain (host domain : string) : bool :=
  let host := norm host in
  let domain := norm domain in
  if negb (nonempty host) || negb (nonempty domain) then false
  else
    let domain := TrimPrefix domain "*." in
    let domain := TrimSuffix domain "$" in
    if HasSuffix domain ".*" then
      let base := TrimSuffix domain ".*" in
      if negb (nonempty base) then false
      else
        let hostParts := Split host dot in
        let baseParts := Split base dot in
        if length hostParts <? length baseParts + 1 then false
        else label_window hostParts baseParts
    else bool_decide (host = domain) || HasSuffix host ("." +:+ domain).

Section score.
(** [regexp.Compile(pattern)] and [MatchString(host)]: [None] when the
    pattern does not compile. *)
Context (regex_match : string → string → option bool).

Definition domainMatchScore (host domain : string) : Z :=
  let host := norm host in
  let domain := norm domain in
  if negb (nonempty host) || negb (nonempty domain) then (-1)%Z
  else if HasPrefix domain "~" then
    let pattern := TrimSpace (TrimPrefix domain "~") in
    if negb (nonempty pattern) then (-1)%Z
    else match regex_match pattern host with
         | Some true => (900 + Z.of_nat (slen pattern))%Z
         | _ => (-1)%Z
         end
  else
    let domain := TrimPrefix domain "*." in
    let domain := TrimSuffix domain "$" in
    if HasSuffix domain ".*" then
      let base := TrimSuffix domain ".*" in
      if negb (nonempty base) then (-1)%Z
      else
        let hostParts := Split host dot in
        let baseParts := Split base dot in
        if length hostParts <? length baseParts + 1 then (-1)%Z
        else if label_window hostParts baseParts then Z.of_nat (slen base) else (-1)%Z
    else if bool_decide (domain = "*") then 1%Z
    else if bool_decide (host = domain) then (Z.of_nat (slen domain) + 1000)%Z
    else if HasSuffix host ("." +:+ domain) then Z.of_nat (slen domain)
    else (-1)%Z.
End score.

(** * DNS modes and candidate lists *)

Definition normalizeDNSMode (mode : string) : string :=
  let m := norm mode in
  if bool_decide (m ∈ ["prefer_ipv4"; "prefer_ipv6"; "ipv4_only"; "ipv6_only"]) then m else "".

Definition is_v4 (ip : IP) : bool := match To4 ip with Some _ => true | None => false end.
Definition is_nil_ip (ip : IP) : bool := match ip with [] => true | _ => false end.

Definition reorderIPsByDNSMode (ips : list IP) (mode : string) : list IP :=
  let mode := normalizeDNSMode mode in
  if negb (nonempty mode) then ips
  else
    let live := List.filter (λ ip, negb (is_nil_ip ip)) ips in
    let v4s := List.filter is_v4 live in
    let v6s := List.filter (λ ip, negb (is_v4 ip)) live in
    if bool_decide (mode = "prefer_ipv4") then v4s ++ v6s
    else if bool_decide (mode = "prefer_ipv6") then v6s ++ v4s
    else if bool_decide (mode = "ipv4_only") then v4s
    else if bool_decide (mode = "ipv6_only") then v6s
    else ips.

Definition dedupeDialCandidates (candidates : list string) : list string :=
  dedup (List.filter nonempty (TrimSpace <$> candidates)).

(** * The server name offered upstream *)

Definition chooseUpstreamSNI (targetHost : string) (rule : Rule) : string :=
  let targetHost := normalizeHost targetHost in
  let tok := Trim targetHost "[]" in
  let tok := ReplaceAll tok "." "-" in
  let tok := ReplaceAll tok ":" "-" in
  let tok := TrimSpace tok in
  let hostAsToken := if nonempty tok then tok else "g-cn" in
  let resolvedUpstream := resolveRuleUpstream targetHost rule in
  let policy := norm (r_SniPolicy rule) in
  if bool_decide (policy = "none") then ""
  else if bool_decide (policy = "original") then targetHost
  else if bool_decide (policy = "fake") then
    if nonempty (TrimSpace (r_SniFake rule)) then r_SniFake rule else hostAsToken
  else if bool_decide (policy = "upstream") then
    let upstreamHost := firstUpstreamHost targetHost resolvedUpstream in
    if nonempty upstreamHost && negb (isLiteralIP upstreamHost) then upstreamHost else targetHost
  else if nonempty (TrimSpace (r_SniFake rule)) then r_SniFake rule
  else if nonempty resolvedUpstream then
    let upstreamHost := firstUpstreamHost targetHost resolvedUpstream in
    if nonempty upstreamHost && negb (isLiteralIP upstreamHost)
       && negb (bool_decide (upstreamHost = targetHost))
    then upstreamHost else targetHost
  else targetHost.

(** * Lemmas *)

Lemma nonempty_true s : nonempty s = true ↔ s ≠ "".
Proof. unfold nonempty. rewrite negb_true_iff. apply bool_decide_eq_false. Qed.

Lemma nonempty_false s : nonempty s = false ↔ s = "".
Proof. unfold nonempty. rewrite negb_false_iff. apply bool_decide_eq_true. Qed.

Lemma label_window_spec h b :
  label_window h b = true ↔
  ∃ i, i + length b < length h ∧ take (length b) (drop i h) = b.
Proof.
  unfold label_window. rewrite existsb_exists. split.
  - intros (i & Hi & Hall). apply in_seq in Hi. exists i. split; [lia|].
    rewrite forallb_forall in Hall. apply list_eq. intros j.
    destruct (decide (j < length b)) as [Hj|Hj].
    + rewrite lookup_take_lt by done. rewrite lookup_drop.
      specialize (Hall j). rewrite bool_decide_eq_true in Hall. apply Hall, in_seq. lia.
    + rewrite !lookup_ge_None_2; [done|lia|rewrite length_take; lia].
  - intros (i & Hlt & Heq). exists i. split; [apply in_seq; lia|].
    apply forallb_forall. intros j Hj. apply in_seq in Hj.
    apply bool_decide_eq_true.
    assert (Hb : b !! j = take (length b) (drop i h) !! j) by (by rewrite Heq).
    by rewrite Hb, lookup_take_lt, lookup_drop by lia.
Qed.

Lemma slen_Join l : slen (Join l ".") = sum_list_with slen l + (length l - 1).
Proof.
  induction l as [|w l IH]; [done|]. destruct l as [|v l].
  - cbn [Join sum_list_with length]. lia.
  - rewrite Join_cons2, !slen_app, IH. cbn [sum_list_with length].
    change (slen ".") with 1. lia.
Qed.

Lemma sum_take_drop {A} (f : A → nat) n i l :
  sum_list_with f (take n (drop i l)) ≤ sum_list_with f l.
Proof.
  rewrite <- (take_drop i l) at 2. rewrite <- (take_drop n (drop i l)) at 2.
  rewrite !sum_list_with_app. lia.
Qed.

(** A window that stops before the last label is shorter than the host. *)
Lemma label_window_shorter host base :
  label_window (Split host dot) (Split base dot) = true → slen base < slen host.
Proof.
  intros (i & Hlt & Heq)%label_window_spec.
  rewrite <- (Join_Split host dot), <- (Join_Split base dot).
  change (String dot "") with ".". rewrite !slen_Join.
  assert (Hsum : sum_list_with slen (Split base dot) ≤ sum_list_with slen (Split host dot))
    by (rewrite <- Heq at 1; apply sum_take_drop).
  pose proof (Split_nonempty base dot) as Hne.
  destruct (Split base dot); [done|]. cbn [length] in *. lia.
Qed.

Lemma HasSuffix_slen s suf : HasSuffix s suf = true → slen suf ≤ slen s.
Proof. intros (t & ->)%HasSuffix_spec. rewrite slen_app. lia. Qed.

(** The pattern after the two prefix/suffix strips of the matchers. *)
Definition strip_pattern (d : string) : string := TrimSuffix (TrimPrefix d "*.") "$".

Section score_lemmas.
Context (rm : string → string → option bool).
Notation score := (domainMatchScore rm).

Definition is_regex (d : string) : bool := HasPrefix (norm d) "~".
Definition is_exact (h d : string) : bool :=
  nonempty (norm h) && nonempty (norm d)
  && negb (HasSuffix (strip_pattern (norm d)) ".*")
  && negb (bool_decide (strip_pattern (norm d) = "*"))
  && bool_decide (norm h = strip_pattern (norm d)).

Lemma score_exact h d :
  is_regex d = false → is_exact h d = true →
  score h d = (Z.of_nat (slen (norm h)) + 1000)%Z.
Proof.
  unfold is_regex, is_exact, domainMatchScore, strip_pattern. intros Hr H. bool_prop.
  rewrite Hr, H, H3, H2. cbn [negb orb].
  by rewrite (bool_decide_eq_false_2 _ H1), (bool_decide_eq_true_2 _ H0), H0.
Qed.

(** Anything but a regular expression or an exact name scores at most the
    length of the host. *)
Lemma score_inexact_le h d :
  is_regex d = false → is_exact h d = false → norm h ≠ "" →
  (score h d ≤ Z.of_nat (slen (norm h)))%Z.
Proof.
  unfold is_regex, is_exact, domainMatchScore, strip_pattern. intros -> He Hh.
  rewrite (proj2 (nonempty_true _) Hh) in *. cbn [negb orb andb] in *.
  destruct (nonempty (norm d)); cbn [negb orb andb] in *; [|lia].
  set (p := TrimSuffix _ "$") in *.
  destruct (HasSuffix p ".*"); cbn [negb orb andb] in *.
  - destruct (nonempty _); cbn [negb]; [|lia].
    destruct (_ <? _); [lia|]. destruct (label_window _ _) eqn:Hw; [|lia].
    apply label_window_shorter in Hw. lia.
  - destruct (bool_decide (p = "*")); cbn [negb orb andb] in *.
    + destruct (norm h); [done|]. cbn. lia.
    + destruct (bool_decide (norm h = p)); [done|].
      destruct (HasSuffix _ _) eqn:Hs; [|lia].
      apply HasSuffix_slen in Hs. rewrite slen_app in Hs. cbn in Hs. lia.
Qed.

(** ** The two matchers agree *)

Lemma score_nonneg_iff h d :
  is_regex d = false → strip_pattern (norm d) ≠ "*" →
  (0 <=? score h d)%Z = hostMatchesDomain h d.
Proof.
  unfold is_regex, domainMatchScore, hostMatchesDomain, strip_pattern. intros -> Hs.
  destruct (negb _ || negb _); [done|].
  set (p := TrimSuffix _ "$") in *.
  destruct (HasSuffix p ".*").
  - destruct (negb _); [done|]. destruct (_ <? _); [done|].
    destruct (label_window _ _); [|done]. apply Z.leb_le. lia.
  - rewrite (bool_decide_eq_false_2 _ Hs).
    destruct (bool_decide (norm h = p)); [apply Z.leb_le; lia|].
    destruct (HasSuffix _ _); [apply Z.leb_le; lia|done].
Qed.

Lemma score_ge_m1 h d : (-1 ≤ score h d)%Z.
Proof. unfold domainMatchScore. repeat case_match; lia. Qed.
End score_lemmas.

(** ** Addresses *)

Lemma plain_empty : plain "".
Proof. done. Qed.

(** A host that [SplitHostPort] returns carries no bracket. *)
Lemma SplitHostPort_host_plain s h p : SplitHostPort s = Some (h, p) → plain h.
Proof.
  unfold SplitHostPort. destruct (last_index_byte colon s) as [i|]; [|done].
  destruct (HasPrefix s "[") eqn:Hpre; cbv beta zeta.
  - destruct (index_byte rbrack s) as [e|] eqn:He; [|done].
    destruct (S e =? slen s); [done|]. destruct (S e =? i); [|done].
    destruct (contains_byte lbrack (str_drop 1 s)) eqn:Hl; [done|].
    destruct (contains_byte rbrack (str_drop (S e) s)); [done|]. intros [= <- _].
    apply HasPrefix_spec in Hpre as (t & ->). change ("[" +:+ t) with (String lbrack t) in *.
    cbn [index_byte] in He. change (ceq rbrack lbrack) with false in He. cbv iota in He.
    destruct (index_byte rbrack t) as [k|] eqn:Hk; [|done]. injection He as <-.
    unfold str_slice. cbn [str_drop] in *. replace (S k - 1) with k by lia.
    split; [by apply contains_byte_take|by apply index_byte_take].
  - destruct (contains_byte colon (str_take i s)); [done|].
    rewrite str_drop_0. destruct (contains_byte lbrack s) eqn:Hl; [done|].
    destruct (contains_byte rbrack s) eqn:Hr; [done|]. intros [= <- _].
    split; by apply contains_byte_take.
Qed.

(** An address form [ensureAddrWithPort] is meant for: "host:port" in Go's
    syntax, a bare name or IP, or a bracketed IPv6 literal. *)
Definition addr_form (a : string) : Prop :=
  is_Some (SplitHostPort a) ∨ plain a ∨ ∃ x, a = "[" +:+ x +:+ "]" ∧ plain x.

Lemma bracketed_trims x :
  HasPrefix ("[" +:+ x +:+ "]") "[" && HasSuffix ("[" +:+ x +:+ "]") "]" = true ∧
  TrimSuffix (TrimPrefix ("[" +:+ x +:+ "]") "[") "]" = x.
Proof.
  rewrite TrimPrefix_app, TrimSuffix_app. split; [|done].
  apply andb_true_iff. split; [apply HasPrefix_spec; eauto|].
  apply HasSuffix_spec. exists ("[" +:+ x). by rewrite str_app_assoc.
Qed.

(** [ensureAddrWithPort] always yields a dialable address: for every
    address form (host:port, bare host or IP, bracketed IPv6) and every
    well-formed default port, the result splits into a bracket-free host and a
    non-empty port, and the port is the default one exactly when the input
    carries none. *)
Theorem ensureAddrWithPort_dialable addr dp :
  addr_form (TrimSpace addr) → TrimSpace addr ≠ "" →
  plain dp → contains_byte colon dp = false → dp ≠ "" →
  ∃ h p, SplitHostPort (ensureAddrWithPort addr dp) = Some (h, p) ∧ plain h ∧ p ≠ "" ∧
    (p = dp ∨ SplitHostPort (TrimSpace addr) = Some (h, p)).
Proof.
  intros Hform Hne Hdp Hdc Hde. unfold ensureAddrWithPort.
  rewrite (proj2 (nonempty_true _) Hne). cbn [negb].
  destruct (SplitHostPort (TrimSpace addr)) as [[h p]|] eqn:Hs.
  - pose proof (SplitHostPort_host_plain _ _ _ Hs). pose proof (SplitHostPort_no_rbrack _ _ _ Hs).
    pose proof (SplitHostPort_port_no_colon _ _ _ Hs).
    destruct (nonempty p) eqn:Hp; exists h; [exists p|exists dp];
      rewrite SplitHostPort_JoinHostPort by done; repeat split; try apply H; auto.
    by apply nonempty_true.
  - assert (Hx : ∃ x, plain x ∧ (if HasPrefix (TrimSpace addr) "[" && HasSuffix (TrimSpace addr) "]"
             then JoinHostPort (TrimSuffix (TrimPrefix (TrimSpace addr) "[") "]") dp
             else JoinHostPort (TrimSpace addr) dp) = JoinHostPort x dp).
    { destruct Hform as [[? ?]|[Hpl|(x & -> & Hx)]]; [congruence| |].
      - exists (TrimSpace addr). split; [done|].
        destruct (HasPrefix _ _) eqn:Hpre; [|done]. apply HasPrefix_spec in Hpre as (t & Ht).
        destruct Hpl as [Hpl _]. rewrite Ht in Hpl.
        change ("[" +:+ t) with (String lbrack t) in Hpl. by rewrite contains_byte_cons in Hpl.
      - exists x. destruct (bracketed_trims x) as [-> ->]. done. }
    destruct Hx as (x & Hx & ->). exists x, dp.
    rewrite SplitHostPort_JoinHostPort by done. repeat split; try apply Hx; auto.
Qed.

Lemma ensureAddrWithPort_dialable_witness :
  (∃ h p, SplitHostPort (ensureAddrWithPort " [2606:4700::1] " "443") = Some (h, p)
     ∧ plain h ∧ p ≠ "" ∧ (p = "443" ∨ SplitHostPort (TrimSpace " [2606:4700::1] ") = Some (h, p)))
  ∧ ensureAddrWithPort " [2606:4700::1] " "443" = "[2606:4700::1]:443".
Proof.
  split; [|by vm_compute].
  apply (ensureAddrWithPort_dialable " [2606:4700::1] " "443"); try by vm_compute.
  right; right. exists "2606:4700::1". by vm_compute.
Defined.

(** ** Ranking of patterns *)

Section ranking.
Context (rm : string → string → option bool).

(** The two domain matchers agree. For every pattern that is neither a
    regular expression nor the catch-all "*", [domainMatchScore] gives a
    non-negative score exactly when [hostMatchesDomain] accepts the host. *)
Theorem domainMatchScore_agrees host d :
  is_regex d = false → strip_pattern (norm d) ≠ "*" →
  (0 <= domainMatchScore rm host d)%Z ↔ hostMatchesDomain host d = true.
Proof. intros Hr Hs. rewrite <- (score_nonneg_iff rm host d Hr Hs). by rewrite Z.leb_le. Qed.

(** An exact name outranks every other pattern that is not a regular
    expression: suffix patterns, [base.*] patterns and the catch-all, however
    long they are. *)
Theorem exact_name_wins host d1 d2 :
  is_regex d1 = false → is_exact host d1 = true →
  is_regex d2 = false → is_exact host d2 = false →
  (domainMatchScore rm host d2 < domainMatchScore rm host d1)%Z.
Proof.
  intros Hr1 He1 Hr2 He2. rewrite (score_exact rm host d1) by done.
  assert (norm host ≠ "") as Hne.
  { unfold is_exact in He1. bool_prop. by apply nonempty_true. }
  pose proof (score_inexact_le rm host d2 Hr2 He2 Hne). lia.
Qed.

(** The comment of [domainMatchScore] promises "exact(1000+) >
    regex(900+)", but the regex bonus grows with the length of the pattern: a
    matching regular expression more than 100 bytes longer than the host
    outranks the exact name. *)
Theorem long_regex_beats_exact host d p :
  norm p = "~" +:+ TrimSpace (TrimPrefix (norm p) "~") →
  rm (TrimSpace (TrimPrefix (norm p) "~")) (norm host) = Some true →
  is_regex d = false → is_exact host d = true →
  slen (norm host) + 100 < slen (TrimSpace (TrimPrefix (norm p) "~")) →
  (domainMatchScore rm host d < domainMatchScore rm host p)%Z.
Proof.
  intros Hp Hm Hr He Hlen. rewrite (score_exact rm host d) by done.
  assert (nonempty (norm host) = true) as Hne by (unfold is_exact in He; by bool_prop).
  set (q := TrimSpace _) in *. unfold domainMatchScore. rewrite Hne.
  assert (nonempty (norm p) = true) as -> by (rewrite Hp; done).
  assert (HasPrefix (norm p) "~" = true) as -> by (rewrite Hp; apply HasPrefix_spec; eauto).
  cbn [negb orb]. fold q.
  assert (nonempty q = true) as -> by (apply nonempty_true; intros ->; cbn in Hlen; lia).
  cbn [negb]. rewrite Hm. lia.
Qed.
End ranking.

Definition any_regex : string → string → option bool := λ _ _, Some true.

Lemma domainMatchScore_agrees_witness :
  ((0 <= domainMatchScore any_regex "www.google.com.hk" "*.google.com.*")%Z
    ↔ hostMatchesDomain "www.google.com.hk" "*.google.com.*" = true)
  ∧ domainMatchScore any_regex "www.google.com.hk" "*.google.com.*" = 10%Z.
Proof.
  split; [|by vm_compute].
  apply (domainMatchScore_agrees any_regex); by vm_compute.
Defined.

Lemma exact_name_wins_witness :
  (domainMatchScore any_regex "www.google.com" "*.google.com"
   < domainMatchScore any_regex "www.google.com" "WWW.google.com")%Z.
Proof. apply (exact_name_wins any_regex); by vm_compute. Defined.

(** A pattern of 116 bytes, "(www.)?(www.)?..x.com", against the host "x.com". *)
Definition long_pattern : string :=
  "~(www[.])?(www[.])?(www[.])?(www[.])?(www[.])?(www[.])?(www[.])?(www[.])?(www[.])?(www[.])?(www[.])?x[.]com".

Lemma long_regex_beats_exact_witness :
  (domainMatchScore any_regex "x.com" "x.com" < domainMatchScore any_regex "x.com" long_pattern)%Z.
Proof. apply (long_regex_beats_exact any_regex); vm_compute; first [reflexivity | lia]. Defined.

(** ** DNS modes *)

Lemma reorder_mode_cases ips mode :
  reorderIPsByDNSMode ips mode = ips ∨
  (let live := List.filter (λ ip, negb (is_nil_ip ip)) ips in
   let v4s := List.filter is_v4 live in
   let v6s := List.filter (λ ip, negb (is_v4 ip)) live in
   (norm mode = "prefer_ipv4" ∧ reorderIPsByDNSMode ips mode = v4s ++ v6s) ∨
   (norm mode = "prefer_ipv6" ∧ reorderIPsByDNSMode ips mode = v6s ++ v4s) ∨
   (norm mode = "ipv4_only" ∧ reorderIPsByDNSMode ips mode = v4s) ∨
   (norm mode = "ipv6_only" ∧ reorderIPsByDNSMode ips mode = v6s)).
Proof.
  unfold reorderIPsByDNSMode, normalizeDNSMode.
  case_bool_decide as Hin; [|by left].
  rewrite !elem_of_cons in Hin. right.
  destruct Hin as [H|[H|[H|[H|H]]]]; [..|set_solver]; rewrite H; cbn; auto.
Qed.

Lemma filter_partition_perm {A} (p : A → bool) l :
  List.filter p l ++ List.filter (λ x, negb (p x)) l ≡ₚ l.
Proof.
  induction l as [|x l IH]; simpl; [done|]. destruct (p x); simpl.
  - by constructor.
  - etrans; [symmetry; apply Permutation_middle|]. by constructor.
Qed.

(** The preference modes lose no address: "prefer_ipv4" and "prefer_ipv6"
    return a permutation of the resolved non-nil addresses that lists every
    address of the preferred family before any of the other, in resolver order
    within a family. *)
Theorem prefer_modes_permute ips mode :
  norm mode = "prefer_ipv4" ∨ norm mode = "prefer_ipv6" →
  reorderIPsByDNSMode ips mode ≡ₚ List.filter (λ ip, negb (is_nil_ip ip)) ips ∧
  ∃ first second, reorderIPsByDNSMode ips mode = first ++ second ∧
    first `sublist_of` ips ∧ second `sublist_of` ips ∧
    (∀ ip, ip ∈ first → is_v4 ip = bool_decide (norm mode = "prefer_ipv4")) ∧
    (∀ ip, ip ∈ second → is_v4 ip = bool_decide (norm mode = "prefer_ipv6")).
Proof.
  assert (Hsub : ∀ (p : IP → bool) l, List.filter p l `sublist_of` l).
  { intros p l. induction l as [|x l IH]; simpl; [done|].
    destruct (p x); [by apply sublist_skip|by apply sublist_cons]. }
  intros Hm.
  assert (∃ m, norm mode = m ∧ (m = "prefer_ipv4" ∨ m = "prefer_ipv6")) as (m & Hnorm & Hm') by eauto.
  unfold reorderIPsByDNSMode, normalizeDNSMode. rewrite Hnorm.
  destruct Hm' as [-> | ->]; cbn -[is_nil_ip is_v4]; split.
  1: apply filter_partition_perm.
  2: etrans; [apply Permutation_app_comm|apply filter_partition_perm].
  all: do 2 eexists; split; [reflexivity|].
  all: split; [by etrans; apply Hsub|]; split; [by etrans; apply Hsub|].
  all: split; intros ip [_ Hp]%elem_of_filter_bool; rewrite ?negb_true_iff in Hp; by rewrite Hp.
Qed.

Lemma prefer_modes_permute_witness :
  let ips := [[1; 2; 3; 4]; replicate 16 7; []; [8; 8; 8; 8]]%Z in
  reorderIPsByDNSMode ips "Prefer_IPv6 " = [replicate 16 7; [1; 2; 3; 4]; [8; 8; 8; 8]]%Z ∧
  reorderIPsByDNSMode ips "Prefer_IPv6 " ≡ₚ List.filter (λ ip, negb (is_nil_ip ip)) ips.
Proof.
  cbv zeta. split; [by vm_compute|].
  apply (prefer_modes_permute [[1; 2; 3; 4]; replicate 16 7; []; [8; 8; 8; 8]]%Z "Prefer_IPv6 ").
  right. by vm_compute.
Defined.

(** ** Candidates *)

Lemma splitUpstreamCandidates_NoDup t u dp : NoDup (splitUpstreamCandidates t u dp).
Proof. unfold splitUpstreamCandidates. case_match; [constructor|apply NoDup_dedup]. Qed.

Lemma splitUpstreamCandidates_elem t u dp a :
  a ∈ splitUpstreamCandidates t u dp ↔
  resolveUpstreamHost t u ≠ "" ∧ a ≠ "" ∧
  ∃ part, part ∈ Split (resolveUpstreamHost t u) "," ∧ a = ensureAddrWithPort (TrimSpace part) dp.
Proof.
  unfold splitUpstreamCandidates. destruct (nonempty _) eqn:Hne; cbn [negb].
  - rewrite nonempty_true in Hne. rewrite elem_of_dedup, elem_of_filter_bool, nonempty_true.
    rewrite list_elem_of_fmap. naive_solver.
  - rewrite nonempty_false in Hne. set_solver.
Qed.

Lemma dedupeDialCandidates_NoDup l : NoDup (dedupeDialCandidates l).
Proof. apply NoDup_dedup. Qed.

Lemma dedupeDialCandidates_elem l a :
  a ∈ dedupeDialCandidates l ↔ a ≠ "" ∧ ∃ c, c ∈ l ∧ a = TrimSpace c.
Proof.
  unfold dedupeDialCandidates.
  rewrite elem_of_dedup, elem_of_filter_bool, nonempty_true, list_elem_of_fmap. naive_solver.
Qed.

#[export] Hint Resolve splitUpstreamCandidates_NoDup dedupeDialCandidates_NoDup : nova.

(** With no fake name configured, no camouflage is invented: under any
    policy but "none" and "fake" the server name offered upstream is the
    normalised target host, or a name (never an IP literal) taken from the
    rule's resolved upstream. *)
Theorem upstream_SNI_predictable target rule :
  TrimSpace (r_SniFake rule) = "" →
  norm (r_SniPolicy rule) ≠ "none" → norm (r_SniPolicy rule) ≠ "fake" →
  let sni := chooseUpstreamSNI target rule in
  sni = normalizeHost target ∨
  (isLiteralIP sni = false ∧ sni ≠ "" ∧
   sni = firstUpstreamHost (normalizeHost target) (resolveRuleUpstream (normalizeHost target) rule)).
Proof.
  intros Hf Hn Hk. cbv zeta. unfold chooseUpstreamSNI. rewrite Hf.
  rewrite (bool_decide_eq_false_2 _ Hn), (bool_decide_eq_false_2 _ Hk).
  change (nonempty "") with false. cbv iota.
  destruct (bool_decide _); [by left|].
  set (u := firstUpstreamHost _ _).
  assert (Hgen : ∀ b : bool, (b = true → nonempty u = true ∧ isLiteralIP u = false) →
    let sni := if b then u else normalizeHost target in
    sni = normalizeHost target ∨ (isLiteralIP sni = false ∧ sni ≠ "" ∧ sni = u)).
  { intros [] Hb; cbv zeta; [right|by left]. destruct Hb as [?%nonempty_true ?]; done. }
  destruct (bool_decide _).
  - apply (Hgen (nonempty u && negb (isLiteralIP u))). intros. by bool_prop.
  - destruct (nonempty (resolveRuleUpstream _ _)); [|by left].
    apply (Hgen (nonempty u && negb (isLiteralIP u) && _)). intros. by bool_prop.
Qed.

Lemma upstream_SNI_predictable_witness :
  let r := mkRule "x.com" "edge.example.net:8443, 1.2.3.4" [] "" "mitm" "" "" "upstream" true "s" false ""
             false "" "" false CertVerify_zero false "" in
  chooseUpstreamSNI "X.com:443" r = "edge.example.net" ∧
  (chooseUpstreamSNI "X.com:443" r = normalizeHost "X.com:443" ∨
   (isLiteralIP (chooseUpstreamSNI "X.com:443" r) = false ∧ chooseUpstreamSNI "X.com:443" r ≠ "" ∧
    chooseUpstreamSNI "X.com:443" r
      = firstUpstreamHost (normalizeHost "X.com:443")
          (resolveRuleUpstream (normalizeHost "X.com:443") r))).
Proof.
  cbv zeta. split; [by vm_compute|].
  apply upstream_SNI_predictable; by vm_compute.
Defined.
