(* ===== verification/TLSFragment.v ===== *)
(** [proxy/tls_fragment.go]: reading the first TLS record, locating the server
    name in a ClientHello, and sending the ClientHello as several records. *)

From Stdlib Require Import Strings.Byte.
From S2P Require Import Prelude GoBytes.

Open Scope Z_scope.
Open Scope go_scope.

Definition tlsRecordHeaderLen : Z := 5.
Definition defaultTLSRFNumRecords : Z := 4.
Definition defaultTLSRFNumSegments : Z := 1.
Definition defaultTLSRFSendInterval : Z := 50 * 1000000.
Definition defaultTLSRFModMinorVer : bool := true.
Definition defaultTLSRFOOB : bool := false.
Definition defaultTLSRFOOBEx : bool := false.

(** * The ClientHello parser *)

Record client_hello := mkClientHello {
  prtVer : list byte;
  sniPos : Z;
  sniLen : Z;
  hasKeyShare : bool;
}.

(** The [for offset+4 <= extensionsEnd] loop.  Running out of fuel is a
    [Panic], so that the theorems on panics show the fuel to be enough. *)
Fixpoint ext_loop (fuel : nat) (data : list byte) (extensionsEnd offset : Z) (st : client_hello)
    : outcome client_hello :=
  match fuel with
  | O => Panic
  | S fuel' =>
      if offset + 4 <=? extensionsEnd then
        extType <~ u16_at data offset ;;
        extLen <~ u16_at data (offset + 2) ;;
        let extDataStart := offset + 4 in
        let extDataEnd := extDataStart + extLen in
        guard_err (extensionsEnd <? extDataEnd) "extension length exceeds extensions block" ~;;
        let st := mkClientHello (prtVer st) (sniPos st) (sniLen st)
                    (hasKeyShare st || (extType =? 51)) in
        if (extType =? 51) && negb (sniPos st =? -1) then Ok st
        else if (sniPos st =? -1) && (extType =? 0) then
          guard_err (extLen <? 2) "malformed SNI extension" ~;;
          listLen <~ u16_at data extDataStart ;;
          guard_err (negb (listLen + 2 =? extLen)) "SNI list length field mismatch" ~;;
          let cursor := extDataStart + 2 in
          guard_err (extDataEnd <? cursor + 3) "SNI entry too short" ~;;
          nameType <~ byte_at data cursor ;;
          guard_err (negb (bval nameType =? 0)) "unsupported SNI name type" ~;;
          nameLen <~ u16_at data (cursor + 1) ;;
          let nameStart := cursor + 3 in
          let nameEnd := nameStart + nameLen in
          guard_err (extDataEnd <? nameEnd) "SNI name length exceeds extension" ~;;
          let st := mkClientHello (prtVer st) nameStart nameLen (hasKeyShare st) in
          if hasKeyShare st then Ok st
          else ext_loop fuel' data extensionsEnd extDataEnd st
        else ext_loop fuel' data extensionsEnd extDataEnd st
      else Ok st
  end.

Definition parseClientHello (data : list byte) : outcome client_hello :=
  guard_err (blen data <? tlsRecordHeaderLen) "TLS record too short" ~;;
  recordLen <~ u16_at data 3 ;;
  guard_err (blen data <? tlsRecordHeaderLen + recordLen) "record length exceeds data size" ~;;
  let offset := tlsRecordHeaderLen in
  guard_err (recordLen <? 4) "handshake message too short" ~;;
  msgType <~ byte_at data offset ;;
  guard_err (negb (bval msgType =? 1)) "not a ClientHello handshake" ~;;
  h1 <~ byte_at data (offset + 1) ;;
  h2 <~ byte_at data (offset + 2) ;;
  h3 <~ byte_at data (offset + 3) ;;
  let handshakeLen := Z.lor (Z.lor (Z.shiftl (bval h1) 16) (Z.shiftl (bval h2) 8)) (bval h3) in
  guard_err (recordLen <? handshakeLen + 4) "handshake length exceeds record length" ~;;
  let offset := offset + 4 in
  guard_err (handshakeLen <? 2 + 32 + 1) "ClientHello too short for mandatory fields" ~;;
  ver <~ slice data offset (offset + 2) ;;
  let offset := offset + 2 + 32 in
  guard_err (blen data <=? offset) "unexpected end after Random" ~;;
  sidLen <~ byte_at data offset ;;
  let offset := offset + 1 in
  guard_err (blen data <? offset + bval sidLen) "session_id length exceeds data" ~;;
  let offset := offset + bval sidLen in
  guard_err (blen data <? offset + 2) "cannot read cipher_suites length" ~;;
  csLen <~ u16_at data offset ;;
  let offset := offset + 2 in
  guard_err (blen data <? offset + csLen) "cipher_suites exceed data" ~;;
  let offset := offset + csLen in
  guard_err (blen data <=? offset) "cannot read compression_methods length" ~;;
  cmLen <~ byte_at data offset ;;
  let offset := offset + 1 in
  guard_err (blen data <? offset + bval cmLen) "compression_methods exceed data" ~;;
  let offset := offset + bval cmLen in
  let st := mkClientHello ver (-1) 0 false in
  if blen data <? offset + 2 then Ok st
  else
    extTotalLen <~ u16_at data offset ;;
    let offset := offset + 2 in
    guard_err (blen data <? offset + extTotalLen) "extensions length exceeds data" ~;;
    ext_loop (S (Z.to_nat extTotalLen)) data (offset + extTotalLen) offset st.

(** [findLastDot]: the loop [for i := sniPos+sniLen; i >= sniPos; i--], [n]
    iterations being left. *)
Fixpoint dot_loop (data : list byte) (sniPos : Z) (n : nat) : outcome (option Z) :=
  match n with
  | O => Ok None
  | S n' =>
      let i := sniPos + Z.of_nat n' in
      b <~ byte_at data i ;;
      if bval b =? 46 then Ok (Some i) else dot_loop data sniPos n'
  end.

Definition findLastDot (data : list byte) (sniPos sniLen : Z) : outcome (Z * bool) :=
  r <~ dot_loop data sniPos (Z.to_nat (sniLen + 1)) ;;
  match r with
  | Some i => Ok (i, true)
  | None => Ok (sniLen / 2 + sniPos, false)
  end.

(** * Record fragmentation *)

Definition makeRecord (header payload : list byte) : list byte :=
  take 3 (header ++ replicate 3 x00) ++ put16 (blen payload) ++ payload.

(** The parts [splitAndAppend] cuts [data] into, before headers are added. *)
Definition split_parts (data : list byte) (n : Z) : list (list byte) :=
  if n <=? 0 then []
  else if (n =? 1) || (blen data <? n) then [data]
  else
    let base := Z.to_nat (blen data / n) in
    (λ i, if (i =? Z.to_nat n - 1)%nat then drop (i * base) data
          else take base (drop (i * base) data)) <$> seq 0 (Z.to_nat n).

Definition splitAndAppend (data : list byte) (header : option (list byte)) (n : Z)
    (result : list (list byte)) : list (list byte) :=
  result ++ match header with
            | Some h => makeRecord h <$> split_parts data n
            | None => split_parts data n
            end.

(** What [sendRecords] does to the upstream connection. *)
Inductive wire_action :=
  | Write (data : list byte)
  | SendOOB (data : list byte) (oob : byte)
  | Sleep (interval : Z).

Section send.
(** Whether an action succeeds after the actions already performed: the
    behaviour of the network. *)
Context (net_ok : list wire_action → wire_action → bool).

Definition io (A : Type) : Type := list wire_action → outcome A * list wire_action.

Definition io_ret {A} (a : A) : io A := λ log, (Ok a, log).
Definition io_lift {A} (m : outcome A) : io A := λ log, (m, log).
Definition io_bind {A B} (m : io A) (k : A → io B) : io B := λ log,
  match m log with
  | (Ok a, log') => k a log'
  | (Err e, log') => (Err e, log')
  | (Panic, log') => (Panic, log')
  end.

(** One network call; a failure is wrapped with [msg]. *)
Definition perform (a : wire_action) (msg : string) : io unit := λ log,
  if net_ok log a then (Ok tt, log ++ [a]) else (Err msg, log).

(** [if interval > 0 { time.Sleep(interval) }]. *)
Definition pause (interval : Z) : io unit := λ log,
  (Ok tt, if 0 <? interval then log ++ [Sleep interval] else log).

Notation "x <-- m ;;; k" := (io_bind m (fun x => k))
  (at level 100, m at next level, right associativity).
Notation "m --;;; k" := (io_bind m (fun _ => k)) (at level 100, right associativity).

(** The packet loop of the one-record case. *)
Fixpoint send_packets (i : nat) (oob : bool) (interval : Z) (packets : list (list byte)) : io unit :=
  match packets with
  | [] => io_ret tt
  | p :: ps =>
      (if (i =? 0)%nat && oob then perform (SendOOB p x00) "oob"
       else perform (Write p) ("write packet " +:+ pretty (i + 1)%nat)) --;;;
      pause interval --;;; send_packets (S i) oob interval ps
  end.

(** The chunk loop of [segments == -1]. *)
Fixpoint send_chunks (i : nat) (oob oobex : bool) (interval : Z) (chunks : list (list byte)) : io unit :=
  match chunks with
  | [] => io_ret tt
  | c :: cs =>
      (if (i =? 0)%nat then
         if oob then perform (SendOOB c x00) "oob" --;;; pause interval
         else if oobex then
           body <-- io_lift (slice c 0 (blen c - 1)) ;;;
           last <-- io_lift (byte_at c (blen c - 1)) ;;;
           perform (SendOOB body last) "oob 1"
         else io_ret tt
       else if (i =? 1)%nat && oobex then perform (SendOOB c x00) "oob 2"
       else perform (Write c) ("write record " +:+ pretty (i + 1)%nat) --;;; pause interval)
      --;;; send_chunks (S i) oob oobex interval cs
  end.

(** The segment loop over the merged records, segment [i] of [n]. *)
Fixpoint send_segments (fuel : nat) (i n base : Z) (oob : bool) (interval : Z)
    (merged : list byte) : io unit :=
  match fuel with
  | O => io_ret tt
  | S fuel' =>
      let start := i * base in
      let stop := if i =? n - 1 then blen merged else start + base in
      seg <-- io_lift (slice merged start stop) ;;;
      (if (i =? 0) && oob then perform (SendOOB seg x00) "oob"
       else perform (Write seg) ("write segment " +:+ pretty (i + 1))) --;;;
      pause interval --;;;
      send_segments fuel' (i + 1) n base oob interval merged
  end.

(** The out-of-band preamble: 15 bytes and an urgent byte, four bytes and a
    null urgent byte; what remains starts at byte 20. *)
Definition send_oobex (data : list byte) (interval : Z) : io (list byte) :=
  a <-- io_lift (slice data 0 15) ;;;
  u <-- io_lift (byte_at data 15) ;;;
  perform (SendOOB a u) "oob 1" --;;;
  b <-- io_lift (slice data 16 20) ;;;
  perform (SendOOB b x00) "oob 2" --;;;
  pause interval --;;;
  io_lift (slice data 20 (blen data)).

(** [clientHello[2] = 0x04], done in place. *)
Definition mod_minor (modMinorVer : bool) (clientHello : list byte) : list byte :=
  if modMinorVer && (3 <=? blen clientHello) then <[2%nat := x04]> clientHello else clientHello.

Definition sendRecords (clientHello : list byte) (offset length_ records segments : Z)
    (oob oobex modMinorVer : bool) (interval : Z) : io unit :=
  let clientHello := mod_minor modMinorVer clientHello in
  if records =? 1 then
    clientHello <--
      (if oobex then
         if blen clientHello <? 20 then io_lift (Err "oob: clientHello too short")
         else send_oobex clientHello interval
       else io_ret clientHello) ;;;
    if segments =? 1 then perform (Write clientHello) "send remaining data"
    else
      let leftSegments := segments / 2 in
      let rightSegments := segments - leftSegments in
      cut <-- io_lift (findLastDot clientHello (offset - 20) length_) ;;;
      left <-- io_lift (slice clientHello 0 (fst cut)) ;;;
      right <-- io_lift (slice clientHello (fst cut) (blen clientHello)) ;;;
      send_packets 0 oob interval
        (splitAndAppend right None rightSegments (splitAndAppend left None leftSegments []))
  else
    let leftChunks := records / 2 in
    let rightChunks := records - leftChunks in
    cut <-- io_lift (findLastDot clientHello offset length_) ;;;
    header <-- io_lift (slice clientHello 0 3) ;;;
    left <-- io_lift (slice clientHello 5 (fst cut)) ;;;
    right <-- io_lift (slice clientHello (fst cut) (blen clientHello)) ;;;
    let chunks := splitAndAppend right (Some header) rightChunks
                    (splitAndAppend left (Some header) leftChunks []) in
    if segments =? -1 then send_chunks 0 oob oobex interval chunks
    else
      merged <-- (if oobex then send_oobex (concat chunks) interval
                  else io_ret (concat chunks)) ;;;
      if (segments =? 1) || (blen merged <=? segments) then perform (Write merged) ""
      else
        let base := blen merged / segments in
        send_segments (Z.to_nat segments) 0 segments base oob interval merged.
End send.

(** [readInitialTLSRecord] on the bytes the client sends before closing or
    timing out: the record, and what is left in the stream. *)
Definition readInitialTLSRecord (stream : list byte) : outcome (list byte * list byte) :=
  guard_err (blen stream <? tlsRecordHeaderLen) "EOF" ~;;
  let header := take 5 stream in
  recordLen <~ u16_at header 3 ;;
  let rest := drop 5 stream in
  guard_err ((0 <? recordLen) && (blen rest <? recordLen)) "unexpected EOF" ~;;
  Ok (header ++ take (Z.to_nat recordLen) rest, drop (Z.to_nat recordLen) rest).

(** * The parser is safe and its result lies in the data *)

(** Step over one bounds-checked access or guard of the parser. *)
Ltac post_step :=
  lazymatch goal with
  | |- post (obind (guard_err _ _) _) _ =>
      apply post_guard; let H := fresh "Hg" in intros H
  | |- post (obind (u16_at ?d ?i) _) _ =>
      let v := fresh "v" in let Hv := fresh "Hv" in let Hr := fresh "Hr" in
      destruct (u16_at_ok d i) as (v & Hv & Hr); [bool_prop; lia..|]; rewrite Hv; cbn [obind]
  | |- post (obind (byte_at ?d ?i) _) _ =>
      let b := fresh "b" in let Hb := fresh "Hb" in
      destruct (byte_at_ok d i) as (b & Hb); [bool_prop; lia|];
      pose proof (bval_range b); rewrite Hb; cbn [obind]
  | |- post (obind (slice ?d ?i ?j) _) _ =>
      let s := fresh "s" in let Hs := fresh "Hs" in
      destruct (slice_ok d i j) as (s & Hs); [bool_prop; lia..|]; rewrite Hs; cbn [obind]
  | |- post (Ok _) _ => cbn [post]
  end.

(** The server name is absent, or a range between [lo] and [hi]. *)
Definition sni_range (lo hi : Z) (st : client_hello) : Prop :=
  (sniPos st = -1 ∧ sniLen st = 0) ∨
  (lo <= sniPos st ∧ 0 <= sniLen st ∧ sniPos st + sniLen st <= hi).

Lemma ext_loop_post data e lo : 0 <= lo → e <= blen data →
  ∀ fuel off st, lo <= off <= e → e - off < Z.of_nat fuel → sni_range lo (blen data) st →
    post (ext_loop fuel data e off st) (sni_range lo (blen data)).
Proof.
  intros Hlo He. induction fuel as [|fuel IH]; intros off st Hoff Hfuel Hst; cbn [ext_loop]; [lia|].
  destruct (Z.leb_spec (off + 4) e) as [Hle|]; [|exact Hst].
  repeat post_step. case_match; [exact Hst|].
  case_match; [|apply IH; bool_prop; [lia..|exact Hst]].
  repeat post_step.
  assert (Hnew : sni_range lo (blen data) (mkClientHello (prtVer st) (off + 4 + 2 + 3) v2
                   (hasKeyShare st || (v =? 51)))) by (right; cbn; bool_prop; lia).
  case_match; [exact Hnew|]. apply IH; bool_prop; [lia..|exact Hnew].
Qed.

(** 49 = record header 5, handshake header 4, version 2, random 32, and the
    length bytes of the session id (1), the cipher suites (2), the compression
    methods (1) and the extensions (2). *)
Lemma parseClientHello_post data : post (parseClientHello data) (sni_range 49 (blen data)).
Proof.
  unfold parseClientHello, tlsRecordHeaderLen. repeat post_step.
  case_match; [left; done|]. repeat post_step.
  apply ext_loop_post; bool_prop; [lia..|by left].
Qed.

(** C2: [parseClientHello] never panics and always terminates: on any byte
    string whatsoever, truncated or hostile, every index and slice it takes is
    in bounds and the extension loop ends within its fuel. *)
Theorem parseClientHello_no_panic data : ¬ panics (parseClientHello data).
Proof. eapply post_no_panic, parseClientHello_post. Qed.

(** The name a successful parse reports lies in the record: either none was
    found ([sniPos = -1], [sniLen = 0]), or its range is after the fixed fields
    and ends inside the data, so [record[sniPos:sniPos+sniLen]] is in bounds. *)
Theorem parseClientHello_in_bounds data r :
  parseClientHello data = Ok r →
  (sniPos r = -1 ∧ sniLen r = 0) ∨
  (49 <= sniPos r ∧ 0 <= sniLen r ∧ sniPos r + sniLen r <= blen data).
Proof. intros H. exact (post_Ok _ _ _ (parseClientHello_post data) H). Qed.

(** * Parsing what a client builds *)

(** A ClientHello record as RFC 8446 lays it out.  [exts] are the extensions as
    (type, body). *)
Definition encode_ext (e : Z * list byte) : list byte := put16 (fst e) ++ put16 (blen (snd e)) ++ snd e.

Definition encode_exts (es : list (Z * list byte)) : list byte := concat (encode_ext <$> es).

Definition sni_ext (host : list byte) : Z * list byte :=
  (0, put16 (blen host + 3) ++ [x00] ++ put16 (blen host) ++ host).

Definition hello_body (ver random sid cs cm : list byte) (exts : list byte) : list byte :=
  ver ++ random ++ [byte_of (blen sid)] ++ sid ++ put16 (blen cs) ++ cs ++
  [byte_of (blen cm)] ++ cm ++ put16 (blen exts) ++ exts.

Definition hello_record (body : list byte) : list byte :=
  [x16; x03; x01] ++ put16 (blen body + 4) ++ [x01] ++ put24 (blen body) ++ body.

Definition client_hello_bytes (ver random sid cs cm : list byte) (exts : list (Z * list byte)) : list byte :=
  hello_record (hello_body ver random sid cs cm (encode_exts exts)).

Definition ext_ok (e : Z * list byte) : Prop := 0 <= fst e < 65536 ∧ blen (snd e) < 65536.

Lemma u16_at_put16 pre n rest : 0 <= n < 65536 → u16_at (pre ++ put16 n ++ rest) (blen pre) = Ok n.
Proof.
  intros Hn. rewrite u16_at_app_r by lia. rewrite Z.sub_diag.
  destruct (be16_put16 n Hn) as (hi & lo & -> & Hb). unfold u16_at. cbn [app].
  rewrite byte_at_cons_0, byte_at_cons_S, byte_at_cons_0 by lia. cbn [obind]. by rewrite Hb.
Qed.

Lemma byte_at_mid pre b rest : byte_at (pre ++ b :: rest) (blen pre) = Ok b.
Proof. rewrite byte_at_app_r by lia. by rewrite Z.sub_diag. Qed.

(** Reading a field at an explicit offset of a concatenation. *)
Lemma u16_at_field data pre n rest off :
  data = pre ++ put16 n ++ rest → off = blen pre → 0 <= n < 65536 → u16_at data off = Ok n.
Proof. intros -> -> Hn. by apply u16_at_put16. Qed.

Lemma byte_at_field data pre b rest off :
  data = pre ++ b :: rest → off = blen pre → byte_at data off = Ok b.
Proof. intros -> ->. apply byte_at_mid. Qed.

Lemma blen_put16 n : blen (put16 n) = 2.
Proof. done. Qed.

Lemma blen_encode_ext e : blen (encode_ext e) = 4 + blen (snd e).
Proof. unfold encode_ext. rewrite !blen_app, !blen_put16. lia. Qed.

Lemma encode_exts_cons e es : encode_exts (e :: es) = encode_ext e ++ encode_exts es.
Proof. done. Qed.

Definition is_key_share (e : Z * list byte) : bool := fst e =? 51.

(** One iteration over an extension that is not the server name. *)
Lemma ext_loop_skip fuel data pre e rest ee st :
  ext_ok e → data = pre ++ encode_ext e ++ rest →
  blen pre + blen (encode_ext e) <= ee →
  (fst e = 0 → sniPos st ≠ -1) → (fst e = 51 → sniPos st = -1) →
  ext_loop (S fuel) data ee (blen pre) st =
  ext_loop fuel data ee (blen pre + blen (encode_ext e))
    (mkClientHello (prtVer st) (sniPos st) (sniLen st) (hasKeyShare st || is_key_share e)).
Proof.
  intros [Ht Hl] -> Hee H0 H51. pose proof (blen_nonneg (snd e)) as Hnn.
  rewrite blen_encode_ext in Hee |- *. cbn [ext_loop].
  rewrite (proj2 (Z.leb_le _ _)) by lia.
  rewrite (u16_at_field _ pre (fst e) (put16 (blen (snd e)) ++ snd e ++ rest))
    by (unfold encode_ext; rewrite <- ?app_assoc; done || lia). cbn [obind].
  rewrite (u16_at_field _ (pre ++ put16 (fst e)) (blen (snd e)) (snd e ++ rest))
    by (unfold encode_ext; rewrite ?blen_app, <- ?app_assoc; done || lia). cbn [obind].
  unfold guard_err. rewrite (proj2 (Z.ltb_ge _ _)) by lia. cbn [obind].
  fold (is_key_share e). cbn [sniPos].
  replace (is_key_share e && negb (sniPos st =? -1)) with false.
  2:{ unfold is_key_share. destruct (Z.eqb_spec (fst e) 51); [|done]. rewrite H51 by done. done. }
  replace ((sniPos st =? -1) && (fst e =? 0)) with false.
  2:{ destruct (Z.eqb_spec (fst e) 0); [|by rewrite andb_false_r].
      rewrite (proj2 (Z.eqb_neq _ _)) by auto. done. }
  f_equal. lia.
Qed.

Lemma ext_loop_before es : ∀ fuel data pre rest ee st,
  Forall (λ e, ext_ok e ∧ fst e ≠ 0) es → data = pre ++ encode_exts es ++ rest →
  blen pre + blen (encode_exts es) <= ee → sniPos st = -1 →
  ext_loop (length es + fuel) data ee (blen pre) st =
  ext_loop fuel data ee (blen pre + blen (encode_exts es))
    (mkClientHello (prtVer st) (-1) (sniLen st) (hasKeyShare st || existsb is_key_share es)).
Proof.
  induction es as [|e es IH]; intros fuel data pre rest ee st Hall Hd Hee Hst.
  - cbn. rewrite orb_false_r, Z.add_0_r. destruct st; cbn in *; by subst.
  - apply list.Forall_cons in Hall as [[Hok Hne] Hall].
    rewrite encode_exts_cons, <- app_assoc in Hd. rewrite encode_exts_cons, blen_app in Hee |- *.
    pose proof (blen_nonneg (encode_exts es)). cbn [length Nat.add existsb].
    rewrite (ext_loop_skip _ _ pre e (encode_exts es ++ rest)) by (done || lia).
    rewrite <- (blen_app pre), (IH fuel data (pre ++ encode_ext e) rest);
      rewrite ?blen_app, <- ?app_assoc; [|done || lia..].
    cbn. rewrite orb_assoc. f_equal. lia.
Qed.

Lemma ext_loop_after es : ∀ fuel data pre st,
  Forall ext_ok es → data = pre ++ encode_exts es → (length es < fuel)%nat →
  sniPos st ≠ -1 → hasKeyShare st = false →
  ext_loop fuel data (blen pre + blen (encode_exts es)) (blen pre) st =
  Ok (mkClientHello (prtVer st) (sniPos st) (sniLen st) (existsb is_key_share es)).
Proof.
  induction es as [|e es IH]; intros fuel data pre st Hall Hd Hfuel Hsni Hks;
    (destruct fuel as [|fuel]; [cbn in Hfuel; lia|]).
  - cbn. rewrite Z.add_0_r, (proj2 (Z.leb_gt _ _)) by lia. destruct st; cbn in *; by subst.
  - apply list.Forall_cons in Hall as [Hok Hall]. cbn [length existsb] in Hfuel |- *.
    rewrite encode_exts_cons in Hd |- *. rewrite blen_app.
    pose proof (blen_nonneg (encode_exts es)). pose proof (blen_nonneg (snd e)).
    pose proof (blen_encode_ext e) as Hbe.
    destruct (is_key_share e) eqn:Hk.
    + destruct Hok as [Ht Hl]. cbn [ext_loop]. subst data.
      rewrite (proj2 (Z.leb_le _ _)) by lia.
      rewrite (u16_at_field _ pre (fst e) (put16 (blen (snd e)) ++ snd e ++ encode_exts es))
        by (unfold encode_ext; rewrite <- ?app_assoc; done || lia). cbn [obind].
      rewrite (u16_at_field _ (pre ++ put16 (fst e)) (blen (snd e)) (snd e ++ encode_exts es))
        by (unfold encode_ext; rewrite ?blen_app, <- ?app_assoc; done || lia). cbn [obind].
      unfold guard_err. rewrite (proj2 (Z.ltb_ge _ _)) by lia. cbn [obind].
      unfold is_key_share in Hk. rewrite Hk. cbn [sniPos andb].
      rewrite (proj2 (Z.eqb_neq _ _)) by done. cbn. by rewrite orb_true_r.
    + rewrite (ext_loop_skip _ _ pre e (encode_exts es)); [|done..|lia|done|].
      2:{ unfold is_key_share in Hk. intros Heq. rewrite Heq in Hk. done. }
      rewrite <- (blen_app pre (encode_ext e)), Hk, orb_false_r.
      replace (blen pre + (blen (encode_ext e) + blen (encode_exts es)))
        with (blen (pre ++ encode_ext e) + blen (encode_exts es)) by (rewrite blen_app; lia).
      rewrite (IH fuel data (pre ++ encode_ext e)); [done|done|by rewrite <- app_assoc|lia|done|done].
Qed.

(** The server-name extension itself. *)
Lemma ext_loop_sni fuel data pre host rest ee st :
  blen host + 5 < 65536 → data = pre ++ encode_ext (sni_ext host) ++ rest →
  blen pre + blen (encode_ext (sni_ext host)) <= ee → sniPos st = -1 →
  let st' := mkClientHello (prtVer st) (blen pre + 9) (blen host) (hasKeyShare st) in
  ext_loop (S fuel) data ee (blen pre) st =
  if hasKeyShare st then Ok st'
  else ext_loop fuel data ee (blen pre + blen (encode_ext (sni_ext host))) st'.
Proof.
  intros Hh -> Hee Hst st'. pose proof (blen_nonneg host) as Hnn.
  assert (Hb : blen (snd (sni_ext host)) = blen host + 5)
    by (unfold sni_ext; cbn [snd]; rewrite !blen_app, !blen_put16; change (blen [x00]) with 1; lia).
  rewrite blen_encode_ext, Hb in Hee |- *. unfold encode_ext. rewrite Hb.
  unfold sni_ext. cbn [fst snd]. rewrite <- !app_assoc. cbn [ext_loop].
  rewrite (proj2 (Z.leb_le _ _)) by lia.
  rewrite (u16_at_field _ pre 0 (put16 (blen host + 5) ++ put16 (blen host + 3) ++ [x00] ++
    put16 (blen host) ++ host ++ rest)) by (done || lia). cbn [obind].
  rewrite (u16_at_field _ (pre ++ put16 0) (blen host + 5) (put16 (blen host + 3) ++ [x00] ++
    put16 (blen host) ++ host ++ rest)) by (rewrite ?blen_app, <- ?app_assoc; done || lia).
  cbn [obind]. unfold guard_err. rewrite (proj2 (Z.ltb_ge _ _)) by lia. cbn [obind].
  change (0 =? 51) with false. change (0 =? 0) with true. rewrite orb_false_r, Hst. cbn [andb negb Z.eqb].
  rewrite (proj2 (Z.ltb_ge _ _)) by lia. cbn [obind].
  rewrite (u16_at_field _ (pre ++ put16 0 ++ put16 (blen host + 5)) (blen host + 3)
    ([x00] ++ put16 (blen host) ++ host ++ rest))
    by (rewrite ?blen_app, ?blen_put16, <- ?app_assoc; done || lia). cbn [obind].
  replace (blen host + 3 + 2 =? blen host + 5) with true by (symmetry; apply Z.eqb_eq; lia). cbn [negb obind].
  rewrite (proj2 (Z.ltb_ge _ _)) by lia. cbn [obind].
  rewrite (byte_at_field _ (pre ++ put16 0 ++ put16 (blen host + 5) ++ put16 (blen host + 3)) x00
    (put16 (blen host) ++ host ++ rest))
    by (rewrite ?blen_app, ?blen_put16, <- ?app_assoc; done || lia). cbn [obind].
  change (bval x00 =? 0) with true. cbn [negb obind].
  rewrite (u16_at_field _ (pre ++ put16 0 ++ put16 (blen host + 5) ++ put16 (blen host + 3) ++ [x00])
    (blen host) (host ++ rest))
    by (rewrite ?blen_app, ?blen_put16, <- ?app_assoc; change (blen [x00]) with 1; done || lia).
  cbn [obind]. rewrite (proj2 (Z.ltb_ge _ _)) by lia. cbn [obind].
  subst st'. replace (blen pre + 4 + 2 + 3) with (blen pre + 9) by lia.
  cbn [hasKeyShare prtVer]. destruct (hasKeyShare st); [done|]. f_equal. lia.
Qed.

Lemma length_encode_exts es : Z.of_nat (length es) <= blen (encode_exts es).
Proof.
  induction es as [|e es IH]; [done|]. rewrite encode_exts_cons, blen_app, blen_encode_ext.
  pose proof (blen_nonneg (snd e)). cbn [length]. lia.
Qed.

Lemma encode_exts_app a b : encode_exts (a ++ b) = encode_exts a ++ encode_exts b.
Proof. unfold encode_exts. by rewrite fmap_app, concat_app. Qed.

Definition hello_wf (ver random sid cs cm : list byte) (exts : list (Z * list byte)) : Prop :=
  blen ver = 2 ∧ blen random = 32 ∧ blen sid < 256 ∧ blen cm < 256 ∧ Forall ext_ok exts ∧
  blen (hello_body ver random sid cs cm (encode_exts exts)) + 4 < 65536.

(** Everything of the record that precedes the extensions. *)
Definition hello_prefix (ver random sid cs cm exts : list byte) : list byte :=
  [x16; x03; x01] ++ put16 (blen (hello_body ver random sid cs cm exts) + 4) ++ [x01] ++
  put24 (blen (hello_body ver random sid cs cm exts)) ++
  ver ++ random ++ [byte_of (blen sid)] ++ sid ++ put16 (blen cs) ++ cs ++
  [byte_of (blen cm)] ++ cm ++ put16 (blen exts).

Lemma hello_prefix_app ver random sid cs cm exts :
  hello_record (hello_body ver random sid cs cm exts) =
  hello_prefix ver random sid cs cm exts ++ exts.
Proof. unfold hello_record, hello_prefix. unfold hello_body at 3. by rewrite <- ?app_assoc. Qed.

Lemma blen_put24 n : blen (put24 n) = 3.
Proof. done. Qed.

Lemma blen_1 (b : byte) : blen [b] = 1.
Proof. done. Qed.

Lemma bval_byte_of_small n : 0 <= n < 256 → bval (byte_of n) = n.
Proof. intros. rewrite bval_byte_of. by apply Z.mod_small. Qed.

(** Pass a guard whose condition is false; read the field that follows a known
    prefix of the data. *)
Ltac pass :=
  unfold guard_err at 1;
  first [rewrite (proj2 (Z.ltb_ge _ _)) by lia | rewrite (proj2 (Z.leb_gt _ _)) by lia];
  cbn [obind].
Ltac field_side :=
  first [done | rewrite ?blen_app, ?blen_put16, ?blen_1, <- ?app_assoc; first [done | lia]].
Ltac read_u16 data pre n rest := rewrite (u16_at_field data pre n rest) by field_side; cbn [obind].
Ltac read_byte data pre b rest := rewrite (byte_at_field data pre b rest) by field_side; cbn [obind].

Lemma slice_field data pre mid rest i j :
  data = pre ++ mid ++ rest → i = blen pre → j = blen pre + blen mid → slice data i j = Ok mid.
Proof.
  intros -> -> ->. pose proof (blen_nonneg pre). pose proof (blen_nonneg mid).
  unfold slice. rewrite !blen_app. pose proof (blen_nonneg rest).
  rewrite !(proj2 (Z.leb_le _ _)) by lia. cbn [andb].
  replace (Z.to_nat (blen pre)) with (length pre) by (unfold blen; lia). rewrite drop_app_length.
  replace (Z.to_nat _) with (length mid) by (unfold blen; lia). by rewrite take_app_length.
Qed.

(** The fixed part of a well-formed ClientHello leads to the extension loop. *)
Lemma parse_hello_header ver random sid cs cm exts :
  hello_wf ver random sid cs cm exts →
  let data := client_hello_bytes ver random sid cs cm exts in
  let pfx := blen (hello_prefix ver random sid cs cm (encode_exts exts)) in
  parseClientHello data =
  ext_loop (S (Z.to_nat (blen (encode_exts exts)))) data
    (pfx + blen (encode_exts exts)) pfx (mkClientHello ver (-1) 0 false).
Proof.
  intros (Hv & Hr & Hs & Hcm & Hok & Hlen) data pfx.
  pose proof (blen_nonneg sid). pose proof (blen_nonneg cs). pose proof (blen_nonneg cm).
  pose proof (blen_nonneg (encode_exts exts)) as Hxs.
  set (xs := encode_exts exts) in *.
  set (body := hello_body ver random sid cs cm xs) in *.
  assert (Hbody : blen body = 2 + 32 + 1 + blen sid + 2 + blen cs + 1 + blen cm + 2 + blen xs).
  { subst body. unfold hello_body. rewrite !blen_app, !blen_put16, !blen_1. lia. }
  assert (Hdata : data = hello_record body) by done.
  assert (Hpfx : pfx = 9 + (blen body - blen xs)).
  { subst pfx. unfold hello_prefix. fold xs body.
    rewrite !blen_app, !blen_put16, blen_put24, !blen_1, Hbody. change (blen [x16; x03; x01]) with 3. lia. }
  assert (Hdl : blen data = 9 + blen body).
  { rewrite Hdata. unfold hello_record. rewrite !blen_app, blen_put16, blen_put24, blen_1.
    change (blen [x16; x03; x01]) with 3. lia. }
  unfold parseClientHello, tlsRecordHeaderLen. pass.
  read_u16 data [x16; x03; x01] (blen body + 4) ([x01] ++ put24 (blen body) ++ body).
  pass. pass.
  set (p5 := [x16; x03; x01] ++ put16 (blen body + 4)).
  read_byte data p5 x01 (put24 (blen body) ++ body).
  change (bval x01 =? 1) with true. unfold guard_err at 1. cbn [negb obind]. unfold put24 in Hdata.
  set (a := byte_of (Z.shiftr (blen body) 16)). set (b := byte_of (Z.shiftr (blen body) 8)).
  set (c := byte_of (blen body)).
  read_byte data (p5 ++ [x01]) a ([b; c] ++ body).
  read_byte data (p5 ++ [x01; a]) b ([c] ++ body).
  read_byte data (p5 ++ [x01; a; b]) c body.
  subst a b c. rewrite be24_put24 by (change (2 ^ 24) with 16777216; lia). pass. pass.
  set (p9 := p5 ++ [x01] ++ put24 (blen body)).
  assert (Hp9 : data = p9 ++ body) by done. assert (Hb9 : blen p9 = 9) by done.
  subst body. unfold hello_body in Hp9.
  erewrite (slice_field data p9 ver) by (done || lia). cbn [obind]. pass.
  read_byte data (p9 ++ ver ++ random) (byte_of (blen sid))
    (sid ++ put16 (blen cs) ++ cs ++ [byte_of (blen cm)] ++ cm ++ put16 (blen xs) ++ xs).
  rewrite bval_byte_of_small by lia. pass. pass.
  read_u16 data (p9 ++ ver ++ random ++ [byte_of (blen sid)] ++ sid) (blen cs)
    (cs ++ [byte_of (blen cm)] ++ cm ++ put16 (blen xs) ++ xs).
  pass. pass.
  read_byte data (p9 ++ ver ++ random ++ [byte_of (blen sid)] ++ sid ++
    put16 (blen cs) ++ cs) (byte_of (blen cm)) (cm ++ put16 (blen xs) ++ xs).
  rewrite bval_byte_of_small by lia. pass. rewrite (proj2 (Z.ltb_ge _ _)) by lia.
  read_u16 data (p9 ++ ver ++ random ++ [byte_of (blen sid)] ++ sid ++
    put16 (blen cs) ++ cs ++ [byte_of (blen cm)] ++ cm) (blen xs) xs.
  pass. f_equal; lia.
Qed.

(** The exact position: nine bytes into the server-name extension. *)
Lemma parse_sni_at ver random sid cs cm before after host :
  hello_wf ver random sid cs cm (before ++ sni_ext host :: after) →
  Forall (λ e, fst e ≠ 0) before → blen host + 5 < 65536 →
  let xs := before ++ sni_ext host :: after in
  let data := client_hello_bytes ver random sid cs cm xs in
  let pos := blen (hello_prefix ver random sid cs cm (encode_exts xs)) + blen (encode_exts before) + 9 in
  parseClientHello data =
      Ok (mkClientHello ver pos (blen host) (existsb is_key_share (before ++ after))) ∧
    slice data pos (pos + blen host) = Ok host ∧
    pos + blen host + blen (encode_exts after) = blen data.
Proof.
  intros Hwf Hbef Hh. cbv zeta.
  set (data := client_hello_bytes _ _ _ _ _ _). pose proof Hwf as (_ & _ & _ & _ & Hok & _).
  apply Forall_app in Hok as [Hokb Hoka]. apply list.Forall_cons in Hoka as [_ Hoka].
  rewrite existsb_app. set (xs := encode_exts (before ++ sni_ext host :: after)).
  set (pfx := hello_prefix ver random sid cs cm xs).
  assert (Hdata : data = pfx ++ encode_exts before ++ encode_ext (sni_ext host) ++ encode_exts after).
  { unfold data, client_hello_bytes. rewrite hello_prefix_app. fold xs pfx. f_equal. apply encode_exts_app. }
  assert (Hxs : blen xs = blen (encode_exts before) + blen (encode_ext (sni_ext host)) + blen (encode_exts after))
    by (unfold xs; rewrite encode_exts_app, encode_exts_cons, !blen_app; lia).
  pose proof (length_encode_exts before) as Hlb. pose proof (length_encode_exts after) as Hla.
  pose proof (blen_nonneg host). assert (blen (encode_ext (sni_ext host)) = blen host + 9) as Hle.
  { rewrite blen_encode_ext. unfold sni_ext. cbn [snd]. rewrite !blen_app, !blen_put16, blen_1. lia. }
  fold pfx. rewrite <- (blen_app pfx (encode_exts before)).
  split; [|split; [|rewrite Hdata, !blen_app; lia]].
  - unfold data. rewrite (parse_hello_header _ _ _ _ _ _ Hwf). fold data xs pfx.
    set (k := (Z.to_nat (blen xs) - length before)%nat).
    replace (S (Z.to_nat (blen xs))) with (length before + S k)%nat by (subst k; lia).
    rewrite (ext_loop_before before _ data pfx (encode_ext (sni_ext host) ++ encode_exts after));
      [|by apply Forall_and|done|lia|done]. cbn [prtVer sniLen hasKeyShare orb].
    rewrite <- (blen_app pfx (encode_exts before)).
    rewrite (ext_loop_sni k data (pfx ++ encode_exts before) host (encode_exts after));
      [|done|by rewrite <- app_assoc|rewrite blen_app; lia|done]. cbn [prtVer hasKeyShare].
    destruct (existsb is_key_share before); [done|].
    rewrite <- (blen_app (pfx ++ encode_exts before)), Hxs.
    replace (blen pfx + _) with
      (blen ((pfx ++ encode_exts before) ++ encode_ext (sni_ext host)) + blen (encode_exts after))
      by (rewrite !blen_app; lia).
    apply (ext_loop_after after k data); [done|by rewrite <- !app_assoc|subst k; lia| |done].
    cbn [sniPos]. pose proof (blen_nonneg (pfx ++ encode_exts before)). lia.
  - apply (slice_field data (pfx ++ encode_exts before ++ take 9 (encode_ext (sni_ext host)))
      host (encode_exts after)); rewrite ?blen_app; change (blen (take 9 _)) with 9; try lia.
    rewrite Hdata, <- !app_assoc. done.
Qed.

(** C1: the parser finds the server name a client sends. For every well-formed
    ClientHello (any version, random, session id, cipher suites, compression
    methods and extensions around a [server_name] extension for [host]), the
    parse succeeds, the reported range contains exactly the bytes of [host], and
    [hasKeyShare] tells whether a key_share extension is present. *)
Theorem parseClientHello_finds_sni ver random sid cs cm before after host :
  hello_wf ver random sid cs cm (before ++ sni_ext host :: after) →
  Forall (λ e, fst e ≠ 0) before → blen host + 5 < 65536 →
  let data := client_hello_bytes ver random sid cs cm (before ++ sni_ext host :: after) in
  ∃ pos, parseClientHello data =
      Ok (mkClientHello ver pos (blen host) (existsb is_key_share (before ++ after))) ∧
    slice data pos (pos + blen host) = Ok host.
Proof.
  intros Hwf Hbef Hh data.
  destruct (parse_sni_at ver random sid cs cm before after host Hwf Hbef Hh) as (Hp & Hs & _).
  eexists. split; [exact Hp|exact Hs].
Qed.

(** The host "a.co" in a TLS 1.3 hello with a key share and padding. *)
Definition host_a_co : list byte := [x61; x2e; x63; x6f].
Definition sample_hello : list byte :=
  client_hello_bytes [x03; x03] (replicate 32 x07) [] [x13; x01] [x00]
    ([(51, [x00; x00])] ++ sni_ext host_a_co :: [(21, [x00])]).

Lemma parseClientHello_finds_sni_witness :
  ∃ pos, parseClientHello sample_hello = Ok (mkClientHello [x03; x03] pos 4 true) ∧
    slice sample_hello pos (pos + 4) = Ok host_a_co.
Proof.
  apply (parseClientHello_finds_sni [x03; x03] (replicate 32 x07) [] [x13; x01] [x00]
           [(51, [x00; x00])] [(21, [x00])] host_a_co).
  - repeat split; try done; try (vm_compute; done). repeat constructor; vm_compute; done.
  - repeat constructor. done.
  - vm_compute. done.
Defined.

Lemma parseClientHello_in_bounds_witness :
  parseClientHello sample_hello = Ok (mkClientHello [x03; x03] 67 4 true) ∧
  ((67 = -1 ∧ 4 = 0) ∨ (49 <= 67 ∧ 0 <= 4 ∧ 67 + 4 <= blen sample_hello)).
Proof.
  split; [by vm_compute|].
  apply (parseClientHello_in_bounds sample_hello (mkClientHello [x03; x03] 67 4 true)). by vm_compute.
Defined.
