(* ===== verification/TLSSession.v ===== *)
(** The "tls-rf" session of [proxy/tls_fragment.go]: [handleTLSFragment] with its
    fallback, and what the fragmented ClientHello looks like on the wire. *)

From Stdlib Require Import Strings.Byte.
From S2P Require Import Prelude GoStrings GoNet GoBytes Types Hosts TLSFragment.

Open Scope Z_scope.
Open Scope go_scope.

(** * The session *)

(** auto_routing.go: [DialFallback], up to the address it dials. *)
Definition DialFallback (dial : string → bool) (fallbackMode targetAddr serverHost : string)
    : outcome string :=
  if bool_decide (fallbackMode = "server") then
    if negb (nonempty serverHost) then Err "server host not configured"
    else
      let a := ensureAddrWithPort serverHost "443" in
      if dial a then Ok a else Err "dial failed"
  else Err "unknown fallback".

Inductive tls_event :=
  | Upstream_ (a : wire_action)          (** on [upstreamConn] *)
  | ReadProbe                            (** one byte awaited from [upstreamConn] *)
  | FallbackWrite (data : list byte)     (** on the fallback connection *)
  | CloseClient
  | CloseUpstream
  | CloseFallback
  | TunnelUpstream (prepend : list byte) (** [directTunnel(client, upstream)] *)
  | TunnelFallback.                      (** [directTunnel(client, fallback)] *)

(** How the run ends: normally, or by a panic of the goroutine. *)
Inductive run_end := Returned | Crashed.

Section session.
(** The environment: what the client sends, the network of the upstream
    connection, the probe byte if the upstream answers within 5 s, the dialer
    and the network of the fallback connection, the configured server. *)
Context (client_stream : list byte).
Context (net_ok : list wire_action → wire_action → bool).
Context (probe : option byte).
Context (dial : string → bool).
Context (fallback_ok : list byte → bool).
Context (serverHost : string).

Definition handleTLSRFFallback (host : string) (rule : Rule) (originalRecord : list byte)
    : list tls_event :=
  let targetAddr := JoinHostPort host "443" in
  match DialFallback dial (r_FallbackMode rule) targetAddr serverHost with
  | Ok _ =>
      if fallback_ok originalRecord
      then [FallbackWrite originalRecord; TunnelFallback]
      else [CloseFallback; CloseClient]
  | _ => [CloseClient]
  end.

Definition handleTLSFragment (host : string) (rule : Rule) : run_end * list tls_event :=
  match readInitialTLSRecord client_stream with
  | Ok (record, _) =>
      match parseClientHello record with
      | Ok ch =>
          if (sniPos ch <=? 0) || (sniLen ch <=? 0) then
            if net_ok [] (Write record)
            then (Returned, [Upstream_ (Write record); TunnelUpstream []])
            else (Returned, [CloseClient; CloseUpstream])
          else
            let hasFallback := nonempty (r_FallbackMode rule) in
            let savedRecord := record in
            match sendRecords net_ok record (sniPos ch) (sniLen ch)
                    defaultTLSRFNumRecords defaultTLSRFNumSegments defaultTLSRFOOB
                    defaultTLSRFOOBEx defaultTLSRFModMinorVer defaultTLSRFSendInterval [] with
            | (Panic, log) => (Crashed, Upstream_ <$> log)
            | (Err _, log) =>
                (Returned, (Upstream_ <$> log) ++ CloseUpstream ::
                   (if hasFallback then handleTLSRFFallback host rule savedRecord
                    else [CloseClient]))
            | (Ok _, log) =>
                if hasFallback then
                  match probe with
                  | None => (Returned, (Upstream_ <$> log) ++ ReadProbe :: CloseUpstream ::
                               handleTLSRFFallback host rule savedRecord)
                  | Some b => (Returned, (Upstream_ <$> log) ++ [ReadProbe; TunnelUpstream [b]])
                  end
                else (Returned, (Upstream_ <$> log) ++ [TunnelUpstream []])
            end
      | Err _ => (Returned, [CloseClient; CloseUpstream])
      | Panic => (Crashed, [])
      end
  | Err _ => (Returned, [CloseClient; CloseUpstream])
  | Panic => (Crashed, [])
  end.
End session.

(** * What the wire carries *)

(** The receiver's view: a stream of TLS records as (first three header bytes,
    payload); [None] when the stream is not a whole number of records. *)
Fixpoint read_records (fuel : nat) (data : list byte) : option (list (list byte * list byte)) :=
  match data with
  | [] => Some []
  | t :: v1 :: v2 :: hi :: lo :: rest =>
      match fuel with
      | O => None
      | S fuel' =>
          let n := be16 hi lo in
          if n <=? blen rest then
            match read_records fuel' (drop (Z.to_nat n) rest) with
            | Some rs => Some (([t; v1; v2], take (Z.to_nat n) rest) :: rs)
            | None => None
            end
          else None
      end
  | _ => None
  end.

Lemma read_records_app fuel h p rest :
  length h = 3%nat → blen p < 65536 →
  read_records (S fuel) (makeRecord h p ++ rest) =
  match read_records fuel rest with Some rs => Some ((h, p) :: rs) | None => None end.
Proof.
  intros Hh Hp. destruct h as [|a [|b [|c [|]]]]; try discriminate Hh.
  pose proof (blen_nonneg p). destruct (be16_put16 (blen p)) as (hi & lo & Hput & Hbe); [lia|].
  unfold makeRecord. rewrite Hput. cbn [app take replicate]. cbn [read_records].
  rewrite Hbe, blen_app. pose proof (blen_nonneg rest). rewrite (proj2 (Z.leb_le _ _)) by lia.
  replace (Z.to_nat (blen p)) with (length p) by (unfold blen; lia).
  by rewrite take_app_length, drop_app_length.
Qed.

Lemma read_records_concat h parts : ∀ fuel, length h = 3%nat →
  Forall (λ p, blen p < 65536) parts → (length parts <= fuel)%nat →
  read_records fuel (concat (makeRecord h <$> parts)) = Some ((λ p, (h, p)) <$> parts).
Proof.
  induction parts as [|p parts IH]; intros fuel Hh Hall Hf; [by destruct fuel|].
  apply list.Forall_cons in Hall as [Hp Hall].
  destruct fuel as [|fuel]; [cbn in Hf; lia|]. rewrite fmap_cons. cbn [concat].
  rewrite read_records_app by done. rewrite IH; [done..|cbn in Hf; lia].
Qed.

(** ** Cutting *)

Lemma concat_pieces (data : list byte) base k :
  concat ((λ i, take base (drop (i * base) data)) <$> seq 0 k) = take (k * base) data.
Proof.
  induction k as [|k IH]; [done|]. rewrite seq_S, fmap_app, concat_app, IH. cbn [fmap list_fmap concat].
  rewrite app_nil_r. replace (S k * base)%nat with (k * base + base)%nat by lia.
  rewrite Nat.add_0_l. apply take_take_drop.
Qed.

(** The parts are a partition of the data, in order. *)
Lemma concat_split_parts data n : 1 <= n → concat (split_parts data n) = data.
Proof.
  intros Hn. unfold split_parts. rewrite (proj2 (Z.leb_gt n 0)) by lia.
  destruct ((n =? 1) || (blen data <? n)); [cbn; apply app_nil_r|].
  set (base := Z.to_nat (blen data / n)). set (k := (Z.to_nat n - 1)%nat).
  replace (Z.to_nat n) with (S k) by lia.
  rewrite seq_S, fmap_app, concat_app. cbn [fmap list_fmap concat].
  rewrite Nat.add_0_l, Nat.eqb_refl, app_nil_r.
  rewrite (list_fmap_ext _ (λ i, take base (drop (i * base) data)) (seq 0 k)).
  - rewrite concat_pieces. apply take_drop.
  - intros i x Hi. apply lookup_seq in Hi as [-> Hi].
    rewrite (proj2 (Nat.eqb_neq _ _)) by lia. done.
Qed.

Lemma length_split_parts data n : 1 <= n → (length (split_parts data n) <= Z.to_nat n)%nat.
Proof.
  intros Hn. unfold split_parts. rewrite (proj2 (Z.leb_gt n 0)) by lia.
  destruct (_ || _); [cbn; lia|]. by rewrite length_fmap, length_seq.
Qed.

Lemma blen_concat_part (ps : list (list byte)) p : p ∈ ps → blen p <= blen (concat ps).
Proof.
  intros Hp. apply list_elem_of_split in Hp as (l1 & l2 & ->).
  rewrite concat_app. cbn [concat]. rewrite !blen_app.
  pose proof (blen_nonneg (concat l1)). pose proof (blen_nonneg (concat l2)). lia.
Qed.

Lemma dot_loop_spec data pos n :
  0 <= pos → pos + Z.of_nat n <= blen data →
  (∃ i b, dot_loop data pos n = Ok (Some i) ∧ pos <= i < pos + Z.of_nat n ∧
     byte_at data i = Ok b ∧ bval b = 46) ∨
  (dot_loop data pos n = Ok None ∧
     ∀ i b, pos <= i < pos + Z.of_nat n → byte_at data i = Ok b → bval b ≠ 46).
Proof.
  intros Hpos. induction n as [|n IH]; intros Hn; cbn [dot_loop].
  - right. split; [done|]. intros. lia.
  - destruct (byte_at_ok data (pos + Z.of_nat n)) as [b Hb]; [lia|]. rewrite Hb. cbn [obind].
    destruct (Z.eqb_spec (bval b) 46) as [Hd|Hd].
    + left. exists (pos + Z.of_nat n), b. repeat split; try done; lia.
    + destruct IH as [(i & c & -> & Hi & Hc & Hv)|(-> & Hall)]; [lia|left|right].
      * exists i, c. repeat split; try done; lia.
      * split; [done|]. intros i c Hi Hc. destruct (Z.eq_dec i (pos + Z.of_nat n)) as [->|Hne].
        -- rewrite Hb in Hc. by injection Hc as <-.
        -- apply (Hall i c); [lia|done].
Qed.

(** Where the ClientHello is cut, for a name inside the data. *)
Lemma findLastDot_spec data pos len :
  0 <= pos → 0 <= len → pos + len < blen data →
  ∃ cut found, findLastDot data pos len = Ok (cut, found) ∧ pos <= cut <= pos + len ∧
    (found = true → ∃ b, byte_at data cut = Ok b ∧ bval b = 46) ∧
    (found = false → cut = pos + len / 2).
Proof.
  intros Hp Hl Hd. unfold findLastDot.
  destruct (dot_loop_spec data pos (Z.to_nat (len + 1))) as [(i & b & -> & Hi & Hb & Hv)|(-> & _)];
    [lia..| |]; cbn [obind].
  - exists i, true. repeat split; try done; try lia. eauto.
  - exists (len / 2 + pos), false. pose proof (Z.div_pos len 2). pose proof (Z.div_le_upper_bound len 2 len).
    repeat split; try done; lia.
Qed.

(** ** The default fragmentation *)

(** [sendRecords] as [handleTLSFragment] calls it, on a fresh connection. *)
Definition send_default (net_ok : list wire_action → wire_action → bool) (record : list byte)
    (pos len : Z) : outcome unit * list wire_action :=
  sendRecords net_ok record pos len defaultTLSRFNumRecords defaultTLSRFNumSegments
    defaultTLSRFOOB defaultTLSRFOOBEx defaultTLSRFModMinorVer defaultTLSRFSendInterval [].

Lemma blen_mod_minor b data : blen (mod_minor b data) = blen data.
Proof. unfold mod_minor, blen. destruct (_ && _); [by rewrite length_insert|done]. Qed.

Lemma drop_mod_minor b data k : (3 <= k)%nat → drop k (mod_minor b data) = drop k data.
Proof.
  intros Hk. unfold mod_minor. destruct (_ && _); [|done]. apply drop_insert_lt. lia.
Qed.

Lemma slice_eq data i j : 0 <= i <= j → j <= blen data →
  slice data i j = Ok (take (Z.to_nat (j - i)) (drop (Z.to_nat i) data)).
Proof. intros Hi Hj. unfold slice. by rewrite !(proj2 (Z.leb_le _ _)) by lia. Qed.

(** The payloads of the records: the handshake bytes up to the cut in (at most)
    two parts, those from the cut on in (at most) two parts. *)
Definition left_parts (data : list byte) (cut : Z) : list (list byte) :=
  split_parts (take (Z.to_nat (cut - 5)) (drop 5 data)) 2.
Definition right_parts (data : list byte) (cut : Z) : list (list byte) :=
  split_parts (drop (Z.to_nat cut) data) 2.

Lemma send_default_eq net_ok data pos len cut found :
  5 <= pos → 0 <= len → pos + len < blen data → pos <= cut <= pos + len →
  let d := mod_minor true data in
  findLastDot d pos len = Ok (cut, found) →
  let wire := concat (makeRecord (take 3 d) <$> (left_parts d cut ++ right_parts d cut)) in
  send_default net_ok data pos len =
  if net_ok [] (Write wire) then (Ok tt, [Write wire]) else (Err "", []).
Proof.
  intros Hpos Hlen Hd Hcut d Hf wire. pose proof (blen_mod_minor true data) as Hbl. fold d in Hbl.
  unfold send_default, sendRecords. unfold defaultTLSRFModMinorVer. fold d.
  change (defaultTLSRFNumRecords =? 1) with false. cbv iota zeta.
  unfold io_bind, io_lift, io_ret. rewrite Hf. cbn [fst].
  rewrite !slice_eq by lia. change (Z.to_nat 0) with 0%nat. rewrite drop_0.
  change (Z.to_nat (3 - 0)) with 3%nat. change (Z.to_nat 5) with 5%nat.
  change (defaultTLSRFNumSegments =? -1) with false.
  change (defaultTLSRFNumSegments =? 1) with true. unfold defaultTLSRFOOBEx.
  change (defaultTLSRFNumRecords / 2) with 2. change (defaultTLSRFNumRecords - 2) with 2.
  cbv iota beta. cbn [orb]. unfold perform, splitAndAppend. cbn [app].
  rewrite (take_ge (drop (Z.to_nat cut) d)) by (unfold blen in *; rewrite length_drop; lia).
  rewrite <- fmap_app. fold (left_parts d cut) (right_parts d cut) wire.
  by destruct (net_ok [] (Write wire)).
Qed.

(** The two halves make up the handshake bytes, which [mod_minor] leaves alone. *)
Lemma concat_halves data cut : 5 <= cut <= blen data →
  concat (left_parts data cut) = take (Z.to_nat (cut - 5)) (drop 5 data) ∧
  concat (right_parts data cut) = drop (Z.to_nat cut) data ∧
  concat (left_parts data cut ++ right_parts data cut) = drop 5 data.
Proof.
  intros Hc. unfold left_parts, right_parts. rewrite concat_app, !concat_split_parts by lia.
  repeat split; try done.
  rewrite <- (take_drop (Z.to_nat (cut - 5)) (drop 5 data)) at 2. f_equal.
  rewrite drop_drop. f_equal. lia.
Qed.

Lemma halves_wf data cut : 5 <= cut <= blen data → blen data <= 5 + 65535 →
  Forall (λ p, blen p < 65536) (left_parts data cut ++ right_parts data cut) ∧
  (length (left_parts data cut ++ right_parts data cut) <= 4)%nat.
Proof.
  intros Hc Hmax. split.
  - apply Forall_forall. intros p Hp.
    apply list_elem_of_In, blen_concat_part in Hp.
    destruct (concat_halves data cut Hc) as (_ & _ & Heq). rewrite Heq in Hp.
    unfold blen in *. rewrite length_drop in Hp. lia.
  - rewrite length_app. unfold left_parts, right_parts.
    pose proof (length_split_parts (take (Z.to_nat (cut - 5)) (drop 5 data)) 2).
    pose proof (length_split_parts (drop (Z.to_nat cut) data) 2). lia.
Qed.

(** C3: the fragmented ClientHello is the ClientHello. For a record of at most
    65535 handshake bytes and a name inside it, the default settings perform one
    write; a TLS receiver reads that write as at most four records, all with the
    original record's type and major version and minor version 4, whose payloads
    concatenated are exactly the handshake bytes of the original record. *)
Theorem fragmentation_reassembles net_ok data pos len :
  5 <= pos → 0 <= len → pos + len < blen data → blen data <= 5 + 65535 →
  ∃ wire parts, send_default net_ok data pos len =
      (if net_ok [] (Write wire) then (Ok tt, [Write wire]) else (Err "", [])) ∧
    read_records 4 wire = Some ((λ p, (take 3 (<[2%nat:=x04]> data), p)) <$> parts) ∧
    concat parts = drop 5 data ∧ (length parts <= 4)%nat.
Proof.
  intros Hpos Hlen Hd Hmax. set (d := mod_minor true data).
  assert (Hbl : blen d = blen data) by apply blen_mod_minor.
  assert (Hd2 : d = <[2%nat:=x04]> data)
    by (subst d; unfold mod_minor; by rewrite (proj2 (Z.leb_le 3 _)) by lia).
  destruct (findLastDot_spec d pos len) as (cut & found & Hf & Hcut & _); [lia..|].
  destruct (halves_wf d cut) as [Hsmall Hfour]; [lia..|].
  exists (concat (makeRecord (take 3 d) <$> (left_parts d cut ++ right_parts d cut))),
    (left_parts d cut ++ right_parts d cut).
  split; [by apply (send_default_eq net_ok data pos len cut found)|].
  split; [|split; [|done]].
  - rewrite <- Hd2. apply read_records_concat; [|done|done].
    rewrite length_take. unfold blen in *. lia.
  - destruct (concat_halves d cut) as (_ & _ & ->); [lia|]. apply drop_mod_minor. lia.
Qed.

(** C4: no record shows the whole server name. When the name has at least two
    bytes, its last dot is not its first byte and the byte after it is not a dot
    (so the cut falls strictly inside it), the records split into two groups:
    the payloads of the first group stop strictly before the end of the name,
    those of the second start strictly after its beginning. *)
Theorem sni_never_in_one_record net_ok data pos len :
  5 <= pos → 2 <= len → pos + len < blen data →
  (∀ b, byte_at data pos = Ok b → bval b ≠ 46) →
  (∀ b, byte_at data (pos + len) = Ok b → bval b ≠ 46) →
  ∃ cut left right, pos < cut < pos + len ∧
    send_default net_ok data pos len =
      (let wire := concat (makeRecord (take 3 (mod_minor true data)) <$> (left ++ right)) in
       if net_ok [] (Write wire) then (Ok tt, [Write wire]) else (Err "", [])) ∧
    concat left = take (Z.to_nat (cut - 5)) (drop 5 data) ∧
    concat right = drop (Z.to_nat cut) data.
Proof.
  intros Hpos Hlen Hd Hfirst Hnext. set (d := mod_minor true data).
  assert (Hbl : blen d = blen data) by apply blen_mod_minor.
  assert (Hat : ∀ i, 3 <= i → byte_at d i = byte_at data i).
  { intros i Hi. unfold byte_at. rewrite (proj2 (Z.leb_le 0 i)) by lia.
    pose proof (drop_mod_minor true data (Z.to_nat i) ltac:(lia)) as Hdr. fold d in Hdr.
    f_equal. rewrite <- (Nat.add_0_r (Z.to_nat i)), <- !lookup_drop. by rewrite Hdr. }
  destruct (findLastDot_spec d pos len) as (cut & found & Hf & Hcut & Hdot & Hmid); [lia..|].
  assert (Hin : pos < cut < pos + len).
  { destruct found.
    - destruct (Hdot eq_refl) as (b & Hb & Hv). rewrite Hat in Hb by lia.
      destruct (Z.eq_dec cut pos) as [->|]; [by destruct (Hfirst b)|].
      destruct (Z.eq_dec cut (pos + len)) as [->|]; [by destruct (Hnext b)|]. lia.
    - rewrite Hmid by done. pose proof (Z.div_le_lower_bound len 2 1).
      pose proof (Z.div_lt len 2). lia. }
  destruct (concat_halves d cut) as (Hl & Hr & _); [lia|].
  exists cut, (left_parts d cut), (right_parts d cut). split; [done|].
  split; [by apply (send_default_eq net_ok data pos len cut found); (done || lia)|].
  rewrite Hl, Hr. unfold d. rewrite !drop_mod_minor by lia. done.
Qed.

(** ** The crash *)

(** [findLastDot] reads one byte past the name; at the end of the record that
    index is out of range. *)
Lemma findLastDot_at_end data pos len :
  0 <= pos → 0 <= len → pos + len = blen data → findLastDot data pos len = Panic.
Proof.
  intros Hp Hl Hd. unfold findLastDot.
  replace (Z.to_nat (len + 1)) with (S (Z.to_nat len)) by lia. cbn [dot_loop].
  unfold byte_at. rewrite (proj2 (Z.leb_le _ _)) by lia.
  rewrite lookup_ge_None_2 by (unfold blen in Hd; lia). done.
Qed.

Lemma send_default_at_end net_ok data pos len :
  0 <= pos → 0 <= len → pos + len = blen data → send_default net_ok data pos len = (Panic, []).
Proof.
  intros Hp Hl Hd. unfold send_default, sendRecords.
  change (defaultTLSRFNumRecords =? 1) with false. cbv iota zeta.
  unfold io_bind at 1, io_lift at 1. rewrite findLastDot_at_end; [done..|by rewrite blen_mod_minor].
Qed.

(** Whether it crashes depends only on where the name ends. *)
Lemma send_default_cases net_ok data pos len :
  5 <= pos → 0 <= len → pos + len <= blen data →
  (pos + len = blen data ∧ send_default net_ok data pos len = (Panic, [])) ∨
  (pos + len < blen data ∧ ∃ wire, send_default net_ok data pos len =
     if net_ok [] (Write wire) then (Ok tt, [Write wire]) else (Err "", [])).
Proof.
  intros Hp Hl Hd. destruct (Z.eq_dec (pos + len) (blen data)) as [He|Hne].
  - left. split; [done|]. apply send_default_at_end; lia.
  - right. split; [lia|]. set (d := mod_minor true data).
    destruct (findLastDot_spec d pos len) as (cut & found & Hf & Hcut & _);
      [lia..|unfold d; rewrite blen_mod_minor; lia|].
    eexists. by apply (send_default_eq net_ok data pos len cut found); (done || lia).
Qed.

Lemma readInitialTLSRecord_app hdr n payload rest :
  length hdr = 3%nat → n = blen payload → n < 65536 →
  readInitialTLSRecord ((hdr ++ put16 n ++ payload) ++ rest) = Ok (hdr ++ put16 n ++ payload, rest).
Proof.
  intros Hh -> Hn. pose proof (blen_nonneg payload). pose proof (blen_nonneg rest).
  assert (Hb3 : blen hdr = 3) by (unfold blen; lia).
  unfold readInitialTLSRecord, tlsRecordHeaderLen. unfold guard_err at 1.
  rewrite (proj2 (Z.ltb_ge _ _)) by (rewrite !blen_app, blen_put16; lia). cbn [obind].
  replace (take 5 _) with (hdr ++ put16 (blen payload)).
  2:{ rewrite <- !app_assoc. rewrite (app_assoc hdr). by rewrite take_app_length' by (rewrite length_app, length_put16; lia). }
  replace (drop 5 _) with (payload ++ rest).
  2:{ rewrite <- !app_assoc, (app_assoc hdr). by rewrite drop_app_length' by (rewrite length_app, length_put16; lia). }
  rewrite (u16_at_field _ hdr (blen payload) []) by (rewrite ?app_nil_r; done || lia). cbn [obind].
  unfold guard_err. rewrite blen_app, (proj2 (Z.ltb_ge (blen payload + blen rest) _)) by lia.
  rewrite andb_false_r. cbn [obind].
  replace (Z.to_nat (blen payload)) with (length payload) by (unfold blen; lia).
  by rewrite take_app_length, drop_app_length, <- app_assoc.
Qed.

Lemma readInitialTLSRecord_prefix stream r rest :
  readInitialTLSRecord stream = Ok (r, rest) → stream = r ++ rest.
Proof.
  unfold readInitialTLSRecord. intros H. ok_inv.
  rewrite <- app_assoc, take_drop. symmetry. apply take_drop.
Qed.

(** A ClientHello whose last extension is the server name crashes the
    connection's goroutine. For every well-formed ClientHello whose extension
    list ends with [server_name], followed by any further bytes, the "tls-rf"
    handler panics in [findLastDot] (index equal to the record's length) before
    a byte is sent, and neither the client nor the upstream connection is
    closed or tunnelled. *)
Theorem sni_last_extension_crashes ver random sid cs cm before host more
    net_ok probe dial fallback_ok serverHost target rule :
  hello_wf ver random sid cs cm (before ++ [sni_ext host]) →
  Forall (λ e, fst e ≠ 0) before → host ≠ [] → blen host + 5 < 65536 →
  handleTLSFragment (client_hello_bytes ver random sid cs cm (before ++ [sni_ext host]) ++ more)
    net_ok probe dial fallback_ok serverHost target rule = (Crashed, []).
Proof.
  intros Hwf Hbef Hne Hh.
  destruct (parse_sni_at ver random sid cs cm before [] host Hwf Hbef Hh) as (Hparse & _ & Hend).
  set (data := client_hello_bytes _ _ _ _ _ _) in *. set (pos := _ + 9) in *.
  assert (Hpos : 49 <= pos).
  { destruct (post_Ok _ _ _ (parseClientHello_post data) Hparse) as [[Hm _]|[? _]];
      cbn [sniPos] in *; [|done].
    pose proof (blen_nonneg (encode_exts before)).
    pose proof (blen_nonneg (hello_prefix ver random sid cs cm (encode_exts (before ++ [sni_ext host])))).
    unfold pos in Hm. lia. }
  assert (Hread : readInitialTLSRecord (data ++ more) = Ok (data, more)).
  { destruct Hwf as (_ & _ & _ & _ & _ & Hlen). apply readInitialTLSRecord_app; [done| |done].
    rewrite !blen_app, blen_put24, blen_1. lia. }
  assert (0 < blen host) by (destruct host; [done|]; unfold blen; cbn [length]; lia).
  unfold handleTLSFragment. rewrite Hread, Hparse. cbn [sniPos sniLen].
  rewrite !(proj2 (Z.leb_gt _ _)) by lia. cbn [orb].
  fold (send_default net_ok data pos (blen host)).
  rewrite send_default_at_end; [done|lia|lia|].
  change (blen (encode_exts [])) with 0 in Hend. lia.
Qed.

Definition crash_hello : list byte :=
  client_hello_bytes [x03; x03] (replicate 32 x07) [] [x13; x01] [x00] ([(51, [x00; x00])] ++ [sni_ext host_a_co]).

Lemma sni_last_extension_crashes_witness :
  handleTLSFragment (crash_hello ++ [x17]) (λ _ _, true) None (λ _, true) (λ _, true) "" "a.co"
    (Rule_mode "tls-rf" false) = (Crashed, []).
Proof.
  apply (sni_last_extension_crashes [x03; x03] (replicate 32 x07) [] [x13; x01] [x00]
           [(51, [x00; x00])] host_a_co [x17]).
  - repeat split; try (vm_compute; done). repeat constructor; vm_compute; done.
  - repeat constructor. done.
  - done.
  - vm_compute. done.
Defined.

(** ** Sessions that do not crash *)

Definition client_settled (e : tls_event) : bool :=
  match e with CloseClient | TunnelUpstream _ | TunnelFallback => true | _ => false end.
Definition upstream_settled (e : tls_event) : bool :=
  match e with CloseUpstream | TunnelUpstream _ => true | _ => false end.
Definition count_events (p : tls_event → bool) (l : list tls_event) : nat :=
  length (List.filter p l).

Lemma count_events_app p a b : count_events p (a ++ b) = (count_events p a + count_events p b)%nat.
Proof. unfold count_events. by rewrite filter_app, length_app. Qed.

Lemma fallback_settles dial fb sh host rule r :
  count_events client_settled (handleTLSRFFallback dial fb sh host rule r) = 1%nat ∧
  count_events upstream_settled (handleTLSRFFallback dial fb sh host rule r) = 0%nat.
Proof. unfold handleTLSRFFallback. repeat case_match; done. Qed.

Section session_lemmas.
Context (client_stream : list byte) (net_ok : list wire_action → wire_action → bool).
Context (probe : option byte) (dial : string → bool) (fallback_ok : list byte → bool).
Context (serverHost : string) (host : string) (rule : Rule).
Notation session := (handleTLSFragment client_stream net_ok probe dial fallback_ok serverHost host rule).
Notation fallback := (handleTLSRFFallback dial fallback_ok serverHost host rule).

(** Every run of the handler, by what the client sent. *)
Lemma session_cases :
  session = (Returned, [CloseClient; CloseUpstream]) ∨
  ∃ record rest ch, readInitialTLSRecord client_stream = Ok (record, rest) ∧
    parseClientHello record = Ok ch ∧
    ((sniLen ch <= 0 ∧ session = (Returned, [Upstream_ (Write record); TunnelUpstream []])) ∨
     (49 <= sniPos ch ∧ sniPos ch + sniLen ch = blen record ∧ session = (Crashed, [])) ∨
     (∃ wire, session = (Returned, Upstream_ (Write wire) ::
        if nonempty (r_FallbackMode rule) then
          match probe with
          | None => ReadProbe :: CloseUpstream :: fallback record
          | Some b => [ReadProbe; TunnelUpstream [b]]
          end
        else [TunnelUpstream []])) ∨
     session = (Returned, CloseUpstream ::
        if nonempty (r_FallbackMode rule) then fallback record else [CloseClient])).
Proof.
  unfold handleTLSFragment.
  destruct (readInitialTLSRecord client_stream) as [[record rest]|e|] eqn:Hr; [|by left|].
  2:{ exfalso. revert Hr. unfold readInitialTLSRecord, guard_err.
      destruct (blen client_stream <? _) eqn:Hl; [done|]. cbn [obind].
      unfold tlsRecordHeaderLen in Hl. bool_prop.
      destruct (u16_at_ok (take 5 client_stream) 3) as (v & -> & _);
        [lia|unfold blen in *; rewrite length_take; lia|]. cbn. by destruct (_ && _). }
  destruct (parseClientHello record) as [ch|e|] eqn:Hp; [|by left|].
  2:{ exfalso. exact (post_no_panic _ _ (parseClientHello_post record) Hp). }
  pose proof (post_Ok _ _ _ (parseClientHello_post record) Hp) as Hrange.
  destruct ((sniPos ch <=? 0) || (sniLen ch <=? 0)) eqn:Hz.
  - assert (sniLen ch <= 0).
    { apply orb_true_iff in Hz as [Hz|Hz]; bool_prop; destruct Hrange; lia. }
    destruct (net_ok [] (Write record)); [|by left]. right. exists record, rest, ch. auto.
  - bool_prop. right. exists record, rest, ch. split; [done|]. split; [done|].
    fold (send_default net_ok record (sniPos ch) (sniLen ch)). right.
    destruct Hrange as [[? ?]|(Hlo & Hnn & Hhi)]; [lia|].
    destruct (send_default_cases net_ok record (sniPos ch) (sniLen ch)) as [[He ->]|[_ [wire ->]]];
      [lia..| |].
    + left. by auto.
    + destruct (net_ok [] (Write wire)).
      * right; left. exists wire. by destruct (nonempty _), probe.
      * right; right. done.
Qed.
End session_lemmas.

(** C5: a session that does not crash leaks no connection, whatever the client
    sends and however the networks behave: the client connection is closed or
    handed to one tunnel exactly once, and so is the upstream connection. *)
Theorem tls_session_settles stream net_ok probe dial fb sh host rule evs :
  handleTLSFragment stream net_ok probe dial fb sh host rule = (Returned, evs) →
  count_events client_settled evs = 1%nat ∧ count_events upstream_settled evs = 1%nat.
Proof.
  intros H. destruct (session_cases stream net_ok probe dial fb sh host rule)
    as [Hs|(rec & rest & ch & _ & _ & [[_ Hs]|[(_ & _ & Hs)|[(wire & Hs)|Hs]]])];
    rewrite Hs in H; try discriminate H; injection H as <-; try done.
  - destruct (nonempty _); [|done]. destruct probe; [done|].
    destruct (fallback_settles dial fb sh host rule rec) as [Hc Hu].
    split; [exact Hc|]. unfold count_events in *. cbn. by rewrite Hu.
  - destruct (nonempty _); [|done]. destruct (fallback_settles dial fb sh host rule rec) as [Hc Hu].
    split; [exact Hc|]. unfold count_events in *. cbn. by rewrite Hu.
Qed.

Lemma tls_session_settles_witness :
  count_events client_settled [CloseUpstream; FallbackWrite sample_hello; TunnelFallback] = 1%nat ∧
  count_events upstream_settled [CloseUpstream; FallbackWrite sample_hello; TunnelFallback] = 1%nat.
Proof.
  apply (tls_session_settles sample_hello (λ _ _, false) None (λ _, true) (λ _, true) "proxy.example" "a.co"
           (set_FallbackMode (Rule_mode "tls-rf" true) "server")). vm_compute. reflexivity.
Defined.

(** The fallback transport receives what the client sent, not the mangled
    copy: every record written to the fallback connection is a prefix of the
    client's stream, although [sendRecords] rewrites the record's version byte
    in place. *)
Theorem fallback_sends_original stream net_ok probe dial fb sh host rule d :
  FallbackWrite d ∈ snd (handleTLSFragment stream net_ok probe dial fb sh host rule) →
  ∃ rest, stream = d ++ rest ∧ readInitialTLSRecord stream = Ok (d, rest).
Proof.
  assert (Hfb : ∀ r, FallbackWrite d ∈ handleTLSRFFallback dial fb sh host rule r → d = r).
  { intros r. unfold handleTLSRFFallback. repeat case_match; set_solver. }
  destruct (session_cases stream net_ok probe dial fb sh host rule)
    as [Hs|(rec & rest & ch & Hr & _ & Hcase)]; [rewrite Hs; set_solver|].
  intros Hin. exists rest. enough (d = rec) as ->.
  { split; [by apply readInitialTLSRecord_prefix|done]. }
  destruct Hcase as [[_ Hs]|[(_ & _ & Hs)|[(wire & Hs)|Hs]]]; rewrite Hs in Hin; cbn [snd] in Hin.
  - set_solver.
  - set_solver.
  - destruct (nonempty _); [|set_solver]. destruct probe; [set_solver|].
    rewrite !elem_of_cons in Hin. destruct Hin as [?|[?|[?|?]]]; [done..|auto].
  - destruct (nonempty _); [|set_solver].
    rewrite elem_of_cons in Hin. destruct Hin as [?|?]; [done|auto].
Qed.

Lemma fallback_sends_original_witness :
  ∃ rest, sample_hello ++ [x17] = sample_hello ++ rest ∧
    readInitialTLSRecord (sample_hello ++ [x17]) = Ok (sample_hello, rest).
Proof.
  apply (fallback_sends_original (sample_hello ++ [x17]) (λ _ _, true) None (λ _, true) (λ _, true)
           "proxy.example" "a.co" (set_FallbackMode (Rule_mode "tls-rf" true) "server") sample_hello).
  assert (Hev : snd (handleTLSFragment (sample_hello ++ [x17]) (λ _ _, true) None (λ _, true) (λ _, true)
           "proxy.example" "a.co" (set_FallbackMode (Rule_mode "tls-rf" true) "server")) !! 3%nat
         = Some (FallbackWrite sample_hello)) by (vm_compute; reflexivity).
  exact (list_elem_of_lookup_2 _ _ _ Hev).
Defined.

Lemma fragmentation_reassembles_witness :
  ∃ wire parts, send_default (λ _ _, true) sample_hello 67 4 = (Ok tt, [Write wire]) ∧
    read_records 4 wire = Some ((λ p, (take 3 (<[2%nat:=x04]> sample_hello), p)) <$> parts) ∧
    concat parts = drop 5 sample_hello ∧ (length parts <= 4)%nat.
Proof.
  apply (fragmentation_reassembles (λ _ _, true) sample_hello 67 4); vm_compute; congruence || done.
Defined.

Lemma sni_never_in_one_record_witness :
  ∃ cut left right, 67 < cut < 67 + 4 ∧
    send_default (λ _ _, true) sample_hello 67 4 =
      (Ok tt, [Write (concat (makeRecord (take 3 (mod_minor true sample_hello)) <$> (left ++ right)))]) ∧
    concat left = take (Z.to_nat (cut - 5)) (drop 5 sample_hello) ∧
    concat right = drop (Z.to_nat cut) sample_hello.
Proof.
  apply (sni_never_in_one_record (λ _ _, true) sample_hello 67 4); [lia..|by vm_compute| |].
  - intros b Hb. vm_compute in Hb. injection Hb as <-. by vm_compute.
  - intros b Hb. vm_compute in Hb. injection Hb as <-. by vm_compute.
Defined.
