(* ===== verification/CFPool.v ===== *)
(** [proxy/cf_pool.go]: the pool of Cloudflare addresses.

    [allIPs] maps an address to a pointer to its statistics and [activeIPs] is a
    slice of such pointers: both alias the same objects, so the objects live in
    an explicit store.  The pool's mutex is part of the state; a critical section
    that returns without unlocking leaves [mu_held], and every operation that
    must then acquire the mutex blocks ([None]).  The strings [Latency] and
    [LastCheck], which the code only renders for display, are left out. *)

From S2P Require Import Prelude GoStrings GoNet.

Open Scope Z_scope.

Definition second : Z := 1000000000.
Definition minute : Z := 60 * second.

(** * State *)

Record IPStats := mkIPStats {
  st_IP : string;
  st_Failures : Z;
  st_latencyVal : Z;
  st_lastCheckTime : Z;
}.

Record CloudflarePool := mkPool {
  heap : gmap nat IPStats;         (** the IPStats objects *)
  next : nat;                      (** the next free address of the store *)
  allIPs : gmap string nat;
  activeIPs : list nat;
  running : bool;
  checkRunning : bool;
  mu_held : bool;
}.

Definition healthy (st : IPStats) : bool := (0 <? st_latencyVal st) && (st_Failures st <? 3).

Definition set_stats (p : CloudflarePool) (l : nat) (st : IPStats) : CloudflarePool :=
  mkPool (<[l:=st]> (heap p)) (next p) (allIPs p) (activeIPs p) (running p) (checkRunning p) (mu_held p).

Definition set_active (p : CloudflarePool) (act : list nat) : CloudflarePool :=
  mkPool (heap p) (next p) (allIPs p) act (running p) (checkRunning p) (mu_held p).

Definition set_all (p : CloudflarePool) (m : gmap string nat) : CloudflarePool :=
  mkPool (heap p) (next p) m (activeIPs p) (running p) (checkRunning p) (mu_held p).

Definition set_running (p : CloudflarePool) (b : bool) : CloudflarePool :=
  mkPool (heap p) (next p) (allIPs p) (activeIPs p) b (checkRunning p) (mu_held p).

Definition set_checkRunning (p : CloudflarePool) (b : bool) : CloudflarePool :=
  mkPool (heap p) (next p) (allIPs p) (activeIPs p) (running p) b (mu_held p).

(** The mutex is not released. *)
Definition leak_lock (p : CloudflarePool) : CloudflarePool :=
  mkPool (heap p) (next p) (allIPs p) (activeIPs p) (running p) (checkRunning p) true.

(** [p.mu.Lock()] or [RLock()], a critical section, and the unlock. *)
Definition locked {A} (p : CloudflarePool) (a : A) : option A :=
  if mu_held p then None else Some a.

Definition latency_of (p : CloudflarePool) (l : nat) : Z :=
  match heap p !! l with Some st => st_latencyVal st | None => 0 end.

(** The order of [sort.Slice(.., latencyVal <)]. *)
Definition by_latency (p : CloudflarePool) (a b : nat) : Prop := latency_of p a <= latency_of p b.

#[export] Instance by_latency_dec p : RelDecision (by_latency p).
Proof. intros a b. unfold by_latency. apply _. Defined.
#[export] Instance by_latency_total p : Total (by_latency p).
Proof. intros a b. unfold by_latency. lia. Qed.
#[export] Instance by_latency_trans p : Transitive (by_latency p).
Proof. intros a b c. unfold by_latency. lia. Qed.

(** [GetAllIPsWithStats]'s order: zero latencies last. *)
Definition zero_last (p : CloudflarePool) (a b : nat) : Prop :=
  latency_of p b = 0 ∨ (latency_of p a ≠ 0 ∧ latency_of p a <= latency_of p b).

#[export] Instance zero_last_dec p : RelDecision (zero_last p).
Proof. intros a b. unfold zero_last. apply _. Defined.

(** The iteration order of a Go map is unspecified: [range m] is any enumeration
    of the map. *)
Class MapRange := {
  range : gmap string nat → list (string * nat);
  range_perm m : range m ≡ₚ map_to_list m;
}.

#[export] Instance map_to_list_range : MapRange | 100 :=
  {| range m := map_to_list m; range_perm m := reflexivity _ |}.

(** ** Addresses from the web *)

(** The decoded answer; of its entries only the addresses. *)
Record cfApiResponse := mkApiResponse {
  api_Status : bool;
  api_Code : Z;
  api_Msg : string;
  api_Info : gmap string (list string);
}.

(** [get]: the body behind a URL; [visit]: the order in which Go goes through the map. *)
Definition FetchCloudflareIPs (get : string → option string) (Unmarshal : string → option cfApiResponse)
    (visit : gmap string (list string) → list (string * list string)) (apiKey : string) : outcome (list string) :=
  let apiKey := if bool_decide (apiKey = "") then "o1zrmHAF" else apiKey in
  match get ("https://www.wetest.vip/api/cf2dns/get_cloudflare_ip?key=" +:+ apiKey +:+ "&type=v4") with
  | None => Err "get"
  | Some body =>
      match Unmarshal body with
      | None => Err "failed to parse API response"
      | Some apiRes =>
          if negb (api_Status apiRes) || negb (api_Code apiRes =? 200) then Err "API error"
          else Ok (List.filter (λ ip, negb (bool_decide (ip = ""))) (concat (snd <$> visit (api_Info apiRes))))
      end
  end.

(** A fetch gives exactly the addresses of an answer that says it is one. *)
Lemma FetchCloudflareIPs_spec get Unmarshal visit apiKey ips :
  (∀ m, visit m ≡ₚ map_to_list m) → FetchCloudflareIPs get Unmarshal visit apiKey = Ok ips →
  ∃ url body apiRes, get url = Some body ∧ Unmarshal body = Some apiRes ∧ api_Status apiRes = true ∧ api_Code apiRes = 200 ∧
    ∀ ip, ip ∈ ips ↔ ip ≠ "" ∧ ∃ line l, api_Info apiRes !! line = Some l ∧ ip ∈ l.
Proof.
  intros Hv. unfold FetchCloudflareIPs. destruct (get _) as [body|] eqn:Hg; [|done]. destruct (Unmarshal body) as [apiRes|] eqn:Hu; [|done].
  destruct (api_Status apiRes) eqn:Hst; [|done]. destruct (api_Code apiRes =? 200) eqn:Hc; [|done]. intros [= <-].
  eexists _, body, apiRes. split_and!; [exact Hg|done|done|by apply Z.eqb_eq|]. intros ip.
  rewrite list_elem_of_In, filter_In, <- list_elem_of_In, negb_true_iff, bool_decide_eq_false, list_elem_of_In, in_concat. split.
  - intros [(l & Hl & Hin) Hne]. split; [done|]. apply list_elem_of_In, list_elem_of_fmap in Hl as ([line l'] & -> & Hl).
    rewrite Hv, elem_of_map_to_list in Hl. exists line, l'. split; [done|]. by apply list_elem_of_In.
  - intros [Hne (line & l & Hl & Hin)]. split; [|done]. exists l. split; [|by apply list_elem_of_In].
    apply list_elem_of_In, list_elem_of_fmap. exists (line, l). split; [done|]. by rewrite Hv, elem_of_map_to_list.
Qed.

Section pool.
Context `{MR : MapRange}.

(** * Operations *)

Definition is_healthy_ptr (p : CloudflarePool) (l : nat) : bool :=
  match heap p !! l with Some st => healthy st | None => false end.

(** The filter-and-sort that [UpdateIPs] and [rebuildActiveIPs] share. *)
Definition fresh_active (p : CloudflarePool) : list nat :=
  merge_sort (by_latency p) (List.filter (is_healthy_ptr p) (snd <$> range (allIPs p))).

Definition rebuildActiveIPs (p : CloudflarePool) : option CloudflarePool :=
  locked p (set_active p (fresh_active p)).

(** The loop of [UpdateIPs] over the configured strings; [old] is [p.allIPs]. *)
Fixpoint update_map (old : gmap string nat) (ips : list string)
    (acc : gmap nat IPStats * nat * gmap string nat) : gmap nat IPStats * nat * gmap string nat :=
  match ips with
  | [] => acc
  | ip :: ips' =>
      let ip := TrimSpace ip in
      let '(h, n, m) := acc in
      if negb (bool_decide (ip = "")) then
        match old !! ip with
        | Some l => update_map old ips' (h, n, <[ip:=l]> m)
        | None => update_map old ips' (<[n:=mkIPStats ip 0 0 0]> h, S n, <[ip:=n]> m)
        end
      else update_map old ips' acc
  end.

Definition UpdateIPs (ips : list string) (p : CloudflarePool) : option CloudflarePool :=
  let '(h, n, m) := update_map (allIPs p) ips (heap p, next p, ∅) in
  let p1 := mkPool h n m (activeIPs p) (running p) (checkRunning p) (mu_held p) in
  locked p (set_active p1 (fresh_active p1)).

(** [NewCloudflarePool]. *)
Definition empty_pool : CloudflarePool := mkPool ∅ 0 ∅ [] false false false.
Definition NewCloudflarePool (ips : list string) : option CloudflarePool := UpdateIPs ips empty_pool.

(** [Start]: true when the health-check goroutine is spawned. *)
Definition Start (p : CloudflarePool) : option (bool * CloudflarePool) :=
  locked p (if running p then (false, p) else (true, set_running p true)).

(** [Stop]: true when the stop channel is closed. *)
Definition Stop (p : CloudflarePool) : option (bool * CloudflarePool) :=
  locked p (if running p then (true, set_running p false) else (false, p)).

(** The fallback loop of [GetTopIPs]: append, count, then test the count. *)
Fixpoint first_keys (n i : nat) (l : list (string * nat)) : list string :=
  match l with
  | [] => []
  | (ip, _) :: l' => ip :: (if (n <=? S i)%nat then [] else first_keys n (S i) l')
  end.

Definition GetTopIPs (n : nat) (p : CloudflarePool) : option (list string) :=
  let count := length (activeIPs p) in
  locked p
    (if (count =? 0)%nat then first_keys n 0 (range (allIPs p))
     else omap (λ l, st_IP <$> heap p !! l) (take (if (count <? n)%nat then count else n) (activeIPs p))).

Definition GetAllIPsWithStats (p : CloudflarePool) : option (list IPStats) :=
  locked p (omap (λ l, heap p !! l) (merge_sort (zero_last p) (snd <$> range (allIPs p)))).

(** [RemoveInvalidIPs] up to its unlock: the count and the pruned map. *)
Definition is_invalid (p : CloudflarePool) (l : nat) : bool :=
  match heap p !! l with Some st => 3 <=? st_Failures st | None => false end.

Definition prune_invalid (p : CloudflarePool) : option (nat * CloudflarePool) :=
  let bad := List.filter (λ kv, is_invalid p (snd kv)) (range (allIPs p)) in
  locked p (length bad, set_all p (filter (λ kv, is_invalid p kv.2 = false) (allIPs p))).

Definition RemoveInvalidIPs (p : CloudflarePool) : option (nat * CloudflarePool) :=
  match prune_invalid p with
  | None => None
  | Some (count, p1) =>
      if (0 <? count)%nat then
        match rebuildActiveIPs p1 with Some p2 => Some (count, p2) | None => None end
      else Some (count, p1)
  end.

(** [ReportFailure]: true when an incremental check is spawned.  On the branch of
    a known address the function returns inside the critical section. *)
Definition ReportFailure (ip : string) (p : CloudflarePool) : option (bool * CloudflarePool) :=
  if mu_held p then None else
  match allIPs p !! ip with
  | Some l =>
      match heap p !! l with
      | Some st =>
          let st' := mkIPStats (st_IP st) (st_Failures st + 1) (st_latencyVal st + 1000 * 1000000)
                       (st_lastCheckTime st) in
          Some (2 <=? st_Failures st', leak_lock (set_stats p l st'))
      | None => Some (false, leak_lock p)
      end
  | None => match rebuildActiveIPs p with Some p' => Some (false, p') | None => None end
  end.

Definition ReportSuccess (ip : string) (p : CloudflarePool) : option CloudflarePool :=
  locked p
    match allIPs p !! ip with
    | Some l =>
        match heap p !! l with
        | Some st =>
            if 0 <? st_Failures st
            then set_stats p l (mkIPStats (st_IP st) (st_Failures st - 1) (st_latencyVal st) (st_lastCheckTime st))
            else p
        | None => p
        end
    | None => p
    end.

(** [checkRunning.CompareAndSwap(false, true)]. *)
Definition begin_check (p : CloudflarePool) : option CloudflarePool :=
  if checkRunning p then None else Some (set_checkRunning p true).

(** The addresses [checkAllIPs] and [checkIncremental] select. *)
Definition ips_to_check_all (p : CloudflarePool) : option (list string) :=
  locked p (fst <$> range (allIPs p)).

Definition needs_check (p : CloudflarePool) (now : Z) (l : nat) : bool :=
  match heap p !! l with
  | Some st => (2 <=? st_Failures st) || (30 * minute <? now - st_lastCheckTime st)
  | None => false
  end.

Definition ips_to_check_incremental (now : Z) (p : CloudflarePool) : option (list string) :=
  locked p (fst <$> List.filter (λ kv, needs_check p now (snd kv)) (range (allIPs p))).

(** [checkIPs]' goroutine for one address, once [testIP] has answered:
    [Some latency] or [None] for an error. *)
Definition record_test (ip : string) (result : option Z) (now : Z) (p : CloudflarePool)
    : option CloudflarePool :=
  locked p
    match allIPs p !! ip with
    | Some l =>
        match heap p !! l with
        | Some st =>
            set_stats p l
              match result with
              | None => mkIPStats (st_IP st) (st_Failures st + 1) 0 now
              | Some latency => mkIPStats (st_IP st) 0 latency now
              end
        | None => p
        end
    | None => p
    end.

(** [checkIPs] without interference: every result recorded, then the rebuild. *)
Fixpoint record_tests (results : list (string * option Z)) (now : Z) (p : CloudflarePool)
    : option CloudflarePool :=
  match results with
  | [] => Some p
  | (ip, r) :: rest =>
      match record_test ip r now p with
      | Some p' => record_tests rest now p'
      | None => None
      end
  end.

Definition checkIPs (test : string → option Z) (ipsToCheck : list string) (now : Z)
    (p : CloudflarePool) : option CloudflarePool :=
  match ipsToCheck with
  | [] => Some p
  | _ =>
      match record_tests ((λ ip, (ip, test ip)) <$> ipsToCheck) now p with
      | Some p' => rebuildActiveIPs p'
      | None => None
      end
  end.

(** [checkIncremental], again without interference. *)
Definition checkIncremental (test : string → option Z) (now : Z) (p : CloudflarePool)
    : option CloudflarePool :=
  match begin_check p with
  | None => Some p
  | Some p1 =>
      match ips_to_check_incremental now p1 with
      | None => None
      | Some ips =>
          match checkIPs test ips now p1 with
          | Some p2 => Some (set_checkRunning p2 false)
          | None => None
          end
      end
  end.

(** [checkAllIPs], again without interference. *)
Definition checkAllIPs (test : string → option Z) (now : Z) (p : CloudflarePool)
    : option CloudflarePool :=
  match begin_check p with
  | None => Some p
  | Some p1 =>
      match ips_to_check_all p1 with
      | None => None
      | Some ips =>
          match checkIPs test ips now p1 with
          | Some p2 => Some (set_checkRunning p2 false)
          | None => None
          end
      end
  end.

(** * Interleavings

    The unit of interleaving is the critical section: the goroutines of the
    health check run their sections between those of the callers. *)
Inductive pool_op :=
  | OpUpdateIPs (ips : list string)
  | OpStart | OpStop
  | OpPrune
  | OpRebuild
  | OpReportFailure (ip : string)
  | OpReportSuccess (ip : string)
  | OpBeginCheck | OpEndCheck
  | OpRecordTest (ip : string) (result : option Z) (now : Z).

(** Whether the section takes the pool's mutex. *)
Definition needs_lock (op : pool_op) : bool :=
  match op with OpBeginCheck | OpEndCheck => false | _ => true end.

Definition run_op (op : pool_op) (p : CloudflarePool) : option CloudflarePool :=
  match op with
  | OpUpdateIPs ips => UpdateIPs ips p
  | OpStart => snd <$> Start p
  | OpStop => snd <$> Stop p
  | OpPrune => snd <$> prune_invalid p
  | OpRebuild => rebuildActiveIPs p
  | OpReportFailure ip => snd <$> ReportFailure ip p
  | OpReportSuccess ip => ReportSuccess ip p
  | OpBeginCheck => begin_check p
  | OpEndCheck => Some (set_checkRunning p false)
  | OpRecordTest ip r now => record_test ip r now p
  end.

(** A measured latency is a [time.Since] of the monotonic clock. *)
Definition op_ok (op : pool_op) : Prop :=
  match op with OpRecordTest _ (Some lat) _ => 0 <= lat | _ => True end.

Inductive pool_reachable : CloudflarePool → Prop :=
  | reach_new : pool_reachable empty_pool
  | reach_step p op p' :
      pool_reachable p → op_ok op → run_op op p = Some p' → pool_reachable p'.

(** * The invariant *)

Record pool_wf (p : CloudflarePool) : Prop := {
  wf_fresh l st : heap p !! l = Some st → (l < next p)%nat ∧ 0 <= st_Failures st ∧ 0 <= st_latencyVal st;
  wf_all ip l : allIPs p !! ip = Some l →
    ip ≠ "" ∧ TrimSpace ip = ip ∧ ∃ st, heap p !! l = Some st ∧ st_IP st = ip;
  wf_active l : l ∈ activeIPs p → ∃ st, heap p !! l = Some st;
  wf_nodup : NoDup (activeIPs p);
}.

Lemma locked_inv {A} p (a b : A) : locked p a = Some b → a = b ∧ mu_held p = false.
Proof. unfold locked. destruct (mu_held p); naive_solver. Qed.

Lemma wf_inj p ip1 ip2 l :
  pool_wf p → allIPs p !! ip1 = Some l → allIPs p !! ip2 = Some l → ip1 = ip2.
Proof.
  intros W H1 H2. apply (wf_all _ W) in H1 as (_ & _ & s1 & Hs1 & <-).
  apply (wf_all _ W) in H2 as (_ & _ & s2 & Hs2 & <-). congruence.
Qed.

Lemma elem_of_range (m : gmap string nat) ip l : (ip, l) ∈ range m ↔ m !! ip = Some l.
Proof. rewrite range_perm. apply elem_of_map_to_list. Qed.

Lemma NoDup_range_fst (m : gmap string nat) : NoDup (fst <$> range m).
Proof. rewrite range_perm. apply NoDup_fst_map_to_list. Qed.

Lemma NoDup_range_snd p : pool_wf p → NoDup (snd <$> range (allIPs p)).
Proof.
  intros W. rewrite range_perm. apply NoDup_fmap_2_strong; [|apply NoDup_map_to_list].
  intros [ip1 l1] [ip2 l2] H1%elem_of_map_to_list H2%elem_of_map_to_list; simpl.
  intros <-. f_equal. by eapply wf_inj.
Qed.

Lemma elem_of_fresh_active p l :
  l ∈ fresh_active p ↔ ∃ ip st, allIPs p !! ip = Some l ∧ heap p !! l = Some st ∧ healthy st = true.
Proof.
  unfold fresh_active. rewrite merge_sort_Permutation, list_elem_of_In, List.filter_In, <- list_elem_of_In,
    list_elem_of_fmap. unfold is_healthy_ptr. split.
  - intros [([ip l'] & -> & Hr) Hh]; simpl in *. apply elem_of_range in Hr.
    destruct (heap p !! l') as [st|] eqn:E; [|done]. eauto.
  - intros (ip & st & Hm & Hh & Hs). rewrite Hh. split; [|done].
    exists (ip, l). split; [done|]. by apply elem_of_range.
Qed.

Lemma NoDup_fresh_active p : pool_wf p → NoDup (fresh_active p).
Proof.
  intros W. unfold fresh_active. rewrite merge_sort_Permutation.
  apply NoDup_ListNoDup, List.NoDup_filter, NoDup_ListNoDup. by apply NoDup_range_snd.
Qed.

Lemma Sorted_fresh_active p : StronglySorted (by_latency p) (fresh_active p).
Proof. apply StronglySorted_merge_sort; apply _. Qed.

Lemma wf_set_active p : pool_wf p → pool_wf (set_active p (fresh_active p)).
Proof.
  intros W. split; simpl; [apply W|apply W| |by apply NoDup_fresh_active].
  intros l (ip & st & _ & Hh & _)%elem_of_fresh_active. eauto.
Qed.

(** Updating a statistics object in place keeps its address. *)
Lemma wf_set_stats p l st st' :
  pool_wf p → heap p !! l = Some st → st_IP st' = st_IP st →
  0 <= st_Failures st' → 0 <= st_latencyVal st' → pool_wf (set_stats p l st').
Proof.
  intros W Hl Hip Hf Hlat.
  assert (Hsame : ∀ l0 s0, heap p !! l0 = Some s0 → ∃ s1, <[l:=st']> (heap p) !! l0 = Some s1 ∧ st_IP s1 = st_IP s0).
  { intros l0 s0 H0. destruct (decide (l = l0)) as [<-|Hne].
    - rewrite lookup_insert_eq. naive_solver congruence.
    - rewrite lookup_insert_ne by done. eauto. }
  split; simpl.
  - intros l0 s0. destruct (decide (l = l0)) as [<-|Hne].
    + rewrite lookup_insert_eq. intros [= <-]. split; [|done]. by apply (wf_fresh _ W) in Hl as [? _].
    + rewrite lookup_insert_ne by done. apply (wf_fresh _ W).
  - intros ip l0 (H1 & H2 & s0 & H3 & H4)%(wf_all _ W). do 2 (split; [done|]).
    destruct (Hsame _ _ H3) as (s1 & ? & ?). exists s1. split; congruence.
  - intros l0 (s0 & H0)%(wf_active _ W). destruct (Hsame _ _ H0) as (s1 & ? & ?). eauto.
  - apply (wf_nodup _ W).
Qed.

(** What one pass of [UpdateIPs]' loop does to the store and the map. *)
Definition configured (ips : list string) (ip : string) : Prop :=
  ip ≠ "" ∧ ip ∈ TrimSpace <$> ips.

#[local] Instance configured_dec ips ip : Decision (configured ips ip).
Proof. unfold configured. apply _. Defined.

Lemma configured_cons ip0 ips ip :
  configured (ip0 :: ips) ip ↔ (ip ≠ "" ∧ ip = TrimSpace ip0) ∨ configured ips ip.
Proof. unfold configured. rewrite fmap_cons, elem_of_cons. tauto. Qed.

Lemma update_map_store old ips : ∀ h n m h' n' m',
  update_map old ips (h, n, m) = (h', n', m') →
  (n <= n')%nat ∧ (∀ l, (l < n)%nat → h' !! l = h !! l) ∧
  (∀ l st, (n <= l)%nat → h' !! l = Some st →
     h !! l = Some st ∨ (l < n')%nat ∧ st_Failures st = 0 ∧ st_latencyVal st = 0).
Proof.
  induction ips as [|ip0 ips IH]; intros h n m h' n' m'; simpl.
  - intros [= <- <- <-]. split; [lia|]. eauto.
  - destruct (negb _); [|apply IH]. destruct (old !! TrimSpace ip0) as [l0|]; [apply IH|].
    intros (H1 & H2 & H3)%IH. split; [lia|]. split.
    + intros l Hl. rewrite H2 by lia. by rewrite lookup_insert_ne by lia.
    + intros l st Hl Hst. destruct (decide (l = n)) as [->|Hne].
      * rewrite H2, lookup_insert_eq in Hst by lia. injection Hst as <-. right. simpl. lia.
      * destruct (H3 l st ltac:(lia) Hst) as [Hs|Hs]; [|by right].
        rewrite lookup_insert_ne in Hs by done. by left.
Qed.

(** A new address gets a fresh object without measurements, a known one keeps its
    object; everything else of the new map is what the accumulator held. *)
Definition update_entry (old : gmap string nat) (n : nat) (h : gmap nat IPStats) (m : gmap string nat)
    (ip : string) : Prop :=
  match old !! ip with
  | Some l => m !! ip = Some l
  | None => ∃ l, (n <= l)%nat ∧ m !! ip = Some l ∧ h !! l = Some (mkIPStats ip 0 0 0)
  end.

Lemma update_map_entry old ips : ∀ h n m h' n' m' ip,
  update_map old ips (h, n, m) = (h', n', m') →
  (configured ips ip → update_entry old n h' m' ip) ∧
  (¬ configured ips ip → m' !! ip = m !! ip).
Proof.
  induction ips as [|ip0 ips IH]; intros h n m h' n' m' ip; simpl.
  - intros [= <- <- <-]. split; [|done]. intros [_ H%elem_of_nil]. done.
  - rewrite configured_cons. destruct (bool_decide_reflect (TrimSpace ip0 = "")) as [He|Hne]; simpl.
    { intros Hu. destruct (IH _ _ _ _ _ _ ip Hu). split; [|tauto].
      intros [[H1 ->]|?]; [done|auto]. }
    unfold update_entry. destruct (old !! TrimSpace ip0) as [l0|] eqn:Ho; intros Hu;
      pose proof (IH _ _ _ _ _ _ ip Hu) as [H1 H2];
      destruct (decide (configured ips ip)) as [Hc|Hc];
      (split; [|intros Hn; rewrite H2 by tauto; rewrite lookup_insert_ne; [done|intros <-; tauto]]).
    + intros _. by apply H1.
    + intros [[_ ->]|?]; [|done]. rewrite Ho, H2 by done. by rewrite lookup_insert_eq.
    + intros _. specialize (H1 Hc). unfold update_entry in H1.
      destruct (old !! ip); [done|]. destruct H1 as (l & ? & ? & ?). exists l. repeat split; auto; lia.
    + intros [[_ ->]|?]; [|done]. rewrite Ho. exists n. rewrite H2, lookup_insert_eq by done.
      repeat split; [lia|]. destruct (update_map_store _ _ _ _ _ _ _ _ Hu) as (_ & Hs & _).
      rewrite Hs by lia. by rewrite lookup_insert_eq.
Qed.

Lemma update_map_keys old ips h n h' n' m' ip l :
  update_map old ips (h, n, ∅) = (h', n', m') → m' !! ip = Some l → configured ips ip.
Proof.
  intros Hu Hl. destruct (decide (configured ips ip)) as [Hc|Hc]; [done|].
  destruct (update_map_entry _ _ _ _ _ _ _ _ ip Hu) as [_ H2]. rewrite H2, lookup_empty in Hl by done. done.
Qed.

Lemma wf_UpdateIPs ips p p' : pool_wf p → UpdateIPs ips p = Some p' → pool_wf p'.
Proof.
  intros W. unfold UpdateIPs.
  destruct (update_map (allIPs p) ips (heap p, next p, ∅)) as [[h n] m] eqn:Hu.
  intros [<- _]%locked_inv. destruct (update_map_store _ _ _ _ _ _ _ _ Hu) as (Hn & Hold & Hnew).
  set (p1 := mkPool h n m [] (running p) (checkRunning p) (mu_held p)).
  assert (W1 : pool_wf p1); [|exact (wf_set_active _ W1)].
  split; simpl; [| |set_solver|constructor].
  - intros l st Hl. destruct (decide (l < next p)%nat) as [Hlt|Hge].
    + rewrite Hold in Hl by done. destruct (wf_fresh _ W _ _ Hl). lia.
    + destruct (Hnew l st ltac:(lia) Hl) as [Hh|?]; [destruct (wf_fresh _ W _ _ Hh)|]; lia.
  - intros ip l Hl. pose proof (update_map_keys _ _ _ _ _ _ _ _ _ Hu Hl) as Hc.
    destruct (update_map_entry _ _ _ _ _ _ _ _ ip Hu) as [He _]. specialize (He Hc). unfold update_entry in He.
    destruct Hc as [Hne (ip0 & -> & _)%list_elem_of_fmap].
    do 2 (split; [done || apply TrimSpace_idemp|]).
    destruct (allIPs p !! TrimSpace ip0) as [l0|] eqn:Ho.
    + apply (wf_all _ W) in Ho as (_ & _ & st & Hst & ?). assert (l = l0) as -> by congruence.
      exists st. split; [|done]. rewrite Hold; [done|]. by apply (wf_fresh _ W) in Hst as [? _].
    + destruct He as (l1 & _ & ? & ?). assert (l = l1) as -> by congruence. by eexists.
Qed.

Lemma wf_flags p p' :
  pool_wf p → heap p' = heap p → next p' = next p → allIPs p' = allIPs p → activeIPs p' = activeIPs p → pool_wf p'.
Proof. intros [] Hh Hn Ha Hc. split; rewrite ?Hh, ?Hn, ?Ha, ?Hc; auto. Qed.

Lemma wf_prune p : pool_wf p → pool_wf (set_all p (filter (λ kv, is_invalid p kv.2 = false) (allIPs p))).
Proof.
  intros W. split; simpl; [apply W| |apply W|apply W].
  intros ip l [Hl _]%map_lookup_filter_Some. by apply (wf_all _ W).
Qed.

Lemma wf_set_failure p l st :
  pool_wf p → heap p !! l = Some st →
  pool_wf (set_stats p l (mkIPStats (st_IP st) (st_Failures st + 1) (st_latencyVal st + 1000 * 1000000)
                            (st_lastCheckTime st))).
Proof. intros W Hl. pose proof (wf_fresh _ W _ _ Hl). eapply wf_set_stats; eauto; simpl; lia. Qed.

Lemma wf_record_test ip r now p p' :
  pool_wf p → op_ok (OpRecordTest ip r now) → record_test ip r now p = Some p' → pool_wf p'.
Proof.
  intros W Hok [<- _]%locked_inv. destruct (allIPs p !! ip) as [l|]; [|done].
  destruct (heap p !! l) as [st|] eqn:Hl; [|done]. pose proof (wf_fresh _ W _ _ Hl).
  destruct r as [lat|]; simpl in Hok; eapply wf_set_stats; eauto; simpl; lia.
Qed.

Lemma wf_run_op op p p' : pool_wf p → op_ok op → run_op op p = Some p' → pool_wf p'.
Proof.
  intros W Hok. destruct op; [| | | | | | | | |by eapply wf_record_test]; simpl;
    try (intros (q & Hq & ->)%fmap_Some);
    try (intros [<- _]%locked_inv || (apply locked_inv in Hq as [<- _])); simpl.
  - by apply wf_UpdateIPs.
  - destruct (running p); [done|by eapply wf_flags].
  - destruct (running p); [by eapply wf_flags|done].
  - by apply wf_prune.
  - by apply wf_set_active.
  - unfold ReportFailure in Hq. destruct (mu_held p); [done|].
    destruct (allIPs p !! ip) as [l|].
    + destruct (heap p !! l) as [st|] eqn:Hl; injection Hq as <-; simpl.
      * eapply wf_flags; [by apply wf_set_failure|done..].
      * by eapply wf_flags.
    + destruct (rebuildActiveIPs p) as [p1|] eqn:E; [|done]. injection Hq as <-.
      apply locked_inv in E as [<- _]. by apply wf_set_active.
  - destruct (allIPs p !! ip) as [l|]; [|done]. destruct (heap p !! l) as [st|] eqn:Hl; [|done].
    pose proof (wf_fresh _ W _ _ Hl). destruct (Z.ltb_spec 0 (st_Failures st)); [|done].
    eapply wf_set_stats; eauto; simpl; lia.
  - unfold begin_check. destruct (checkRunning p); [done|]. intros [= <-]. by eapply wf_flags.
  - intros [= <-]. by eapply wf_flags.
Qed.

Lemma wf_empty : pool_wf empty_pool.
Proof. split; simpl; [intros ??; rewrite lookup_empty; done..|set_solver|constructor]. Qed.

(** * What the pool promises *)

(** The statistics recorded for an address, and the addresses in use, best first. *)
Definition stats_of (p : CloudflarePool) (ip : string) : option IPStats :=
  allIPs p !! ip ≫= (heap p !!.).

Definition name_of (p : CloudflarePool) (l : nat) : string := default "" (st_IP <$> heap p !! l).

Definition active_ips (p : CloudflarePool) : list string := name_of p <$> activeIPs p.

(** The slice of active addresses is current: the healthy addresses, each once,
    by increasing latency. *)
Record ranked (p : CloudflarePool) : Prop := {
  ranked_sorted : StronglySorted (by_latency p) (activeIPs p);
  ranked_nodup : NoDup (active_ips p);
  ranked_healthy ip : ip ∈ active_ips p ↔ ∃ st, stats_of p ip = Some st ∧ healthy st = true;
}.

Lemma stats_of_entry p ip l :
  pool_wf p → allIPs p !! ip = Some l → ∃ st, stats_of p ip = Some st ∧ heap p !! l = Some st ∧ st_IP st = ip.
Proof.
  intros W Hl. destruct (wf_all _ W _ _ Hl) as (_ & _ & st & Hst & Hip).
  exists st. unfold stats_of. rewrite Hl. simpl. auto.
Qed.

Lemma name_of_entry p ip l : pool_wf p → allIPs p !! ip = Some l → name_of p l = ip.
Proof. intros W (st & _ & Hst & <-)%stats_of_entry; [|done]. unfold name_of. by rewrite Hst. Qed.

Lemma fresh_active_names p ip :
  pool_wf p →
  ip ∈ name_of p <$> fresh_active p ↔ ∃ st, stats_of p ip = Some st ∧ healthy st = true.
Proof.
  intros W. rewrite list_elem_of_fmap. setoid_rewrite elem_of_fresh_active. split.
  - intros (l & -> & ip0 & st & Hm & Hst & Hh). rewrite (name_of_entry p ip0 l) by done.
    exists st. unfold stats_of. by rewrite Hm.
  - intros (st & Hs & Hh). unfold stats_of in Hs. apply bind_Some in Hs as (l & Hm & Hst).
    exists l. rewrite (name_of_entry p ip l) by done. split; [done|]. by exists ip, st.
Qed.

Lemma ranked_fresh p : pool_wf p → ranked (set_active p (fresh_active p)).
Proof.
  intros W. split; unfold active_ips; simpl.
  - exact (Sorted_fresh_active p).
  - apply NoDup_fmap_2_strong; [|by apply NoDup_fresh_active].
    intros l1 l2 (ip1 & st1 & H1 & _)%elem_of_fresh_active (ip2 & st2 & H2 & _)%elem_of_fresh_active.
    change (name_of p l1 = name_of p l2 → l1 = l2).
    rewrite (name_of_entry p ip1 l1), (name_of_entry p ip2 l2) by done. congruence.
  - intros ip. exact (fresh_active_names p ip W).
Qed.

Lemma reachable_wf p : pool_reachable p → pool_wf p.
Proof. induction 1; [apply wf_empty|by eapply wf_run_op]. Qed.

(** [UpdateIPs] as a function of the recorded statistics. *)
Lemma stats_of_UpdateIPs ips p p' ip :
  pool_wf p → UpdateIPs ips p = Some p' →
  stats_of p' ip = if decide (configured ips ip) then Some (default (mkIPStats ip 0 0 0) (stats_of p ip)) else None.
Proof.
  intros W. unfold UpdateIPs.
  destruct (update_map (allIPs p) ips (heap p, next p, ∅)) as [[h n] m] eqn:Hu.
  intros [<- _]%locked_inv. destruct (update_map_store _ _ _ _ _ _ _ _ Hu) as (_ & Hold & _).
  destruct (update_map_entry _ _ _ _ _ _ _ _ ip Hu) as [Hin Hout]. unfold stats_of at 1. simpl.
  case_decide as Hc; [|rewrite Hout by done; by rewrite lookup_empty].
  specialize (Hin Hc). unfold update_entry in Hin. destruct (allIPs p !! ip) as [l|] eqn:Hl.
  - destruct (stats_of_entry p ip l W Hl) as (st & Hs & Hst & _). rewrite Hin, Hs. simpl.
    rewrite Hold; [done|]. by apply (wf_fresh _ W) in Hst as [? _].
  - destruct Hin as (l & _ & Hm & Hst). rewrite Hm. simpl. rewrite Hst. unfold stats_of. by rewrite Hl.
Qed.

Lemma UpdateIPs_ranked ips p p' : pool_wf p → UpdateIPs ips p = Some p' → ranked p'.
Proof.
  intros W Hu. pose proof (wf_UpdateIPs _ _ _ W Hu) as W'. revert Hu. unfold UpdateIPs.
  destruct (update_map (allIPs p) ips (heap p, next p, ∅)) as [[h n] m].
  intros [<- _]%locked_inv. set (p2 := set_active _ _) in *.
  assert (fresh_active p2 = activeIPs p2) as E by done. pose proof (ranked_fresh p2 W') as R.
  rewrite E in R. exact R.
Qed.

(** ** One health check *)

Definition tested (result : option Z) (now : Z) (st : IPStats) : IPStats :=
  match result with
  | None => mkIPStats (st_IP st) (st_Failures st + 1) 0 now
  | Some latency => mkIPStats (st_IP st) 0 latency now
  end.

Definition test_ok (test : string → option Z) : Prop := ∀ ip lat, test ip = Some lat → 0 <= lat.

Lemma stats_of_set_stats p ip0 l st ip :
  pool_wf p → allIPs p !! ip0 = Some l → 
  stats_of (set_stats p l st) ip = if decide (ip = ip0) then Some st else stats_of p ip.
Proof.
  intros W Hl. unfold stats_of; simpl. case_decide as Hd; [subst ip; rewrite Hl; simpl; by rewrite lookup_insert_eq|].
  destruct (allIPs p !! ip) as [l'|] eqn:Hl'; simpl; [|done].
  rewrite lookup_insert_ne; [done|]. intros <-. by apply Hd, (wf_inj p ip ip0 l).
Qed.

Lemma record_test_spec ip0 r now p :
  pool_wf p → mu_held p = false → (∀ lat, r = Some lat → 0 <= lat) →
  ∃ p', record_test ip0 r now p = Some p' ∧ pool_wf p' ∧ mu_held p' = false ∧
    checkRunning p' = checkRunning p ∧
    ∀ ip, stats_of p' ip = if decide (ip = ip0) then tested r now <$> stats_of p ip else stats_of p ip.
Proof.
  intros W Hm Hr. unfold record_test, locked. rewrite Hm. eexists. split; [done|].
  assert (Hop : op_ok (OpRecordTest ip0 r now)) by (destruct r; simpl; auto).
  split; [|destruct (allIPs p !! ip0) as [l|] eqn:Hl].
  - eapply (wf_record_test ip0 r now p _ W Hop). unfold record_test, locked. by rewrite Hm.
  - destruct (stats_of_entry p ip0 l W Hl) as (st & Hs & Hst & _). rewrite Hst.
    split; [done|]. split; [done|]. intros ip. rewrite (stats_of_set_stats p ip0 l) by done.
    case_decide; [|done]. subst. rewrite Hs. by destruct r.
  - do 2 (split; [done|]). intros ip. case_decide; [|done]. subst. unfold stats_of. by rewrite Hl.
Qed.

Lemma record_tests_spec test now ips : ∀ p,
  pool_wf p → mu_held p = false → test_ok test → NoDup ips →
  ∃ p', record_tests ((λ ip, (ip, test ip)) <$> ips) now p = Some p' ∧ pool_wf p' ∧ mu_held p' = false ∧
    checkRunning p' = checkRunning p ∧
    ∀ ip, stats_of p' ip = if decide (ip ∈ ips) then tested (test ip) now <$> stats_of p ip else stats_of p ip.
Proof.
  induction ips as [|ip0 ips IH]; intros p W Hm Ht Hnd; simpl.
  { exists p. do 4 (split; [done|]). done. }
  apply list.NoDup_cons in Hnd as [Hni Hnd].
  destruct (record_test_spec ip0 (test ip0) now p W Hm (Ht ip0)) as (p1 & -> & W1 & Hm1 & Hc1 & Hs1).
  destruct (IH p1 W1 Hm1 Ht Hnd) as (p2 & Hr2 & W2 & Hm2 & Hc2 & Hs2).
  exists p2. split; [exact Hr2|]. do 2 (split; [done|]). split; [congruence|]. intros ip. rewrite Hs2, Hs1.
  destruct (decide (ip = ip0)) as [->|Hne]; repeat case_decide; set_solver.
Qed.

Lemma checkIPs_spec test now ips p :
  pool_wf p → mu_held p = false → test_ok test → NoDup ips → ips ≠ [] →
  ∃ p', checkIPs test ips now p = Some p' ∧ pool_wf p' ∧ mu_held p' = false ∧ ranked p' ∧
    checkRunning p' = checkRunning p ∧
    ∀ ip, stats_of p' ip = if decide (ip ∈ ips) then tested (test ip) now <$> stats_of p ip else stats_of p ip.
Proof.
  intros W Hm Ht Hnd Hne.
  destruct (record_tests_spec test now ips p W Hm Ht Hnd) as (p1 & Hr & W1 & Hm1 & Hc & Hs).
  exists (set_active p1 (fresh_active p1)). split.
  - destruct ips; [done|]. simpl in *. rewrite Hr. unfold rebuildActiveIPs, locked. by rewrite Hm1.
  - split; [by apply wf_set_active|]. split; [done|]. split; [by apply ranked_fresh|]. auto.
Qed.

(** ** The fastest addresses *)

Lemma omap_names p (ls : list nat) :
  (∀ l, l ∈ ls → is_Some (heap p !! l)) → omap (λ l, st_IP <$> heap p !! l) ls = name_of p <$> ls.
Proof.
  induction ls as [|l ls IH]; intros H; simpl; [done|].
  destruct (H l) as [st Hst]; [set_solver|]. unfold name_of at 1. rewrite Hst. simpl. f_equal.
  apply IH. set_solver.
Qed.

Lemma take_min {A} n (l : list A) : take (if (length l <? n)%nat then length l else n) l = take n l.
Proof. destruct (Nat.ltb_spec (length l) n); [rewrite !take_ge by lia|]; done. Qed.

Lemma GetTopIPs_active n p :
  pool_wf p → mu_held p = false → activeIPs p ≠ [] → GetTopIPs n p = Some (take n (active_ips p)).
Proof.
  intros W Hm Hne. unfold GetTopIPs, locked. rewrite Hm, take_min.
  destruct (Nat.eqb_spec (length (activeIPs p)) 0) as [Hz|_]; [by apply nil_length_inv in Hz|].
  f_equal. rewrite omap_names; [unfold active_ips; by rewrite fmap_take|].
  intros l Hl. destruct (wf_active _ W l) as [st Hst]; [by eapply elem_of_take in Hl as (?&?&?); eapply list_elem_of_lookup_2|]. by eexists.
Qed.

Definition latency_ip (p : CloudflarePool) (ip : string) : Z :=
  match stats_of p ip with Some st => st_latencyVal st | None => 0 end.

Lemma latency_name_of p l ip :
  pool_wf p → allIPs p !! ip = Some l → latency_ip p (name_of p l) = latency_of p l.
Proof.
  intros W Hl. rewrite (name_of_entry p ip l) by done.
  unfold latency_ip, latency_of, stats_of. by rewrite Hl.
Qed.

Lemma names_sorted p :
  pool_wf p → StronglySorted (λ a b, latency_ip p a <= latency_ip p b) (name_of p <$> fresh_active p).
Proof.
  intros W. pose proof (Sorted_fresh_active p) as HS.
  assert (Hall : ∀ l, l ∈ fresh_active p → latency_ip p (name_of p l) = latency_of p l).
  { intros l (ip & st & Hm & _)%elem_of_fresh_active. by apply latency_name_of with ip. }
  induction HS as [|l ls _ IH HF]; simpl; constructor.
  - apply IH. intros l' Hl'. apply Hall. set_solver.
  - apply list.Forall_forall. intros ip' (l' & -> & Hl')%list_elem_of_fmap.
    rewrite !Hall by set_solver. rewrite list.Forall_forall in HF. by apply HF.
Qed.

Lemma StronglySorted_take_drop {A} (R : A → A → Prop) n l x y :
  StronglySorted R l → x ∈ take n l → y ∈ drop n l → R x y.
Proof. rewrite <- (take_drop n l) at 1. apply StronglySorted_app_1_elem_of. Qed.

(** * Properties *)

(** C15: in every state the pool can reach, under any interleaving of its critical
    sections, each key is a trimmed non-empty address whose object carries that
    address, failure counts and latencies are never negative, and the slice of
    active addresses holds live objects without repetition. *)
Theorem pool_invariant p : pool_reachable p → pool_wf p.
Proof. apply reachable_wf. Qed.

(** [UpdateIPs] replaces the address set by the configured one: a known
    address keeps its measurements, a new one starts unmeasured, any other is
    forgotten, and the active slice is re-ranked at once. *)
Theorem UpdateIPs_correct ips p p' :
  pool_reachable p → UpdateIPs ips p = Some p' →
  ranked p' ∧
  ∀ ip, stats_of p' ip =
    if decide (configured ips ip) then Some (default (mkIPStats ip 0 0 0) (stats_of p ip)) else None.
Proof.
  intros W%reachable_wf Hu. split; [by eapply UpdateIPs_ranked|].
  intros ip. by apply stats_of_UpdateIPs.
Qed.

(** A full health check on an idle pool terminates with every address tested
    once: a failing address loses its latency and gains a failure, an answering
    one is reset to its measured latency, the active slice is re-ranked and the
    check flag released. *)
Theorem checkAllIPs_correct test now p :
  pool_reachable p → mu_held p = false → checkRunning p = false → test_ok test → allIPs p ≠ ∅ →
  ∃ p', checkAllIPs test now p = Some p' ∧ ranked p' ∧ checkRunning p' = false ∧
    ∀ ip, stats_of p' ip = tested (test ip) now <$> stats_of p ip.
Proof.
  intros W%reachable_wf Hm Hc Ht Hne. unfold checkAllIPs, begin_check. rewrite Hc.
  unfold ips_to_check_all, locked; simpl. rewrite Hm.
  set (p1 := set_checkRunning p true). set (ips := fst <$> range (allIPs p)).
  assert (W1 : pool_wf p1) by (by eapply wf_flags).
  assert (Hin : ∀ ip, ip ∈ ips ↔ is_Some (allIPs p !! ip)).
  { intros ip. unfold ips. rewrite list_elem_of_fmap. split.
    - intros ([k l] & -> & Hr%elem_of_range). by exists l.
    - intros [l Hl]. exists (ip, l). split; [done|]. by apply elem_of_range. }
  destruct (checkIPs_spec test now ips p1 W1 Hm Ht) as (p2 & Hp2 & W2 & Hm2 & R2 & Hc2 & Hs2).
  { apply NoDup_range_fst. }
  { intros Hnil. apply Hne, map_empty. intros ip. apply eq_None_not_Some. rewrite <- Hin, Hnil. set_solver. }
  rewrite Hp2. eexists. split; [done|]. split; [by destruct R2|]. split; [done|].
  intros ip. change (stats_of p2 ip = tested (test ip) now <$> stats_of p ip). rewrite Hs2. case_decide as Hd; [done|].
  rewrite Hin in Hd. apply eq_None_not_Some in Hd. unfold stats_of; simpl. by rewrite Hd.
Qed.

(** Right after a rebuild, [GetTopIPs n] answers the [n] fastest healthy
    addresses (all of them when there are fewer), each once, fastest first. *)
Theorem GetTopIPs_fastest n p p' :
  pool_reachable p → rebuildActiveIPs p = Some p' → (∃ ip st, stats_of p ip = Some st ∧ healthy st = true) →
  ∃ r, GetTopIPs n p' = Some r ∧ NoDup r ∧ length r = Nat.min n (length (activeIPs p')) ∧
    StronglySorted (λ a b, latency_ip p a <= latency_ip p b) r ∧
    (∀ a, a ∈ r → ∃ st, stats_of p a = Some st ∧ healthy st = true) ∧
    (∀ b st, stats_of p b = Some st → healthy st = true → b ∉ r →
       length r = n ∧ ∀ a, a ∈ r → latency_ip p a <= latency_ip p b).
Proof.
  intros W%reachable_wf [<- Hm]%locked_inv (ip0 & st0 & Hs0 & Hh0). set (p' := set_active _ _).
  pose proof (ranked_fresh p W) as R. pose proof (names_sorted p W) as HS.
  assert (Hip0 : ip0 ∈ active_ips p') by (apply (ranked_healthy _ R); eauto).
  rewrite GetTopIPs_active; [|by apply wf_set_active|done|].
  2: { intros Hnil. unfold active_ips in Hip0. rewrite Hnil in Hip0. set_solver. }
  change (name_of p <$> fresh_active p) with (active_ips p') in HS.
  pose proof (length_fmap (name_of p') (activeIPs p')) as Hlen. fold (active_ips p') in Hlen.
  eexists. split; [done|]. rewrite <- (take_drop n (active_ips p')) in HS.
  split. { eapply sublist_NoDup; [apply (ranked_nodup _ R)|apply sublist_take]. }
  split. { rewrite length_take. lia. }
  split. { by apply StronglySorted_app_1_l in HS. }
  split. { intros a Ha. apply (ranked_healthy _ R). by eapply subseteq_take. }
  intros b st Hb Hhb Hnb.
  assert (Hdrop : b ∈ drop n (active_ips p')).
  { assert (b ∈ active_ips p') as Hin by (apply (ranked_healthy _ R); eauto).
    rewrite <- (take_drop n (active_ips p')), elem_of_app in Hin. by destruct Hin. }
  split.
  - rewrite length_take. destruct (decide (n <= length (active_ips p'))%nat); [lia|].
    rewrite drop_ge in Hdrop by lia. set_solver.
  - intros a Ha. exact (StronglySorted_app_1_elem_of _ _ _ a b HS Ha Hdrop).
Qed.

(** A schedule: the sections of several goroutines, in the order they run. *)
Definition run_ops (ops : list pool_op) (p : CloudflarePool) : option CloudflarePool :=
  foldl (λ o op, o ≫= run_op op) (Some p) ops.

Lemma run_ops_None ops : foldl (λ o op, o ≫= run_op op) None ops = None.
Proof. by induction ops. Qed.

Lemma reachable_run_ops ops : ∀ p q,
  pool_reachable p → Forall op_ok ops → run_ops ops p = Some q → pool_reachable q.
Proof.
  unfold run_ops. induction ops as [|op ops IH]; intros p q Hp; simpl; [by intros _ [= <-]|].
  intros [Ho Hos]%list.Forall_cons. destruct (run_op op p) as [p1|] eqn:E; simpl; [|by rewrite run_ops_None].
  apply IH; [by eapply reach_step|done].
Qed.

Lemma run_op_blocked op p : mu_held p = true → needs_lock op = true → run_op op p = None.
Proof.
  intros Hm. destruct op; simpl; intros Hn; try done;
    unfold Start, Stop, prune_invalid, rebuildActiveIPs, ReportFailure, ReportSuccess, record_test,
      UpdateIPs, locked; try destruct (update_map _ _ _) as [[? ?] ?]; simpl; by rewrite Hm.
Qed.

Lemma run_op_held op p p' : mu_held p = true → run_op op p = Some p' → needs_lock op = false ∧ mu_held p' = true.
Proof.
  intros Hm Hr. destruct (needs_lock op) eqn:Hn; [by rewrite run_op_blocked in Hr|]. split; [done|].
  destruct op; simpl in *; try done.
  - unfold begin_check in Hr. destruct (checkRunning p); [done|]. by injection Hr as <-.
  - by injection Hr as <-.
Qed.

Lemma run_ops_held ops : ∀ p p', mu_held p = true → run_ops ops p = Some p' →
  Forall (λ op, needs_lock op = false) ops ∧ mu_held p' = true.
Proof.
  unfold run_ops. induction ops as [|op ops IH]; intros p p' Hm; simpl; [intros [= <-]; auto|].
  destruct (run_op op p) as [p1|] eqn:E; simpl; [|by rewrite run_ops_None].
  apply run_op_held in E as [Hn Hm1]; [|done]. intros Hr.
  destruct (IH p1 p' Hm1 Hr). auto.
Qed.

(** Reporting a failure of an address the pool knows leaves the pool's mutex
    locked: in every schedule that follows, no section that needs the mutex ever
    runs again and [GetTopIPs] blocks forever. *)
Theorem ReportFailure_deadlocks ip n b p p' ops q :
  is_Some (allIPs p !! ip) → ReportFailure ip p = Some (b, p') → run_ops ops p' = Some q →
  Forall (λ op, needs_lock op = false) ops ∧ GetTopIPs n q = None.
Proof.
  intros [l Hl] Hr Ho. unfold ReportFailure in Hr. rewrite Hl in Hr.
  assert (mu_held p' = true) as Hm'.
  { destruct (mu_held p); [done|]. destruct (heap p !! l); injection Hr as _ <-; done. }
  destruct (run_ops_held _ _ _ Hm' Ho) as [? Hm]. split; [done|].
  unfold GetTopIPs, locked. by rewrite Hm.
Qed.

Lemma NoDup_filter_fst (f : string * nat → bool) (m : gmap string nat) :
  NoDup (fst <$> List.filter f (range m)).
Proof.
  eapply sublist_NoDup; [exact (NoDup_range_fst m)|].
  induction (range m) as [|kv l IH]; simpl; [done|]. destruct (f kv); by constructor.
Qed.

(** [RemoveInvalidIPs] forgets exactly the addresses with three failures or
    more, keeps every other one as it was, returns how many it removed, and
    re-ranks the active slice when it removed any. *)
Theorem RemoveInvalidIPs_correct p count p' :
  pool_reachable p → RemoveInvalidIPs p = Some (count, p') →
  (∀ ip, stats_of p' ip =
     match stats_of p ip with Some st => if 3 <=? st_Failures st then None else Some st | None => None end) ∧
  (∃ removed, NoDup removed ∧ length removed = count ∧
     ∀ ip, ip ∈ removed ↔ ∃ st, stats_of p ip = Some st ∧ 3 <= st_Failures st) ∧
  ((0 < count)%nat → ranked p').
Proof.
  intros W%reachable_wf. unfold RemoveInvalidIPs, prune_invalid, locked.
  destruct (mu_held p) eqn:Hm; [done|]. set (bad := List.filter _ _). set (p1 := set_all p _).
  assert (Hst : ∀ ip, stats_of p1 ip = match stats_of p ip with
      Some st => if 3 <=? st_Failures st then None else Some st | None => None end).
  { intros ip. unfold stats_of; simpl. rewrite map_lookup_filter.
    destruct (allIPs p !! ip) as [l|] eqn:Hl; simpl; [|done].
    destruct (stats_of_entry p ip l W Hl) as (st & _ & Hs & _). rewrite Hs. unfold is_invalid; simpl. rewrite Hs.
    destruct (3 <=? st_Failures st); [rewrite option_guard_False by done|rewrite option_guard_True by done]; by simpl. }
  assert (Hbad : ∃ removed, NoDup removed ∧ length removed = length bad ∧
     ∀ ip, ip ∈ removed ↔ ∃ st, stats_of p ip = Some st ∧ 3 <= st_Failures st).
  { exists (fst <$> bad). split; [apply NoDup_filter_fst|]. split; [apply length_fmap|]. intros ip.
    rewrite list_elem_of_fmap. unfold bad, is_invalid. setoid_rewrite list_elem_of_In.
    setoid_rewrite List.filter_In. setoid_rewrite <- list_elem_of_In. split.
    - intros ([k l] & -> & Hr%elem_of_range & Hi); simpl in *.
      destruct (stats_of_entry p k l W Hr) as (st & Hs & Hh & _). rewrite Hh in Hi. bool_prop. eauto.
    - intros (st & Hs & Hf). unfold stats_of in Hs. apply bind_Some in Hs as (l & Hl & Hh).
      exists (ip, l). split; [done|]. split; [by apply elem_of_range|]. simpl. rewrite Hh. by apply Z.leb_le. }
  destruct (Nat.ltb_spec 0 (length bad)) as [Hpos|Hzero].
  - change (mu_held p1) with (mu_held p). unfold rebuildActiveIPs, locked. simpl. rewrite Hm. intros [= <- <-].
    split; [exact Hst|]. split; [done|]. intros _. apply ranked_fresh, wf_prune, W.
  - intros [= <- <-]. split; [exact Hst|]. split; [done|]. lia.
Qed.

End pool.

(** * Concrete runs *)

Definition demo_pool : CloudflarePool :=
  default empty_pool (NewCloudflarePool [" 1.1.1.1"%string; "1.0.0.1"%string; ""%string]).

Definition demo_test (ip : string) : option Z := if decide (ip = "1.1.1.1") then Some 20 else None.

Definition demo_checked : CloudflarePool := default empty_pool (checkAllIPs demo_test 7 demo_pool).

Lemma demo_test_ok : test_ok demo_test.
Proof. intros ip lat. unfold demo_test. case_decide; [|done]. intros [= <-]. lia. Qed.

Lemma demo_reachable : pool_reachable demo_pool.
Proof.
  apply (reach_step empty_pool (OpUpdateIPs [" 1.1.1.1"%string; "1.0.0.1"%string; ""%string]));
    [constructor|exact I|vm_compute; reflexivity].
Qed.

Lemma demo_checked_reachable : pool_reachable demo_checked.
Proof.
  apply (reachable_run_ops [OpBeginCheck; OpRecordTest "1.0.0.1" None 7;
    OpRecordTest "1.1.1.1" (Some 20) 7; OpRebuild; OpEndCheck] demo_pool); [exact demo_reachable| |].
  - repeat constructor; simpl; lia.
  - vm_compute. reflexivity.
Qed.

Lemma pool_invariant_witness : pool_reachable demo_pool ∧ pool_wf demo_pool.
Proof. split; [exact demo_reachable|exact (pool_invariant demo_pool demo_reachable)]. Defined.

Lemma UpdateIPs_correct_witness :
  ∃ p', UpdateIPs ["1.1.1.1"; "8.8.8.8"] demo_checked = Some p' ∧ ranked p' ∧
    stats_of p' "1.1.1.1" = Some (mkIPStats "1.1.1.1" 0 20 7).
Proof.
  eexists. split; [vm_compute; reflexivity|].
  match goal with |- ranked ?q ∧ _ =>
    destruct (UpdateIPs_correct ["1.1.1.1"; "8.8.8.8"] demo_checked q demo_checked_reachable) as [R Hs] end.
  - vm_compute. reflexivity.
  - split; [exact R|]. rewrite Hs. vm_compute. reflexivity.
Defined.

Lemma checkAllIPs_correct_witness :
  ∃ p', checkAllIPs demo_test 7 demo_pool = Some p' ∧
    stats_of p' "1.0.0.1" = Some (mkIPStats "1.0.0.1" 1 0 7).
Proof.
  destruct (checkAllIPs_correct demo_test 7 demo_pool demo_reachable) as (p' & Hp & _ & _ & Hs).
  - vm_compute. reflexivity.
  - vm_compute. reflexivity.
  - exact demo_test_ok.
  - intros H. apply (f_equal (λ m : gmap string nat, m !! "1.1.1.1")) in H. vm_compute in H. discriminate.
  - exists p'. split; [exact Hp|]. rewrite Hs. vm_compute. reflexivity.
Defined.

Lemma GetTopIPs_fastest_witness :
  ∃ p' r, rebuildActiveIPs demo_checked = Some p' ∧ GetTopIPs 1 p' = Some r ∧ length r = 1%nat.
Proof.
  eexists _, _. split; [vm_compute; reflexivity|]. split; [vm_compute; reflexivity|].
  match goal with |- length ?r0 = _ =>
    destruct (GetTopIPs_fastest 1 demo_checked _ demo_checked_reachable
      ltac:(vm_compute; reflexivity)
      ltac:(exists "1.1.1.1"%string, (mkIPStats "1.1.1.1" 0 20 7); split; vm_compute; reflexivity))
      as (r & Hr & _ & Hl & _) end.
  vm_compute in Hr. injection Hr as <-. rewrite Hl. vm_compute. reflexivity.
Defined.

Lemma ReportFailure_deadlocks_witness :
  ∃ b p', ReportFailure "1.1.1.1" demo_pool = Some (b, p') ∧ GetTopIPs 3 p' = None.
Proof.
  eexists _, _. split; [vm_compute; reflexivity|].
  eapply (ReportFailure_deadlocks "1.1.1.1" 3 _ demo_pool _ []); [|vm_compute; reflexivity|reflexivity].
  eexists. vm_compute. reflexivity.
Defined.

Lemma RemoveInvalidIPs_correct_witness :
  ∃ count p', RemoveInvalidIPs demo_checked = Some (count, p') ∧
    stats_of p' "1.0.0.1" = Some (mkIPStats "1.0.0.1" 1 0 7).
Proof.
  eexists _, _. split; [vm_compute; reflexivity|].
  match goal with |- stats_of ?q _ = _ =>
    destruct (RemoveInvalidIPs_correct demo_checked 0 q demo_checked_reachable ltac:(vm_compute; reflexivity))
      as [Hs _] end.
  rewrite Hs. vm_compute. reflexivity.
Defined.
