(* ===== verification/AutoRouting.v ===== *)
(** [proxy/gfwlist.go] and [proxy/auto_routing.go]: the list of blocked domains
    and the router that decides for hosts no manual rule covers.

    The bytes a reader, a file or an HTTP response delivers are arguments, and so
    are the answers of the DoH resolver and the clock. *)

From S2P Require Import Prelude GoStrings GoNet Types.

Open Scope Z_scope.

(** * GFWList *)

(** [domains map[string]bool] holds only true entries: a set. *)
Record GFWList := mkGFWList {
  domains : gset string;
  gl_count : Z;
  lastLoad : Z;
}.

Definition NewGFWList : GFWList := mkGFWList ∅ 0 0.

Definition lf : ascii := "010".
Definition cr : string := String "013" "".

(** [bufio.Scanner] with [ScanLines]: the tokens, or [None] when a line does not
    fit the 64 KiB buffer ([bufio.ErrTooLong]). *)
Fixpoint drop_last_empty (l : list string) : list string :=
  match l with
  | [] => []
  | [w] => if bool_decide (w = "") then [] else [w]
  | w :: l' => w :: drop_last_empty l'
  end.

Definition scan_lines (content : string) : option (list string) :=
  let raw := Split content lf in
  if existsb (λ l, 65535 <? Z.of_nat (slen l)) raw then None
  else Some ((λ l, TrimSuffix l cr) <$> drop_last_empty raw).

Definition skip_line (line : string) : bool :=
  bool_decide (line = "") || HasPrefix line "#" || HasPrefix line "!"
  || HasPrefix line "Source:" || HasPrefix line "---".

(** The scanning loop of [LoadFromReader]: the set and the count. *)
Fixpoint load_lines (ls : list string) (acc : gset string * Z) : gset string * Z :=
  match ls with
  | [] => acc
  | l :: ls' =>
      let line := TrimSpace l in
      if skip_line line then load_lines ls' acc
      else load_lines ls' ({[ToLower line]} ∪ fst acc, snd acc + 1)
  end.

Definition LoadFromReader (content : string) (read_err : option string) (now : Z) (g : GFWList)
    : outcome Z * GFWList :=
  match scan_lines content with
  | None => (Err "bufio.Scanner: token too long", g)
  | Some ls =>
      match read_err with
      | Some e => (Err e, g)
      | None =>
          let '(ds, count) := load_lines ls (∅, 0) in
          (Ok count, mkGFWList ds count now)
      end
  end.

Definition defaultGFWListURL : string :=
  "https://raw.githubusercontent.com/Loyalsoldier/v2ray-rules-dat/release/gfw.txt".

(** An HTTP response: status and body, with the error reading the body may meet. *)
Definition LoadFromURL (get : string → outcome (Z * string * option string)) (url : string) (now : Z)
    (g : GFWList) : outcome Z * GFWList :=
  let url := if bool_decide (url = "") then defaultGFWListURL else url in
  match get url with
  | Err e => (Err ("fetch GFWList: " +:+ e), g)
  | Panic => (Panic, g)
  | Ok (status, body, read_err) =>
      if negb (status =? 200) then (Err ("fetch GFWList: HTTP " +:+ Itoa status), g)
      else LoadFromReader body read_err now g
  end.

Definition LoadFromFile (open : string → outcome (string * option string)) (path : string) (now : Z)
    (g : GFWList) : outcome Z * GFWList :=
  match open path with
  | Err e => (Err e, g)
  | Panic => (Panic, g)
  | Ok (content, read_err) => LoadFromReader content read_err now g
  end.

(** The bytes [SaveToFile] writes when the map is enumerated in [order]. *)
Fixpoint save_content (order : list string) : string :=
  match order with
  | [] => ""
  | d :: order' => d +:+ String lf (save_content order')
  end.

(** The parents of a name, from the longest: [Join(parts[i:], ".")], i >= 1. *)
Fixpoint any_parent (ds : gset string) (parts : list string) : bool :=
  match parts with
  | [] => false
  | _ :: [] => false
  | _ :: rest => bool_decide (Join rest "." ∈ ds) || any_parent ds rest
  end.

Definition IsBlocked (g : GFWList) (host : string) : bool :=
  let host := norm host in
  if bool_decide (host = "") then false
  else if bool_decide (domains g = ∅) then false
  else if bool_decide (host ∈ domains g) then true
  else any_parent (domains g) (Split host dot).

(** * AutoRouter *)

Definition cloudflareCIDRStrings : list string :=
  ["173.245.48.0/20"; "103.21.244.0/22"; "103.22.200.0/22";
   "103.31.4.0/22"; "141.101.64.0/18"; "108.162.192.0/18";
   "190.93.240.0/20"; "188.114.96.0/20"; "197.234.240.0/22";
   "198.41.128.0/17"; "162.158.0.0/15"; "104.16.0.0/13";
   "104.24.0.0/14"; "172.64.0.0/13"; "131.0.72.0/22"].

Record cfCacheEntry := mkEntry { isCF : bool; checkedAt : Z }.

Definition cfCacheTTL : Z := 30 * 60 * 1000000000.

(** The resolver's answer to a host, when there is a resolver. *)
Definition resolver := option (string → outcome (list IP)).

Record AutoRouter := mkAutoRouter {
  ar_config : AutoRoutingConfig;
  gfwList : GFWList;
  cfNets : list (Z * Z);
  cfCache : gmap string cfCacheEntry;
}.

Definition NewAutoRouter (config : AutoRoutingConfig) : AutoRouter :=
  mkAutoRouter config NewGFWList (omap ParseCIDR4 cloudflareCIDRStrings) ∅.

Definition set_cfCache (ar : AutoRouter) (c : gmap string cfCacheEntry) : AutoRouter :=
  mkAutoRouter (ar_config ar) (gfwList ar) (cfNets ar) c.

(** One tick of [cfCacheCleanupLoop]. *)
Definition cfCacheCleanup (now : Z) (ar : AutoRouter) : AutoRouter :=
  set_cfCache ar (filter (λ kv, now - checkedAt kv.2 <= cfCacheTTL) (cfCache ar)).

Definition isCloudflareIP (ar : AutoRouter) (ip : IP) : bool :=
  existsb (λ n, net_contains n ip) (cfNets ar).

(** What [IsCloudflare] finds out when the cache has no answer. *)
Definition probe (ar : AutoRouter) (doh : resolver) (host : string) : bool :=
  match doh with
  | Some resolve =>
      match resolve host with
      | Ok ips => existsb (isCloudflareIP ar) ips
      | _ => false
      end
  | None => false
  end.

(** The clock is read at the lookup ([now]) and at the insertion ([stored]). *)
Definition IsCloudflare (doh : resolver) (host : string) (now stored : Z) (ar : AutoRouter) : bool * AutoRouter :=
  let host := norm host in
  if bool_decide (host = "") then (false, ar) else
  let fill :=
    let cf := probe ar doh host in (cf, set_cfCache ar (<[host := mkEntry cf stored]> (cfCache ar))) in
  match cfCache ar !! host with
  | Some entry => if now - checkedAt entry <? cfCacheTTL then (isCF entry, ar) else fill
  | None => fill
  end.

(** The rule for a blocked host behind Cloudflare. *)
Definition Rule_cloudflare : Rule :=
  mkRule "" "" [] "" "mitm" "" "" "" true "" true "legacy-cloudflare" true "crypto.cloudflare.com"
    "" true CertVerify_zero true "".

Definition Decide (doh : resolver) (host : string) (now stored : Z) (ar : AutoRouter) : Rule * AutoRouter :=
  let mode := ar_Mode (ar_config ar) in
  if bool_decide (mode = AutoRoutingOff) || bool_decide (mode = "") then (Rule_mode "direct" false, ar)
  else if bool_decide (mode = AutoRoutingGAS) then (Rule_mode "gas" true, ar)
  else if bool_decide (mode = AutoRoutingV2Ray) then (Rule_mode "v2ray" true, ar)
  else if negb (IsBlocked (gfwList ar) host) then (Rule_mode "direct" false, ar)
  else
    let '(cf, ar') := IsCloudflare doh host now stored ar in
    if cf then (Rule_cloudflare, ar')
    else
      let rule := Rule_mode "tls-rf" true in
      ((if bool_decide (mode = AutoRoutingServerFallback) then set_FallbackMode rule "server" else rule), ar').

Definition AutoRouter_UpdateConfig (c : AutoRoutingConfig) (ar : AutoRouter) : AutoRouter :=
  mkAutoRouter c (gfwList ar) (cfNets ar) (cfCache ar).

Record GFWListStatus := mkStatus {
  gs_Enabled : bool;
  gs_Mode : string;
  gs_DomainCount : Z;
  gs_LastUpdate : string;
  gs_GFWListURL : string;
}.

Definition AutoRouter_GetStatus (ar : AutoRouter) : GFWListStatus :=
  let mode := ar_Mode (ar_config ar) in
  mkStatus (negb (bool_decide (mode = "")) && negb (bool_decide (mode = AutoRoutingOff))) mode
    (gl_count (gfwList ar)) (ar_LastUpdate (ar_config ar)) (ar_GFWListURL (ar_config ar)).

(** * Lemmas *)

Lemma any_parent_spec ds parts :
  any_parent ds parts = true ↔ ∃ k, (0 < k < length parts)%nat ∧ Join (drop k parts) "." ∈ ds.
Proof.
  induction parts as [|w [|v rest] IH]; simpl; [split; [done|intros (k & ? & _); lia]..|].
  rewrite orb_true_iff, bool_decide_eq_true, IH. split.
  - intros [H|(k & Hk & H)]; [exists 1%nat|exists (S k)]; simpl in *; split; auto; lia.
  - intros ([|[|k]] & Hk & H); [lia|by left|right]. exists (S k). simpl in *. split; [lia|done].
Qed.

Definition parent_of (d h : string) : Prop := ∃ x, h = x +:+ String dot d.

Lemma any_parent_Split ds h :
  any_parent ds (Split h dot) = true ↔ ∃ d, d ∈ ds ∧ parent_of d h.
Proof.
  rewrite any_parent_spec. split.
  - intros (k & Hk & Hin). destruct (Split_drop_suffix h dot k) as (t & Ht); [lia..|]. eexists. split; [exact Hin|].
    by exists t.
  - intros (d & Hd & x & ->). rewrite Split_app_sep. exists (length (Split x dot)).
    rewrite drop_app_length, length_app. pose proof (Split_nonempty x dot). pose proof (Split_nonempty d dot).
    change "." with (String dot ""). rewrite Join_Split. split; [|done].
    destruct (Split x dot), (Split d dot); simpl; done || lia.
Qed.

(** ** What a loaded list holds *)

Record domain_ok (d : string) : Prop := {
  dom_trim : TrimSpace d = d;
  dom_lower : ToLower d = d;
  dom_kept : skip_line d = false;
  dom_lf : contains_byte lf d = false;
  dom_len : Z.of_nat (slen d) <= 65535;
}.

Definition list_ok (g : GFWList) : Prop := ∀ d, d ∈ domains g → domain_ok d.

Lemma caseless_lf : caseless lf.
Proof. by intros [[] [] [] [] [] [] [] []]. Qed.
Lemma caseless_hash : caseless "#".
Proof. by intros [[] [] [] [] [] [] [] []]. Qed.
Lemma caseless_bang : caseless "!".
Proof. by intros [[] [] [] [] [] [] [] []]. Qed.
Lemma caseless_dash : caseless "-".
Proof. by intros [[] [] [] [] [] [] [] []]. Qed.

Lemma not_Source_lower s : HasPrefix (ToLower s) "Source:" = false.
Proof.
  destruct s as [|c s]; [done|]. unfold HasPrefix; simpl.
  by destruct c as [[] [] [] [] [] [] [] []].
Qed.

Lemma skip_line_lower s : skip_line s = false → skip_line (ToLower s) = false.
Proof.
  unfold skip_line. intros H. bool_prop.
  rewrite not_Source_lower, !HasPrefix_ToLower_caseless by auto using caseless_hash, caseless_bang, caseless_dash.
  destruct s as [|c [|c2 [|c3 s]]]; [done|..]; cbn [ToLower];
    rewrite ?HasPrefix_ToLower_caseless by auto using caseless_dash;
    unfold HasPrefix in *; cbn [is_prefix] in *; rewrite ?andb_false_r, ?andb_true_r in *;
    repeat match goal with H : _ = false |- _ => rewrite H; clear H end; try done;
    rewrite ?caseless_dash;
    repeat match goal with H : _ = false |- _ => rewrite H; clear H end; done.
Qed.

Lemma load_lines_spec ls : ∀ ds n,
  (∀ d, d ∈ fst (load_lines ls (ds, n)) ↔
     d ∈ ds ∨ ∃ l, l ∈ ls ∧ skip_line (TrimSpace l) = false ∧ d = norm l) ∧
  snd (load_lines ls (ds, n)) = n + Z.of_nat (length (List.filter (λ l, negb (skip_line (TrimSpace l))) ls)).
Proof.
  induction ls as [|l ls IH]; intros ds n; simpl; [split; [set_solver|lia]|].
  destruct (skip_line (TrimSpace l)) eqn:Hs; simpl.
  - destruct (IH ds n) as [H1 H2]. split; [|done]. intros d. rewrite H1. split.
    + intros [?|(l' & ? & ? & ?)]; [auto|right; exists l'; set_solver].
    + intros [?|(l' & [->|?]%elem_of_cons & ? & ?)]; [auto|congruence|right; eauto].
  - destruct (IH ({[ToLower (TrimSpace l)]} ∪ ds) (n + 1)) as [H1 H2]. split; [|simpl in *; lia].
    intros d. rewrite H1, elem_of_union, elem_of_singleton. fold (norm l). split.
    + intros [[->|?]|(l' & ? & ? & ?)]; [right; exists l; set_solver|auto|right; exists l'; set_solver].
    + intros [?|(l' & [->|?]%elem_of_cons & ? & ?)]; [auto|auto|right; eauto].
Qed.

Lemma drop_last_empty_subseteq l : drop_last_empty l ⊆ l.
Proof.
  induction l as [|w [|v l] IH]; simpl; [done|case_bool_decide; set_solver|].
  intros x. rewrite !elem_of_cons. specialize (IH x). set_solver.
Qed.

Lemma TrimSuffix_take s suf : ∃ k, TrimSuffix s suf = str_take k s.
Proof.
  unfold TrimSuffix. destruct (HasSuffix s suf); [by eexists|]. exists (slen s).
  rewrite <- (str_app_nil_r s) at 3. by rewrite str_take_app.
Qed.

Lemma scan_lines_line content ls l :
  scan_lines content = Some ls → l ∈ ls → contains_byte lf l = false ∧ Z.of_nat (slen l) <= 65535.
Proof.
  unfold scan_lines. destruct (existsb _ _) eqn:He; [done|]. intros [= <-] (w & -> & Hw)%list_elem_of_fmap.
  apply drop_last_empty_subseteq in Hw. destruct (TrimSuffix_take w cr) as [k ->]. split.
  - apply contains_byte_take. pose proof (Split_no_sep content lf) as HF. rewrite list.Forall_forall in HF. auto.
  - rewrite slen_take. rewrite <- not_true_iff_false, existsb_exists in He.
    destruct (Z.ltb_spec 65535 (Z.of_nat (slen w))); [|lia]. exfalso. apply He. exists w.
    split; [by apply list_elem_of_In|]. by apply Z.ltb_lt.
Qed.

Lemma loaded_domain_ok l :
  contains_byte lf l = false → Z.of_nat (slen l) <= 65535 → skip_line (TrimSpace l) = false → domain_ok (norm l).
Proof.
  intros Hlf Hlen Hs. split.
  - apply TrimSpace_norm.
  - apply ToLower_norm.
  - by apply skip_line_lower.
  - unfold norm. rewrite contains_byte_ToLower by apply caseless_lf. by apply contains_byte_TrimSpace.
  - unfold norm. rewrite slen_ToLower. pose proof (slen_TrimSpace l). lia.
Qed.

(** ** Reading back a saved list *)

Lemma Split_save_content order :
  Forall (λ d, contains_byte lf d = false) order → Split (save_content order) lf = order ++ [""].
Proof. induction 1 as [|d order Hd _ IH]; simpl; [done|]. by rewrite Split_app, IH. Qed.

Lemma drop_last_empty_snoc l : drop_last_empty (l ++ [""]) = l.
Proof.
  induction l as [|w l IH]; [done|]. cbn [app drop_last_empty].
  destruct (l ++ [""]) eqn:E; [by destruct l|]. by rewrite IH.
Qed.

Lemma TrimSuffix_cr d : TrimSpace d = d → TrimSuffix d cr = d.
Proof.
  intros Hd. unfold TrimSuffix. destruct (HasSuffix d cr) eqn:Hs; [|done].
  apply HasSuffix_spec in Hs as (t & ->). by apply TrimSpace_no_trailing in Hd.
Qed.

Lemma scan_saved order : Forall domain_ok order → scan_lines (save_content order) = Some order.
Proof.
  intros HF. unfold scan_lines. rewrite Split_save_content
    by (eapply list.Forall_impl; [exact HF|]; intros d Hd; apply (dom_lf _ Hd)).
  rewrite existsb_app. cbn. replace (existsb _ order) with false.
  - rewrite drop_last_empty_snoc. f_equal. induction HF as [|d order Hd _ IH]; simpl; [done|].
    f_equal; [apply TrimSuffix_cr, Hd|exact IH].
  - symmetry. rewrite <- not_true_iff_false, existsb_exists. intros (d & Hin & Hl).
    rewrite list.Forall_forall in HF. apply list_elem_of_In, HF in Hin. apply Z.ltb_lt in Hl.
    pose proof (dom_len _ Hin). lia.
Qed.

Lemma load_saved order : Forall domain_ok order → ∀ ds n,
  load_lines order (ds, n) = (list_to_set (rev order) ∪ ds, n + Z.of_nat (length order)).
Proof.
  induction 1 as [|d order Hd _ IH]; intros ds n; simpl; [f_equal; [set_solver|lia]|].
  rewrite (dom_trim _ Hd), (dom_kept _ Hd), (dom_lower _ Hd). rewrite IH. f_equal; [|lia].
  rewrite list_to_set_app_L. set_solver.
Qed.

(** ** Interleavings of checks and cleanups *)

Inductive router_op :=
  | OpCheck (host : string) (doh : resolver) (now stored : Z)
  | OpCleanup (now : Z).

Definition run_router (op : router_op) (ar : AutoRouter) : AutoRouter :=
  match op with
  | OpCheck host doh now stored => snd (IsCloudflare doh host now stored ar)
  | OpCleanup now => cfCacheCleanup now ar
  end.

(** The operation reads the clock before [t]. *)
Definition before (t : Z) (op : router_op) : Prop :=
  match op with OpCheck _ _ now _ => now < t | OpCleanup now => now <= t end.

Lemma entry_survives h b s ops : ∀ ar,
  cfCache ar !! h = Some (mkEntry b s) → Forall (before (s + cfCacheTTL)) ops →
  cfCache (foldl (flip run_router) ar ops) !! h = Some (mkEntry b s).
Proof.
  induction ops as [|op ops IH]; intros ar Hh HF; simpl; [done|].
  apply list.Forall_cons in HF as [Hop HF]. apply IH; [|done].
  destruct op as [host doh now stored|now]; simpl in *.
  - unfold IsCloudflare. case_bool_decide; [done|].
    destruct (decide (norm host = h)) as [->|Hne].
    + rewrite Hh. simpl. destruct (Z.ltb_spec (now - s) cfCacheTTL); [done|lia].
    + destruct (cfCache ar !! norm host) as [e|]; [destruct (_ <? _)|]; simpl; rewrite ?lookup_insert_ne by done; done.
  - rewrite map_lookup_filter_Some. split; [done|]. simpl. lia.
Qed.

(** * Properties *)

(** A host is blocked exactly when, trimmed and lowered, it is a listed domain
    or a subdomain of one at a label boundary. *)
Theorem IsBlocked_spec g host :
  IsBlocked g host = true ↔
  norm host ≠ "" ∧ ∃ d, d ∈ domains g ∧ (norm host = d ∨ parent_of d (norm host)).
Proof.
  unfold IsBlocked. case_bool_decide as He; [split; [done|tauto]|].
  case_bool_decide as Hd.
  { split; [done|]. intros (_ & d & Hin & _). rewrite Hd in Hin. set_solver. }
  case_bool_decide as Hin.
  - split; [|done]. intros _. split; [done|]. exists (norm host). auto.
  - rewrite any_parent_Split. split.
    + intros (d & ? & ?). eauto.
    + intros (_ & d & Hd' & [Heq|?]); [congruence|eauto].
Qed.

(** A successful load replaces the list by the trimmed, lowered lines that are
    neither blank nor comments, and returns their number; a failed one (a line too
    long, a read error) leaves the list as it was. *)
Theorem LoadFromReader_contents content read_err now g r g' :
  LoadFromReader content read_err now g = (r, g') →
  match r with
  | Ok n =>
      read_err = None ∧ lastLoad g' = now ∧ gl_count g' = n ∧ list_ok g' ∧
      ∃ ls, scan_lines content = Some ls ∧
        n = Z.of_nat (length (List.filter (λ l, negb (skip_line (TrimSpace l))) ls)) ∧
        ∀ d, d ∈ domains g' ↔ ∃ l, l ∈ ls ∧ skip_line (TrimSpace l) = false ∧ d = norm l
  | _ => g' = g
  end.
Proof.
  unfold LoadFromReader. destruct (scan_lines content) as [ls|] eqn:Hs; [|by intros [= <- <-]].
  destruct read_err; [by intros [= <- <-]|].
  destruct (load_lines_spec ls ∅ 0) as [Hd Hn]. destruct (load_lines ls (∅, 0)) as [ds n].
  intros [= <- <-]. simpl in *.
  assert (Hd' : ∀ d, d ∈ ds ↔ ∃ l, l ∈ ls ∧ skip_line (TrimSpace l) = false ∧ d = norm l).
  { intros d. rewrite Hd. set_solver. }
  do 3 (split; [done|]). split; [|by exists ls].
  intros d (l & Hl & Hk & ->)%Hd'. destruct (scan_lines_line _ _ _ Hs Hl). by apply loaded_domain_ok.
Qed.

Definition demo_list : GFWList :=
  snd (LoadFromReader ("! comment" +:+ String lf (" Example.COM " +:+ String lf "blocked.org")) None 5 NewGFWList).

(** A list saved with [SaveToFile], in whatever order the map is enumerated, is
    read back as the same set of domains, whatever list the reader had. *)
Theorem gfwlist_roundtrip g order now g0 :
  list_ok g → order ≡ₚ elements (domains g) →
  LoadFromReader (save_content order) None now g0 =
    (Ok (Z.of_nat (size (domains g))), mkGFWList (domains g) (Z.of_nat (size (domains g))) now).
Proof.
  intros Hok Hord.
  assert (HF : Forall domain_ok order).
  { apply list.Forall_forall. intros d Hd. apply Hok. rewrite Hord in Hd. by apply elem_of_elements. }
  unfold LoadFromReader. rewrite (scan_saved _ HF), (load_saved _ HF). 
  assert (Hset : list_to_set (rev order) ∪ ∅ = domains g).
  { apply set_eq. intros d. rewrite elem_of_union, elem_of_list_to_set, <- (elem_of_elements (domains g) d), <- Hord.
    rewrite list_elem_of_In, <- in_rev, <- list_elem_of_In. set_solver. }
  rewrite Hset. replace (0 + Z.of_nat (length order)) with (Z.of_nat (size (domains g))); [done|].
  unfold size, set_size. simpl. rewrite Hord. lia.
Qed.

Lemma IsBlocked_parent_only_listed : IsBlocked demo_list "a.EXAMPLE.com" = true ∧ IsBlocked demo_list "badexample.com" = false.
Proof. split; vm_compute; reflexivity. Qed.

Lemma gfwlist_roundtrip_witness :
  fst (LoadFromReader (save_content (elements (domains demo_list))) None 9 NewGFWList) = Ok 2.
Proof.
  rewrite (gfwlist_roundtrip demo_list (elements (domains demo_list)) 9 NewGFWList).
  - vm_compute. reflexivity.
  - intros d Hd. assert (Hall : Forall (λ d, TrimSpace d = d ∧ ToLower d = d ∧ skip_line d = false
      ∧ contains_byte lf d = false ∧ Z.of_nat (slen d) <= 65535) (elements (domains demo_list))).
    { apply (bool_decide_unpack _). vm_compute. exact I. }
    rewrite list.Forall_forall in Hall. apply elem_of_elements in Hd. destruct (Hall d Hd) as (?&?&?&?&?).
    by split.
  - reflexivity.
Defined.

Lemma LoadFromReader_contents_witness :
  ∃ n g', LoadFromReader "Example.COM" None 5 NewGFWList = (Ok n, g') ∧ list_ok g' ∧ n = 1.
Proof.
  eexists _, _. split; [vm_compute; reflexivity|].
  match goal with |- list_ok ?g ∧ _ =>
    destruct (LoadFromReader_contents "Example.COM" None 5 NewGFWList (Ok 1) g) as (_ & _ & _ & H & _) end.
  - vm_compute. reflexivity.
  - split; [exact H|reflexivity].
Defined.

Definition no_fresh_answer (ar : AutoRouter) (host : string) (now : Z) : Prop :=
  match cfCache ar !! norm host with Some e => cfCacheTTL <= now - checkedAt e | None => True end.

Lemma check_stores doh host now stored ar b ar1 :
  norm host ≠ "" → no_fresh_answer ar host now → IsCloudflare doh host now stored ar = (b, ar1) →
  cfCache ar1 !! norm host = Some (mkEntry b stored).
Proof.
  unfold no_fresh_answer, IsCloudflare. intros Hne Hst. rewrite bool_decide_false by done.
  destruct (cfCache ar !! norm host) as [e|]; [destruct (Z.ltb_spec (now - checkedAt e) cfCacheTTL); [lia|]|];
    intros [= <- <-]; simpl; by rewrite lookup_insert_eq.
Qed.

(** Once a check of a host has asked the resolver, every later check of that
    host within the cache lifetime gives the same answer without asking, whatever
    the resolver would now say and whatever checks and cleanups run in between. *)
Theorem IsCloudflare_stable doh host now stored ar b ar1 ops doh' host' now' stored' :
  norm host ≠ "" → norm host' = norm host →
  no_fresh_answer ar host now → IsCloudflare doh host now stored ar = (b, ar1) →
  Forall (before (stored + cfCacheTTL)) ops → now' < stored + cfCacheTTL →
  let ar2 := foldl (flip run_router) ar1 ops in
  IsCloudflare doh' host' now' stored' ar2 = (b, ar2).
Proof.
  intros Hne Hh Hst Hck HF Hnow ar2. pose proof (check_stores _ _ _ _ _ _ _ Hne Hst Hck) as Hc.
  pose proof (entry_survives _ _ _ ops _ Hc HF) as He.
  unfold IsCloudflare. rewrite Hh. rewrite bool_decide_false by done. fold ar2 in He. rewrite He. simpl.
  destruct (Z.ltb_spec (now' - stored) cfCacheTTL); [done|lia].
Qed.


Definition demo_doh : resolver := Some (λ h, if decide (h = "example.com") then Ok [[104; 16; 1; 2]] else Err "nx").

Definition demo_router : AutoRouter :=
  let ar := NewAutoRouter (mkAutoRoutingConfig "server" "" "") in
  mkAutoRouter (ar_config ar) demo_list (cfNets ar) (cfCache ar).

Lemma IsCloudflare_stable_witness :
  let ar1 := snd (IsCloudflare demo_doh "Example.com" 10 11 demo_router) in
  IsCloudflare None " example.com" 600 601 (cfCacheCleanup 500 ar1) = (true, cfCacheCleanup 500 ar1).
Proof.
  intros ar1.
  refine (IsCloudflare_stable demo_doh "Example.com" 10 11 demo_router true ar1 [OpCleanup 500]
    None " example.com" 600 601 _ _ _ _ _ _).
  - vm_compute. discriminate.
  - reflexivity.
  - vm_compute. exact I.
  - vm_compute. reflexivity.
  - repeat constructor; vm_compute; discriminate.
  - vm_compute. reflexivity.
Defined.

(** A host no manual rule covers goes direct exactly when automatic routing is
    off or, outside the tunnel modes, the list does not block it, and then no
    resolver is asked; any other decision is marked automatic, and only the server
    mode gives a fallback, to a TLS-RF rule. *)
Theorem Decide_direct_iff doh host now stored ar :
  let mode := ar_Mode (ar_config ar) in
  let '(rule, ar') := Decide doh host now stored ar in
  r_Enabled rule = true ∧
  (r_Mode rule = "direct" ↔
     mode = AutoRoutingOff ∨ (mode ≠ AutoRoutingGAS ∧ mode ≠ AutoRoutingV2Ray ∧ IsBlocked (gfwList ar) host = false)) ∧
  (r_Mode rule = "direct" → ar' = ar) ∧
  (r_AutoRouted rule = true ↔ r_Mode rule ≠ "direct") ∧
  (r_FallbackMode rule ≠ "" ↔ r_Mode rule = "tls-rf" ∧ mode = AutoRoutingServerFallback) ∧
  (r_Mode rule = "mitm" → r_UseCFPool rule = true ∧ r_ECHEnabled rule = true).
Proof.
  simpl. unfold Decide, AutoRoutingOff, AutoRoutingGAS, AutoRoutingV2Ray, AutoRoutingServerFallback.
  set (mode := ar_Mode (ar_config ar)).
  case_bool_decide as H0; [simpl; split_and!; try done; naive_solver|].
  simpl. case_bool_decide as H1; [simpl; split_and!; try done; naive_solver|].
  case_bool_decide as H2; [simpl; split_and!; try done; naive_solver|].
  destruct (IsBlocked (gfwList ar) host); simpl; [|split_and!; try done; naive_solver].
  destruct (IsCloudflare doh host now stored ar) as [[] ar']; simpl; [split_and!; try done; naive_solver|].
  case_bool_decide; simpl; split_and!; try done; naive_solver.
Qed.
