(* ===== verification/Settings.v ===== *)
(** The settings half of [RuleManager] in [proxy/proxy.go]: defaults, the getters
    and setters, and the settings file.

    A JSON file is modelled at the level of the Go value it decodes to: [Doc v].
    [json.MarshalIndent] followed by [json.Unmarshal] gives the value back for
    these structs: an [omitempty] string, slice or number that is left out decodes
    to its zero value, and the [*bool] fields are always written. *)

From coqutil Require Import Datatypes.RecordSetters.
From S2P Require Import Prelude GoStrings GoNet Types.
Export DoubleBraceUpdate.

(** * Files *)

Inductive file (A : Type) : Type :=
  | Absent
  | Doc (v : A)
  | Garbage          (** present, but not decodable *)
  | Unreadable.      (** [os.ReadFile] fails with another error *)
Arguments Absent {A}.
Arguments Doc {A} _.
Arguments Garbage {A}.
Arguments Unreadable {A}.

(** What the file system answers to [MkdirAll] and [WriteFile]: success, or an
    error with what is left in the file. *)
Inductive write_result (A : Type) : Type :=
  | Written
  | WriteFails (msg : string) (rest : file A).
Arguments Written {A}.
Arguments WriteFails {A} _ _.

Definition write_file {A} (w : write_result A) (v : A) : outcome unit * file A :=
  match w with
  | Written => (Ok tt, Doc v)
  | WriteFails msg rest => (Err msg, rest)
  end.

(** * The settings *)

(** The settings fields of [RuleManager]. *)
Record Settings := mkSettings {
  cloudflareConfig : CloudflareConfig;
  tunConfig : TUNConfig;
  closeToTray : bool;
  autoStart : bool;
  showMainOnAutoStart : bool;
  autoEnableProxyOnAutoStart : bool;
  serverHost : string;
  serverAuth : string;
  listenPort : string;
  listenHost : string;
  socksAddr : string;
  socksHost : string;
  socksPort : string;
  autoRoutingConfig : AutoRoutingConfig;
  language : string;
  theme : string;
  country : string;
}.

(** [SettingsConfig]; a [*bool] is an option. *)
Record SettingsConfig := mkSettingsConfig {
  sc_ListenPort : string;
  sc_ListenHost : string;
  sc_SocksAddr : string;
  sc_SocksHost : string;
  sc_SocksPort : string;
  sc_ServerHost : string;
  sc_ServerAuth : string;
  sc_CloseToTray : option bool;
  sc_AutoStart : option bool;
  sc_ShowMainWindowOnAutoStart : option bool;
  sc_AutoEnableProxyOnAutoStart : option bool;
  sc_AutoRouting : AutoRoutingConfig;
  sc_TUN : TUNConfig;
  sc_Language : string;
  sc_Theme : string;
  sc_Country : string;
  sc_CloudflareConfig : CloudflareConfig;
}.

Definition CloudflareConfig_zero : CloudflareConfig := mkCloudflareConfig [] false "".
Definition TUNConfig_zero : TUNConfig := mkTUNConfig false 0 false false false.
Definition AutoRoutingConfig_zero : AutoRoutingConfig := mkAutoRoutingConfig "" "" "".

(** The settings [NewRuleManager] starts with. *)
Definition Settings_new : Settings :=
  mkSettings CloudflareConfig_zero TUNConfig_zero true false true false "" "" "" "" "" "" ""
    AutoRoutingConfig_zero "" "" "".

(** [if f == "" { f = d }]. *)
Definition or_default (d f : string) : string := if bool_decide (f = "") then d else f.

Section settings.
(** [runtime.GOOS == "windows"]. *)
Context (windows : bool).

Definition normalizeTUNConfig (cfg : TUNConfig) : TUNConfig :=
  let cfg := if (tun_MTU cfg <=? 0)%Z then cfg {{ tun_MTU := 9000%Z }} else cfg in
  if windows then cfg {{ tun_StrictRoute := false }} else cfg.

Definition applySettingsDefaults (s : Settings) : Settings :=
  s {{ listenPort ::= or_default "8080"; listenHost ::= or_default "127.0.0.1";
       socksAddr ::= or_default "127.0.0.1:1080"; socksHost ::= or_default "127.0.0.1";
       socksPort ::= or_default "1080"; tunConfig ::= normalizeTUNConfig }}.

(** The document [saveSettingsConfig] marshals. *)
Definition settings_doc (s : Settings) : SettingsConfig :=
  {| sc_ListenPort := or_default "8080" (listenPort s);
     sc_ListenHost := or_default "127.0.0.1" (listenHost s);
     sc_SocksAddr := or_default "127.0.0.1:1080" (socksAddr s);
     sc_SocksHost := or_default "127.0.0.1" (socksHost s);
     sc_SocksPort := or_default "1080" (socksPort s);
     sc_ServerHost := serverHost s;
     sc_ServerAuth := serverAuth s;
     sc_CloseToTray := Some (closeToTray s);
     sc_AutoStart := Some (autoStart s);
     sc_ShowMainWindowOnAutoStart := Some (showMainOnAutoStart s);
     sc_AutoEnableProxyOnAutoStart := Some (autoEnableProxyOnAutoStart s);
     sc_AutoRouting := autoRoutingConfig s;
     sc_TUN := normalizeTUNConfig (tunConfig s);
     sc_Language := language s;
     sc_Theme := theme s;
     sc_Country := country s;
     sc_CloudflareConfig := cloudflareConfig s |}.

(** [saveSettingsConfig]: the error, the settings file. *)
Definition saveSettingsConfig (w : write_result SettingsConfig) (s : Settings)
    : outcome unit * file SettingsConfig :=
  write_file w (settings_doc s).

Definition saveDefaultSettingsConfig (w : write_result SettingsConfig) (s : Settings)
    : outcome unit * Settings * file SettingsConfig :=
  let s := applySettingsDefaults
    (s {{ closeToTray := true; autoStart := false; showMainOnAutoStart := true;
          autoEnableProxyOnAutoStart := false }}) in
  let '(r, f) := saveSettingsConfig w s in (r, s, f).

(** The assignments of [loadSettingsConfig] once the file is decoded. *)
Definition keep_or (v f : string) : string := if bool_decide (v = "") then f else v.

Definition load_socks_compat (config : SettingsConfig) (s : Settings) : Settings :=
  if negb (bool_decide (sc_SocksAddr config = "")) && bool_decide (sc_SocksHost config = "")
     && bool_decide (sc_SocksPort config = "") then
    match SplitHostPort (sc_SocksAddr config) with
    | Some (h, p) => s {{ socksHost := h; socksPort := p }}
    | None => s
    end
  else s.

Definition apply_config (config : SettingsConfig) (s : Settings) : Settings :=
  let s := s {{ closeToTray := true; autoStart := false; showMainOnAutoStart := true;
                autoEnableProxyOnAutoStart := false;
                cloudflareConfig := sc_CloudflareConfig config; tunConfig := sc_TUN config;
                serverHost := sc_ServerHost config; serverAuth := sc_ServerAuth config;
                listenPort ::= keep_or (sc_ListenPort config);
                listenHost ::= keep_or (sc_ListenHost config);
                socksAddr ::= keep_or (sc_SocksAddr config);
                socksHost ::= keep_or (sc_SocksHost config);
                socksPort ::= keep_or (sc_SocksPort config) }} in
  let s := load_socks_compat config s in
  let s := s {{ autoRoutingConfig := sc_AutoRouting config; language := sc_Language config;
                theme := sc_Theme config; country := sc_Country config;
                closeToTray ::= λ d, default d (sc_CloseToTray config);
                autoStart ::= λ d, default d (sc_AutoStart config);
                showMainOnAutoStart ::= λ d, default d (sc_ShowMainWindowOnAutoStart config);
                autoEnableProxyOnAutoStart ::= λ d, default d (sc_AutoEnableProxyOnAutoStart config) }} in
  applySettingsDefaults s.

Definition loadSettingsConfig (f : file SettingsConfig) (w : write_result SettingsConfig) (s : Settings)
    : outcome unit * Settings * file SettingsConfig :=
  match f with
  | Absent => saveDefaultSettingsConfig w s
  | Unreadable => (Err "read settings", s, f)
  | Garbage => (Err "unmarshal settings", s, f)
  | Doc config => (Ok tt, apply_config config s, f)
  end.

(** * Getters and setters *)

Definition GetTUNConfig (s : Settings) : TUNConfig := normalizeTUNConfig (tunConfig s).
Definition GetTheme (s : Settings) : string := or_default "light" (theme s).
Definition GetCountry (s : Settings) : string := or_default "iran" (country s).

Definition SetSocksAddr (addr : string) (s : Settings) : Settings :=
  match SplitHostPort addr with
  | Some (h, p) => s {{ socksAddr := addr; socksHost := h; socksPort := p }}
  | None => s {{ socksAddr := addr }}
  end.

(** The setters that save: the field update, then [saveSettingsConfig]. *)
Definition save_after (w : write_result SettingsConfig) (s : Settings)
    : outcome unit * Settings * file SettingsConfig :=
  let '(r, f) := saveSettingsConfig w s in (r, s, f).

Definition UpdateServerConfig host auth w s := save_after w (s {{ serverHost := host; serverAuth := auth }}).
Definition UpdateCloudflareConfig cfg w s := save_after w (s {{ cloudflareConfig := cfg }}).
Definition UpdateTUNConfig cfg w s := save_after w (s {{ tunConfig := normalizeTUNConfig cfg }}).
Definition SetCloseToTray enabled w s := save_after w (s {{ closeToTray := enabled }}).
Definition SetAutoStart enabled w s := save_after w (s {{ autoStart := enabled }}).
Definition SetShowMainWindowOnAutoStart enabled w s := save_after w (s {{ showMainOnAutoStart := enabled }}).
Definition SetAutoEnableProxyOnAutoStart enabled w s := save_after w (s {{ autoEnableProxyOnAutoStart := enabled }}).
Definition SetLanguage lang w s := save_after w (s {{ language := lang }}).
Definition SetTheme v w s := save_after w (s {{ theme := v }}).
Definition SetCountry v w s := save_after w (s {{ country := v }}).

(** The setters that do not save. *)
Definition SetListenPort (port : string) (s : Settings) : Settings := s {{ listenPort := port }}.
Definition SetListenHost (host : string) (s : Settings) : Settings := s {{ listenHost := host }}.
Definition SetSocksHost (host : string) (s : Settings) : Settings := s {{ socksHost := host }}.
Definition SetSocksPort (port : string) (s : Settings) : Settings := s {{ socksPort := port }}.

(** The operations that end by saving. *)
Inductive saving_op : (write_result SettingsConfig → Settings → outcome unit * Settings * file SettingsConfig) → Prop :=
  | op_default : saving_op saveDefaultSettingsConfig
  | op_server host auth : saving_op (UpdateServerConfig host auth)
  | op_cloudflare cfg : saving_op (UpdateCloudflareConfig cfg)
  | op_tun cfg : saving_op (UpdateTUNConfig cfg)
  | op_tray b : saving_op (SetCloseToTray b)
  | op_autostart b : saving_op (SetAutoStart b)
  | op_showmain b : saving_op (SetShowMainWindowOnAutoStart b)
  | op_autoenable b : saving_op (SetAutoEnableProxyOnAutoStart b)
  | op_language v : saving_op (SetLanguage v)
  | op_theme v : saving_op (SetTheme v)
  | op_country v : saving_op (SetCountry v).

(** * Lemmas *)

Lemma or_default_nonempty d f : d ≠ "" → or_default d f ≠ "".
Proof. unfold or_default. by case_bool_decide. Qed.

Lemma keep_or_nonempty v f : v ≠ "" → keep_or v f = v.
Proof. unfold keep_or. by case_bool_decide. Qed.

Lemma or_default_idemp d f : or_default d (or_default d f) = or_default d f.
Proof. unfold or_default. repeat case_bool_decide; congruence. Qed.

Lemma normalizeTUNConfig_idemp cfg : normalizeTUNConfig (normalizeTUNConfig cfg) = normalizeTUNConfig cfg.
Proof.
  destruct cfg as [e mtu d a st]. unfold normalizeTUNConfig, apply_update, constant; simpl.
  destruct (Z.leb_spec mtu 0); destruct windows; simpl; try done.
  all: destruct (Z.leb_spec mtu 0); [lia|done].
Qed.

Lemma applySettingsDefaults_idemp s : applySettingsDefaults (applySettingsDefaults s) = applySettingsDefaults s.
Proof.
  destruct s. unfold applySettingsDefaults, apply_update, constant; simpl.
  by rewrite !or_default_idemp, normalizeTUNConfig_idemp.
Qed.

(** What is loaded back, whatever the settings in memory at that time. *)
Lemma apply_settings_doc s s0 : apply_config (settings_doc s) s0 = applySettingsDefaults s.
Proof.
  assert (Hn : sc_SocksHost (settings_doc s) ≠ "") by (by apply or_default_nonempty).
  unfold apply_config, load_socks_compat. rewrite (bool_decide_eq_false_2 _ Hn), andb_false_r. simpl.
  destruct s, s0. unfold applySettingsDefaults, apply_update, constant, settings_doc; simpl.
  rewrite !keep_or_nonempty by (by apply or_default_nonempty).
  by rewrite !or_default_idemp, normalizeTUNConfig_idemp.
Qed.

Lemma saving_op_saves op w s r s' f :
  saving_op op → op w s = (r, s', f) → (r, f) = saveSettingsConfig w s'.
Proof.
  intros Hop. destruct Hop; cbv beta delta [saveDefaultSettingsConfig UpdateServerConfig UpdateCloudflareConfig
    UpdateTUNConfig SetCloseToTray SetAutoStart SetShowMainWindowOnAutoStart SetAutoEnableProxyOnAutoStart
    SetLanguage SetTheme SetCountry save_after] zeta;
    destruct (saveSettingsConfig w _) as [r0 f0] eqn:E; intros [= <- <- <-]; symmetry; exact E.
Qed.

(** * Properties *)

(** After any operation that saves and reports success, a restart that loads
    the settings file gets back the settings in memory, with the defaults filled
    in, whatever values the new process had. *)
Theorem saved_settings_reload op w s s' f w' s0 :
  saving_op op → op w s = (Ok tt, s', f) →
  loadSettingsConfig f w' s0 = (Ok tt, applySettingsDefaults s', f).
Proof.
  intros Hop Hr. pose proof (saving_op_saves _ _ _ _ _ _ Hop Hr) as E.
  unfold saveSettingsConfig, write_file in E. destruct w; [|done]. injection E as ->.
  simpl. by rewrite apply_settings_doc.
Qed.

(** Every load that succeeds leaves complete settings: no address or port is
    empty, the MTU is positive, and on Windows strict routing is off; a legacy file
    that has only the combined SOCKS address fills the host and the port from it. *)
Theorem loadSettingsConfig_complete f w s s' f' :
  loadSettingsConfig f w s = (Ok tt, s', f') →
  listenPort s' ≠ "" ∧ listenHost s' ≠ "" ∧ socksAddr s' ≠ "" ∧ socksHost s' ≠ "" ∧ socksPort s' ≠ "" ∧
  (0 < tun_MTU (tunConfig s'))%Z ∧ (windows = true → tun_StrictRoute (tunConfig s') = false) ∧
  (∀ config h p, f = Doc config → sc_SocksHost config = "" → sc_SocksPort config = "" →
     SplitHostPort (sc_SocksAddr config) = Some (h, p) → h ≠ "" → p ≠ "" → socksHost s' = h ∧ socksPort s' = p).
Proof.
  intros Hl.
  assert (Hd : ∃ s1, s' = applySettingsDefaults s1 ∧
    ∀ config, f = Doc config → s' = apply_config config s).
  { unfold loadSettingsConfig, saveDefaultSettingsConfig in Hl. destruct f as [|config| |]; simpl in Hl; try done.
    - destruct (saveSettingsConfig w _). injection Hl as _ <- _. eexists. split; [reflexivity|done].
    - injection Hl as <- <-. eexists. split; [reflexivity|]. by intros ? [= ->]. }
  destruct Hd as (s1 & -> & Hc).
  assert (Hmtu : ∀ c, (0 < tun_MTU (normalizeTUNConfig c))%Z ∧ (windows = true → tun_StrictRoute (normalizeTUNConfig c) = false)).
  { intros [e mtu d a st]. unfold normalizeTUNConfig, apply_update, constant; simpl.
    destruct (Z.leb_spec mtu 0); destruct windows; simpl; split; (lia || done). }
  split_and!; try (by apply or_default_nonempty); try apply Hmtu.
  intros config h p Hf Hh Hp Hs Hhn Hpn. rewrite (Hc config Hf).
  unfold apply_config, load_socks_compat. rewrite (bool_decide_eq_true_2 _ Hh), (bool_decide_eq_true_2 _ Hp).
  rewrite bool_decide_false by (intros E; rewrite E in Hs; done). rewrite Hs. simpl.
  unfold apply_update, constant, or_default; simpl. by rewrite !bool_decide_false.
Qed.
End settings.

Lemma saved_settings_reload_witness :
  let '(_, s, f) := SetTheme true "dark" Written Settings_new in
  loadSettingsConfig true f Written Settings_new = (Ok tt, applySettingsDefaults true s, f).
Proof.
  apply (saved_settings_reload true (SetTheme true "dark") Written Settings_new); [constructor|reflexivity].
Defined.

Definition legacy_doc : SettingsConfig :=
  (settings_doc true Settings_new) {{ sc_SocksAddr := "0.0.0.0:9050"; sc_SocksHost := ""; sc_SocksPort := "" }}.

Lemma loadSettingsConfig_complete_witness :
  ∃ s', loadSettingsConfig true (Doc legacy_doc) Written Settings_new = (Ok tt, s', Doc legacy_doc) ∧
    socksHost s' = "0.0.0.0" ∧ socksPort s' = "9050".
Proof.
  eexists. split; [reflexivity|].
  eapply (loadSettingsConfig_complete true (Doc legacy_doc) Written Settings_new _ (Doc legacy_doc));
    [reflexivity|reflexivity|..]; vm_compute; reflexivity || discriminate.
Defined.
