(* ===== verification/Base64.v ===== *)
(** [encoding/base64]'s [StdEncoding], as the program uses it for ECH
    configurations and public-key digests: encoding with padding, decoding that
    skips line breaks and ignores the unused bits of the last group. *)

From Stdlib Require Import Strings.Byte.
From S2P Require Import Prelude GoStrings GoBytes.

Open Scope Z_scope.

(** The digit of a 6-bit value, and its inverse. *)
Definition enc6 (v : Z) : ascii :=
  let n := if v <? 26 then 65 + v else if v <? 52 then 97 + (v - 26)
           else if v <? 62 then 48 + (v - 52) else if v =? 62 then 43 else 47 in
  ascii_of_nat (Z.to_nat n).

Definition dec6 (c : ascii) : option Z :=
  let n := Z.of_nat (nat_of_ascii c) in
  if (65 <=? n) && (n <=? 90) then Some (n - 65)
  else if (97 <=? n) && (n <=? 122) then Some (n - 97 + 26)
  else if (48 <=? n) && (n <=? 57) then Some (n - 48 + 52)
  else if n =? 43 then Some 62
  else if n =? 47 then Some 63
  else None.

Definition pad : ascii := "=".

(** [EncodeToString]. *)
Fixpoint EncodeToString (src : list byte) : string :=
  match src with
  | [] => ""
  | [a] =>
      let v := Z.shiftl (bval a) 16 in
      String (enc6 (Z.land (Z.shiftr v 18) 63)) (String (enc6 (Z.land (Z.shiftr v 12) 63))
        (String pad (String pad "")))
  | [a; b] =>
      let v := Z.lor (Z.shiftl (bval a) 16) (Z.shiftl (bval b) 8) in
      String (enc6 (Z.land (Z.shiftr v 18) 63)) (String (enc6 (Z.land (Z.shiftr v 12) 63))
        (String (enc6 (Z.land (Z.shiftr v 6) 63)) (String pad "")))
  | a :: b :: c :: rest =>
      let v := Z.lor (Z.lor (Z.shiftl (bval a) 16) (Z.shiftl (bval b) 8)) (bval c) in
      String (enc6 (Z.land (Z.shiftr v 18) 63)) (String (enc6 (Z.land (Z.shiftr v 12) 63))
        (String (enc6 (Z.land (Z.shiftr v 6) 63)) (String (enc6 (Z.land v 63)) (EncodeToString rest))))
  end.

Fixpoint strip_breaks (s : string) : string :=
  match s with
  | "" => ""
  | String c s' => if ceq c "010" || ceq c "013" then strip_breaks s' else String c (strip_breaks s')
  end.

(** Groups of four digits; padding ends the input. *)
Fixpoint decode_quads (s : string) : option (list byte) :=
  match s with
  | "" => Some []
  | String c0 (String c1 (String c2 (String c3 rest))) =>
      match dec6 c0, dec6 c1 with
      | Some v0, Some v1 =>
          if ceq c3 pad then
            if nonempty rest then None
            else if ceq c2 pad then
              let v := Z.lor (Z.shiftl v0 18) (Z.shiftl v1 12) in Some [byte_of (Z.shiftr v 16)]
            else match dec6 c2 with
                 | Some v2 =>
                     let v := Z.lor (Z.lor (Z.shiftl v0 18) (Z.shiftl v1 12)) (Z.shiftl v2 6) in
                     Some [byte_of (Z.shiftr v 16); byte_of (Z.shiftr v 8)]
                 | None => None
                 end
          else match dec6 c2, dec6 c3 with
               | Some v2, Some v3 =>
                   let v := Z.lor (Z.lor (Z.lor (Z.shiftl v0 18) (Z.shiftl v1 12)) (Z.shiftl v2 6)) v3 in
                   match decode_quads rest with
                   | Some bs => Some (byte_of (Z.shiftr v 16) :: byte_of (Z.shiftr v 8) :: byte_of v :: bs)
                   | None => None
                   end
               | _, _ => None
               end
      | _, _ => None
      end
  | _ => None
  end.

(** [DecodeString]; [None] for a [CorruptInputError]. *)
Definition DecodeString (s : string) : option (list byte) := decode_quads (strip_breaks s).

(** ** The other encodings

    [RawStdEncoding] has no padding: a text without padding decodes as the padded one,
    and a padding character is an error.  The URL encodings write ['-'] and ['_'] for
    ['+'] and ['/']. *)
Definition padding (n : nat) : string :=
  match (n mod 4)%nat with
  | 1%nat => "==="
  | 2%nat => "=="
  | 3%nat => "="
  | _ => ""
  end.

Definition RawDecodeString (s : string) : option (list byte) :=
  let s := strip_breaks s in
  if contains_byte pad s then None else decode_quads (s +:+ padding (slen s)).

Fixpoint map_bytes (f : ascii → ascii) (s : string) : string :=
  match s with "" => "" | String c s' => String (f c) (map_bytes f s') end.

Definition url_digit (c : ascii) : ascii := if ceq c "-" then "+"%char else if ceq c "_" then "/"%char else c.

Definition digit_url (c : ascii) : ascii := if ceq c "+" then "-"%char else if ceq c "/" then "_"%char else c.

Definition std_only (s : string) : bool := contains_byte "+" s || contains_byte "/" s.

Definition URLDecodeString (s : string) : option (list byte) :=
  if std_only s then None else DecodeString (map_bytes url_digit s).

Definition RawURLDecodeString (s : string) : option (list byte) :=
  if std_only s then None else RawDecodeString (map_bytes url_digit s).

Definition URLEncodeToString (src : list byte) : string := map_bytes digit_url (EncodeToString src).

(** * Lemmas *)

(** A property of the 64 digit values, by enumeration. *)
Definition digit_ok (v : Z) : bool :=
  bool_decide (dec6 (enc6 v) = Some v) && negb (ceq (enc6 v) pad) && negb (ceq (enc6 v) "010")
  && negb (ceq (enc6 v) "013") && negb (is_space (enc6 v)).

Lemma digits_ok : forallb digit_ok (Z.of_nat <$> seq 0 64) = true.
Proof. vm_compute. reflexivity. Qed.

Lemma digit_ok_land v : digit_ok (Z.land v 63) = true.
Proof.
  pose proof digits_ok as H. rewrite forallb_forall in H. apply H, list_elem_of_In, list_elem_of_fmap.
  change 63 with (Z.ones 6). rewrite Z.land_ones by lia. pose proof (Z.mod_pos_bound v (2 ^ 6)).
  exists (Z.to_nat (v mod 2 ^ 6)). split; [lia|]. apply elem_of_seq. lia.
Qed.

Lemma dec6_enc6 v : dec6 (enc6 (Z.land v 63)) = Some (Z.land v 63).
Proof. pose proof (digit_ok_land v) as H. unfold digit_ok in H. by bool_prop. Qed.

Lemma enc6_not_pad v : ceq (enc6 (Z.land v 63)) pad = false.
Proof. pose proof (digit_ok_land v) as H. unfold digit_ok in H. by bool_prop. Qed.

Lemma strip_digit v s : strip_breaks (String (enc6 (Z.land v 63)) s) = String (enc6 (Z.land v 63)) (strip_breaks s).
Proof.
  pose proof (digit_ok_land v) as H. unfold digit_ok in H. bool_prop. cbn [strip_breaks].
  match goal with H1 : ceq _ "010" = false, H2 : ceq _ "013" = false |- _ => by rewrite H1, H2 end.
Qed.

Lemma byte_of_mod z : byte_of (z mod 256) = byte_of z.
Proof. unfold byte_of. by rewrite Z.mod_mod by lia. Qed.

Ltac tidy_bits :=
  rewrite ?andb_true_r, ?andb_false_r; simpl; rewrite ?orb_false_r; try done; f_equal; lia.

(** Splitting a 24-bit group into four digits loses nothing. *)
Lemma digits_join v :
  0 <= v < 2 ^ 24 →
  Z.lor (Z.lor (Z.lor (Z.shiftl (Z.land (Z.shiftr v 18) 63) 18) (Z.shiftl (Z.land (Z.shiftr v 12) 63) 12))
    (Z.shiftl (Z.land (Z.shiftr v 6) 63) 6)) (Z.land v 63) = v.
Proof.
  intros Hv. apply Z.bits_inj'. intros n Hn.
  change 63 with (Z.ones 6).
  rewrite !Z.lor_spec, !Z.shiftl_spec, !Z.land_spec by lia.
  destruct (Z.ltb_spec n 6).
  - rewrite !(Z.testbit_neg_r _ (n - _)) by lia. rewrite Z.ones_spec_low by lia. tidy_bits.
  - rewrite (Z.ones_spec_high 6 n) by lia.
    destruct (Z.ltb_spec n 12); [|destruct (Z.ltb_spec n 18); [|destruct (Z.ltb_spec n 24)]].
    + rewrite !(Z.testbit_neg_r _ (n - 18)), !(Z.testbit_neg_r _ (n - 12)) by lia.
      rewrite Z.shiftr_spec, Z.ones_spec_low by lia. tidy_bits.
    + rewrite !(Z.testbit_neg_r _ (n - 18)) by lia. rewrite (Z.ones_spec_high 6 (n - 6)) by lia.
      rewrite Z.shiftr_spec, Z.ones_spec_low by lia. tidy_bits.
    + rewrite (Z.ones_spec_high 6 (n - 6)), (Z.ones_spec_high 6 (n - 12)) by lia.
      rewrite Z.shiftr_spec, Z.ones_spec_low by lia. tidy_bits.
    + rewrite !Z.ones_spec_high by lia. rewrite !andb_false_r. simpl. symmetry.
      rewrite <- (Z.mod_small v (2 ^ 24)) by lia. apply Z.mod_pow2_bits_high. lia.
Qed.

Lemma group_val a b c :
  Z.lor (Z.lor (Z.shiftl (bval a) 16) (Z.shiftl (bval b) 8)) (bval c) = 65536 * bval a + 256 * bval b + bval c.
Proof.
  pose proof (bval_range a). pose proof (bval_range b). pose proof (bval_range c).
  replace (Z.shiftl (bval a) 16) with (Z.shiftl (Z.shiftl (bval a) 8) 8) by (rewrite Z.shiftl_shiftl; [done|lia]).
  rewrite <- Z.shiftl_lor, lor_shift8, lor_shift8 by lia. lia.
Qed.

Lemma group_bytes a b c :
  let v := 65536 * bval a + 256 * bval b + bval c in
  byte_of (Z.shiftr v 16) = a ∧ byte_of (Z.shiftr v 8) = b ∧ byte_of v = c ∧ 0 <= v < 2 ^ 24.
Proof.
  pose proof (bval_range a). pose proof (bval_range b). pose proof (bval_range c). intros v. subst v.
  split_and!; [| | |lia|lia]; rewrite ?Z.shiftr_div_pow2 by lia; rewrite <- byte_of_mod.
  - rewrite <- (byte_of_bval a) at 2. f_equal. change (2 ^ 16) with 65536.
    replace (65536 * bval a + 256 * bval b + bval c) with (bval a * 65536 + (256 * bval b + bval c)) by lia.
    rewrite Z.div_add_l, Z.div_small, Z.mod_small by lia. lia.
  - rewrite <- (byte_of_bval b) at 2. f_equal. change (2 ^ 8) with 256.
    replace (65536 * bval a + 256 * bval b + bval c) with ((256 * bval a + bval b) * 256 + bval c) by lia.
    rewrite Z.div_add_l, Z.div_small by lia. rewrite Z.add_0_r, Z.add_comm, Z.mul_comm, Z.mod_add, Z.mod_small by lia. done.
  - rewrite <- (byte_of_bval c) at 2. f_equal.
    replace (65536 * bval a + 256 * bval b + bval c) with (bval c + (256 * bval a + bval b) * 256) by lia.
    rewrite Z.mod_add, Z.mod_small by lia. done.
Qed.

(** A final group of one or two bytes is a group whose last bytes are zero. *)
Lemma land63_0 v k : 0 <= k → v mod (64 * 2 ^ k) = 0 → Z.land (Z.shiftr v k) 63 = 0.
Proof.
  intros Hk Hv. change 63 with (Z.ones 6). rewrite Z.land_ones, Z.shiftr_div_pow2 by lia.
  pose proof (Z.pow_pos_nonneg 2 k ltac:(lia) Hk).
  apply Z.mod_divide in Hv as [q ->]; [|lia].
  replace (q * (64 * 2 ^ k)) with (q * 64 * 2 ^ k) by lia. rewrite Z.div_mul by lia.
  change (2 ^ 6) with 64. apply Z.mod_mul. lia.
Qed.

Lemma group2 a b :
  let v := Z.lor (Z.shiftl (bval a) 16) (Z.shiftl (bval b) 8) in
  Z.lor (Z.lor (Z.shiftl (Z.land (Z.shiftr v 18) 63) 18) (Z.shiftl (Z.land (Z.shiftr v 12) 63) 12))
    (Z.shiftl (Z.land (Z.shiftr v 6) 63) 6) = v ∧ byte_of (Z.shiftr v 16) = a ∧ byte_of (Z.shiftr v 8) = b.
Proof.
  intros v. assert (Hv : v = 65536 * bval a + 256 * bval b + bval x00).
  { rewrite <- group_val. change (bval x00) with 0. by rewrite Z.lor_0_r. }
  destruct (group_bytes a b x00) as (Ha & Hb & _ & Hr). rewrite <- Hv in *. split; [|done].
  rewrite <- (digits_join v) at 4 by done.
  assert (Z.land v 63 = 0) as ->; [|by rewrite Z.lor_0_r].
  rewrite <- (Z.shiftr_0_r v). apply land63_0; [lia|]. rewrite Hv. change (bval x00) with 0. change (64 * 2 ^ 0) with 64.
  replace (65536 * bval a + 256 * bval b + 0) with ((1024 * bval a + 4 * bval b) * 64) by lia. apply Z.mod_mul. lia.
Qed.

Lemma group1 a :
  let v := Z.shiftl (bval a) 16 in
  Z.lor (Z.shiftl (Z.land (Z.shiftr v 18) 63) 18) (Z.shiftl (Z.land (Z.shiftr v 12) 63) 12) = v ∧
  byte_of (Z.shiftr v 16) = a.
Proof.
  intros v. destruct (group2 a x00) as (Hj & Ha & _). change (Z.shiftl (bval x00) 8) with 0 in *.
  rewrite !Z.lor_0_r in *. fold v in Hj, Ha. split; [|done]. rewrite <- Hj at 3.
  assert (Z.land (Z.shiftr v 6) 63 = 0) as ->; [|by rewrite Z.shiftl_0_l, Z.lor_0_r].
  apply land63_0; [lia|]. unfold v. rewrite Z.shiftl_mul_pow2 by lia. change (64 * 2 ^ 6) with 4096.
  replace (bval a * 2 ^ 16) with (bval a * 16 * 4096) by lia. apply Z.mod_mul. lia.
Qed.

Lemma decode_quads_4 v0 v1 v2 v3 rest :
  decode_quads (String (enc6 (Z.land v0 63)) (String (enc6 (Z.land v1 63)) (String (enc6 (Z.land v2 63))
    (String (enc6 (Z.land v3 63)) rest)))) =
  let v := Z.lor (Z.lor (Z.lor (Z.shiftl (Z.land v0 63) 18) (Z.shiftl (Z.land v1 63) 12))
             (Z.shiftl (Z.land v2 63) 6)) (Z.land v3 63) in
  match decode_quads rest with
  | Some bs => Some (byte_of (Z.shiftr v 16) :: byte_of (Z.shiftr v 8) :: byte_of v :: bs)
  | None => None
  end.
Proof. cbn [decode_quads]. by rewrite !dec6_enc6, enc6_not_pad. Qed.

Lemma list_ind3 {A} (P : list A → Prop) :
  P [] → (∀ a, P [a]) → (∀ a b, P [a; b]) → (∀ a b c l, P l → P (a :: b :: c :: l)) → ∀ l, P l.
Proof.
  intros H0 H1 H2 H3. fix IH 1. intros [|a [|b [|c l]]]; [exact H0|apply H1|apply H2|apply H3, IH].
Qed.

(** Decoding gives back the encoded bytes. *)
Lemma Decode_Encode src : DecodeString (EncodeToString src) = Some src.
Proof.
  unfold DecodeString. induction src as [|a|a b|a b c src IH] using list_ind3; [done|..]; cbn [EncodeToString].
  - rewrite !strip_digit. cbn -[Z.shiftl Z.shiftr Z.land Z.lor enc6 dec6].
    rewrite !dec6_enc6. cbn -[Z.shiftl Z.shiftr Z.land Z.lor]. destruct (group1 a) as [-> ->]. done.
  - rewrite !strip_digit. cbn -[Z.shiftl Z.shiftr Z.land Z.lor enc6 dec6].
    rewrite !dec6_enc6, enc6_not_pad. cbn -[Z.shiftl Z.shiftr Z.land Z.lor]. destruct (group2 a b) as (-> & -> & ->). done.
  - rewrite !strip_digit, decode_quads_4, IH. cbv zeta. destruct (group_bytes a b c) as (Ha & Hb & Hc & Hr).
    rewrite digits_join by (rewrite group_val; exact Hr). rewrite group_val, Ha, Hb, Hc. done.
Qed.

Lemma Encode_nonempty src : src ≠ [] → EncodeToString src ≠ "".
Proof. destruct src as [|a [|b [|c src]]]; done. Qed.
