(* ===== verification/Rules.v ===== *)
(** The rules half of [RuleManager] in [proxy/proxy.go]: site groups, upstreams,
    DNS nodes and ECH profiles, the flat list of rules built from them, rule
    matching, and the rules file.

    The mutex is held for the whole of each operation, so an operation is a
    function on the state.  [now] is the clock [generateID] reads; [w] is what the
    file system answers to the save.  Slices are values here: the code's in-place
    edits of [siteGroups], [upstreams] and [echProfiles] are also visible through
    the slices the getters handed out. *)

From coqutil Require Import Datatypes.RecordSetters.
From Stdlib Require Import Strings.Byte.
From S2P Require Import Prelude GoStrings GoNet GoBytes Types Hosts AutoRouting Settings Base64.
Import DoubleBraceUpdate.

Open Scope nat_scope.

(** * State *)

Record RulesConfig := mkRulesConfig {
  rc_SiteGroups : list SiteGroup;
  rc_Upstreams : list Upstream;
  rc_DNSNodes : list DNSNode;
  rc_ECHProfiles : list ECHProfile;
}.

Record RuleManager := mkRuleManager {
  rules : list Rule;
  siteGroups : list SiteGroup;
  upstreams : list Upstream;
  dnsNodes : list DNSNode;
  echProfiles : list ECHProfile;
  settings : Settings;
  autoRouter : option AutoRouter;
  settingsFile : file SettingsConfig;   (** the file at [settingsPath] *)
  rulesFile : file RulesConfig;         (** the file at [rulesPath] *)
}.

Definition NewRuleManager (fs : file SettingsConfig) (fr : file RulesConfig) : RuleManager :=
  mkRuleManager [] [] [] [] [] Settings_new None fs fr.

(** The document [saveRulesConfig] marshals. *)
Definition rules_doc (rm : RuleManager) : RulesConfig :=
  mkRulesConfig (siteGroups rm) (upstreams rm) (dnsNodes rm) (echProfiles rm).

Definition saveRulesConfig (w : write_result RulesConfig) (rm : RuleManager) : outcome unit * RuleManager :=
  let '(r, f) := write_file w (rules_doc rm) in (r, rm {{ rulesFile := f }}).

(** [generateID]: the clock in decimal. *)
Definition generateID (now : Z) : string := Itoa now.

(** * Building the rules *)

(** [upstreamMap]: the last enabled upstream of an ID with an address. *)
Definition upstream_map (ups : list Upstream) : gmap string string :=
  foldl (λ m up, if up_Enabled up && nonempty (up_Address up) then <[up_ID up := up_Address up]> m else m) ∅ ups.

Definition ech_map (profiles : list ECHProfile) : gmap string ECHProfile :=
  foldl (λ m p, <[ep_ID p := p]> m) ∅ profiles.

Definition resolve_id (m : gmap string string) (id : string) : string := default id (m !! id).

Definition group_profile (em : gmap string ECHProfile) (sg : SiteGroup) : ECHProfile :=
  if nonempty (sg_ECHProfileID sg) then default ECHProfile_zero (em !! sg_ECHProfileID sg) else ECHProfile_zero.

Definition group_rule (um : gmap string string) (em : gmap string ECHProfile) (sg : SiteGroup) (domain : string) : Rule :=
  let echProfile := group_profile em sg in
  {| r_Domain := domain;
     r_Upstream := resolve_id um (sg_Upstream sg);
     r_Upstreams := resolve_id um <$> sg_Upstreams sg;
     r_DNSMode := normalizeDNSMode (sg_DNSMode sg);
     r_Mode := sg_Mode sg;
     r_SniFake := sg_SniFake sg;
     r_ConnectPolicy := TrimSpace (sg_ConnectPolicy sg);
     r_SniPolicy := TrimSpace (sg_SniPolicy sg);
     r_Enabled := true;
     r_SiteID := sg_ID sg;
     r_ECHEnabled := sg_ECHEnabled sg;
     r_ECHProfileID := sg_ECHProfileID sg;
     r_UseCFPool := sg_UseCFPool sg;
     r_ECHDiscoveryDomain := ep_DiscoveryDomain echProfile;
     r_ECHDoHUpstream := ep_DoHUpstream echProfile;
     r_ECHAutoUpdate := ep_AutoUpdate echProfile;
     r_CertVerify := sg_CertVerify sg;
     r_AutoRouted := false;
     r_FallbackMode := "" |}.

Definition built_rules (sgs : list SiteGroup) (ups : list Upstream) (profiles : list ECHProfile) : list Rule :=
  let um := upstream_map ups in
  let em := ech_map profiles in
  flat_map (λ sg, if negb (sg_Enabled sg) then [] else group_rule um em sg <$> sg_Domains sg) sgs.

Definition buildRules (rm : RuleManager) : RuleManager :=
  rm {{ rules := built_rules (siteGroups rm) (upstreams rm) (echProfiles rm) }}.

Definition SetRules (rs : list Rule) (rm : RuleManager) : RuleManager := rm {{ rules := rs }}.

(** * Matching *)

Section matching.
Context (regex_match : string → string → option bool).

(** The loop over [r.rules]. *)
Fixpoint best_rule (host : string) (rs : list Rule) (best : Rule) (bestScore : Z) : Rule * Z :=
  match rs with
  | [] => (best, bestScore)
  | rule :: rs' =>
      if negb (r_Enabled rule) then best_rule host rs' best bestScore
      else
        let score := domainMatchScore regex_match host (r_Domain rule) in
        if ((0 <=? score) && (bestScore <? score))%Z then best_rule host rs' rule score
        else best_rule host rs' best bestScore
  end.

(** [matchRule]: the rule, the route event it emits, and the manager (whose
    automatic router may have learnt about the host). *)
Definition matchRule (doh : resolver) (now stored : Z) (host mode : string) (rm : RuleManager)
    : Rule * (string * string) * RuleManager :=
  let host := normalizeHost host in
  let mode := norm mode in
  let autoMode := ar_Mode (autoRoutingConfig (settings rm)) in
  if bool_decide (mode = "v2ray") then (Rule_mode "v2ray" false, (host, "v2ray"), rm)
  else if bool_decide (mode = "gas") then (Rule_mode "gas" false, (host, "gas"), rm)
  else if bool_decide (is_Some (autoRouter rm)) && bool_decide (autoMode = "v2ray")
  then (Rule_mode "v2ray" true, (host, "v2ray"), rm)
  else if bool_decide (is_Some (autoRouter rm)) && bool_decide (autoMode = "gas")
  then (Rule_mode "gas" true, (host, "gas"), rm)
  else
    let '(best, bestScore) := best_rule host (rules rm) Rule_zero (-1)%Z in
    if (0 <=? bestScore)%Z then
      let best := if bool_decide (mode = "transparent") && bool_decide (r_Mode best = "mitm")
                  then set_Mode best "direct" else best in
      (best, (host, r_Mode best), rm)
    else
      let default_direct rm := (Rule_mode "direct" false, (host, "direct"), rm) in
      match autoRouter rm with
      | Some ar =>
          if nonempty autoMode then
            let '(autoRule, ar') := Decide doh host now stored ar in
            let rm' := rm {{ autoRouter := Some ar' }} in
            if negb (bool_decide (r_Mode autoRule = "direct"))
            then (autoRule, (host, r_Mode autoRule), rm') else default_direct rm'
          else default_direct rm
      | None => default_direct rm
      end.
End matching.

(** * Loading *)

Definition findECHProfileByID (profiles : list ECHProfile) (id : string) : option nat :=
  let id := TrimSpace id in
  if bool_decide (id = "") then None
  else find_index (λ p, bool_decide (ep_ID p = id)) profiles.

Definition normalizeECHProfile (p : ECHProfile) : ECHProfile :=
  mkECHProfile (TrimSpace (ep_ID p)) (TrimSpace (ep_Name p)) (TrimSpace (ep_Config p))
    (TrimSpace (ep_DiscoveryDomain p)) (TrimSpace (ep_DoHUpstream p)) (ep_AutoUpdate p).

Definition legacyID : string := "legacy-cloudflare".

Definition ensureLegacyCloudflareProfile (profiles : list ECHProfile) : string * list ECHProfile :=
  let fill p :=
    (normalizeECHProfile p) {{ ep_Name ::= or_default "Legacy Cloudflare";
                               ep_DiscoveryDomain ::= or_default "crypto.cloudflare.com" }} in
  match findECHProfileByID profiles legacyID with
  | Some i => (default "" (ep_ID ∘ fill <$> profiles !! i), alter fill i profiles)
  | None => (legacyID, profiles ++ [mkECHProfile legacyID "Legacy Cloudflare" "" "crypto.cloudflare.com" "" true])
  end.

Fixpoint migrateLegacyECHRules (sgs : list SiteGroup) (profiles : list ECHProfile)
    : bool * list SiteGroup * list ECHProfile :=
  match sgs with
  | [] => (false, [], profiles)
  | sg :: sgs' =>
      let profile := TrimSpace (sg_ECHProfileID sg) in
      let domain := TrimSpace (sg_ECHDomain sg) in
      if sg_ECHEnabled sg && bool_decide (profile = "") && EqualFold domain "crypto.cloudflare.com" then
        let '(id, profiles) := ensureLegacyCloudflareProfile profiles in
        let '(_, rest, profiles) := migrateLegacyECHRules sgs' profiles in
        (true, set_sgECH sg id "" :: rest, profiles)
      else
        let '(m, rest, profiles) := migrateLegacyECHRules sgs' profiles in
        (m, set_sgECH sg profile domain :: rest, profiles)
  end.

(** The loop that fills in missing website names. *)
Definition fill_website (sg : SiteGroup) : SiteGroup :=
  let w := TrimSpace (sg_Website sg) in
  set_sgWebsite sg (if bool_decide (w = "") then inferWebsiteFromSiteGroup (set_sgWebsite sg w) else w).

Definition lacks_website (sg : SiteGroup) : bool := bool_decide (TrimSpace (sg_Website sg) = "").

Definition defaultDNSNodes : list DNSNode := [].

Definition defaultGoogleDomains : list string := [
    "*.google.com"; "*.googleapis.com"; "*.googlevideo.com"; "*.youtube.com";
    "*.ytimg.com"; "*.ggpht.com"; "*.googleusercontent.com"; "*.gstatic.com";
    "*.yt3.ggpht.com"; "*.googleadservices.com"; "*.googlesyndication.com"; "*.google-analytics.com";
    "*.doubleclick.net"; "*.blogger.com"; "*.blogspot.com"; "*.googleblog.com";
    "*.youtu.be"; "*.gmail.com"; "*.googlemail.com"; "*.withgoogle.com";
    "*.goo.gl"; "*.app.goo.gl"; "*.chrome.com"; "*.chromium.org";
    "*.g.co"; "*.android.com"; "*.androidify.com"; "*.waymo.com";
    "*.nest.com"; "*.fitbit.com"; "*.wearos.com"; "*.adsense.com";
    "*.admob.com"; "*.firebase.com"; "*.firebaseio.com"; "*.firebaseapp.com";
    "*.cloud.google.com"; "*.appspot.com"; "*.googleapi.com"; "*.googleapiclient.com";
    "*.googlecode.com"; "*.flutter.dev"; "*.dartlang.org"; "*.golang.org";
    "*.googlesource.com"; "*.googlehosted.com"; "*.googlezip.net"; "*.googlecommerce.com";
    "*.googletagmanager.com"; "*.googleoptimize.com"; "*.googleweblight.com"; "*.googlelabs.com";
    "*.google.info"; "*.google.net"; "*.google.org"; "*.google.eu";
    "*.1e100.net"; "*.withyoutube.com"; "*.youtubekids.com"; "*.youtubeeducation.com";
    "*.googletraveladservices.com"; "*.googlegroups.com"; "*.googlechat.com"; "*.googleplus.com";
    "*.googlehangouts.com"; "*.googleplay.com"; "*.googledrive.com"; "*.googlephotos.com";
    "*.googlecalendar.com"; "*.googlekeep.com"; "*.googlepodcasts.com"; "*.googlebooks.com";
    "*.googlenews.com"; "*.googlefinance.com"; "*.googletranslate.com"; "*.googlemaps.com";
    "*.googleearth.com"; "*.googleclassroom.com"; "*.googlemeet.com"; "*.googleforms.com";
    "*.googleslides.com"; "*.googlesites.com"; "*.googledocs.com"; "*.googlesheets.com";
    "*.googleads.google.com"; "*.googlehosted.com"; "*.googlezip.net"; "*.googlecommerce.com";
    "*.googletagmanager.com"; "*.googleoptimize.com"; "*.googleweblight.com"; "*.googlelabs.com";
    "*.google.info"; "*.google.net"; "*.google.org"; "*.google.eu";
    "*.google.us"; "*.google.co"; "*.google.ac"; "*.google.ad";
    "*.google.ae"; "*.google.af"; "*.google.ag"; "*.google.ai";
    "*.google.al"; "*.google.am"; "*.google.ao"; "*.google.ar";
    "*.google.as"; "*.google.at"; "*.google.au"; "*.google.az";
    "*.google.ba"; "*.google.bd"; "*.google.be"; "*.google.bf";
    "*.google.bg"; "*.google.bh"; "*.google.bi"; "*.google.bj";
    "*.google.bn"; "*.google.bo"; "*.google.br"; "*.google.bs";
    "*.google.bt"; "*.google.bw"; "*.google.by"; "*.google.bz";
    "*.google.ca"; "*.google.cc"; "*.google.cd"; "*.google.cf";
    "*.google.cg"; "*.google.ch"; "*.google.ci"; "*.google.cl";
    "*.google.cm"; "*.google.cn"; "*.google.co.ao"; "*.google.co.bw";
    "*.google.co.ck"; "*.google.co.cr"; "*.google.co.id"; "*.google.co.il";
    "*.google.co.in"; "*.google.co.jp"; "*.google.co.ke"; "*.google.co.kr";
    "*.google.co.ls"; "*.google.co.ma"; "*.google.co.nz"; "*.google.co.th";
    "*.google.co.tz"; "*.google.co.ug"; "*.google.co.uk"; "*.google.co.uz";
    "*.google.co.ve"; "*.google.co.vi"; "*.google.co.za"; "*.google.co.zm";
    "*.google.co.zw"; "*.google.com.af"; "*.google.com.ag"; "*.google.com.ai";
    "*.google.com.ar"; "*.google.com.au"; "*.google.com.bd"; "*.google.com.bh";
    "*.google.com.bn"; "*.google.com.bo"; "*.google.com.br"; "*.google.com.by";
    "*.google.com.bz"; "*.google.com.cn"; "*.google.com.co"; "*.google.com.cu";
    "*.google.com.cy"; "*.google.com.do"; "*.google.com.ec"; "*.google.com.eg";
    "*.google.com.et"; "*.google.com.fj"; "*.google.com.gh"; "*.google.com.gi";
    "*.google.com.gt"; "*.google.com.hk"; "*.google.com.jm"; "*.google.com.jo";
    "*.google.com.kh"; "*.google.com.kw"; "*.google.com.lb"; "*.google.com.lc";
    "*.google.com.ly"; "*.google.com.mt"; "*.google.com.mx"; "*.google.com.my";
    "*.google.com.na"; "*.google.com.nf"; "*.google.com.ng"; "*.google.com.ni";
    "*.google.com.np"; "*.google.com.nr"; "*.google.com.om"; "*.google.com.pa";
    "*.google.com.pe"; "*.google.com.ph"; "*.google.com.pk"; "*.google.com.pl";
    "*.google.com.pr"; "*.google.com.py"; "*.google.com.qa"; "*.google.com.ru";
    "*.google.com.sa"; "*.google.com.sb"; "*.google.com.sg"; "*.google.com.sl";
    "*.google.com.sv"; "*.google.com.tj"; "*.google.com.tr"; "*.google.com.tw";
    "*.google.com.ua"; "*.google.com.uy"; "*.google.com.vc"; "*.google.com.ve";
    "*.google.com.vn"; "*.google.cv"; "*.google.cz"; "*.google.de";
    "*.google.dj"; "*.google.dk"; "*.google.dm"; "*.google.dz";
    "*.google.ee"; "*.google.es"; "*.google.fi"; "*.google.fm";
    "*.google.fr"; "*.google.ga"; "*.google.ge"; "*.google.gf";
    "*.google.gg"; "*.google.gl"; "*.google.gn"; "*.google.gp";
    "*.google.gr"; "*.google.gy"; "*.google.hn"; "*.google.hr";
    "*.google.ht"; "*.google.hu"; "*.google.ie"; "*.google.im";
    "*.google.io"; "*.google.iq"; "*.google.is"; "*.google.it";
    "*.google.je"; "*.google.jo"; "*.google.jobs"; "*.google.jp";
    "*.google.kg"; "*.google.ki"; "*.google.kz"; "*.google.la";
    "*.google.li"; "*.google.lk"; "*.google.lt"; "*.google.lu";
    "*.google.lv"; "*.google.md"; "*.google.me"; "*.google.mg";
    "*.google.mk"; "*.google.ml"; "*.google.mn"; "*.google.ms";
    "*.google.mu"; "*.google.mv"; "*.google.mw"; "*.google.ne";
    "*.google.nf"; "*.google.nl"; "*.google.no"; "*.google.nr";
    "*.google.nu"; "*.google.off.ai"; "*.google.pk"; "*.google.pl";
    "*.google.pn"; "*.google.ps"; "*.google.pt"; "*.google.ro";
    "*.google.rs"; "*.google.ru"; "*.google.rw"; "*.google.sc";
    "*.google.se"; "*.google.sh"; "*.google.si"; "*.google.sk";
    "*.google.sm"; "*.google.sn"; "*.google.so"; "*.google.st";
    "*.google.td"; "*.google.tg"; "*.google.tk"; "*.google.tl";
    "*.google.tm"; "*.google.tn"; "*.google.to"; "*.google.tt";
    "*.google.us"; "*.google.uz"; "*.google.vg"; "*.google.vu";
    "*.google.ws"; "*.google.cat"; "google.com"; "youtube.com";
    "googleblog.com"; "blogger.com"; "blogspot.com"; "youtu.be";
    "gmail.com"; "googlemail.com"; "ggpht.com"; "googlevideo.com";
    "ytimg.com"; "googleusercontent.com"; "googleapis.com"; "gstatic.com";
    "yt3.ggpht.com"; "googleadservices.com"; "googlesyndication.com"; "google-analytics.com";
    "doubleclick.net"; "withgoogle.com"; "goo.gl"; "app.goo.gl";
    "chrome.com"; "chromium.org"; "g.co"; "android.com";
    "androidify.com"; "waymo.com"; "nest.com"; "fitbit.com";
    "wearos.com"; "adsense.com"; "admob.com"; "firebase.com";
    "firebaseio.com"; "firebaseapp.com"; "cloud.google.com"; "appspot.com";
    "googleapi.com"; "googleapiclient.com"; "googlecode.com"; "flutter.dev";
    "dartlang.org"; "golang.org"; "googlesource.com"; "googlehosted.com";
    "googlezip.net"; "googlecommerce.com"; "googletagmanager.com"; "googleoptimize.com";
    "googleweblight.com"; "googlelabs.com"; "google.info"; "google.net";
    "google.org"; "google.eu"].

Definition default_group (id name website : string) (domains : list string) (mode upstream sni : string)
    (cv : CertVerifyConfig) : SiteGroup :=
  mkSiteGroup id name website domains mode upstream [] "" sni "" "" true false "" "" false cv.

(** The site groups of [saveDefaultRulesConfig]. *)
Definition defaultSiteGroups : list SiteGroup := [
  default_group "google-youtube-full" "کامل گوگل و یوتیوب" "google" defaultGoogleDomains "mitm"
    "216.239.38.120:443" "www.google.com"
    (mkCertVerifyConfig "allow_names" [
       "*.google.com"; "*.youtube.com"; "*.googlevideo.com";
       "*.googleapis.com"; "*.ytimg.com"; "*.ggpht.com";
       "*.gstatic.com"; "*.googleusercontent.com"; "*.googleadservices.com";
       "*.googlesyndication.com"; "*.doubleclick.net"; "*.blogger.com";
       "*.blogspot.com"; "*.youtu.be"; "*.gmail.com";
       "*.android.com"; "*.firebase.com"; "*.cloud.google.com";
       "*.appspot.com"; "*.flutter.dev"; "*.dartlang.org";
       "*.golang.org"; "*.googlesource.com"; "*.1e100.net"] [] [] false);
  default_group "google-direct-rules" "Google Direct Access" "google-direct" [
      "gemini.google.com"; "aistudio.google.com"; "notebooklm.google.com";
      "labs.google.com"; "meet.google.com"; "accounts.google.com";
      "ogs.google.com"; "mail.google.com"; "calendar.google.com";
      "drive.google.com"; "docs.google.com"; "chat.google.com";
      "photos.google.com"; "maps.google.com"; "myaccount.google.com";
      "contacts.google.com"; "classroom.google.com"; "keep.google.com";
      "play.google.com"; "translate.google.com"; "assistant.google.com";
      "lens.google.com"] "direct" "direct" "" CertVerify_zero;
  default_group "sni-rewrite-domains" "SNI Rewrite Domains" "sni-rewrite" [
      "*.youtube.com"; "*.youtu.be"; "*.youtube-nocookie.com";
      "*.ytimg.com"; "*.ggpht.com"; "*.gvt1.com"; "*.gvt2.com";
      "*.doubleclick.net"; "*.googlesyndication.com"; "*.googleadservices.com";
      "*.google-analytics.com"; "*.googletagmanager.com"; "*.googletagservices.com";
      "fonts.googleapis.com"; "script.google.com"] "mitm" "216.239.38.120:443" "www.google.com" CertVerify_zero
].

Definition saveDefaultRulesConfig (w : write_result RulesConfig) (rm : RuleManager) : outcome unit * RuleManager :=
  saveRulesConfig w (buildRules
    (rm {{ siteGroups := defaultSiteGroups; upstreams := []; dnsNodes := defaultDNSNodes; echProfiles := [] }})).

Definition loadRulesConfig (w : write_result RulesConfig) (rm : RuleManager) : outcome unit * RuleManager :=
  match rulesFile rm with
  | Absent => saveDefaultRulesConfig w rm
  | Unreadable => (Err "read rules", rm)
  | Garbage => (Err "unmarshal rules", rm)
  | Doc config =>
      (Ok tt, rm {{ siteGroups := rc_SiteGroups config; upstreams := rc_Upstreams config;
                    dnsNodes := match rc_DNSNodes config with [] => defaultDNSNodes | ns => ns end;
                    echProfiles := rc_ECHProfiles config }})
  end.

(** The normalisation passes of [LoadConfig]: the flag [migrated] and the state. *)
Definition normalize_loaded (windows : bool) (rm : RuleManager) : bool * RuleManager :=
  let rm := rm {{ siteGroups ::= fmap (λ sg, set_sgDNSMode sg (normalizeDNSMode (sg_DNSMode sg)));
                  echProfiles ::= fmap normalizeECHProfile;
                  settings ::= applySettingsDefaults windows }} in
  let inferred := existsb lacks_website (siteGroups rm) in
  let '(moved, sgs, profiles) := migrateLegacyECHRules (fill_website <$> siteGroups rm) (echProfiles rm) in
  (inferred || moved, rm {{ siteGroups := sgs; echProfiles := profiles }}).

(** [LoadConfig]; [w1], [w2] answer the saves of default files, [w3] the save
    after a migration, whose error is only logged. *)
Definition LoadConfig (windows : bool) (w1 : write_result SettingsConfig) (w2 w3 : write_result RulesConfig)
    (rm : RuleManager) : outcome unit * RuleManager :=
  let '(r1, s, f) := loadSettingsConfig windows (settingsFile rm) w1 (settings rm) in
  let rm := rm {{ settings := s; settingsFile := f }} in
  match r1 with
  | Ok _ =>
      let '(r2, rm) := loadRulesConfig w2 rm in
      match r2 with
      | Ok _ =>
          let '(migrated, rm) := normalize_loaded windows rm in
          let rm := buildRules rm in
          (Ok tt, if migrated then snd (saveRulesConfig w3 rm) else rm)
      | _ => (r2, rm)
      end
  | _ => (r1, rm)
  end.

(** * Operations *)

Definition has_sgID (id : string) (sg : SiteGroup) : bool := bool_decide (sg_ID sg = id).
Definition has_upID (id : string) (u : Upstream) : bool := bool_decide (up_ID u = id).
Definition has_dnID (id : string) (n : DNSNode) : bool := bool_decide (dn_ID n = id).
Definition has_epID (id : string) (p : ECHProfile) : bool := bool_decide (ep_ID p = id).

Definition AddSiteGroup (now : Z) (sg : SiteGroup) (w : write_result RulesConfig) (rm : RuleManager)
    : outcome unit * RuleManager :=
  let sg := set_sgWebsite (set_sgID sg (generateID now)) (TrimSpace (sg_Website sg)) in
  saveRulesConfig w (buildRules (rm {{ siteGroups := siteGroups rm ++ [sg] }})).

Definition UpdateSiteGroup (sg : SiteGroup) (w : write_result RulesConfig) (rm : RuleManager)
    : outcome unit * RuleManager :=
  let sg := set_sgWebsite sg (TrimSpace (sg_Website sg)) in
  saveRulesConfig w (buildRules (rm {{ siteGroups ::= update_first (has_sgID (sg_ID sg)) (λ _, sg) }})).

Definition DeleteSiteGroup (id : string) (w : write_result RulesConfig) (rm : RuleManager)
    : outcome unit * RuleManager :=
  saveRulesConfig w (buildRules (rm {{ siteGroups ::= remove_first (has_sgID id) }})).

Definition AddUpstream (now : Z) (u : Upstream) (w : write_result RulesConfig) (rm : RuleManager)
    : outcome unit * RuleManager :=
  saveRulesConfig w (rm {{ upstreams := upstreams rm ++ [u {{ up_ID := generateID now }}] }}).

Definition UpdateUpstream (u : Upstream) (w : write_result RulesConfig) (rm : RuleManager)
    : outcome unit * RuleManager :=
  saveRulesConfig w (rm {{ upstreams ::= update_first (has_upID (up_ID u)) (λ _, u) }}).

Definition DeleteUpstream (id : string) (w : write_result RulesConfig) (rm : RuleManager)
    : outcome unit * RuleManager :=
  saveRulesConfig w (rm {{ upstreams ::= remove_first (has_upID id) }}).

Definition AddDNSNode (now : Z) (n : DNSNode) (w : write_result RulesConfig) (rm : RuleManager)
    : outcome unit * RuleManager :=
  saveRulesConfig w (rm {{ dnsNodes := dnsNodes rm ++ [n {{ dn_ID := generateID now }}] }}).

Definition UpdateDNSNode (n : DNSNode) (w : write_result RulesConfig) (rm : RuleManager)
    : outcome unit * RuleManager :=
  saveRulesConfig w (rm {{ dnsNodes ::= update_first (has_dnID (dn_ID n)) (λ _, n) }}).

Definition DeleteDNSNode (id : string) (w : write_result RulesConfig) (rm : RuleManager)
    : outcome unit * RuleManager :=
  saveRulesConfig w (rm {{ dnsNodes ::= remove_first (has_dnID id) }}).

(** The slice surgery of [SetDNSNodePriority]: [targetIndex] is a Go [int]. *)
Definition move_node (src target : nat) (nodes : list DNSNode) : list DNSNode :=
  match nodes !! src with
  | Some node =>
      let without := take src nodes ++ drop (S src) nodes in
      let tail := drop target without in
      (take target without ++ [node]) ++ tail
  | None => nodes
  end.

Definition clamp_index (targetIndex : Z) (len : nat) : nat :=
  let t := (if targetIndex <? 0 then 0 else targetIndex)%Z in
  Z.to_nat (if Z.of_nat len <=? t then Z.of_nat len - 1 else t)%Z.

Definition SetDNSNodePriority (id : string) (targetIndex : Z) (w : write_result RulesConfig) (rm : RuleManager)
    : outcome unit * RuleManager :=
  match find_index (has_dnID id) (dnsNodes rm) with
  | None => (Err ("dns node " +:+ id +:+ " not found"), rm)
  | Some srcIdx =>
      let target := clamp_index targetIndex (length (dnsNodes rm)) in
      if srcIdx =? target then (Ok tt, rm)
      else saveRulesConfig w (rm {{ dnsNodes ::= move_node srcIdx target }})
  end.

Definition UpsertECHProfile (now : Z) (p : ECHProfile) (w : write_result RulesConfig) (rm : RuleManager)
    : outcome unit * RuleManager :=
  let p := normalizeECHProfile p in
  let profiles :=
    if bool_decide (ep_ID p = "") then echProfiles rm ++ [p {{ ep_ID := generateID now }}]
    else if existsb (has_epID (ep_ID p)) (echProfiles rm)
    then update_first (has_epID (ep_ID p)) (λ _, p) (echProfiles rm)
    else echProfiles rm ++ [p] in
  saveRulesConfig w (rm {{ echProfiles := profiles }}).

Definition DeleteECHProfile (id : string) (w : write_result RulesConfig) (rm : RuleManager)
    : outcome unit * RuleManager :=
  saveRulesConfig w (rm {{ echProfiles ::= remove_first (has_epID id) }}).

Definition GetBinaryECHConfig (id : string) (rm : RuleManager) : option (list byte) :=
  match List.find (has_epID id) (echProfiles rm) with
  | Some p =>
      match DecodeString (ep_Config p) with
      | Some data => if 0 <? length data then Some data else None
      | None => None
      end
  | None => None
  end.

Definition UpdateECHProfileConfig (profileID : string) (configBytes : list byte) (w : write_result RulesConfig)
    (rm : RuleManager) : outcome unit * RuleManager :=
  if bool_decide (profileID = "") || (length configBytes =? 0) then (Ok tt, rm)
  else
    let configBase64 := EncodeToString configBytes in
    match List.find (has_epID profileID) (echProfiles rm) with
    | None => (Err ("profile " +:+ profileID +:+ " not found"), rm)
    | Some p =>
        if bool_decide (ep_Config p = configBase64) then (Ok tt, rm)
        else saveRulesConfig w
          (rm {{ echProfiles ::= update_first (has_epID profileID) (λ p, p {{ ep_Config := configBase64 }}) }})
    end.

Definition SaveConfig (windows : bool) (w1 : write_result SettingsConfig) (w2 : write_result RulesConfig)
    (rm : RuleManager) : outcome unit * RuleManager :=
  let '(r, f) := saveSettingsConfig windows w1 (settings rm) in
  let rm := rm {{ settingsFile := f }} in
  match r with
  | Ok _ => saveRulesConfig w2 rm
  | _ => (r, rm)
  end.

(** ** Automatic routing, as the manager drives it *)

Definition UpdateAutoRoutingConfig (windows : bool) (cfg : AutoRoutingConfig) (w : write_result SettingsConfig)
    (rm : RuleManager) : outcome unit * RuleManager :=
  let rm := rm {{ settings ::= (λ s, s {{ autoRoutingConfig := cfg }});
                  autoRouter ::= fmap (AutoRouter_UpdateConfig cfg) }} in
  let '(r, f) := saveSettingsConfig windows w (settings rm) in (r, rm {{ settingsFile := f }}).

(** [cache] is the file next to the rules file. *)
Definition InitAutoRouter (cache : outcome (string * option string)) (now : Z) (rm : RuleManager) : RuleManager :=
  let ar := NewAutoRouter (autoRoutingConfig (settings rm)) in
  let '(_, g) := LoadFromFile (λ _, cache) "" now (gfwList ar) in
  rm {{ autoRouter := Some (mkAutoRouter (ar_config ar) g (cfNets ar) (cfCache ar)) }}.

(** [stamp] is the formatted time; the cache file and the settings save are best effort. *)
Definition RefreshGFWList (windows : bool) (get : string → outcome (Z * string * option string)) (now : Z)
    (stamp : string) (w : write_result SettingsConfig) (rm : RuleManager) : outcome Z * RuleManager :=
  match autoRouter rm with
  | None => (Err "auto router not initialized", rm)
  | Some ar =>
      let url := ar_GFWListURL (autoRoutingConfig (settings rm)) in
      let url := if bool_decide (url = "") then defaultGFWListURL else url in
      match LoadFromURL get url now (gfwList ar) with
      | (Ok count, g) =>
          let cfg := (autoRoutingConfig (settings rm)) {{ ar_LastUpdate := stamp }} in
          let ar' := AutoRouter_UpdateConfig cfg (mkAutoRouter (ar_config ar) g (cfNets ar) (cfCache ar)) in
          let rm := rm {{ settings ::= (λ s, s {{ autoRoutingConfig := cfg }}); autoRouter := Some ar' }} in
          (Ok count, rm {{ settingsFile := snd (saveSettingsConfig windows w (settings rm)) }})
      | (Err e, g) =>
          (Err e, rm {{ autoRouter := Some (mkAutoRouter (ar_config ar) g (cfNets ar) (cfCache ar)) }})
      | (Panic, _) => (Panic, rm)
      end
  end.

(** * Reachable managers *)

Inductive rules_op :=
  | OpLoadConfig (w1 : write_result SettingsConfig) (w2 w3 : write_result RulesConfig)
  | OpAddSiteGroup (now : Z) (sg : SiteGroup) (w : write_result RulesConfig)
  | OpUpdateSiteGroup (sg : SiteGroup) (w : write_result RulesConfig)
  | OpDeleteSiteGroup (id : string) (w : write_result RulesConfig)
  | OpAddUpstream (now : Z) (u : Upstream) (w : write_result RulesConfig)
  | OpUpdateUpstream (u : Upstream) (w : write_result RulesConfig)
  | OpDeleteUpstream (id : string) (w : write_result RulesConfig)
  | OpAddDNSNode (now : Z) (n : DNSNode) (w : write_result RulesConfig)
  | OpUpdateDNSNode (n : DNSNode) (w : write_result RulesConfig)
  | OpDeleteDNSNode (id : string) (w : write_result RulesConfig)
  | OpSetDNSNodePriority (id : string) (target : Z) (w : write_result RulesConfig)
  | OpUpsertECHProfile (now : Z) (p : ECHProfile) (w : write_result RulesConfig)
  | OpDeleteECHProfile (id : string) (w : write_result RulesConfig)
  | OpUpdateECHProfileConfig (id : string) (bytes : list byte) (w : write_result RulesConfig).

Section reach.
Context (windows : bool).

Definition run_rules (op : rules_op) : RuleManager → outcome unit * RuleManager :=
  match op with
  | OpLoadConfig w1 w2 w3 => LoadConfig windows w1 w2 w3
  | OpAddSiteGroup now sg w => AddSiteGroup now sg w
  | OpUpdateSiteGroup sg w => UpdateSiteGroup sg w
  | OpDeleteSiteGroup id w => DeleteSiteGroup id w
  | OpAddUpstream now u w => AddUpstream now u w
  | OpUpdateUpstream u w => UpdateUpstream u w
  | OpDeleteUpstream id w => DeleteUpstream id w
  | OpAddDNSNode now n w => AddDNSNode now n w
  | OpUpdateDNSNode n w => UpdateDNSNode n w
  | OpDeleteDNSNode id w => DeleteDNSNode id w
  | OpSetDNSNodePriority id t w => SetDNSNodePriority id t w
  | OpUpsertECHProfile now p w => UpsertECHProfile now p w
  | OpDeleteECHProfile id w => DeleteECHProfile id w
  | OpUpdateECHProfileConfig id b w => UpdateECHProfileConfig id b w
  end.

(** The operations that edit site groups, upstreams, nodes or profiles. *)
Definition is_edit (op : rules_op) : bool := match op with OpLoadConfig _ _ _ => false | _ => true end.

Inductive rules_reachable : RuleManager → Prop :=
  | rules_new fs fr : rules_reachable (NewRuleManager fs fr)
  | rules_step op rm : rules_reachable rm → rules_reachable (snd (run_rules op rm)).

(** * Lemmas *)

(** Unfold record updates to the projections they set. *)
Ltac rec_simpl := unfold apply_update, constant; cbn -[fmap applySettingsDefaults].

Lemma saveRulesConfig_fields w rm :
  let rm' := snd (saveRulesConfig w rm) in
  rules rm' = rules rm ∧ siteGroups rm' = siteGroups rm ∧ upstreams rm' = upstreams rm ∧
  dnsNodes rm' = dnsNodes rm ∧ echProfiles rm' = echProfiles rm ∧ settings rm' = settings rm ∧
  settingsFile rm' = settingsFile rm.
Proof. unfold saveRulesConfig. destruct w; rec_simpl; done. Qed.

Lemma rules_doc_save w rm : rules_doc (snd (saveRulesConfig w rm)) = rules_doc rm.
Proof. unfold saveRulesConfig. destruct w; rec_simpl; done. Qed.

Lemma saveRulesConfig_ok w rm rm' : saveRulesConfig w rm = (Ok tt, rm') → rulesFile rm' = Doc (rules_doc rm').
Proof. unfold saveRulesConfig. destruct w; rec_simpl; [|done]. intros [= <-]. done. Qed.

(** ** What an operation does to the rules *)

(** The rules and the site groups are left alone, or the rules are built anew from what the
    manager now holds. *)
Definition keeps_or_builds (rm rm' : RuleManager) : Prop :=
  (rules rm' = rules rm ∧ siteGroups rm' = siteGroups rm) ∨
  rules rm' = built_rules (siteGroups rm') (upstreams rm') (echProfiles rm').

Lemma kb_save w rm rm' : keeps_or_builds rm rm' → keeps_or_builds rm (snd (saveRulesConfig w rm')).
Proof. unfold keeps_or_builds. destruct (saveRulesConfig_fields w rm') as (-> & -> & -> & _ & -> & _). done. Qed.

Lemma kb_build rm rm' : keeps_or_builds rm (buildRules rm').
Proof. by right. Qed.

Lemma kb_same rm rm' : rules rm' = rules rm → siteGroups rm' = siteGroups rm → keeps_or_builds rm rm'.
Proof. by left. Qed.

Lemma kb_LoadConfig w1 w2 w3 rm : keeps_or_builds rm (snd (LoadConfig windows w1 w2 w3 rm)).
Proof.
  unfold LoadConfig. destruct (loadSettingsConfig _ _ _ _) as [[r1 s] f].
  set (rm1 := apply_update _ _). destruct r1; [|by left..]. unfold loadRulesConfig.
  destruct (rulesFile rm1) as [|config| |]; [|..|by left|by left].
  - unfold saveDefaultRulesConfig. pose proof (kb_build rm
      (rm1 {{ siteGroups := defaultSiteGroups; upstreams := []; dnsNodes := defaultDNSNodes; echProfiles := [] }})) as Hb.
    apply (kb_save w2) in Hb. destruct (saveRulesConfig w2 _) as [r2 rm2]. destruct r2; [|done..].
    destruct (normalize_loaded windows rm2) as [m rm3]. destruct m; [apply kb_save|]; apply kb_build.
  - cbn [fst snd]. destruct (normalize_loaded windows _) as [m rm3].
    destruct m; [apply kb_save|]; apply kb_build.
Qed.

Lemma run_rules_rules op rm : keeps_or_builds rm (snd (run_rules op rm)).
Proof.
  destruct op; cbn [run_rules]; try (apply kb_save; first [apply kb_build | by left]).
  - apply kb_LoadConfig.
  - unfold SetDNSNodePriority. destruct (find_index _ _); [|by left]. destruct (_ =? _); [by left|]. apply kb_save. by left.
  - unfold UpdateECHProfileConfig. destruct (_ || _); [by left|]. destruct (List.find _ _) as [p|]; [|by left].
    destruct (bool_decide _); [by left|]. apply kb_save. by left.
Qed.

Lemma edit_persists op rm rm' :
  is_edit op = true → run_rules op rm = (Ok tt, rm') → rm' = rm ∨ rulesFile rm' = Doc (rules_doc rm').
Proof.
  intros He. destruct op; try discriminate He; cbn [run_rules];
    try (intros Hs; right; exact (saveRulesConfig_ok _ _ _ Hs)).
  - unfold SetDNSNodePriority. destruct (find_index _ _); [|done].
    destruct (_ =? _); [intros [= <-]; by left|]. intros Hs; right; exact (saveRulesConfig_ok _ _ _ Hs).
  - unfold UpdateECHProfileConfig. destruct (_ || _); [intros [= <-]; by left|].
    destruct (List.find _ _) as [p|]; [|done]. destruct (bool_decide _); [intros [= <-]; by left|].
    intros Hs; right; exact (saveRulesConfig_ok _ _ _ Hs).
Qed.

(** ** Loading normalises, once *)

Definition legacy_pattern (sg : SiteGroup) : bool :=
  sg_ECHEnabled sg && bool_decide (TrimSpace (sg_ECHProfileID sg) = "")
  && EqualFold (TrimSpace (sg_ECHDomain sg)) "crypto.cloudflare.com".

Record sg_normal (sg : SiteGroup) : Prop := {
  n_dns : normalizeDNSMode (sg_DNSMode sg) = sg_DNSMode sg;
  n_web : TrimSpace (sg_Website sg) = sg_Website sg;
  n_web_ne : sg_Website sg ≠ "";
  n_prof : TrimSpace (sg_ECHProfileID sg) = sg_ECHProfileID sg;
  n_dom : TrimSpace (sg_ECHDomain sg) = sg_ECHDomain sg;
  n_legacy : legacy_pattern sg = false;
}.

Record rm_normal (rm : RuleManager) : Prop := {
  n_groups : Forall sg_normal (siteGroups rm);
  n_profiles : Forall (λ p, normalizeECHProfile p = p) (echProfiles rm);
  n_settings : applySettingsDefaults windows (settings rm) = settings rm;
}.

Lemma normalizeDNSMode_idemp m : normalizeDNSMode (normalizeDNSMode m) = normalizeDNSMode m.
Proof.
  unfold normalizeDNSMode at 2 3. case_bool_decide as H; [|done].
  unfold normalizeDNSMode. rewrite norm_idemp. by rewrite bool_decide_true.
Qed.

Lemma normalizeECHProfile_idemp p : normalizeECHProfile (normalizeECHProfile p) = normalizeECHProfile p.
Proof. unfold normalizeECHProfile; simpl. by rewrite !TrimSpace_idemp. Qed.

Lemma migrate_settled sgs : ∀ ps,
  Forall sg_normal sgs → migrateLegacyECHRules sgs ps = (false, sgs, ps).
Proof.
  induction sgs as [|sg sgs IH]; intros ps HF; simpl; [done|].
  apply list.Forall_cons in HF as [Hn HF]. rewrite (IH _ HF).
  pose proof (n_legacy _ Hn) as Hl. unfold legacy_pattern in Hl. rewrite Hl.
  rewrite (n_prof _ Hn), (n_dom _ Hn). by destruct sg.
Qed.

Lemma ensureLegacy_id ps : fst (ensureLegacyCloudflareProfile ps) = legacyID.
Proof.
  unfold ensureLegacyCloudflareProfile. destruct (findECHProfileByID ps legacyID) as [i|] eqn:E; [|done].
  unfold findECHProfileByID in E. change (TrimSpace legacyID) with legacyID in E. simpl in E.
  apply find_index_Some in E as (p & Hp & Hid & _). bool_prop. rewrite Hp. simpl. rec_simpl. by rewrite Hid.
Qed.

Lemma ensureLegacy_normal ps :
  Forall (λ p, normalizeECHProfile p = p) ps →
  Forall (λ p, normalizeECHProfile p = p) (snd (ensureLegacyCloudflareProfile ps)).
Proof.
  intros HF. unfold ensureLegacyCloudflareProfile.
  destruct (findECHProfileByID ps legacyID) as [i|]; simpl; [|apply Forall_app; by repeat constructor].
  apply Forall_alter; [done|]. intros p Hp _. rec_simpl. unfold normalizeECHProfile; simpl. rewrite !TrimSpace_idemp.
  unfold or_default. repeat case_bool_decide; rewrite ?TrimSpace_idemp; done.
Qed.

Lemma migrate_result sgs : ∀ ps,
  Forall (λ sg, normalizeDNSMode (sg_DNSMode sg) = sg_DNSMode sg ∧
    TrimSpace (sg_Website sg) = sg_Website sg ∧ sg_Website sg ≠ "") sgs →
  Forall (λ p, normalizeECHProfile p = p) ps →
  let '(_, sgs', ps') := migrateLegacyECHRules sgs ps in
  Forall sg_normal sgs' ∧ Forall (λ p, normalizeECHProfile p = p) ps'.
Proof.
  induction sgs as [|sg sgs IH]; intros ps HF Hps; simpl; [auto|].
  apply list.Forall_cons in HF as [(H1 & H2 & H3) HF].
  destruct (_ && _) eqn:Hc.
  - pose proof (ensureLegacy_id ps) as Hid. pose proof (ensureLegacy_normal ps Hps) as Hps'.
    destruct (ensureLegacyCloudflareProfile ps) as [id ps1]; simpl in *. subst id.
    specialize (IH ps1 HF Hps'). destruct (migrateLegacyECHRules sgs ps1) as [[m rest] ps2]. destruct IH as [Hr ?].
    split; [|done]. constructor; [|done]. split; simpl; try done.
    unfold legacy_pattern; simpl. by rewrite andb_false_r.
  - specialize (IH ps HF Hps). destruct (migrateLegacyECHRules sgs ps) as [[m rest] ps2]. destruct IH as [Hr ?].
    split; [|done]. constructor; [|done]. split; simpl; try done; rewrite ?TrimSpace_idemp; [done..|].
    unfold legacy_pattern; simpl. rewrite !TrimSpace_idemp. done.
Qed.

(** Every name the program would infer is non-empty and free of outer blanks. *)
Definition websites_usable (sgs : list SiteGroup) : Prop :=
  Forall (λ sg, lacks_website sg = true →
    TrimSpace (inferWebsiteFromSiteGroup sg) = inferWebsiteFromSiteGroup sg ∧ inferWebsiteFromSiteGroup sg ≠ "") sgs.

Lemma normalize_loaded_normal rm :
  websites_usable (siteGroups rm) → rm_normal (snd (normalize_loaded windows rm)).
Proof.
  intros Hw. unfold normalize_loaded. rec_simpl.
  set (sgs := fill_website <$> _). set (ps := normalizeECHProfile <$> _).
  assert (Hsgs : Forall (λ sg, normalizeDNSMode (sg_DNSMode sg) = sg_DNSMode sg ∧
    TrimSpace (sg_Website sg) = sg_Website sg ∧ sg_Website sg ≠ "") sgs).
  { unfold sgs. rewrite <- list_fmap_compose. apply Forall_fmap. eapply list.Forall_impl; [exact Hw|].
    intros sg Hsg; simpl. split; [apply normalizeDNSMode_idemp|]. unfold lacks_website in Hsg.
    change (inferWebsiteFromSiteGroup (set_sgWebsite (set_sgDNSMode sg (normalizeDNSMode (sg_DNSMode sg))) (TrimSpace (sg_Website sg))))
      with (inferWebsiteFromSiteGroup sg).
    case_bool_decide; [by apply Hsg|]. by rewrite TrimSpace_idemp. }
  assert (Hps : Forall (λ p, normalizeECHProfile p = p) ps).
  { unfold ps. apply Forall_fmap, list.Forall_true. intros p. apply normalizeECHProfile_idemp. }
  pose proof (migrate_result sgs ps Hsgs Hps) as Hm.
  destruct (migrateLegacyECHRules sgs ps) as [[moved sgs'] ps']. destruct Hm.
  split; simpl; [done..|]. apply applySettingsDefaults_idemp.
Qed.

Lemma Forall_fmap_id {A} (f : A → A) l : Forall (λ x, f x = x) l → f <$> l = l.
Proof. induction 1 as [|x l Hx _ IH]; [done|]. by rewrite fmap_cons, Hx, IH. Qed.

Lemma normalize_loaded_id rm : rm_normal rm → normalize_loaded windows rm = (false, rm).
Proof.
  intros [Hg Hp Hs]. destruct rm as [rs gs us ns ps st ar fs fr]. cbn [siteGroups echProfiles settings] in *.
  unfold normalize_loaded. rec_simpl.
  assert (Hd : (λ sg, set_sgDNSMode sg (normalizeDNSMode (sg_DNSMode sg))) <$> gs = gs).
  { apply Forall_fmap_id. eapply list.Forall_impl; [exact Hg|]. intros sg Hn; simpl. rewrite (n_dns _ Hn). by destruct sg. }
  assert (Hf : fill_website <$> gs = gs).
  { apply Forall_fmap_id. eapply list.Forall_impl; [exact Hg|]. intros sg Hn. unfold fill_website.
    rewrite (n_web _ Hn), bool_decide_false by apply Hn. by destruct sg. }
  rewrite Hd, Hf, (Forall_fmap_id _ _ Hp), (migrate_settled _ _ Hg).
  assert (existsb lacks_website gs = false) as ->.
  { rewrite <- not_true_iff_false, existsb_exists. intros (sg & Hin & Hl). apply list_elem_of_In in Hin.
    rewrite list.Forall_forall in Hg. unfold lacks_website in Hl. bool_prop. rewrite (n_web _ (Hg _ Hin)) in Hl.
    by apply (n_web_ne _ (Hg _ Hin)). }
  by rewrite Hs.
Qed.

(** ** Loading twice *)

Lemma load_settings_again f w w' s r s1 f1 :
  loadSettingsConfig windows f w s = (Ok r, s1, f1) →
  loadSettingsConfig windows f1 w' s = (Ok tt, s1, f1) ∧ applySettingsDefaults windows s1 = s1.
Proof.
  unfold loadSettingsConfig at 1, saveDefaultSettingsConfig, saveSettingsConfig. destruct f as [|config| |]; [|intros [= _ <- <-]|done..].
  - destruct w; cbn [write_file]; intros H; [|done]. injection H as _ <- <-. unfold loadSettingsConfig. rewrite apply_settings_doc. by rewrite !applySettingsDefaults_idemp.
  - split; [done|]. unfold apply_config. apply applySettingsDefaults_idemp.
Qed.

(** The manager that a file was read into, before it is normalised. *)
Definition read_config (c : RulesConfig) (s : Settings) (fs : file SettingsConfig) : RuleManager :=
  mkRuleManager [] (rc_SiteGroups c) (rc_Upstreams c) (match rc_DNSNodes c with [] => defaultDNSNodes | ns => ns end) (rc_ECHProfiles c)
    s None fs (Doc c).

Definition finish_load (w3 : write_result RulesConfig) (rm : RuleManager) : RuleManager :=
  let '(migrated, rm) := normalize_loaded windows rm in
  if migrated then snd (saveRulesConfig w3 (buildRules rm)) else buildRules rm.

Lemma finish_load_rules w3 rs gs us ns ps s ar fs fr :
  finish_load w3 (mkRuleManager rs gs us ns ps s ar fs fr) = finish_load w3 (mkRuleManager [] gs us ns ps s ar fs fr).
Proof. unfold finish_load, normalize_loaded. rec_simpl. by destruct (migrateLegacyECHRules _ _) as [[m sgs] qs]. Qed.

Lemma LoadConfig_Doc w1 w2 w3 fs s fs' c :
  loadSettingsConfig windows fs w1 Settings_new = (Ok tt, s, fs') →
  LoadConfig windows w1 w2 w3 (NewRuleManager fs (Doc c)) = (Ok tt, finish_load w3 (read_config c s fs')).
Proof.
  intros Hs. unfold LoadConfig. cbn [settingsFile settings NewRuleManager]. rewrite Hs. unfold loadRulesConfig. rec_simpl.
  unfold finish_load. by destruct (normalize_loaded windows _) as [m q].
Qed.

Lemma LoadConfig_new w1 w2 w3 fs fr rm' :
  LoadConfig windows w1 w2 w3 (NewRuleManager fs fr) = (Ok tt, rm') →
  ∃ s fs' c, loadSettingsConfig windows fs w1 Settings_new = (Ok tt, s, fs') ∧ rm' = finish_load w3 (read_config c s fs') ∧
    (match fr with Absent => c = mkRulesConfig defaultSiteGroups [] [] [] | Doc c0 => c = c0 | _ => False end).
Proof.
  intros H. destruct (loadSettingsConfig windows fs w1 Settings_new) as [[r1 s] fs'] eqn:Hs. destruct r1 as [[]| |].
  2, 3: unfold LoadConfig in H; cbn [settingsFile settings NewRuleManager] in H; by rewrite Hs in H.
  destruct fr as [|c| |].
  - exists s, fs', (mkRulesConfig defaultSiteGroups [] [] []). split; [done|]. split; [|done].
    unfold LoadConfig in H. cbn [settingsFile settings NewRuleManager] in H. rewrite Hs in H. unfold loadRulesConfig, saveDefaultRulesConfig, saveRulesConfig in H.
    destruct w2; [|done]. revert H. generalize defaultSiteGroups. intros sgs. unfold read_config. rec_simpl.
    rewrite <- (finish_load_rules w3 (built_rules sgs [] [])). unfold finish_load, rules_doc. rec_simpl.
    destruct (normalize_loaded windows _) as [m q]. by intros [= <-].
  - exists s, fs', c. rewrite (LoadConfig_Doc _ _ _ _ _ _ _ Hs) in H. by injection H as <-.
  - unfold LoadConfig in H. cbn [settingsFile settings NewRuleManager] in H. by rewrite Hs in H.
  - unfold LoadConfig in H. cbn [settingsFile settings NewRuleManager] in H. by rewrite Hs in H.
Qed.

(** Nothing is left to migrate. *)
Definition migrated_groups (sgs : list SiteGroup) : Prop := Forall (λ sg, lacks_website sg = false ∧ legacy_pattern sg = false) sgs.

Lemma normal_migrated sgs : Forall sg_normal sgs → migrated_groups sgs.
Proof.
  intros H. eapply list.Forall_impl; [exact H|]. intros sg Hn. split; [|by apply n_legacy].
  unfold lacks_website. rewrite (n_web _ Hn). apply bool_decide_eq_false. apply (n_web_ne _ Hn).
Qed.

Lemma migrate_none sgs ps sgs' ps' : migrateLegacyECHRules sgs ps = (false, sgs', ps') → Forall (λ sg, legacy_pattern sg = false) sgs.
Proof.
  revert sgs' ps ps'. induction sgs as [|sg sgs IH]; intros sgs' ps ps'; [by constructor|]. cbn [migrateLegacyECHRules].
  change (sg_ECHEnabled sg && bool_decide (TrimSpace (sg_ECHProfileID sg) = "") && EqualFold (TrimSpace (sg_ECHDomain sg)) "crypto.cloudflare.com") with (legacy_pattern sg).
  destruct (legacy_pattern sg) eqn:Hl.
  - destruct (ensureLegacyCloudflareProfile ps) as [id ps1]. by destruct (migrateLegacyECHRules sgs ps1) as [[m rest] ps2].
  - destruct (migrateLegacyECHRules sgs ps) as [[m rest] ps2] eqn:Hm. intros [= -> <- <-]. constructor; [done|]. by eapply IH.
Qed.

Lemma normalize_none rm : (normalize_loaded windows rm).1 = false → migrated_groups (siteGroups rm).
Proof.
  destruct rm as [rs gs us ns qs st ar fs fr]. unfold normalize_loaded. rec_simpl. destruct (migrateLegacyECHRules _ _) as [[m sgs] ps] eqn:Hm. cbn [fst].
  intros [Hw ->]%orb_false_iff. apply migrate_none in Hm. rewrite <- list_fmap_compose in Hm. apply Forall_fmap in Hm.
  apply list.Forall_forall. intros sg Hin. split.
  - apply not_true_iff_false. intros Hl. rewrite <- not_true_iff_false, existsb_exists in Hw. apply Hw.
    exists (set_sgDNSMode sg (normalizeDNSMode (sg_DNSMode sg))). split; [|done]. apply list_elem_of_In, list_elem_of_fmap. by exists sg.
  - by apply (proj1 (list.Forall_forall _ _) Hm sg Hin).
Qed.

(** The files of a load whose save after the migration, if there was one, went well are loaded
    by the next process as they are. *)
Lemma LoadConfig_again w1 w2 w1' w2' w3' fs fr rm' :
  websites_usable (match fr with Absent => defaultSiteGroups | Doc c => rc_SiteGroups c | _ => [] end) →
  LoadConfig windows w1 w2 Written (NewRuleManager fs fr) = (Ok tt, rm') →
  LoadConfig windows w1' w2' w3' (NewRuleManager (settingsFile rm') (rulesFile rm')) = (Ok tt, rm') ∧
  ∃ c, rulesFile rm' = Doc c ∧ migrated_groups (rc_SiteGroups c).
Proof.
  intros Hw H. apply LoadConfig_new in H as (s & fs' & c & Hs & -> & Hc). destruct (load_settings_again _ _ w1' _ _ _ _ Hs) as [Hs' Hd].
  assert (Hn : rm_normal (snd (normalize_loaded windows (read_config c s fs')))).
  { apply normalize_loaded_normal. destruct fr; try done; by subst c. }
  assert (Hset : settings (snd (normalize_loaded windows (read_config c s fs'))) = s ∧ settingsFile (snd (normalize_loaded windows (read_config c s fs'))) = fs' ∧
    rulesFile (snd (normalize_loaded windows (read_config c s fs'))) = Doc c ∧ autoRouter (snd (normalize_loaded windows (read_config c s fs'))) = None).
  { unfold normalize_loaded, read_config. rec_simpl. destruct (migrateLegacyECHRules _ _) as [[m sgs] qs]. rec_simpl. by rewrite Hd. }
  destruct (normalize_loaded windows (read_config c s fs')) as [m q] eqn:Hq. cbn [snd] in *. destruct Hset as (H1 & H2 & H3 & H4).
  unfold finish_load at 1 2 3 4. rewrite Hq. destruct m; split.
  - destruct q as [rs gs us ns ps st ar qfs qfr]. cbn in H1, H2, H3, H4. subst st qfs qfr ar.
    unfold saveRulesConfig, buildRules, write_file. rec_simpl. rewrite (LoadConfig_Doc _ _ _ _ _ _ _ Hs'). f_equal.
    unfold finish_load, read_config, rules_doc. rec_simpl.
    rewrite normalize_loaded_id; [|destruct Hn as [Hg Hp Hst]; by split]. unfold buildRules. rec_simpl. f_equal. by destruct ns.
  - exists (rules_doc (buildRules q)). split; [done|]. apply normal_migrated, Hn.
  - replace (settingsFile (buildRules q)) with fs' by (by rewrite <- H2). replace (rulesFile (buildRules q)) with (Doc c) by (by rewrite <- H3).
    rewrite (LoadConfig_Doc _ _ _ _ _ _ _ Hs'). f_equal. unfold finish_load. by rewrite Hq.
  - exists c. split; [by rewrite <- H3|]. apply (normalize_none (read_config c s fs')). by rewrite Hq.
Qed.

(** What a new process loads from the files of a normalised manager. *)
Lemma LoadConfig_saved w1 w2 w3 rm :
  rm_normal rm → rulesFile rm = Doc (rules_doc rm) → settingsFile rm = Doc (settings_doc windows (settings rm)) →
  LoadConfig windows w1 w2 w3 (NewRuleManager (settingsFile rm) (rulesFile rm)) =
    (Ok tt, buildRules (rm {{ autoRouter := None }})).
Proof.
  intros Hn Hr Hs. unfold LoadConfig, loadSettingsConfig, loadRulesConfig. rewrite Hr, Hs.
  cbn [settingsFile NewRuleManager]. rewrite apply_settings_doc, (n_settings _ Hn). rec_simpl.
  set (rm1 := mkRuleManager _ _ _ _ _ _ _ _ _).
  assert (rm1 = rm {{ rules := []; autoRouter := None }}) as ->.
  { unfold rm1. rewrite <- Hr, <- Hs. destruct rm as [rs gs us ns ps st ar fs fr]. rec_simpl. by destruct ns. }
  rewrite normalize_loaded_id; [done|]. split; rec_simpl; apply Hn.
Qed.
End reach.

(** * Matching *)

Section match_lemmas.
Context (regex_match : string → string → option bool).

Lemma best_rule_best_from host rs : ∀ best b,
  (-1 ≤ b)%Z →
  best_from (λ r, domainMatchScore regex_match host (r_Domain r)) (Some best) b (List.filter r_Enabled rs) =
    let '(r, s) := best_rule regex_match host rs best b in (Some r, s).
Proof.
  induction rs as [|rule rs IH]; intros best b Hb; simpl; [done|].
  destruct (r_Enabled rule); simpl; [|by apply IH].
  pose proof (score_ge_m1 regex_match host (r_Domain rule)).
  destruct (Z.ltb_spec b (domainMatchScore regex_match host (r_Domain rule))).
  - rewrite (proj2 (Z.leb_le 0 _)) by lia. apply IH. lia.
  - rewrite andb_false_r. by apply IH.
Qed.

Lemma best_rule_spec host rs r s :
  best_rule regex_match host rs Rule_zero (-1)%Z = (r, s) →
  let score x := domainMatchScore regex_match host (r_Domain x) in
  (s = (-1)%Z ∧ r = Rule_zero ∧ ∀ x, x ∈ rs → r_Enabled x = true → (score x < 0)%Z) ∨
  ((0 ≤ s)%Z ∧ s = score r ∧ ∃ l1 l2, List.filter r_Enabled rs = l1 ++ r :: l2 ∧
    (∀ x, x ∈ l1 → (score x < s)%Z) ∧ (∀ x, x ∈ rs → r_Enabled x = true → (score x ≤ s)%Z)).
Proof.
  intros E score. pose proof (best_rule_best_from host rs Rule_zero (-1)%Z ltac:(lia)) as Hb. rewrite E in Hb.
  apply best_from_spec in Hb as (Hge & Hmax & [(Hr & Hs & Hall)|(l1 & x & l2 & Hl & Hr & Hs & Hlt & Hl1)]).
  - left. injection Hr as ->. split; [done|]. split; [done|]. intros x Hx He.
    enough (score x ≤ -1)%Z by lia. apply Hall. apply elem_of_filter_bool. auto.
  - right. injection Hr as ->. split; [lia|]. split; [done|]. exists l1, l2. split; [done|]. split; [done|].
    intros y Hy He. apply Hmax. apply elem_of_filter_bool. auto.
Qed.

(** Neither the runtime mode nor automatic routing overrides the manual rules. *)
Definition manual_applies (mode : string) (rm : RuleManager) : Prop :=
  norm mode ≠ "v2ray" ∧ norm mode ≠ "gas" ∧
  (is_Some (autoRouter rm) →
     ar_Mode (autoRoutingConfig (settings rm)) ≠ "v2ray" ∧ ar_Mode (autoRoutingConfig (settings rm)) ≠ "gas").

Lemma matchRule_manual doh now stored host mode rm :
  manual_applies mode rm →
  matchRule regex_match doh now stored host mode rm =
    let host := normalizeHost host in
    let mode := norm mode in
    let autoMode := ar_Mode (autoRoutingConfig (settings rm)) in
    let '(best, bestScore) := best_rule regex_match host (rules rm) Rule_zero (-1)%Z in
    if (0 <=? bestScore)%Z then
      let best := if bool_decide (mode = "transparent") && bool_decide (r_Mode best = "mitm")
                  then set_Mode best "direct" else best in
      (best, (host, r_Mode best), rm)
    else
      let default_direct rm := (Rule_mode "direct" false, (host, "direct"), rm) in
      match autoRouter rm with
      | Some ar =>
          if nonempty autoMode then
            let '(autoRule, ar') := Decide doh host now stored ar in
            let rm' := rm {{ autoRouter := Some ar' }} in
            if negb (bool_decide (r_Mode autoRule = "direct"))
            then (autoRule, (host, r_Mode autoRule), rm') else default_direct rm'
          else default_direct rm
      | None => default_direct rm
      end.
Proof.
  intros (H1 & H2 & H3). unfold matchRule. rewrite (bool_decide_eq_false_2 _ H1), (bool_decide_eq_false_2 _ H2).
  destruct (bool_decide_reflect (is_Some (autoRouter rm))) as [Hs|Hs]; [|done].
  destruct (H3 Hs) as [Ha Hb]. by rewrite (bool_decide_eq_false_2 _ Ha), (bool_decide_eq_false_2 _ Hb).
Qed.
End match_lemmas.

Lemma Decide_enabled doh host now stored ar : r_Enabled (fst (Decide doh host now stored ar)) = true.
Proof.
  unfold Decide. repeat (case_bool_decide; simpl; [done|]).
  destruct (IsBlocked _ _); simpl; [|done].
  destruct (IsCloudflare _ _ _ _ _) as [[] ar']; simpl; [done|]. by case_bool_decide.
Qed.

(** * What the rules say *)

Section built.
Context {A : Type} (key : A → string) (ok : A → bool).

(** [x] is the last usable element of the key. *)
Definition last_keyed (l : list A) (id : string) (x : A) : Prop :=
  ∃ before after, l = before ++ x :: after ∧ ok x = true ∧ key x = id ∧ ∀ y, y ∈ after → ok y = true → key y ≠ id.

Definition no_keyed (l : list A) (id : string) : Prop := ∀ y, y ∈ l → ok y = true → key y ≠ id.

Lemma foldl_keyed {B} (f : A → B) l id :
  match foldl (λ m x, if ok x then <[key x := f x]> m else m) (∅ : gmap string B) l !! id with
  | Some v => ∃ x, last_keyed l id x ∧ v = f x
  | None => no_keyed l id
  end.
Proof.
  induction l as [|x l IH] using rev_ind; [cbn [foldl]; rewrite lookup_empty; intros y H; by apply elem_of_nil in H|]. rewrite foldl_snoc.
  assert (Hskip : ok x = false ∨ key x ≠ id → match foldl (λ m x, if ok x then <[key x := f x]> m else m) (∅ : gmap string B) l !! id with
    | Some v => ∃ y, last_keyed (l ++ [x]) id y ∧ v = f y | None => no_keyed (l ++ [x]) id end).
  { intros Hx. destruct (_ !! id) as [v|].
    - destruct IH as (y & (before & after & -> & Hy & Hk & Ha) & ->). exists y. split; [|done]. exists before, (after ++ [x]).
      rewrite <- app_assoc. split_and!; [done..|]. intros z [?| ->%list_elem_of_singleton]%elem_of_app Hz; [by apply Ha|]. by destruct Hx; [congruence|].
    - intros z [?| ->%list_elem_of_singleton]%elem_of_app Hz; [by apply IH|]. by destruct Hx; [congruence|]. }
  destruct (ok x) eqn:Hx; [|by apply Hskip; left]. destruct (decide (key x = id)) as [<-|Hne]; [|rewrite lookup_insert_ne by done; by apply Hskip; right].
  rewrite lookup_insert_eq. exists x. split; [|done]. exists l, []. split_and!; [done..|]. intros y H. by apply elem_of_nil in H.
Qed.
End built.

Definition usable_upstream (u : Upstream) : bool := up_Enabled u && nonempty (up_Address u).

(** An identifier stands for the address of the last upstream of that ID that is enabled and
    has one; without any it stands for itself. *)
Definition resolves (ups : list Upstream) (id addr : string) : Prop :=
  (∃ u, last_keyed up_ID usable_upstream ups id u ∧ addr = up_Address u) ∨ (no_keyed up_ID usable_upstream ups id ∧ addr = id).

(** The profile is the last one of the ID, or empty. *)
Definition profiled (profiles : list ECHProfile) (id : string) (p : ECHProfile) : Prop :=
  (id ≠ "" ∧ last_keyed ep_ID (λ _, true) profiles id p) ∨
  ((id = "" ∨ no_keyed ep_ID (λ _, true) profiles id) ∧ p = ECHProfile_zero).

(** The rule that a site group asks for at a domain. *)
Record rule_of (ups : list Upstream) (profiles : list ECHProfile) (sg : SiteGroup) (domain : string) (r : Rule) : Prop := {
  ro_domain : r_Domain r = domain;
  ro_site : r_SiteID r = sg_ID sg;
  ro_mode : r_Mode r = sg_Mode sg;
  ro_enabled : r_Enabled r = true;
  ro_upstream : resolves ups (sg_Upstream sg) (r_Upstream r);
  ro_upstreams : Forall2 (resolves ups) (sg_Upstreams sg) (r_Upstreams r);
  ro_dns : r_DNSMode r = normalizeDNSMode (sg_DNSMode sg);
  ro_sni : r_SniFake r = sg_SniFake sg ∧ r_SniPolicy r = TrimSpace (sg_SniPolicy sg);
  ro_connect : r_ConnectPolicy r = TrimSpace (sg_ConnectPolicy sg) ∧ r_UseCFPool r = sg_UseCFPool sg;
  ro_verify : r_CertVerify r = sg_CertVerify sg;
  ro_ech : r_ECHEnabled r = sg_ECHEnabled sg ∧ r_ECHProfileID r = sg_ECHProfileID sg ∧
    ∃ p, profiled profiles (sg_ECHProfileID sg) p ∧ r_ECHDiscoveryDomain r = ep_DiscoveryDomain p ∧
      r_ECHDoHUpstream r = ep_DoHUpstream p ∧ r_ECHAutoUpdate r = ep_AutoUpdate p;
  ro_manual : r_AutoRouted r = false ∧ r_FallbackMode r = "";
}.

(** One rule for each domain of each enabled site group, in their order, and no others. *)
Definition rules_of (ups : list Upstream) (profiles : list ECHProfile) (sgs : list SiteGroup) (rs : list Rule) : Prop :=
  ∃ parts, rs = mjoin parts ∧ Forall2 (λ sg part, Forall2 (rule_of ups profiles sg) (sg_Domains sg) part) (List.filter sg_Enabled sgs) parts.

Lemma resolve_resolves ups id : resolves ups id (resolve_id (upstream_map ups) id).
Proof.
  unfold resolve_id, resolves. pose proof (foldl_keyed up_ID usable_upstream up_Address ups id) as H.
  change (foldl _ ∅ ups) with (upstream_map ups) in H. destruct (upstream_map ups !! id) as [v|]; [|by right].
  destruct H as (u & Hu & ->). left. by exists u.
Qed.

Lemma group_profiled profiles sg : profiled profiles (sg_ECHProfileID sg) (group_profile (ech_map profiles) sg).
Proof.
  unfold group_profile, profiled. pose proof (foldl_keyed ep_ID (λ _, true) id profiles (sg_ECHProfileID sg)) as H.
  change (foldl _ ∅ profiles) with (ech_map profiles) in H. unfold nonempty. case_bool_decide as He; cbn [negb]; [right; auto|].
  destruct (ech_map profiles !! sg_ECHProfileID sg) as [v|]; cbn [default from_option]; [|right; auto].
  destruct H as (p & Hp & ->). by left.
Qed.

Lemma group_rule_of ups profiles sg domain : rule_of ups profiles sg domain (group_rule (upstream_map ups) (ech_map profiles) sg domain).
Proof.
  split; try done; cbn [r_Upstream r_Upstreams group_rule].
  - apply resolve_resolves.
  - apply Forall2_fmap_r, Forall_Forall2_diag, list.Forall_true. intros. apply resolve_resolves.
  - split; [done|]. split; [done|]. exists (group_profile (ech_map profiles) sg). split; [apply group_profiled|done].
Qed.

Lemma built_rules_of sgs ups profiles : rules_of ups profiles sgs (built_rules sgs ups profiles).
Proof.
  unfold built_rules, rules_of. induction sgs as [|sg sgs (parts & IH & HF)]; [by exists []|]. cbn [flat_map List.filter].
  rewrite IH. destruct (sg_Enabled sg); cbn [negb]; [|by exists parts].
  exists ((group_rule (upstream_map ups) (ech_map profiles) sg <$> sg_Domains sg) :: parts). split; [done|]. constructor; [|done].
  apply Forall2_fmap_r, Forall_Forall2_diag, list.Forall_true. intros. apply group_rule_of.
Qed.

(** * Properties *)

Section properties.
Context (regex_match : string → string → option bool).

(** C7: unless a global tunnel mode overrides them, a host that some enabled manual
    rule matches is served by the first rule of highest score among the enabled
    ones, with an intercepting rule downgraded to direct in transparent mode; the
    automatic router is not consulted. *)
Theorem matchRule_best doh now stored host mode rm r ev rm' :
  let score x := domainMatchScore regex_match (normalizeHost host) (r_Domain x) in
  manual_applies mode rm →
  (∃ x, x ∈ rules rm ∧ r_Enabled x = true ∧ (0 ≤ score x)%Z) →
  matchRule regex_match doh now stored host mode rm = (r, ev, rm') →
  rm' = rm ∧
  ∃ best l1 l2, List.filter r_Enabled (rules rm) = l1 ++ best :: l2 ∧
    (∀ x, x ∈ l1 → (score x < score best)%Z) ∧
    (∀ x, x ∈ rules rm → r_Enabled x = true → (score x ≤ score best)%Z) ∧
    r = if decide (norm mode = "transparent" ∧ r_Mode best = "mitm") then set_Mode best "direct" else best.
Proof.
  intros score Hm (x & Hx & He & Hs). rewrite matchRule_manual by done. simpl.
  destruct (best_rule _ _ _ _ _) as [best s] eqn:E. apply best_rule_spec in E. subst score. cbv beta zeta in *.
  destruct E as [(_ & _ & Hall)|(H0 & -> & l1 & l2 & Hl & Hl1 & Hmax)]; [specialize (Hall x Hx He); lia|].
  rewrite (proj2 (Z.leb_le 0 _)) by done. intros [= <- _ <-]. split; [done|].
  exists best, l1, l2. do 3 (split; [done|]).
  rewrite <- bool_decide_and. case_bool_decide; case_decide; done.
Qed.

(** Whatever the path, the rule that serves a request is enabled, the route
    event reports the normalised host with that rule's mode, and only the router's
    memory of the host may change. *)
Theorem matchRule_reports doh now stored host mode rm :
  let '(r, ev, rm') := matchRule regex_match doh now stored host mode rm in
  r_Enabled r = true ∧ ev = (normalizeHost host, r_Mode r) ∧
  rules rm' = rules rm ∧ settings rm' = settings rm ∧ rules_doc rm' = rules_doc rm ∧
  (is_Some (autoRouter rm') ↔ is_Some (autoRouter rm)).
Proof.
  unfold matchRule.
  repeat (match goal with |- context [if bool_decide ?P then _ else _] => destruct (bool_decide P) eqn:?; [done|] end).
  destruct (_ && _); [done|]. destruct (_ && _); [done|].
  destruct (best_rule _ _ _ _ _) as [best s] eqn:E. apply best_rule_spec in E.
  destruct (Z.leb_spec 0 s) as [H0|H0].
  - destruct E as [(-> & _)|(_ & _ & l1 & l2 & Hl & _)]; [lia|].
    assert (He : r_Enabled best = true).
    { assert (best ∈ List.filter r_Enabled (rules rm)) as [_ ?]%elem_of_filter_bool; [|done]. rewrite Hl. set_solver. }
    destruct (_ && _); done.
  - destruct (autoRouter rm) as [ar|] eqn:Ha; [|by rewrite Ha]. destruct (nonempty _); [|by rewrite Ha].
    pose proof (Decide_enabled doh (normalizeHost host) now stored ar) as He.
    destruct (Decide _ _ _ _ _) as [rule ar']; simpl in He.
    destruct (negb _); simpl; split_and!; try done; split; eauto.
Qed.

(** Transparent mode, which turns intercepting rules into direct ones, still
    intercepts through automatic routing: a host that no manual rule matches, that
    the list blocks and that Cloudflare serves gets a [mitm] rule. *)
Theorem transparent_auto_mitm doh now stored host rm ar :
  autoRouter rm = Some ar → ar_config ar = autoRoutingConfig (settings rm) →
  ar_Mode (ar_config ar) = AutoRoutingDefault →
  (∀ x, x ∈ rules rm → r_Enabled x = true → (domainMatchScore regex_match (normalizeHost host) (r_Domain x) < 0)%Z) →
  IsBlocked (gfwList ar) (normalizeHost host) = true →
  fst (IsCloudflare doh (normalizeHost host) now stored ar) = true →
  r_Mode (fst (fst (matchRule regex_match doh now stored host "transparent" rm))) = "mitm".
Proof.
  intros Ha Hc Hmode Hall Hb Hcf. rewrite matchRule_manual.
  2: { split; [done|]. split; [done|]. rewrite <- Hc, Hmode. done. }
  simpl. destruct (best_rule _ _ _ _ _) as [best s] eqn:E. apply best_rule_spec in E.
  destruct E as [(-> & _ & _)|(H0 & -> & l1 & l2 & Hl & _)]; simpl.
  - rewrite Ha, <- Hc, Hmode. simpl. unfold Decide. rewrite Hmode, Hb. simpl.
    destruct (IsCloudflare _ _ _ _ _) as [cf ar']; simpl in *. by subst cf.
  - assert (best ∈ List.filter r_Enabled (rules rm)) as [Hin He]%elem_of_filter_bool by (rewrite Hl; set_solver).
    specialize (Hall best Hin He). lia.
Qed.
End properties.

Definition demo_group : SiteGroup :=
  mkSiteGroup "" "Demo" "demo" ["example.com"] "mitm" "up1" [] "" "" "" "" true false "" "" false CertVerify_zero.

Definition demo_upstream (addr : string) : Upstream := mkUpstream "up1" "Demo upstream" addr true.

Definition demo_rules : RulesConfig :=
  mkRulesConfig [set_sgID demo_group "1"] [demo_upstream "192.0.2.1:443"] [] [].

(** A manager that has loaded a file with one site group and its upstream. *)
Definition demo_rm : RuleManager :=
  snd (LoadConfig false Written Written Written (NewRuleManager (Doc (settings_doc false Settings_new)) (Doc demo_rules))).

(** [UpdateUpstream] saves the new address but does not rebuild the rules:
    there is a reachable manager whose rules match its configuration, and which
    after a successful update still routes to the old address. *)
Theorem UpdateUpstream_stale :
  ∃ rm u rm', rules_reachable false rm ∧ rules rm = built_rules (siteGroups rm) (upstreams rm) (echProfiles rm) ∧
    UpdateUpstream u Written rm = (Ok tt, rm') ∧ rulesFile rm' = Doc (rules_doc rm') ∧
    rules rm' ≠ built_rules (siteGroups rm') (upstreams rm') (echProfiles rm').
Proof.
  exists demo_rm, (demo_upstream "198.51.100.7:443").
  eexists. split; [|split; [vm_compute; reflexivity|]].
  - apply (rules_step false (OpLoadConfig Written Written Written)), rules_new.
  - split; [reflexivity|]. split; [vm_compute; reflexivity|]. vm_compute. discriminate.
Qed.

Lemma LoadConfig_normal windows w1 w2 w3 rm rm' :
  websites_usable (match rulesFile rm with Absent => defaultSiteGroups | Doc c => rc_SiteGroups c | _ => [] end) →
  LoadConfig windows w1 w2 w3 rm = (Ok tt, rm') →
  rm_normal windows rm' ∧ rules rm' = built_rules (siteGroups rm') (upstreams rm') (echProfiles rm') ∧
  normalize_loaded windows rm' = (false, rm').
Proof.
  intros Hw. unfold LoadConfig. destruct (loadSettingsConfig _ _ _ _) as [[r1 s] f].
  set (rm1 := apply_update _ _). destruct r1; [|done..].
  destruct (loadRulesConfig w2 rm1) as [r2 rm2] eqn:E2. destruct r2; [|done..].
  assert (Hg : websites_usable (siteGroups rm2)).
  { unfold loadRulesConfig in E2. change (rulesFile rm1) with (rulesFile rm) in E2.
    destruct (rulesFile rm); try done.
    - unfold saveDefaultRulesConfig in E2.
      match type of E2 with saveRulesConfig _ ?x = _ => pose proof (saveRulesConfig_fields w2 x) as (_ & Hs & _) end.
      rewrite E2 in Hs. simpl in Hs. by rewrite Hs.
    - injection E2 as _ <-. done. }
  pose proof (normalize_loaded_normal windows rm2 Hg) as Hn.
  destruct (normalize_loaded windows rm2) as [m rm3]. simpl in Hn.
  assert (H' : ∀ q, siteGroups q = siteGroups rm3 → echProfiles q = echProfiles rm3 → settings q = settings rm3 →
    upstreams q = upstreams rm3 → rules q = built_rules (siteGroups rm3) (upstreams rm3) (echProfiles rm3) →
    rm_normal windows q ∧ rules q = built_rules (siteGroups q) (upstreams q) (echProfiles q) ∧
    normalize_loaded windows q = (false, q)).
  { intros q H1 H2 H3 H4 H5. assert (rm_normal windows q) by (destruct Hn; split; congruence).
    split; [done|]. split; [congruence|]. by apply normalize_loaded_id. }
  intros [= <-]. apply H'; destruct m; try done;
    destruct (saveRulesConfig_fields w3 (buildRules rm3)) as (?&?&?&?&?&?&?); done.
Qed.

(** C28: a successful load leaves a normal form, which the passes of a load leave as it is, and
    rules built from it.  When it was the load of a new process, and the save that follows a
    migration did not fail, the rules file it leaves has nothing to migrate any more, and the
    next process that loads its files is in exactly the same state and writes nothing.  This
    is for site groups whose missing names the program can infer: [websites_usable]. *)
Theorem LoadConfig_normalises windows w1 w2 w3 rm rm' :
  websites_usable (match rulesFile rm with Absent => defaultSiteGroups | Doc c => rc_SiteGroups c | _ => [] end) →
  LoadConfig windows w1 w2 w3 rm = (Ok tt, rm') →
  rm_normal windows rm' ∧ rules rm' = built_rules (siteGroups rm') (upstreams rm') (echProfiles rm') ∧
  normalize_loaded windows rm' = (false, rm') ∧
  (rm = NewRuleManager (settingsFile rm) (rulesFile rm) → w3 = Written →
   (∃ c, rulesFile rm' = Doc c ∧ migrated_groups (rc_SiteGroups c)) ∧
   ∀ w1' w2' w3', LoadConfig windows w1' w2' w3' (NewRuleManager (settingsFile rm') (rulesFile rm')) = (Ok tt, rm')).
Proof.
  intros Hw Hload. destruct (LoadConfig_normal _ _ _ _ _ _ Hw Hload) as (H1 & H2 & H3). do 3 (split; [done|]).
  intros Hrm ->. rewrite Hrm in Hload. 
  assert (H := λ a b c, LoadConfig_again windows w1 w2 a b c _ _ _ Hw Hload). split; [apply (H Written Written Written)|intros w1' w2' w3'; apply H].
Qed.

(** After an edit that reports success on a normalised configuration whose
    files were in step, a new process that loads those files serves the edited
    configuration with the same settings, and its rules are built from it. *)
Theorem edit_survives_restart windows op rm rm' w1 w2 w3 :
  is_edit op = true → rulesFile rm = Doc (rules_doc rm) →
  run_rules windows op rm = (Ok tt, rm') → rm_normal windows rm' →
  settingsFile rm' = Doc (settings_doc windows (settings rm')) →
  let '(r, rm2) := LoadConfig windows w1 w2 w3 (NewRuleManager (settingsFile rm') (rulesFile rm')) in
  r = Ok tt ∧ rules_doc rm2 = rules_doc rm' ∧ settings rm2 = settings rm' ∧
  rules rm2 = built_rules (siteGroups rm') (upstreams rm') (echProfiles rm').
Proof.
  intros He Hf Hr Hn Hs. assert (Hf' : rulesFile rm' = Doc (rules_doc rm')).
  { destruct (edit_persists windows op rm rm' He Hr) as [->|?]; done. }
  by rewrite LoadConfig_saved.
Qed.

Lemma find_index_lt {A} (p : A → bool) l i : find_index p l = Some i → i < length l.
Proof. intros (x & Hx & _)%find_index_Some. by apply lookup_lt_Some in Hx. Qed.

Lemma move_node_spec src target nodes node :
  nodes !! src = Some node → target < length nodes →
  move_node src target nodes !! target = Some node ∧ move_node src target nodes ≡ₚ nodes ∧
  delete target (move_node src target nodes) = delete src nodes.
Proof.
  intros Hn Ht. unfold move_node. rewrite Hn. set (without := take src nodes ++ drop (S src) nodes).
  pose proof (lookup_lt_Some _ _ _ Hn) as Hsrc.
  assert (Hlen : length (take target without) = target).
  { unfold without. rewrite length_take, length_app, length_take, length_drop. lia. }
  rewrite <- app_assoc. simpl. split_and!.
  - rewrite lookup_app_r by lia. by rewrite Hlen, Nat.sub_diag.
  - rewrite <- Permutation_middle, take_drop. unfold without.
    rewrite <- (take_drop_middle nodes src node Hn) at 3. by rewrite Permutation_middle.
  - rewrite !delete_take_drop. rewrite take_app_length' by done.
    rewrite cons_middle, app_assoc, drop_app_length' by (rewrite length_app, Hlen; simpl; lia).
    apply take_drop.
Qed.

(** [SetDNSNodePriority] moves the node to the clamped position and keeps the
    order of all the others; an unknown ID is an error and changes nothing. *)
Theorem SetDNSNodePriority_moves id t w rm r rm' :
  SetDNSNodePriority id t w rm = (r, rm') →
  match find_index (has_dnID id) (dnsNodes rm) with
  | None => rm' = rm ∧ is_ok r = false
  | Some src =>
      let target := Z.to_nat (Z.max 0 (Z.min t (Z.of_nat (length (dnsNodes rm)) - 1))) in
      dnsNodes rm' !! target = dnsNodes rm !! src ∧ dnsNodes rm' ≡ₚ dnsNodes rm ∧
      delete target (dnsNodes rm') = delete src (dnsNodes rm)
  end.
Proof.
  unfold SetDNSNodePriority. destruct (find_index _ _) as [src|] eqn:E; [|by intros [= <- <-]].
  pose proof (find_index_lt _ _ _ E) as Hlt. set (target := clamp_index t (length (dnsNodes rm))).
  assert (Ht : target = Z.to_nat (Z.max 0 (Z.min t (Z.of_nat (length (dnsNodes rm)) - 1)))).
  { unfold target, clamp_index. destruct (Z.ltb_spec t 0); simpl; case_match; lia. }
  assert (Htl : target < length (dnsNodes rm)) by lia. cbv zeta. rewrite <- Ht.
  destruct (Nat.eqb_spec src target) as [->|Hne]; [by intros [= <- <-]|].
  destruct (lookup_lt_is_Some_2 _ _ Hlt) as [node Hnode].
  destruct (move_node_spec src target _ node Hnode Htl) as (H1 & H2 & H3). intros Hs.
  match type of Hs with saveRulesConfig _ ?x = _ => pose proof (saveRulesConfig_fields w x) as (_ & _ & _ & Hd & _) end.
  rewrite Hs in Hd. simpl in Hd. rewrite Hd, Hnode. done.
Qed.

Lemma find_update_first (id : string) (f : ECHProfile → ECHProfile) l p :
  (∀ q, ep_ID (f q) = ep_ID q) → List.find (has_epID id) l = Some p →
  List.find (has_epID id) (update_first (has_epID id) f l) = Some (f p).
Proof.
  intros Hf. induction l as [|q l IH]; simpl; [done|]. destruct (has_epID id q) eqn:Hq; simpl.
  - intros [= <-]. unfold has_epID in *. rewrite Hf. by rewrite Hq.
  - rewrite Hq. exact IH.
Qed.

(** The ECH configuration stored for a profile is read back byte for byte,
    whether or not the save to disk succeeded. *)
Theorem ECHConfig_roundtrip id bytes w rm r rm' :
  id ≠ "" → bytes ≠ [] → is_Some (List.find (has_epID id) (echProfiles rm)) →
  UpdateECHProfileConfig id bytes w rm = (r, rm') → GetBinaryECHConfig id rm' = Some bytes.
Proof.
  intros Hid Hb [p Hp]. unfold UpdateECHProfileConfig. rewrite (bool_decide_eq_false_2 _ Hid).
  assert (length bytes ≠ 0) as Hl by (by destruct bytes). rewrite (proj2 (Nat.eqb_neq _ _) Hl). simpl. rewrite Hp.
  assert (Hread : ∀ q, List.find (has_epID id) (echProfiles q) = Some (p {{ ep_Config := EncodeToString bytes }}) →
    GetBinaryECHConfig id q = Some bytes).
  { intros q Hq. unfold GetBinaryECHConfig. rewrite Hq.
    change (ep_Config _) with (EncodeToString bytes). rewrite Decode_Encode.
    by rewrite (proj2 (Nat.ltb_lt 0 _)) by lia. }
  case_bool_decide as Hsame.
  - intros [= <- <-]. apply Hread. rewrite Hp. f_equal. rewrite <- Hsame. by destruct p.
  - intros Hs. apply Hread.
    match type of Hs with saveRulesConfig _ ?x = _ => pose proof (saveRulesConfig_fields w x) as (_ & _ & _ & _ & He & _) end.
    rewrite Hs in He. simpl in He. rewrite He. by apply find_update_first.
Qed.

(** * Concrete instances *)

Definition no_regex : string → string → option bool := λ _ _, None.

Definition demo_rule (d m : string) : Rule := (Rule_mode m false) {{ r_Domain := d; r_SiteID := "1" }}.

Definition demo_manager : RuleManager :=
  demo_rm {{ rules := [demo_rule "*.example.com" "direct"; demo_rule "www.example.com" "mitm"] }}.

Lemma matchRule_best_witness :
  matchRule no_regex None 0 0 "WWW.Example.com:443" "transparent" demo_manager =
    (set_Mode (demo_rule "www.example.com" "mitm") "direct", ("www.example.com", "direct"), demo_manager)
  ∧ ∃ best, r_Mode best = "mitm" ∧ best ∈ rules demo_manager.
Proof.
  split; [vm_compute; reflexivity|].
  assert (Hm : manual_applies "transparent" demo_manager).
  { split; [done|]. split; [done|]. intros [? H]. discriminate H. }
  destruct (matchRule_best no_regex None 0 0 "WWW.Example.com:443" "transparent" demo_manager
    (set_Mode (demo_rule "www.example.com" "mitm") "direct") ("www.example.com", "direct") demo_manager Hm)
    as (_ & best & l1 & l2 & Hl & _ & _ & Hr).
  - exists (demo_rule "www.example.com" "mitm"). split; [right; left|]. split; [reflexivity|]. vm_compute. discriminate.
  - vm_compute. reflexivity.
  - exists (demo_rule "www.example.com" "mitm"). split; [reflexivity|right; left].
Defined.

Definition demo_auto : RuleManager :=
  demo_rm {{ rules := [];
             settings := (settings demo_rm) {{ autoRoutingConfig := mkAutoRoutingConfig "default" "" "" }};
             autoRouter := Some (mkAutoRouter (mkAutoRoutingConfig "default" "" "") demo_list (cfNets demo_router) ∅) }}.

Lemma transparent_auto_mitm_witness :
  r_Mode (fst (fst (matchRule no_regex demo_doh 0 0 "example.com" "transparent" demo_auto))) = "mitm".
Proof.
  eapply (transparent_auto_mitm no_regex demo_doh 0 0 "example.com" demo_auto); [reflexivity|reflexivity|reflexivity|..].
  - intros x Hx. apply elem_of_nil in Hx. done.
  - vm_compute. reflexivity.
  - vm_compute. reflexivity.
Defined.

Lemma demo_websites : websites_usable (rc_SiteGroups demo_rules).
Proof. repeat constructor; vm_compute; discriminate. Qed.

Lemma LoadConfig_normalises_witness :
  rm_normal false demo_rm ∧ normalize_loaded false demo_rm = (false, demo_rm) ∧
  LoadConfig false (WriteFails "disk full" Garbage) (WriteFails "disk full" Garbage) (WriteFails "disk full" Garbage)
    (NewRuleManager (settingsFile demo_rm) (rulesFile demo_rm)) = (Ok tt, demo_rm).
Proof.
  destruct (LoadConfig_normalises false Written Written Written
    (NewRuleManager (Doc (settings_doc false Settings_new)) (Doc demo_rules)) demo_rm) as (H1 & _ & H3 & H4).
  - exact demo_websites.
  - vm_compute. reflexivity.
  - split; [exact H1|]. split; [exact H3|]. by apply (H4 eq_refl eq_refl).
Defined.

Lemma demo_edit_normal : rm_normal false (snd (run_rules false (OpAddUpstream 7 (demo_upstream "a:1") Written) demo_rm)).
Proof.
  split; [|vm_compute; constructor|vm_compute; reflexivity].
  vm_compute. repeat constructor; vm_compute; done.
Qed.

Lemma edit_survives_restart_witness :
  let rm' := snd (run_rules false (OpAddUpstream 7 (demo_upstream "a:1") Written) demo_rm) in
  length (upstreams (snd (LoadConfig false Written Written Written
    (NewRuleManager (settingsFile rm') (rulesFile rm'))))) = 2.
Proof.
  intros rm'.
  pose proof (edit_survives_restart false (OpAddUpstream 7 (demo_upstream "a:1") Written) demo_rm rm'
    Written Written Written eq_refl) as H.
  destruct (LoadConfig _ _ _ _ _) as [r rm2]. destruct H as (_ & Hd & _).
  - vm_compute. reflexivity.
  - vm_compute. reflexivity.
  - exact demo_edit_normal.
  - vm_compute. reflexivity.
  - apply (f_equal rc_Upstreams) in Hd. change (upstreams rm2 = upstreams rm') in Hd. simpl. rewrite Hd. vm_compute. reflexivity.
Defined.

Definition demo_node (id : string) : DNSNode := mkDNSNode id id "" "" [] false "" false false CertVerify_zero true.

Definition demo_nodes : RuleManager := demo_rm {{ dnsNodes := [demo_node "a"; demo_node "b"; demo_node "c"] }}.

Lemma SetDNSNodePriority_moves_witness :
  ∃ r rm', SetDNSNodePriority "c" (-5) Written demo_nodes = (r, rm') ∧ dnsNodes rm' !! 0 = Some (demo_node "c").
Proof.
  eexists _, _. split; [vm_compute; reflexivity|].
  match goal with |- dnsNodes ?q !! _ = _ =>
    destruct (SetDNSNodePriority_moves "c" (-5) Written demo_nodes (Ok tt) q) as (H & _) end.
  - vm_compute. reflexivity.
  - vm_compute in H. exact H.
Defined.

Definition demo_ech : RuleManager := demo_rm {{ echProfiles := [mkECHProfile "p" "P" "" "" "" true] }}.

Lemma ECHConfig_roundtrip_witness :
  GetBinaryECHConfig "p" (snd (UpdateECHProfileConfig "p" [x00; xff; "a"%byte] (WriteFails "disk full" Absent) demo_ech))
    = Some [x00; xff; "a"%byte].
Proof.
  eapply (ECHConfig_roundtrip "p" [x00; xff; "a"%byte] (WriteFails "disk full" Absent) demo_ech).
  - discriminate.
  - discriminate.
  - eexists. vm_compute. reflexivity.
  - vm_compute. reflexivity.
Defined.
