(* ===== verification/ImportConfig.v ===== *)
(** [proxy/config.go]: export and import of site groups; and the life of a rule manager, as a
    sequence of its operations, imports included.

    A JSON text is modelled by what the program can decode from it: the two parts
    of the wrapper object, if it decodes as an object, and a [ConfigFile], if it
    decodes as one.  A part is a string holding JSON or a JSON value; either way
    the program decodes its text as a [ConfigFile]. *)

From coqutil Require Import Datatypes.RecordSetters.
From S2P Require Import Prelude GoStrings GoNet Types Hosts AutoRouting Settings Rules.
Import DoubleBraceUpdate.

Open Scope nat_scope.

(** * Data *)

Record ConfigRule := mkConfigRule {
  cr_Name : string;
  cr_Website : string;
  cr_Mode : string;
  cr_Enabled : bool;
  cr_Domains : list string;
  cr_Upstream : string;
  cr_Upstreams : list string;
  cr_DNSMode : string;
  cr_SniFake : string;
  cr_ConnectPolicy : string;
  cr_SniPolicy : string;
  cr_ECHEnabled : bool;
  cr_ECHProfileID : string;
  cr_ECHDomain : string;
  cr_UseCFPool : bool;
  cr_CertVerify : CertVerifyConfig;
}.

Record ConfigFile := mkConfigFile {
  cfg_Version : string;
  cfg_Type : string;
  cfg_Rules : list ConfigRule;
}.

Record ImportSummary := mkImportSummary {
  is_Total : nat;
  is_Added : nat;
  is_Overwritten : nat;
  is_Skipped : nat;
}.

(** A part of the wrapper: missing, present but undecodable, or a file. *)
Inductive part := NoPart | BadPart | FilePart (cfg : ConfigFile).

Record json_text := mkJsonText {
  as_wrapper : option (part * part);   (** the keys "mitm" and "transparent" *)
  as_file : option ConfigFile;
}.

(** * Export *)

Definition export_rule (sg : SiteGroup) : ConfigRule :=
  mkConfigRule (sg_Name sg) (sg_Website sg) (sg_Mode sg) (sg_Enabled sg) (sg_Domains sg) (sg_Upstream sg)
    (sg_Upstreams sg) (sg_DNSMode sg) (sg_SniFake sg) (sg_ConnectPolicy sg) (sg_SniPolicy sg)
    (sg_ECHEnabled sg) (sg_ECHProfileID sg) (sg_ECHDomain sg) (sg_UseCFPool sg) (sg_CertVerify sg).

Definition is_mitm (sg : SiteGroup) : bool := bool_decide (sg_Mode sg = "mitm").

(** [ExportConfig]: the wrapper it writes, its two parts JSON strings. *)
Definition ExportConfig (rm : RuleManager) : json_text :=
  let mitmRules := export_rule <$> List.filter is_mitm (siteGroups rm) in
  let transRules := export_rule <$> List.filter (λ sg, negb (is_mitm sg)) (siteGroups rm) in
  let part_of ty rs := match rs with [] => NoPart | _ => FilePart (mkConfigFile "1.0" ty rs) end in
  mkJsonText (Some (part_of "mitm" mitmRules, part_of "transparent" transRules))
    (Some (mkConfigFile "" "" [])).

(** * Import *)

Definition normalizeDomainsForKey (domains : list string) : string :=
  Join (merge_sort String.le (dedup (List.filter nonempty (norm <$> domains)))) ",".

Definition importMergeKey (sg : SiteGroup) : string :=
  norm (sg_Mode sg) +:+ "|" +:+ normalizeDomainsForKey (sg_Domains sg).

Definition import_modes : list string :=
  ["mitm"; "transparent"; "server"; "tls-rf"; "quic"; "warp"; "gas"; "direct"].

(** One rule of a file of mode [mode]; [now] is the clock of [generateID]. *)
Definition import_rule (now : Z) (mode : string) (rule : ConfigRule) : option SiteGroup :=
  match cr_Domains rule with
  | [] => None
  | d0 :: _ =>
      let ruleMode := norm (cr_Mode rule) in
      let ruleMode := if bool_decide (ruleMode = "") then mode else ruleMode in
      if negb (bool_decide (ruleMode ∈ import_modes)) then None
      else
        let name := TrimSpace (cr_Name rule) in
        Some {| sg_ID := generateID now;
                sg_Name := if bool_decide (name = "") then d0 else name;
                sg_Website := TrimSpace (cr_Website rule);
                sg_Domains := cr_Domains rule;
                sg_Mode := ruleMode;
                sg_Upstream := TrimSpace (cr_Upstream rule);
                sg_Upstreams := cr_Upstreams rule;
                sg_DNSMode := normalizeDNSMode (cr_DNSMode rule);
                sg_SniFake := TrimSpace (cr_SniFake rule);
                sg_ConnectPolicy := norm (cr_ConnectPolicy rule);
                sg_SniPolicy := norm (cr_SniPolicy rule);
                sg_Enabled := if negb (cr_Enabled rule) then true else cr_Enabled rule;
                sg_ECHEnabled := cr_ECHEnabled rule;
                sg_ECHProfileID := cr_ECHProfileID rule;
                sg_ECHDomain := cr_ECHDomain rule;
                sg_UseCFPool := cr_UseCFPool rule;
                sg_CertVerify := cr_CertVerify rule |}
  end.

(** [generateID] reads the clock anew at each call: [clock k] is the [k]-th reading. *)
Fixpoint import_rules (clock : nat → Z) (k : nat) (mode : string) (rs : list ConfigRule) : list SiteGroup * nat :=
  match rs with
  | [] => ([], 0)
  | rule :: rs' =>
      match import_rule (clock k) mode rule with
      | Some sg => let '(out, skipped) := import_rules clock (S k) mode rs' in (sg :: out, skipped)
      | None => let '(out, skipped) := import_rules clock k mode rs' in (out, S skipped)
      end
  end.

(** [parseConfigPayload] on a decoded file; [None] is its type error. *)
Definition parseConfigPayload (clock : nat → Z) (k : nat) (cfg : ConfigFile) (forcedType : string)
    : option (list SiteGroup * nat) :=
  let mode := norm (cfg_Type cfg) in
  let mode := if bool_decide (mode = "") then norm forcedType else mode in
  if negb (bool_decide (mode = "mitm")) && negb (bool_decide (mode = "transparent")) then None
  else Some (import_rules clock k mode (cfg_Rules cfg)).

(** One key of the wrapper, with the accumulators [imported], [total], [skipped]. *)
Definition import_part (clock : nat → Z) (p : part) (key : string) (acc : list SiteGroup * nat * nat)
    : list SiteGroup * nat * nat :=
  let '(imported, total, skipped) := acc in
  match p with
  | FilePart cfg =>
      match parseConfigPayload clock (length imported) cfg key with
      | Some (sgs, partSkipped) => (imported ++ sgs, total + (length sgs + partSkipped), skipped + partSkipped)
      | None => acc
      end
  | _ => acc
  end.

Definition read_import (clock : nat → Z) (content : json_text) : list SiteGroup * nat * nat :=
  let acc := ([], 0, 0) in
  let acc := match as_wrapper content with
             | Some (pm, pt) => import_part clock pt "transparent" (import_part clock pm "mitm" acc)
             | None => acc
             end in
  match acc with
  | ([], total, skipped) =>
      match as_file content with
      | Some cfg => import_part clock (FilePart cfg) "" acc
      | None => acc
      end
  | _ => acc
  end.

(** The index of the merge: the last group of each usable key. *)
Fixpoint index_from (i : nat) (merged : list SiteGroup) (m : gmap string nat) : gmap string nat :=
  match merged with
  | [] => m
  | sg :: rest =>
      let key := importMergeKey sg in
      index_from (S i) rest (if bool_decide (key = "|") then m else <[key := i]> m)
  end.

Record merge_state := mkMerge {
  merged : list SiteGroup;
  index : gmap string nat;
  n_added : nat;
  n_overwritten : nat;
  n_skipped : nat;
}.

(** One imported group: [sg.ID = merged[idx].ID; merged[idx] = sg], or an append. *)
Definition merge_one (st : merge_state) (sg : SiteGroup) : merge_state :=
  let key := importMergeKey sg in
  if bool_decide (key = "|") then st {{ n_skipped ::= S }}
  else match index st !! key with
       | Some idx =>
           st {{ merged ::= alter (λ old, set_sgID sg (sg_ID old)) idx; n_overwritten ::= S }}
       | None =>
           st {{ merged := merged st ++ [sg]; index := <[key := length (merged st)]> (index st); n_added ::= S }}
       end.

Definition merge_groups (old imported : list SiteGroup) (skipped : nat) : merge_state :=
  foldl merge_one (mkMerge old (index_from 0 old ∅) 0 0 skipped) imported.

Definition ImportConfigWithSummary (clock : nat → Z) (content : json_text) (w : write_result RulesConfig)
    (rm : RuleManager) : outcome ImportSummary * RuleManager :=
  let '(imported, total, skipped) := read_import clock content in
  match imported with
  | [] => (Err "no valid rules found", rm)
  | _ =>
      let st := merge_groups (siteGroups rm) imported skipped in
      let '(r, rm) := saveRulesConfig w (buildRules (rm {{ siteGroups := merged st }})) in
      let total := if total =? 0 then length imported + n_skipped st else total in
      (obind r (λ _, Ok (mkImportSummary total (n_added st) (n_overwritten st) (n_skipped st))), rm)
  end.

Definition ImportConfig (clock : nat → Z) (content : json_text) (w : write_result RulesConfig)
    (rm : RuleManager) : outcome unit * RuleManager :=
  let '(r, rm) := ImportConfigWithSummary clock content w rm in (obind r (λ _, Ok tt), rm).

(** * The life of a manager *)

(** Everything that changes a manager: the operations of [Rules], imports, [SetRules], and
    those that concern the settings, the files and the automatic router, matching included,
    which may teach the router. *)
Inductive manager_op :=
  | OpRules (op : rules_op)
  | OpImport (clock : nat → Z) (content : json_text) (w : write_result RulesConfig)
  | OpSetRules (rs : list Rule)
  | OpSettings (f : Settings → Settings)
  | OpSaveConfig (w1 : write_result SettingsConfig) (w2 : write_result RulesConfig)
  | OpUpdateAutoRouting (cfg : AutoRoutingConfig) (w : write_result SettingsConfig)
  | OpInitAutoRouter (cache : outcome (string * option string)) (now : Z)
  | OpRefreshGFWList (get : string → outcome (Z * string * option string)) (now : Z) (stamp : string) (w : write_result SettingsConfig)
  | OpMatch (regex_match : string → string → option bool) (doh : resolver) (now stored : Z) (host mode : string).

Definition run_op (windows : bool) (op : manager_op) (rm : RuleManager) : RuleManager :=
  match op with
  | OpRules op => snd (run_rules windows op rm)
  | OpImport clock content w => snd (ImportConfigWithSummary clock content w rm)
  | OpSetRules rs => SetRules rs rm
  | OpSettings f => rm {{ settings ::= f }}
  | OpSaveConfig w1 w2 => snd (SaveConfig windows w1 w2 rm)
  | OpUpdateAutoRouting cfg w => snd (UpdateAutoRoutingConfig windows cfg w rm)
  | OpInitAutoRouter cache now => InitAutoRouter cache now rm
  | OpRefreshGFWList get now stamp w => snd (RefreshGFWList windows get now stamp w rm)
  | OpMatch regex_match doh now stored host mode => snd (matchRule regex_match doh now stored host mode rm)
  end.

Definition run_ops (windows : bool) : RuleManager → list manager_op → RuleManager := foldl (λ rm op, run_op windows op rm).

(** * Lemmas *)

(** The index holds, for each usable key, the last position that carries it. *)
Definition is_last (l : list SiteGroup) (key : string) (i : nat) : Prop :=
  (∃ sg, l !! i = Some sg ∧ importMergeKey sg = key) ∧
  ∀ j sg, l !! j = Some sg → importMergeKey sg = key → j ≤ i.

Record index_ok (l : list SiteGroup) (m : gmap string nat) : Prop := {
  ix_some key i : m !! key = Some i → key ≠ "|" ∧ is_last l key i;
  ix_none key sg : m !! key = None → sg ∈ l → importMergeKey sg = key → key = "|";
}.

Lemma is_last_app_eq l sg key : importMergeKey sg = key → is_last (l ++ [sg]) key (length l).
Proof.
  intros Hk. split.
  - exists sg. rewrite lookup_app_r, Nat.sub_diag by lia. done.
  - intros j sg' Hj _. apply lookup_lt_Some in Hj. rewrite length_app in Hj. simpl in Hj. lia.
Qed.

Lemma is_last_app_ne l sg key i : importMergeKey sg ≠ key → is_last l key i → is_last (l ++ [sg]) key i.
Proof.
  intros Hk [(sg0 & H0 & H1) H2]. split.
  - exists sg0. rewrite lookup_app_l by (by eapply lookup_lt_Some). done.
  - intros j sg' Hj Hkj. destruct (decide (j < length l)).
    + rewrite lookup_app_l in Hj by done. eauto.
    + rewrite lookup_app_r in Hj by lia. apply list_lookup_singleton_Some in Hj as [_ <-]. done.
Qed.

Lemma index_ok_snoc l m sg :
  index_ok l m →
  index_ok (l ++ [sg]) (if bool_decide (importMergeKey sg = "|") then m else <[importMergeKey sg := length l]> m).
Proof.
  intros [Hs Hn]. case_bool_decide as Hk; split.
  - intros key i Hi. destruct (Hs key i Hi) as [? ?]. split; [done|]. apply is_last_app_ne; [congruence|done].
  - intros key sg' Hi [Hin| ->%list_elem_of_singleton]%elem_of_app Hkey; [eauto|congruence].
  - intros key i. destruct (decide (importMergeKey sg = key)) as [<-|Hne].
    + rewrite lookup_insert_eq. intros [= <-]. split; [done|]. by apply is_last_app_eq.
    + rewrite lookup_insert_ne by done. intros Hi. destruct (Hs key i Hi). split; [done|]. by apply is_last_app_ne.
  - intros key sg' Hi [Hin| ->%list_elem_of_singleton]%elem_of_app Hkey; apply lookup_insert_None in Hi as [Hi Hne];
      [eauto|done].
Qed.

Lemma index_from_ok rest : ∀ l m, index_ok l m → index_ok (l ++ rest) (index_from (length l) rest m).
Proof.
  induction rest as [|sg rest IH]; intros l m H; simpl; [by rewrite app_nil_r|].
  rewrite cons_middle, app_assoc. replace (S (length l)) with (length (l ++ [sg])) by (rewrite length_app; simpl; lia).
  apply IH. by apply index_ok_snoc.
Qed.

Lemma index_ok_start l : index_ok l (index_from 0 l ∅).
Proof.
  apply (index_from_ok l [] ∅). split.
  - intros key i. by rewrite lookup_empty.
  - intros key sg _ H. by apply elem_of_nil in H.
Qed.

Lemma key_set_sgID sg id : importMergeKey (set_sgID sg id) = importMergeKey sg.
Proof. done. Qed.

(** Overwriting a group by one of the same key leaves the keys in place. *)
Lemma keys_alter (l : list SiteGroup) (idx : nat) f :
  (∀ old, l !! idx = Some old → importMergeKey (f old) = importMergeKey old) →
  importMergeKey <$> alter f idx l = importMergeKey <$> l.
Proof.
  intros H. apply list_eq. intros j. rewrite !list_lookup_fmap. destruct (decide (j = idx)) as [->|Hne].
  - rewrite list_lookup_alter_eq. destruct (l !! idx) as [old|] eqn:E; simpl; [|done]. by rewrite H.
  - by rewrite list_lookup_alter_ne.
Qed.

Lemma is_last_keys (l l' : list SiteGroup) key i : importMergeKey <$> l' = importMergeKey <$> l → is_last l key i → is_last l' key i.
Proof.
  intros He [(sg & Hi & Hk) Hl]. assert (Hj : ∀ j, importMergeKey <$> l' !! j = importMergeKey <$> l !! j).
  { intros j. by rewrite <- !list_lookup_fmap, He. }
  split.
  - specialize (Hj i). rewrite Hi in Hj. destruct (l' !! i) as [sg'|]; [|done]. simpl in Hj. exists sg'. split; congruence.
  - intros j sg' Hj' Hk'. specialize (Hj j). rewrite Hj' in Hj. destruct (l !! j) as [sg2|] eqn:E2; [|done].
    simpl in Hj. eapply Hl; [exact E2|congruence].
Qed.

Lemma index_ok_keys (l l' : list SiteGroup) m : importMergeKey <$> l' = importMergeKey <$> l → index_ok l m → index_ok l' m.
Proof.
  intros He [Hs Hn]. split.
  - intros key i Hi. destruct (Hs key i Hi). split; [done|]. by eapply is_last_keys.
  - intros key sg Hi Hin Hk. assert (importMergeKey sg ∈ importMergeKey <$> l') as Hin' by (by apply list_elem_of_fmap_2).
    rewrite He in Hin'. apply list_elem_of_fmap in Hin' as (sg' & Hk' & Hin'). eapply Hn; [exact Hi|exact Hin'|congruence].
Qed.

Lemma merge_one_index st sg : index_ok (merged st) (index st) → index_ok (merged (merge_one st sg)) (index (merge_one st sg)).
Proof.
  intros H. unfold merge_one. case_bool_decide as Hk; [done|].
  destruct (index st !! importMergeKey sg) as [idx|] eqn:E; unfold apply_update, constant; cbn -[fmap].
  - eapply index_ok_keys; [|exact H]. apply keys_alter. intros old Hold.
    destruct (ix_some _ _ H _ _ E) as [_ [(sg0 & H0 & Hk0) _]]. rewrite key_set_sgID. congruence.
  - pose proof (index_ok_snoc _ _ sg H) as Hi. rewrite bool_decide_false in Hi by done. exact Hi.
Qed.

Definition last_with (key : string) (l : list SiteGroup) : option SiteGroup :=
  foldl (λ o sg, if decide (importMergeKey sg = key) then Some sg else o) None l.

Lemma last_with_snoc key l sg :
  last_with key (l ++ [sg]) = if decide (importMergeKey sg = key) then Some sg else last_with key l.
Proof. unfold last_with. by rewrite foldl_snoc. Qed.

Lemma last_with_key key l sg : last_with key l = Some sg → importMergeKey sg = key ∧ sg ∈ l.
Proof.
  induction l as [|x l IH] using rev_ind; [done|]. rewrite last_with_snoc.
  case_decide; [intros [= <-]; set_solver|]. intros Hl. destruct (IH Hl). set_solver.
Qed.

Lemma last_with_None key l sg : last_with key l = None → sg ∈ l → importMergeKey sg ≠ key.
Proof.
  induction l as [|x l IH] using rev_ind; [intros _ H; by apply elem_of_nil in H|]. rewrite last_with_snoc.
  case_decide; [done|]. intros Hl [?|?%list_elem_of_singleton]%elem_of_app; subst; auto.
Qed.

(** What a merge of [l] into [st0] has done so far. *)
Record merged_by (l : list SiteGroup) (st0 st : merge_state) : Prop := {
  mb_index : index_ok (merged st) (index st);
  mb_keep i sg : merged st0 !! i = Some sg → ∃ sg', merged st !! i = Some sg' ∧ sg_ID sg' = sg_ID sg ∧
    importMergeKey sg' = importMergeKey sg;
  mb_old key i : index st !! key = Some i → (i < length (merged st0)) → index st0 !! key = Some i;
  mb_stay key i : index st0 !! key = Some i → index st !! key = Some i;
  mb_new key sg : key ≠ "|" → last_with key l = Some sg →
    ∃ i id, index st !! key = Some i ∧ merged st !! i = Some (set_sgID sg id);
  mb_rest i sg : merged st0 !! i = Some sg →
    last_with (importMergeKey sg) l = None ∨ index st0 !! importMergeKey sg ≠ Some i → merged st !! i = Some sg;
  mb_count : n_added st + n_overwritten st + n_skipped st
    = n_added st0 + n_overwritten st0 + n_skipped st0 + length l;
  mb_length : length (merged st) = length (merged st0) + (n_added st - n_added st0);
  mb_added : n_added st0 ≤ n_added st;
}.

Lemma merged_by_refl st : index_ok (merged st) (index st) → merged_by [] st st.
Proof. intros H. split; try done; simpl; eauto; lia. Qed.

Lemma index_key l m key i sg : index_ok l m → m !! key = Some i → l !! i = Some sg → importMergeKey sg = key.
Proof. intros H Hi Hl. destruct (ix_some _ _ H _ _ Hi) as [_ [(sg0 & H0 & <-) _]]. congruence. Qed.

Lemma index_lt l m key i : index_ok l m → m !! key = Some i → i < length l.
Proof. intros H Hi. destruct (ix_some _ _ H _ _ Hi) as [_ [(sg0 & H0 & _) _]]. by eapply lookup_lt_Some. Qed.

Lemma merged_by_skip l st0 st x :
  merged_by l st0 st → importMergeKey x = "|" → merged_by (l ++ [x]) st0 (merge_one st x).
Proof.
  intros [] Hk. unfold merge_one. rewrite (bool_decide_eq_true_2 _ Hk).
  destruct st as [mg ix a o s]. unfold apply_update, constant; split; cbn in *; auto.
  - intros key sg Hne. rewrite last_with_snoc. case_decide; [congruence|auto].
  - intros i sg Hi H. apply mb_rest0; [done|]. rewrite last_with_snoc in H. case_decide as Hd; naive_solver.
  - rewrite length_app. simpl. lia.
Qed.

Lemma merged_by_overwrite l st0 st x idx :
  merged_by l st0 st → importMergeKey x ≠ "|" → index st !! importMergeKey x = Some idx →
  merged_by (l ++ [x]) st0 (merge_one st x).
Proof.
  intros M Hk Hidx. pose proof (merge_one_index st x (mb_index _ _ _ M)) as Hix. pose proof (mb_index _ _ _ M) as Hok.
  revert Hix. unfold merge_one. rewrite (bool_decide_eq_false_2 _ Hk), Hidx.
  destruct st as [mg ix a o s]. destruct M as [Mix Mkeep Mold Mstay Mnew Mrest Mcount Mlen Madd].
  unfold apply_update, constant; cbn -[fmap] in *. intros Hix. split; cbn -[fmap]; auto.
  - intros i sg Hi. destruct (Mkeep i sg Hi) as (sg' & H1 & H2 & H3).
    destruct (decide (i = idx)) as [->|Hne].
    + exists (set_sgID x (sg_ID sg')). rewrite list_lookup_alter_eq, H1. split; [done|]. split; [done|].
      rewrite key_set_sgID, <- H3. exact (eq_sym (index_key _ _ _ _ _ Hok Hidx H1)).
    + exists sg'. by rewrite list_lookup_alter_ne.
  - intros key sg Hne. rewrite last_with_snoc. case_decide as Hd.
    + intros [= <-]. subst key. destruct (lookup_lt_is_Some_2 mg idx) as [old Hold]; [by eapply index_lt|].
      exists idx, (sg_ID old). split; [done|]. by rewrite list_lookup_alter_eq, Hold.
    + intros Hl. destruct (Mnew key sg Hne Hl) as (i & id & Hi & Hm). exists i, id. split; [done|].
      rewrite list_lookup_alter_ne; [done|]. intros <-. apply Hd.
      rewrite <- (index_key _ _ _ _ _ Hok Hidx Hm). by apply (index_key _ _ _ _ _ Hok Hi Hm).
  - intros i sg Hi H. rewrite last_with_snoc in H.
    assert (Hrest : mg !! i = Some sg).
    { apply Mrest; [done|]. destruct H as [H|H]; [|by right]. case_decide; [done|by left]. }
    destruct (decide (i = idx)) as [->|Hne]; [exfalso|by rewrite list_lookup_alter_ne].
    pose proof (index_key _ _ _ _ _ Hok Hidx Hrest) as Hkx.
    destruct H as [H|H]; [rewrite decide_True in H by done; done|]. apply H. rewrite Hkx.
    apply Mold; [done|by eapply lookup_lt_Some].
  - rewrite length_app. simpl. lia.
  - by rewrite length_alter.
Qed.

Lemma merged_by_append l st0 st x :
  merged_by l st0 st → length (merged st0) ≤ length (merged st) → importMergeKey x ≠ "|" →
  index st !! importMergeKey x = None → merged_by (l ++ [x]) st0 (merge_one st x).
Proof.
  intros M Hlen Hk Hidx. pose proof (merge_one_index st x (mb_index _ _ _ M)) as Hix. pose proof (mb_index _ _ _ M) as Hok.
  revert Hix. unfold merge_one. rewrite (bool_decide_eq_false_2 _ Hk), Hidx.
  destruct st as [mg ix a o s]. destruct M as [Mix Mkeep Mold Mstay Mnew Mrest Mcount Mlen Madd].
  unfold apply_update, constant; cbn -[fmap] in *. intros Hix. split; cbn -[fmap]; auto.
  - intros i sg Hi. destruct (Mkeep i sg Hi) as (sg' & H1 & ?). exists sg'.
    rewrite lookup_app_l by (by eapply lookup_lt_Some). done.
  - intros key i. destruct (decide (importMergeKey x = key)) as [<-|Hne].
    + rewrite lookup_insert_eq. intros [= <-]. lia.
    + rewrite lookup_insert_ne by done. apply Mold.
  - intros key i Hi. rewrite lookup_insert_ne; [by apply Mstay|]. intros <-. apply Mstay in Hi. congruence.
  - intros key sg Hne. rewrite last_with_snoc. case_decide as Hd.
    + intros [= <-]. subst key. exists (length mg), (sg_ID x). rewrite lookup_insert_eq. split; [done|].
      rewrite lookup_app_r, Nat.sub_diag by lia. by destruct x.
    + intros Hl. destruct (Mnew key sg Hne Hl) as (i & id & Hi & Hm). exists i, id.
      rewrite lookup_insert_ne by done. split; [done|]. rewrite lookup_app_l by (by eapply lookup_lt_Some). done.
  - intros i sg Hi H. rewrite lookup_app_l by (apply lookup_lt_Some in Hi; lia). apply Mrest; [done|].
    rewrite last_with_snoc in H. case_decide; naive_solver.
  - rewrite length_app. simpl. lia.
  - rewrite length_app. simpl. lia.
Qed.

Lemma merge_run l : ∀ st0, index_ok (merged st0) (index st0) → merged_by l st0 (foldl merge_one st0 l).
Proof.
  induction l as [|x l IH] using rev_ind; intros st0 H; [by apply merged_by_refl|].
  rewrite foldl_snoc. specialize (IH st0 H). pose proof (mb_length _ _ _ IH).
  destruct (decide (importMergeKey x = "|")); [by apply merged_by_skip|].
  destruct (index (foldl merge_one st0 l) !! importMergeKey x) as [idx|] eqn:E.
  - by eapply merged_by_overwrite.
  - apply merged_by_append; [done|lia|done|done].
Qed.

#[local] Opaque importMergeKey.

(** ** Importing again *)

Definition erase (sg : SiteGroup) : SiteGroup := set_sgID sg "".

Lemma erase_set_sgID sg sg' id : erase sg = erase sg' → set_sgID sg id = set_sgID sg' id.
Proof. intros H. exact (f_equal (λ s, set_sgID s id) H). Qed.

Lemma erase_key sg sg' : erase sg = erase sg' → importMergeKey sg = importMergeKey sg'.
Proof. intros H. by rewrite <- (key_set_sgID sg ""), <- (key_set_sgID sg' ""), (erase_set_sgID _ _ "" H). Qed.

Lemma last_with_erase key l : ∀ l', erase <$> l = erase <$> l' →
  option_map erase (last_with key l) = option_map erase (last_with key l').
Proof.
  induction l as [|x l IH] using rev_ind; intros l' H.
  { symmetry in H. apply fmap_nil_inv in H as ->. reflexivity. }
  destruct l' as [|x' l' _] using rev_ind.
  { apply fmap_nil_inv in H. by destruct l. }
  rewrite !fmap_app in H. apply app_inj_tail in H as [Hl Hx]. rewrite !last_with_snoc, (erase_key _ _ Hx).
  case_decide; simpl; [by rewrite Hx|by apply IH].
Qed.

(** Without a fresh key nothing is appended. *)
Lemma merge_no_fresh l : ∀ st,
  (∀ sg, sg ∈ l → importMergeKey sg = "|" ∨ is_Some (index st !! importMergeKey sg)) →
  n_added (foldl merge_one st l) = n_added st.
Proof.
  induction l as [|x l IH]; intros st H; simpl; [done|].
  assert (Hx : n_added (merge_one st x) = n_added st ∧ index (merge_one st x) = index st).
  { unfold merge_one. case_bool_decide; [by destruct st|].
    destruct (H x) as [?|[idx Hi]]; [set_solver|done|]. rewrite Hi. by destruct st. }
  destruct Hx as [Ha Hi]. rewrite IH, Ha; [done|]. intros sg Hsg. rewrite Hi. apply H. set_solver.
Qed.

Lemma merge_again old l l' skipped st' :
  erase <$> l' = erase <$> l →
  st' = merge_groups (merged (merge_groups old l skipped)) l' skipped →
  n_added st' = 0 ∧ merged st' = merged (merge_groups old l skipped).
Proof.
  intros He ->. unfold merge_groups.
  set (st0 := mkMerge old (index_from 0 old ∅) 0 0 skipped). set (st1 := foldl merge_one st0 l).
  set (st2 := mkMerge (merged st1) (index_from 0 (merged st1) ∅) 0 0 skipped).
  assert (M1 : merged_by l st0 st1) by (apply merge_run, index_ok_start).
  assert (M2 : merged_by l' st2 (foldl merge_one st2 l')) by (apply merge_run, index_ok_start).
  set (st3 := foldl merge_one st2 l') in *.
  assert (Hsame : ∀ key i, index st1 !! key = Some i ↔ index st2 !! key = Some i).
  { intros key i. pose proof (mb_index _ _ _ M1) as O1. pose proof (index_ok_start (merged st1)) as O2.
    assert (Huniq : ∀ m m', index_ok (merged st1) m → index_ok (merged st1) m' → m !! key = Some i → m' !! key = Some i).
    { intros m m' O O' Hi. destruct (ix_some _ _ O _ _ Hi) as (Hne & (sg & H1 & H2) & H3).
      destruct (m' !! key) as [j|] eqn:Hj.
      - destruct (ix_some _ _ O' _ _ Hj) as (_ & (sg' & H1' & H2') & H3'). f_equal.
        pose proof (H3 j sg' H1' H2'). pose proof (H3' i sg H1 H2). lia.
      - exfalso. apply Hne. eapply (ix_none _ _ O'); [exact Hj| |exact H2]. by eapply list_elem_of_lookup_2. }
    split; intros; eapply Huniq; eauto. }
  assert (Hlast : ∀ key sg', last_with key l' = Some sg' → ∃ sg, last_with key l = Some sg ∧ erase sg = erase sg').
  { intros key sg' H. pose proof (last_with_erase key l' l He) as E. rewrite H in E.
    destruct (last_with key l) as [sg|]; [|done]. cbn [option_map] in E. apply Some_inj in E. by exists sg. }
  assert (Hadd : n_added st3 = 0).
  { apply (merge_no_fresh l' st2). intros sg Hsg. destruct (decide (importMergeKey sg = "|")); [by left|right].
    destruct (last_with (importMergeKey sg) l') as [sl|] eqn:E; [|by apply (last_with_None _ _ sg) in E].
    destruct (Hlast _ _ E) as (sl' & El & _). destruct (mb_new _ _ _ M1 _ _ n El) as (i & id & Hi & _).
    exists i. by apply Hsame. }
  split; [done|]. apply list_eq_same_length with (length (merged st1)); [done| |].
  { rewrite (mb_length _ _ _ M2), Hadd. simpl. lia. }
  intros i x y _ Hx Hy. destruct (mb_keep _ _ _ M2 i y Hy) as (x' & Hx' & Hid & Hkey).
  assert (x' = x) as -> by congruence.
  destruct (decide (index st2 !! importMergeKey y = Some i)) as [Hi|Hi].
  2: { apply (mb_rest _ _ _ M2) in Hy; [congruence|by right]. }
  destruct (last_with (importMergeKey y) l') as [sl|] eqn:E.
  2: { apply (mb_rest _ _ _ M2) in Hy; [congruence|by left]. }
  destruct (ix_some _ _ (index_ok_start (merged st1)) _ _ Hi) as [Hne _].
  destruct (Hlast _ _ E) as (sl' & El & Hes).
  destruct (mb_new _ _ _ M2 _ _ Hne E) as (i2 & id2 & Hi2 & Hx2).
  destruct (mb_new _ _ _ M1 _ _ Hne El) as (i1 & id1 & Hi1 & Hy1).
  apply Hsame in Hi1. assert (i1 = i) as -> by congruence.
  apply (mb_stay _ _ _ M2) in Hi. assert (i2 = i) as -> by congruence.
  assert (y = set_sgID sl' id1) as Ey by congruence. assert (x = set_sgID sl id2) as Ex by congruence.
  rewrite Ex, Ey in Hid. simpl in Hid. rewrite Ex, Ey, Hid. symmetry. by apply erase_set_sgID.
Qed.

(** ** The summary *)

Lemma import_rules_count clock k mode rs :
  length (fst (import_rules clock k mode rs)) + snd (import_rules clock k mode rs) = length rs.
Proof.
  revert k. induction rs as [|rule rs IH]; intros k; simpl; [done|]. destruct (import_rule _ _ _).
  - specialize (IH (S k)). destruct (import_rules _ _ _ _); simpl in *. lia.
  - specialize (IH k). destruct (import_rules _ _ _ _); simpl in *. lia.
Qed.

Lemma import_rules_keys clock mode rs : mode ≠ "" → ∀ k sg,
  sg ∈ fst (import_rules clock k mode rs) → importMergeKey sg ≠ "|" ∧ sg_Enabled sg = true ∧ sg_Domains sg ≠ [].
Proof.
  intros Hm. induction rs as [|rule rs IH]; intros k sg; simpl; [set_solver|].
  destruct (import_rule (clock k) mode rule) as [sg0|] eqn:E.
  - specialize (IH (S k) sg). destruct (import_rules _ _ _ _); simpl in *.
    intros [->|?]%elem_of_cons; [|auto]. unfold import_rule in E. destruct (cr_Domains rule) as [|d0 ds]; [done|].
    cbv zeta in E. set (m := if bool_decide (norm (cr_Mode rule) = "") then mode else norm (cr_Mode rule)) in E.
    destruct (bool_decide_reflect (m ∈ import_modes)) as [Hin|]; [|done]. apply Some_inj in E as <-. simpl.
    split; [|split; [by destruct (cr_Enabled rule)|done]].
    Transparent importMergeKey. unfold importMergeKey; simpl. clear IH. clearbody m.
    unfold import_modes in Hin. rewrite !elem_of_cons, elem_of_nil in Hin.
    repeat destruct Hin as [->|Hin]; try done.
  - specialize (IH k sg). destruct (import_rules _ _ _ _); simpl in *. auto.
Qed.

Definition accounted (acc : list SiteGroup * nat * nat) : Prop :=
  let '(imported, total, skipped) := acc in
  total = length imported + skipped ∧ ∀ sg, sg ∈ imported → importMergeKey sg ≠ "|" ∧ sg_Enabled sg = true ∧ sg_Domains sg ≠ [].

Lemma import_part_accounted clock p key acc : accounted acc → accounted (import_part clock p key acc).
Proof.
  destruct acc as [[imported total] skipped]. intros [Ht Hs]. unfold import_part. destruct p as [| |cfg]; [done..|].
  unfold parseConfigPayload. set (mode := if bool_decide _ then _ else _).
  destruct (negb _ && negb _) eqn:Hmode; [done|].
  assert (Hm : mode ≠ "").
  { intros E. rewrite E in Hmode. done. }
  pose proof (import_rules_keys clock mode (cfg_Rules cfg) Hm (length imported)) as Hk.
  destruct (import_rules _ _ _ _) as [sgs sk]; simpl in *. rewrite length_app. split; [lia|].
  intros sg [?|?]%elem_of_app; auto.
Qed.

Lemma read_import_accounted clock content : accounted (read_import clock content).
Proof.
  unfold read_import. set (acc := match as_wrapper content with Some _ => _ | None => _ end).
  assert (Ha : accounted acc).
  { unfold acc. assert (H0 : accounted ([], 0, 0)) by (split; [done|]; intros sg H; by apply elem_of_nil in H).
    destruct (as_wrapper content) as [[pm pt]|]; [by do 2 apply import_part_accounted|done]. }
  destruct acc as [[[|] total] skipped]; [|done]. destruct (as_file content); [by apply import_part_accounted|done].
Qed.

Lemma import_rules_erase clock clock' mode rs : ∀ k k',
  erase <$> fst (import_rules clock k mode rs) = erase <$> fst (import_rules clock' k' mode rs) ∧
  snd (import_rules clock k mode rs) = snd (import_rules clock' k' mode rs).
Proof.
  induction rs as [|rule rs IH]; intros k k'; simpl; [done|]. unfold import_rule.
  destruct (cr_Domains rule) as [|d0 ds].
  { specialize (IH k k'). destruct (import_rules clock _ _ _), (import_rules clock' _ _ _); simpl in *. naive_solver. }
  destruct (negb _).
  - specialize (IH k k'). destruct (import_rules clock _ _ _), (import_rules clock' _ _ _); simpl in *. naive_solver.
  - specialize (IH (S k) (S k')). destruct (import_rules clock _ _ _), (import_rules clock' _ _ _); cbn [fst snd] in *.
    destruct IH as [H1 ->]. by rewrite !fmap_cons, H1.
Qed.

Lemma import_part_erase clock clock' p key acc acc' :
  erase <$> fst (fst acc) = erase <$> fst (fst acc') → snd (fst acc) = snd (fst acc') → snd acc = snd acc' →
  let r := import_part clock p key acc in let r' := import_part clock' p key acc' in
  erase <$> fst (fst r) = erase <$> fst (fst r') ∧ snd (fst r) = snd (fst r') ∧ snd r = snd r'.
Proof.
  destruct acc as [[i t] s], acc' as [[i' t'] s']. cbn [fst snd]. intros He -> ->.
  unfold import_part. destruct p as [| |cfg]; [done..|]. unfold parseConfigPayload.
  set (mode := if bool_decide _ then _ else _). destruct (negb _ && negb _); [done|].
  destruct (import_rules_erase clock clock' mode (cfg_Rules cfg) (length i) (length i')) as [H1 H2].
  apply (f_equal length) in H1 as Hl. rewrite !length_fmap in Hl.
  destruct (import_rules clock _ _ _), (import_rules clock' _ _ _); cbn [fst snd] in *.
  rewrite !fmap_app, He, H1, H2, Hl. done.
Qed.

Lemma read_import_erase clock clock' content :
  erase <$> fst (fst (read_import clock content)) = erase <$> fst (fst (read_import clock' content)) ∧
  snd (fst (read_import clock content)) = snd (fst (read_import clock' content)) ∧
  snd (read_import clock content) = snd (read_import clock' content).
Proof.
  unfold read_import.
  assert (Hw : ∀ a a', a = match as_wrapper content with
      Some (pm, pt) => import_part clock pt "transparent" (import_part clock pm "mitm" ([], 0, 0)) | None => ([], 0, 0) end →
    a' = match as_wrapper content with
      Some (pm, pt) => import_part clock' pt "transparent" (import_part clock' pm "mitm" ([], 0, 0)) | None => ([], 0, 0) end →
    erase <$> fst (fst a) = erase <$> fst (fst a') ∧ snd (fst a) = snd (fst a') ∧ snd a = snd a').
  { intros a a' -> ->. destruct (as_wrapper content) as [[pm pt]|]; [|done].
    destruct (import_part_erase clock clock' pm "mitm" ([], 0, 0) ([], 0, 0) eq_refl eq_refl eq_refl) as (H1 & H2 & H3).
    by apply import_part_erase. }
  specialize (Hw _ _ eq_refl eq_refl).
  destruct (match as_wrapper content with Some _ => _ | None => _ end) as [[i t] s].
  destruct (match as_wrapper content with Some _ => _ | None => _ end) as [[i' t'] s'].
  cbn [fst snd] in Hw. destruct Hw as (He & -> & ->).
  destruct i as [|x i], i' as [|x' i']; try discriminate He; [|done].
  destruct (as_file content); [|done]. by apply import_part_erase.
Qed.

(** ** Rules and site groups *)

Lemma import_rules_built clock content w rm : keeps_or_builds rm (snd (ImportConfigWithSummary clock content w rm)).
Proof.
  unfold ImportConfigWithSummary. destruct (read_import clock content) as [[imported total] skipped].
  destruct imported as [|x l]; [by left|].
  pose proof (kb_save w rm _ (kb_build rm (rm {{ siteGroups := merged (merge_groups (siteGroups rm) (x :: l) skipped) }}))) as H.
  by destruct (saveRulesConfig w _) as [r rm'].
Qed.

Lemma match_keeps regex_match doh now stored host mode rm :
  rules (snd (matchRule regex_match doh now stored host mode rm)) = rules rm ∧
  siteGroups (snd (matchRule regex_match doh now stored host mode rm)) = siteGroups rm.
Proof.
  unfold matchRule. repeat (case_match; simplify_eq; try done).
Qed.

Lemma run_op_rules windows op rm : (∃ rs, op = OpSetRules rs) ∨ keeps_or_builds rm (run_op windows op rm).
Proof.
  destruct op as [op|clock content w|rs|f|w1 w2|cfg w|cache now|get now stamp w|rx doh now stored host mode]; cbn [run_op].
  3: { left. by exists rs. }
  all: right.
  - apply run_rules_rules.
  - apply import_rules_built.
  - by left.
  - unfold SaveConfig. destruct (saveSettingsConfig _ _ _) as [[]f]; [apply kb_save|..]; by left.
  - unfold UpdateAutoRoutingConfig. destruct (saveSettingsConfig _ _ _) as [r f]. by left.
  - unfold InitAutoRouter. destruct (LoadFromFile _ _ _ _) as [r g]. by left.
  - unfold RefreshGFWList. destruct (autoRouter rm) as [ar|]; [|by left]. destruct (LoadFromURL _ _ _ _) as [[]g]; by left.
  - left. apply match_keeps.
Qed.

(** * Properties *)

(** C6: after any operations from a new manager, whatever the saves answered, the rules are
    those of the site groups now present: one for each domain of each enabled group, in
    their order, with the group's fields, and with its upstreams and its ECH profile as some
    earlier moment of the same run had them (see [UpdateUpstream_stale]).  The exception is
    [SetRules], which nothing calls: what it sets stays until the rules are next built. *)
Theorem rules_follow_groups windows fs fr ops :
  let rm := run_ops windows (NewRuleManager fs fr) ops in
  (∃ before rs after, ops = before ++ OpSetRules rs :: after ∧ rules rm = rs) ∨
  ∃ before after, ops = before ++ after ∧
    let rm1 := run_ops windows (NewRuleManager fs fr) before in
    siteGroups rm1 = siteGroups rm ∧ rules_of (upstreams rm1) (echProfiles rm1) (siteGroups rm) (rules rm).
Proof.
  induction ops as [|op ops IH] using rev_ind.
  { right. exists [], []. split; [done|]. split; [done|]. by exists []. }
  unfold run_ops in *. rewrite foldl_snoc. set (rm := foldl _ _ ops) in *.
  destruct (run_op_rules windows op rm) as [[rs ->]|[[Hr Hg]|Hb]].
  - left. exists ops, rs, []. done.
  - rewrite Hr, Hg. destruct IH as [(before & rs & after & -> & H)|(before & after & -> & H)].
    + left. exists before, rs, (after ++ [op]). split; [by rewrite <- app_assoc|done].
    + right. exists before, (after ++ [op]). split; [by rewrite <- app_assoc|done].
  - right. exists (ops ++ [op]), []. rewrite app_nil_r. split; [done|]. rewrite foldl_snoc. split; [done|].
    rewrite Hb. apply built_rules_of.
Qed.

(** Importing the same document a second time adds nothing and leaves every
    site group, with its ID, as the first import made it. *)
Theorem import_idempotent clock clock' content w w' rm s rm1 r2 rm2 :
  ImportConfigWithSummary clock content w rm = (Ok s, rm1) →
  ImportConfigWithSummary clock' content w' rm1 = (r2, rm2) →
  siteGroups rm2 = siteGroups rm1 ∧ rules rm2 = rules rm1 ∧ ∀ s2, r2 = Ok s2 → is_Added s2 = 0.
Proof.
  unfold ImportConfigWithSummary. destruct (read_import_erase clock clock' content) as (He & Ht & Hs).
  destruct (read_import clock content) as [[l total] skipped], (read_import clock' content) as [[l' total'] skipped'].
  cbn [fst snd] in *. subst total' skipped'. destruct l as [|x l]; [done|].
  set (l0 := x :: l) in *. set (st := merge_groups (siteGroups rm) l0 skipped).
  pose proof (saveRulesConfig_fields w (buildRules (rm {{ siteGroups := merged st }}))) as (Hr1 & Hg1 & Hu1 & _ & Hp1 & _).
  destruct (saveRulesConfig w _) as [r1 rm1'] eqn:E1. cbn [fst snd] in *.
  intros [= Hr ->]. simpl in Hr1, Hg1, Hu1, Hp1.
  destruct l' as [|x' l']; [by discriminate He|]. rewrite Hg1. set (l0' := x' :: l') in *.
  destruct (merge_again (siteGroups rm) l0 l0' skipped (merge_groups (merged st) l0' skipped)) as [Ha Hm]; [done|done|].
  fold st in Hm. set (st' := merge_groups (merged st) l0' skipped) in *.
  pose proof (saveRulesConfig_fields w' (buildRules (rm1 {{ siteGroups := merged st' }}))) as (Hr2 & Hg2 & _).
  destruct (saveRulesConfig w' _) as [r3 rm3]. cbn [fst snd] in *. intros [= <- <-].
  simpl in Hr2, Hg2. split_and!.
  - rewrite Hg2. unfold constant. by rewrite Hm.
  - rewrite Hr2, Hr1. unfold constant. rewrite Hm. f_equal; [exact Hu1|exact Hp1].
  - intros s2. destruct r3; simpl; [|done..]. intros [= <-]. exact Ha.
Qed.

(** An import accounts for every rule it read (added, overwritten or skipped),
    keeps every present group in its position under its ID and merge key, and
    appends exactly the added ones; on success the file holds the result. *)
Theorem import_accounts clock content w rm s rm' :
  ImportConfigWithSummary clock content w rm = (Ok s, rm') →
  is_Total s = is_Added s + is_Overwritten s + is_Skipped s ∧
  length (siteGroups rm') = length (siteGroups rm) + is_Added s ∧
  (∀ i sg, siteGroups rm !! i = Some sg → ∃ sg', siteGroups rm' !! i = Some sg' ∧
     sg_ID sg' = sg_ID sg ∧ importMergeKey sg' = importMergeKey sg) ∧
  rules rm' = built_rules (siteGroups rm') (upstreams rm') (echProfiles rm') ∧
  rulesFile rm' = Doc (rules_doc rm').
Proof.
  unfold ImportConfigWithSummary. pose proof (read_import_accounted clock content) as Hacc.
  destruct (read_import clock content) as [[l total] skipped]. destruct Hacc as [-> _].
  destruct l as [|x l]; [done|]. set (l0 := x :: l). set (st0 := mkMerge (siteGroups rm) (index_from 0 (siteGroups rm) ∅) 0 0 skipped).
  assert (M : merged_by l0 st0 (merge_groups (siteGroups rm) l0 skipped)) by (apply merge_run, index_ok_start).
  set (st := merge_groups (siteGroups rm) l0 skipped) in *.
  set (rm0 := buildRules (rm {{ siteGroups := merged st }})).
  pose proof (saveRulesConfig_fields w rm0) as (Hr & Hg & Hu & _ & Hp & _).
  destruct (saveRulesConfig w rm0) as [r rm1] eqn:E. cbn [fst snd] in *. intros [= Hs ->].
  destruct r as [[]| |]; simpl in Hs; [|done..]. apply saveRulesConfig_ok in E.
  pose proof (mb_count _ _ _ M) as Hc. pose proof (mb_length _ _ _ M) as Hlen. simpl in Hc, Hlen.
  change (siteGroups rm0) with (merged st) in Hg. injection Hs as <-. cbn [is_Total is_Added is_Overwritten is_Skipped].
  split_and!; [simpl in *; lia|rewrite Hg; lia| |rewrite Hr, Hg, Hu, Hp; reflexivity|done].
  intros i sg Hi. rewrite Hg. exact (mb_keep _ _ _ M i sg Hi).
Qed.

(** An exported group that was disabled comes back enabled. *)
Theorem export_import_enables clock w rm sg s rm' :
  siteGroups rm = [sg] → sg_Enabled sg = false →
  ImportConfigWithSummary clock (ExportConfig rm) w (NewRuleManager Absent Absent) = (Ok s, rm') →
  ∃ sg', siteGroups rm' = [sg'] ∧ sg_Enabled sg' = true.
Proof.
  intros Hg _. unfold ImportConfigWithSummary. pose proof (read_import_accounted clock (ExportConfig rm)) as Hacc.
  assert (Hl : length (fst (fst (read_import clock (ExportConfig rm)))) ≤ 1).
  { unfold read_import, ExportConfig. rewrite Hg. cbn [List.filter as_wrapper as_file].
    destruct (is_mitm sg); simpl; unfold parseConfigPayload; simpl; destruct (import_rule _ _ _); simpl; lia. }
  destruct (read_import clock (ExportConfig rm)) as [[l total] skipped]. destruct Hacc as [-> Hall]. cbn [fst] in Hl.
  destruct l as [|x [|? ?]]; [done| |simpl in Hl; lia].
  destruct (Hall x) as (Hk & He & _); [set_solver|].
  assert (Hm : merged (merge_groups [] [x] skipped) = [x]).
  { unfold merge_groups, merge_one; simpl. rewrite bool_decide_false by done. done. }
  change (siteGroups (NewRuleManager Absent Absent)) with (@nil SiteGroup). set (rm0 := buildRules _).
  pose proof (saveRulesConfig_fields w rm0) as (_ & Hg' & _). destruct (saveRulesConfig w rm0) as [r rm1].
  cbn [snd] in Hg'. intros [= _ ->]. exists x. split; [|done]. rewrite Hg'. exact Hm.
Qed.

Definition demo_file : ConfigFile :=
  mkConfigFile "1.0" "MITM" [
    mkConfigRule "A" "" "" false ["A.com"; " a.COM "] "" [] "" "" "" "" false "" "" false CertVerify_zero;
    mkConfigRule "B" "" "" true ["a.com"] "x:1" [] "" "" "" "" false "" "" false CertVerify_zero;
    mkConfigRule "C" "" "v2ray" true ["c.com"] "" [] "" "" "" "" false "" "" false CertVerify_zero].

Definition demo_text : json_text := mkJsonText (Some (FilePart demo_file, NoPart)) None.

Lemma import_idempotent_witness :
  let rm1 := snd (ImportConfigWithSummary Z.of_nat demo_text Written (NewRuleManager Absent Absent)) in
  let rm2 := snd (ImportConfigWithSummary (λ k, 100 + Z.of_nat k)%Z demo_text Written rm1) in
  length (siteGroups rm1) = 1 ∧ siteGroups rm2 = siteGroups rm1.
Proof.
  intros rm1 rm2. split; [vm_compute; reflexivity|].
  eapply (import_idempotent Z.of_nat (λ k, 100 + Z.of_nat k)%Z demo_text Written Written
    (NewRuleManager Absent Absent) (mkImportSummary 3 1 1 1) rm1).
  - vm_compute. reflexivity.
  - apply surjective_pairing.
Defined.

Lemma import_accounts_witness :
  ∃ s rm', ImportConfigWithSummary Z.of_nat demo_text Written (NewRuleManager Absent Absent) = (Ok s, rm') ∧
    is_Total s = is_Added s + is_Overwritten s + is_Skipped s ∧ is_Skipped s = 1.
Proof.
  exists (mkImportSummary 3 1 1 1). eexists. split; [vm_compute; reflexivity|]. split; [|reflexivity].
  eapply (import_accounts Z.of_nat demo_text Written (NewRuleManager Absent Absent) (mkImportSummary 3 1 1 1)).
  vm_compute. reflexivity.
Defined.

