(* ===== verification/Dial.v ===== *)
(** The addresses a connection is dialled at: [resolveDomainCandidates],
    [resolveSystemDNS] and [buildDialCandidates] of [proxy/proxy.go].

    The answers of the DoH resolver and of the system resolver are arguments.
    [GetTopIPs] blocks when the pool's mutex is held, so the candidate list is an
    option: [None] is a caller that waits forever. *)

From S2P Require Import Prelude GoStrings GoNet Types Hosts AutoRouting CFPool.

Open Scope Z_scope.

(** What the system resolver answers: [None] is an error. *)
Definition system_dns := string → option (list IP).

Definition resolveDomainCandidates (doh : resolver) (host port dnsMode : string) : list string :=
  let host := normalizeHost host in
  if bool_decide (host = "") || isLiteralIP host then []
  else match doh with
       | None => []
       | Some resolve =>
           match resolve host with
           | Ok ips =>
               let ordered := reorderIPsByDNSMode ips dnsMode in
               dedupeDialCandidates ((λ ip, JoinHostPort (IP_String ip) port) <$> ordered)
           | _ => []
           end
       end.

(** The first loop of [resolveSystemDNS]; [seen] holds the addresses met. *)
Fixpoint system_v4 (port : string) (seen : list string) (ips : list IP) : list string :=
  match ips with
  | [] => []
  | ip :: ips' =>
      let addr := IP_String ip in
      if bool_decide (addr ∈ seen) then system_v4 port seen ips'
      else
        let rest := system_v4 port (addr :: seen) ips' in
        if is_v4 ip then JoinHostPort addr port :: rest else rest
  end.

(** The second loop adds brackets before [JoinHostPort] adds its own. *)
Definition system_v6 (port : string) (ips : list IP) : list string :=
  (λ ip, JoinHostPort ("[" +:+ IP_String ip +:+ "]") port) <$> List.filter (λ ip, negb (is_v4 ip)) ips.

Definition resolveSystemDNS (sys : system_dns) (host port : string) : list string :=
  match sys host with
  | None => []
  | Some ips =>
      match system_v4 port [] ips with
      | [] => system_v6 port ips
      | out => out
      end
  end.

Definition nonempty_or (l k : list string) : list string := match l with [] => k | _ => l end.

Section dial.
Context `{MR : MapRange} (doh : resolver) (sys : system_dns).

Definition resolve_or_system (host dnsMode : string) : list string :=
  nonempty_or (resolveDomainCandidates doh host "443" dnsMode) (resolveSystemDNS sys host "443").

(** The branch of a rule with an upstream. *)
Definition upstream_branch (targetHost targetAddr resolvedUpstream dnsMode : string) : list string :=
  match splitUpstreamCandidates targetHost resolvedUpstream "443" with
  | [] => [targetAddr]
  | upstreamCandidates =>
      let firstHost := firstUpstreamHost targetHost resolvedUpstream in
      if negb (bool_decide (firstHost = "")) && negb (isLiteralIP firstHost)
      then nonempty_or (resolve_or_system firstHost dnsMode) upstreamCandidates
      else upstreamCandidates
  end.

Definition dialling_modes : list string := ["mitm"; "transparent"; "tls-rf"; "quic"].

Definition buildDialCandidates (pool : option CloudflarePool) (targetHost targetAddr : string) (rule : Rule)
    (effectiveMode : string) : option (list string) :=
  let resolvedUpstream := resolveRuleUpstream targetHost rule in
  let isWarpRoute := EqualFold (TrimSpace (r_Upstream rule)) "warp" in
  if isWarpRoute then
    Some (nonempty_or (resolveDomainCandidates doh targetHost "443" (r_DNSMode rule)) [targetAddr])
  else if bool_decide (effectiveMode ∈ dialling_modes) then
    if negb (bool_decide (TrimSpace resolvedUpstream = ""))
    then Some (upstream_branch targetHost targetAddr resolvedUpstream (r_DNSMode rule))
    else
      let without_pool := nonempty_or (resolve_or_system targetHost (r_DNSMode rule)) [targetAddr] in
      match pool with
      | Some p =>
          if r_UseCFPool rule then
            match GetTopIPs 5 p with
            | None => None
            | Some [] => Some without_pool
            | Some topIPs => Some (dedupeDialCandidates ((λ ip, JoinHostPort ip "443") <$> topIPs))
            end
          else Some without_pool
      | None => Some without_pool
      end
  else Some [targetAddr].

(** * Lemmas *)

Lemma nonempty_or_ne l k : k ≠ [] → nonempty_or l k ≠ [].
Proof. by destruct l. Qed.

Lemma upstream_branch_nonempty t a u m : upstream_branch t a u m ≠ [].
Proof.
  unfold upstream_branch. destruct (splitUpstreamCandidates t u "443") as [|c cs]; [done|].
  destruct (_ && _); [by apply nonempty_or_ne|done].
Qed.

Lemma last_nonspace_trim s c : is_space c = false → TrimSpace (s +:+ String c "") ≠ "".
Proof.
  intros Hc. unfold TrimSpace, trim_by.
  assert (Hr : ∀ t, trim_right_by is_space (t +:+ String c "") ≠ "").
  { induction t as [|d t IH]; rewrite ?str_app_empty, ?str_app_cons; cbn [trim_right_by]; [by rewrite Hc|].
    by destruct (trim_right_by is_space (t +:+ String c "")). }
  induction s as [|d s IH]; rewrite ?str_app_empty, ?str_app_cons; cbn [trim_left_by].
  - rewrite Hc. exact (Hr "").
  - destruct (is_space d); [exact IH|]. rewrite <- str_app_cons. apply Hr.
Qed.

Lemma JoinHostPort_443_trim h : TrimSpace (JoinHostPort h "443") ≠ "".
Proof.
  assert (E : ∃ s, JoinHostPort h "443" = s +:+ String "3" "").
  { unfold JoinHostPort. destruct (contains_byte colon h).
    - exists ("[" +:+ h +:+ "]:44"). by rewrite !str_app_assoc.
    - exists (h +:+ ":44"). by rewrite !str_app_assoc. }
  destruct E as [s ->]. by apply last_nonspace_trim.
Qed.

Lemma dedupe_joined_nonempty {A} (f : A → string) l :
  l ≠ [] → dedupeDialCandidates ((λ x, JoinHostPort (f x) "443") <$> l) ≠ [].
Proof.
  destruct l as [|x l]; [done|]. intros _ E.
  assert (TrimSpace (JoinHostPort (f x) "443") ∈ dedupeDialCandidates ((λ x, JoinHostPort (f x) "443") <$> (x :: l))) as H.
  { apply dedupeDialCandidates_elem. split; [apply JoinHostPort_443_trim|]. eexists. split; [|done].
    rewrite fmap_cons. left. }
  rewrite E in H. by apply elem_of_nil in H.
Qed.

Lemma IP_v6_string ip : is_v4 ip = false → length ip = 16%nat → IP_String ip = v6_string ip.
Proof.
  unfold is_v4, IP_String. intros H ->. by destruct (To4 ip).
Qed.

(** ** The text of an IPv6 address *)

Definition v6_char (c : ascii) : bool := negb (ceq c lbrack) && negb (ceq c rbrack) && negb (is_space c).

Fixpoint all_chars (p : ascii → bool) (s : string) : bool :=
  match s with "" => true | String c s' => p c && all_chars p s' end.

Lemma all_chars_app p s t : all_chars p (s +:+ t) = all_chars p s && all_chars p t.
Proof.
  induction s as [|c s IH]; [by rewrite str_app_empty|]. rewrite str_app_cons. cbn [all_chars].
  by rewrite IH, andb_assoc.
Qed.

Lemma all_chars_contains p s c : p c = false → all_chars p s = true → contains_byte c s = false.
Proof.
  intros Hc. induction s as [|d s IH]; [done|]. cbn [all_chars]. rewrite contains_byte_cons.
  intros [Hd Hs]%andb_prop. rewrite (IH Hs), orb_false_r. apply ceq_false. intros ->. congruence.
Qed.

Lemma hex_char_ok d : 0 <= d < 16 → all_chars v6_char (hex_char d) = true.
Proof.
  intros Hd. assert (H : forallb (λ d, all_chars v6_char (hex_char (Z.of_nat d))) (seq 0 16) = true) by (vm_compute; reflexivity).
  rewrite forallb_forall in H. specialize (H (Z.to_nat d)). rewrite Z2Nat.id in H by lia. apply H, list_elem_of_In, elem_of_seq. lia.
Qed.

Lemma hex16_ok v : 0 <= v < 65536 → all_chars v6_char (hex16 v) = true.
Proof.
  intros Hv. unfold hex16. rewrite !all_chars_app.
  pose proof (Z.mod_pos_bound v 16 ltac:(lia)). pose proof (Z.mod_pos_bound (v / 16) 16 ltac:(lia)).
  pose proof (Z.mod_pos_bound (v / 256) 16 ltac:(lia)).
  assert (0 <= v / 4096 < 16) by (split; [apply Z.div_pos; lia|apply Z.div_lt_upper_bound; lia]).
  rewrite (hex_char_ok (v mod 16)) by lia.
  destruct (4096 <=? v), (256 <=? v), (16 <=? v); rewrite ?hex_char_ok by lia; done.
Qed.

Lemma Join_ok gs : Forall (λ v, 0 <= v < 65536) gs → all_chars v6_char (Join (hex16 <$> gs) ":") = true.
Proof.
  induction 1 as [|v gs Hv HF IH]; [done|]. rewrite fmap_cons. destruct gs as [|w gs].
  - by apply hex16_ok.
  - rewrite fmap_cons in *. rewrite Join_cons2, !all_chars_app, (hex16_ok v Hv), IH. done.
Qed.

Lemma groups16_spec n : ∀ bs, length bs = (2 * n)%nat → Forall (λ b, 0 <= b < 256) bs →
  length (groups16 bs) = n ∧ Forall (λ v, 0 <= v < 65536) (groups16 bs).
Proof.
  induction n as [|n IH]; intros [|a [|b bs]] Hl HF; simpl in Hl; try lia; [done|].
  apply list.Forall_cons in HF as [Ha HF]. apply list.Forall_cons in HF as [Hb HF].
  destruct (IH bs ltac:(lia) HF). simpl. split; [congruence|]. constructor; [lia|done].
Qed.

Definition ip_ok (ip : IP) : Prop := Forall (λ b, 0 <= b < 256) ip.

Lemma v6_string_spec ip :
  ip_ok ip → length ip = 16%nat →
  contains_byte colon (v6_string ip) = true ∧ all_chars v6_char (v6_string ip) = true.
Proof.
  intros Hok Hlen. destruct (groups16_spec 8 ip Hlen Hok) as [Hg HF]. unfold v6_string.
  destruct (best_run 0 (groups16 ip) (0%nat, 0%nat)) as [st [|len]].
  - split; [|by apply Join_ok]. destruct (groups16 ip) as [|v [|w gs]]; [done..|].
    rewrite !fmap_cons, Join_cons2, !contains_byte_app. cbn -[hex16 Join]. by rewrite orb_true_r.
  - split.
    + rewrite !contains_byte_app. cbn -[hex16 Join]. by rewrite orb_true_r.
    + rewrite !all_chars_app, !Join_ok; [done|by apply Forall_drop|by apply Forall_take].
Qed.

(** [JoinHostPort] of an already bracketed address cannot be split again. *)
Lemma SplitHostPort_double_bracket s port :
  contains_byte colon s = true → contains_byte rbrack s = false → contains_byte lbrack s = false →
  plain port → contains_byte colon port = false →
  SplitHostPort (JoinHostPort ("[" +:+ s +:+ "]") port) = None.
Proof.
  intros Hc Hr Hl [Hpl Hpr] Hpc. unfold JoinHostPort.
  rewrite !contains_byte_app, Hc, orb_true_r. simpl orb.
  set (hp := "[" +:+ ("[" +:+ s +:+ "]") +:+ "]:" +:+ port).
  assert (Hhp : hp = ("[" +:+ ("[" +:+ s +:+ "]") +:+ "]") +:+ String colon port)
    by (unfold hp; rewrite !str_app_assoc; done).
  unfold SplitHostPort. rewrite Hhp, last_index_byte_app, <- Hhp by done.
  change (HasPrefix hp "[") with true. cbv iota.
  assert (Hi : index_byte rbrack hp = Some (S (S (slen s)))).
  { change hp with (String lbrack (String lbrack ((s +:+ "]") +:+ "]:" +:+ port))).
    cbn [index_byte]. change (ceq rbrack lbrack) with false. cbv iota.
    rewrite str_app_assoc. change ("]" +:+ "]:" +:+ port) with (String rbrack ("]:" +:+ port)).
    by rewrite index_byte_app_fresh. }
  rewrite Hi. destruct (_ =? slen hp)%nat; [done|].
  rewrite !slen_app. change (slen "[") with 1%nat. change (slen "]") with 1%nat.
  destruct (Nat.eqb_spec (S (S (S (slen s)))) (1 + (1 + (slen s + 1) + 1))); [lia|done].
Qed.

Lemma octet_ok b : 0 <= b < 256 → all_chars v6_char (Itoa b) = true.
Proof.
  intros Hb. assert (H : forallb (λ d, all_chars v6_char (Itoa (Z.of_nat d))) (seq 0 256) = true) by (vm_compute; reflexivity).
  rewrite forallb_forall in H. specialize (H (Z.to_nat b)). rewrite Z2Nat.id in H by lia. apply H, list_elem_of_In, elem_of_seq. lia.
Qed.

Lemma dotted_ok ip : ip_ok ip → all_chars v6_char (dotted ip) = true.
Proof.
  unfold dotted. induction 1 as [|b ip Hb HF IH]; [done|]. rewrite fmap_cons. destruct ip as [|b2 ip].
  - by apply octet_ok.
  - rewrite fmap_cons in *. rewrite Join_cons2, !all_chars_app, (octet_ok b Hb), IH. done.
Qed.

Lemma IP_String_ok ip : ip_ok ip → all_chars v6_char (IP_String ip) = true.
Proof.
  intros Hok. unfold IP_String, To4. destruct (length ip =? 4)%nat; [by apply dotted_ok|].
  destruct (Nat.eqb_spec (length ip) 16) as [Hl|]; simpl; [|done].
  case_bool_decide; [by apply dotted_ok, Forall_drop|]. by apply v6_string_spec.
Qed.

Lemma no_space_trim s : all_chars v6_char s = true → TrimSpace s = s.
Proof.
  intros H. unfold TrimSpace, trim_by.
  assert (Hr : ∀ t, all_chars v6_char t = true → trim_right_by is_space t = t).
  { induction t as [|c t IH]; [done|]. cbn [all_chars trim_right_by]. intros [Hc Ht]%andb_prop. rewrite (IH Ht).
    unfold v6_char in Hc. bool_prop. destruct t; [|done]. by rewrite H1. }
  rewrite trim_left_id; [by apply Hr|]. destruct s as [|c s]; [done|]. cbn [all_chars] in H.
  apply andb_prop in H as [Hc _]. unfold v6_char in Hc. bool_prop. done.
Qed.

Lemma JoinHostPort_trim s : all_chars v6_char s = true → TrimSpace (JoinHostPort s "443") = JoinHostPort s "443".
Proof.
  intros H. unfold JoinHostPort. destruct (contains_byte colon s).
  - unfold TrimSpace, trim_by. rewrite trim_left_id by done.
    assert (Hr : ∀ t, trim_right_by is_space (t +:+ "]:443") = t +:+ "]:443").
    { induction t as [|c t IH]; rewrite ?str_app_empty, ?str_app_cons; cbn [trim_right_by]; [done|]. rewrite IH. by destruct t. }
    change ("[" +:+ s +:+ "]:" +:+ "443") with (String lbrack (s +:+ "]:443")). cbn [trim_right_by]. rewrite Hr.
    by destruct (s +:+ "]:443") eqn:E; [destruct s|].
  - apply no_space_trim. rewrite !all_chars_app, H. done.
Qed.

Lemma IP_String_plain ip : ip_ok ip → plain (IP_String ip).
Proof. intros H. pose proof (IP_String_ok ip H). split; by apply (all_chars_contains v6_char). Qed.

Lemma reorder_subset ips mode ip : ip ∈ reorderIPsByDNSMode ips mode → ip ∈ ips.
Proof.
  unfold reorderIPsByDNSMode. repeat (case_match; [set_solver|]). 
  repeat case_match; rewrite ?elem_of_app, ?elem_of_filter_bool; try done; tauto.
Qed.

Lemma buildDialCandidates_nonempty pool targetHost targetAddr rule mode l :
  buildDialCandidates pool targetHost targetAddr rule mode = Some l → l ≠ [].
Proof.
  unfold buildDialCandidates. destruct (EqualFold _ _); [intros [= <-]; by apply nonempty_or_ne|].
  destruct (bool_decide (mode ∈ _)); [|by intros [= <-]].
  destruct (negb _); [intros [= <-]; apply upstream_branch_nonempty|].
  destruct pool as [p|]; [|intros [= <-]; by apply nonempty_or_ne].
  destruct (r_UseCFPool rule); [|intros [= <-]; by apply nonempty_or_ne].
  destruct (GetTopIPs 5 p) as [[|ip ips]|] eqn:E; [|..|done].
  - intros [= <-]. by apply nonempty_or_ne.
  - intros [= <-]. by refine (dedupe_joined_nonempty (λ x, x) (ip :: ips) _).
Qed.

Lemma buildDialCandidates_total pool targetHost targetAddr rule mode :
  (∀ p, pool = Some p → mu_held p = false) → is_Some (buildDialCandidates pool targetHost targetAddr rule mode).
Proof.
  intros H. unfold buildDialCandidates. destruct (EqualFold _ _); [by eexists|].
  destruct (bool_decide (mode ∈ _)); [|by eexists]. destruct (negb _); [by eexists|].
  destruct pool as [p|]; [|by eexists]. destruct (r_UseCFPool rule); [|by eexists].
  unfold GetTopIPs, locked. rewrite (H p eq_refl). by case_match; eexists.
Qed.

(** * Properties *)

(** Dialling always has a candidate: the list is never empty, and it is there
    unless the rule asks a pool whose mutex was left locked. *)
Theorem candidates_exist pool targetHost targetAddr rule mode :
  (∀ l, buildDialCandidates pool targetHost targetAddr rule mode = Some l → l ≠ []) ∧
  ((∀ p, pool = Some p → mu_held p = false) → is_Some (buildDialCandidates pool targetHost targetAddr rule mode)).
Proof.
  split; [intros l; apply buildDialCandidates_nonempty|apply buildDialCandidates_total].
Qed.

(** A candidate found through DoH is an answer of the resolver in the family
    order of the rule's DNS mode, written so that splitting it gives the address
    and port back; no candidate appears twice. *)
Theorem resolved_candidates_dialable resolve host dnsMode ips :
  resolve (normalizeHost host) = Ok ips → Forall ip_ok ips →
  let l := resolveDomainCandidates (Some resolve) host "443" dnsMode in
  NoDup l ∧
  (∀ c, c ∈ l → ∃ ip, ip ∈ ips ∧ SplitHostPort c = Some (IP_String ip, "443")) ∧
  (normalizeHost host ≠ "" → isLiteralIP (normalizeHost host) = false →
     ∀ ip, ip ∈ reorderIPsByDNSMode ips dnsMode → JoinHostPort (IP_String ip) "443" ∈ l).
Proof.
  intros Hr Hok l. subst l. unfold resolveDomainCandidates. rewrite Hr. split_and!.
  - destruct (_ || _); [constructor|apply dedupeDialCandidates_NoDup].
  - intros c Hc. destruct (_ || _); [by apply elem_of_nil in Hc|].
    apply dedupeDialCandidates_elem in Hc as (_ & c' & (ip & -> & Hip)%list_elem_of_fmap & ->).
    apply reorder_subset in Hip. rewrite list.Forall_forall in Hok. specialize (Hok ip Hip).
    exists ip. split; [done|]. rewrite JoinHostPort_trim by (by apply IP_String_ok).
    apply SplitHostPort_JoinHostPort; [by apply IP_String_plain|done|done].
  - intros Hne Hlit ip Hip. rewrite (bool_decide_eq_false_2 _ Hne), Hlit. simpl.
    apply dedupeDialCandidates_elem. split; [apply JoinHostPort_nonempty|].
    exists (JoinHostPort (IP_String ip) "443"). split; [by apply (list_elem_of_fmap_2 (λ ip, JoinHostPort (IP_String ip) "443"))|].
    symmetry. apply JoinHostPort_trim, IP_String_ok. apply reorder_subset in Hip.
    rewrite list.Forall_forall in Hok. by apply Hok.
Qed.

Lemma system_v4_none port ips : (∀ ip, ip ∈ ips → is_v4 ip = false) → ∀ seen, system_v4 port seen ips = [].
Proof.
  induction ips as [|ip ips IH]; intros H seen; simpl; [done|]. rewrite (H ip) by set_solver.
  case_bool_decide; apply IH; set_solver.
Qed.

(** When the system resolver knows a host only by IPv6 addresses, every address
    [resolveSystemDNS] proposes has doubled brackets and cannot be split into host
    and port, so that none can be dialled. *)
Theorem system_v6_undialable host ips c :
  sys host = Some ips → (∀ ip, ip ∈ ips → is_v4 ip = false ∧ length ip = 16%nat ∧ ip_ok ip) →
  c ∈ resolveSystemDNS sys host "443" → SplitHostPort c = None.
Proof.
  intros Hs Hips. unfold resolveSystemDNS. rewrite Hs, system_v4_none by (intros; by apply Hips).
  unfold system_v6. intros (ip & -> & [Hin _]%elem_of_filter_bool)%list_elem_of_fmap.
  destruct (Hips ip Hin) as (Hv & Hl & Hok). rewrite IP_v6_string by done.
  destruct (v6_string_spec ip Hok Hl) as [Hc Ha].
  apply SplitHostPort_double_bracket; [done| | |done|done]; by apply (all_chars_contains v6_char).
Qed.
End dial.

Definition v6_loopback : IP := replicate 15 0 ++ [1].

Lemma v6_loopback_ok : ip_ok v6_loopback.
Proof. repeat constructor; lia. Qed.

Definition v6_only_dns : system_dns := λ _, Some [v6_loopback].

Lemma system_v6_undialable_witness :
  resolveSystemDNS v6_only_dns "ipv6.example.com" "443" = ["[[::1]]:443"] ∧ SplitHostPort "[[::1]]:443" = None.
Proof.
  split; [vm_compute; reflexivity|].
  apply (system_v6_undialable v6_only_dns "ipv6.example.com" [v6_loopback]); [reflexivity| |vm_compute; left].
  intros ip ->%list_elem_of_singleton. split; [reflexivity|]. split; [reflexivity|exact v6_loopback_ok].
Defined.

Lemma resolved_candidates_dialable_witness :
  let l := resolveDomainCandidates (Some (λ _, Ok [[1; 2; 3; 4]; v6_loopback])) "Example.com" "443" "prefer_ipv6" in
  l = ["[::1]:443"; "1.2.3.4:443"] ∧ NoDup l.
Proof.
  intros l. split; [vm_compute; reflexivity|].
  eapply (resolved_candidates_dialable (λ _, Ok [[1; 2; 3; 4]; v6_loopback]) "Example.com" "prefer_ipv6"); [reflexivity|].
  repeat constructor; lia.
Defined.

Lemma candidates_exist_witness :
  ∃ l, buildDialCandidates None v6_only_dns (Some demo_pool) "example.com" "example.com:443"
         (Rule_mode "mitm" false) "mitm" = Some l ∧ l ≠ [].
Proof.
  eexists. split; [vm_compute; reflexivity|].
  eapply (candidates_exist None v6_only_dns (Some demo_pool) "example.com" "example.com:443" (Rule_mode "mitm" false) "mitm").
  vm_compute. reflexivity.
Defined.
