(* ===== verification/Connect.v ===== *)
(** CONNECT requests: [handleRequest] and [handleConnect] of [proxy/proxy.go].

    The transports the handler ends in ([handleMITM], [handleTransparent],
    [directConnect], ...) are values of [handler]; what the network and the HTTP
    server answer is an [env]; what the handler does is a trace of events.  A
    report to the address pool blocks forever when the pool's mutex was left
    locked: such a run ends [Blocked].  The health checks a report may spawn run
    later and are not part of the trace. *)

From S2P Require Import Prelude GoStrings GoNet Types Hosts AutoRouting CFPool Settings Rules Dial.

Open Scope Z_scope.

(** * Environment and effects *)

Record env := mkEnv {
  dials : string → bool;     (** [dialWithRule] on an address succeeds *)
  hijackable : bool;         (** the response writer is a [Hijacker] *)
  hijack_ok : bool;
  write_ok : bool;           (** writing "200 Connection Established" *)
  flush_ok : bool;
}.

Inductive handler :=
  | GASRelayConnect
  | GASConnect
  | DirectConnect
  | V2RayConnect
  | ServerMITM (rule : Rule)
  | QUICMITM (rule : Rule)
  | MITM (rule : Rule) (candidates : list string) (addr : string)
  | TLSFragment (rule : Rule)
  | Transparent (rule : Rule).

Inductive conn_event :=
  | EvDial (addr : string) (ok : bool)
  | EvReportSuccess (host : string)
  | EvReportFailure (host : string)
  | EvHTTPError (code : Z)
  | EvHijack
  | EvEstablished
  | EvCloseClient
  | EvCloseUpstream.

Inductive ending := Finished (h : option handler) | Blocked.

(** The server's pool and rules, which a request may change. *)
Record world := mkWorld {
  cfPool : option CloudflarePool;
  manager : RuleManager;
}.

(** * Dialling the candidates *)

Definition candidate_host (addr : string) : string :=
  match SplitHostPort addr with Some (h, _) => h | None => "" end.

Inductive dial_result := Dialled (addr : string) | AllFailed | DialBlocked.

Section connect.
Context `{MR : MapRange} (regex_match : string → string → option bool) (doh : resolver) (sys : system_dns).

(** A report on one candidate: the event and the new pool, [None] when it blocks. *)
Definition report (ok useCF : bool) (addr : string) (pool : option CloudflarePool)
    : option (list conn_event * option CloudflarePool) :=
  match pool with
  | Some p =>
      let host := candidate_host addr in
      if useCF && nonempty host then
        if ok then (λ p', ([EvReportSuccess host], Some p')) <$> ReportSuccess host p
        else (λ r, ([EvReportFailure host], Some (snd r))) <$> ReportFailure host p
      else Some ([], pool)
  | None => Some ([], pool)
  end.

(** The sequential fallback over several candidates. *)
Fixpoint dial_sequential (e : env) (useCF : bool) (candidates : list string) (pool : option CloudflarePool)
    : list conn_event * dial_result * option CloudflarePool :=
  match candidates with
  | [] => ([], AllFailed, pool)
  | addr :: rest =>
      let ok := dials e addr in
      match report ok useCF addr pool with
      | None => ([EvDial addr ok], DialBlocked, pool)
      | Some (evs, pool') =>
          if ok then (EvDial addr ok :: evs, Dialled addr, pool')
          else let '(evs', r, pool'') := dial_sequential e useCF rest pool' in
               (EvDial addr ok :: evs ++ evs', r, pool'')
      end
  end.

(** One candidate: dialled without reports. *)
Fixpoint dial_plain (e : env) (candidates : list string) : list conn_event * dial_result :=
  match candidates with
  | [] => ([], AllFailed)
  | addr :: rest =>
      let ok := dials e addr in
      if ok then ([EvDial addr ok], Dialled addr)
      else let '(evs, r) := dial_plain e rest in (EvDial addr ok :: evs, r)
  end.

Definition dial_candidates (e : env) (useCF : bool) (candidates : list string) (pool : option CloudflarePool)
    : list conn_event * dial_result * option CloudflarePool :=
  if (1 <? length candidates)%nat then dial_sequential e useCF candidates pool
  else let '(evs, r) := dial_plain e candidates in (evs, r, pool).

(** * Establishing the tunnel *)

(** The hijack, the 200 reply and the flush; [up] are the closes of the upstream
    connection the failure paths make. *)
Definition establish (e : env) (up : list conn_event) : list conn_event * bool :=
  if negb (hijackable e) then (EvHTTPError 500 :: up, false)
  else if negb (hijack_ok e) then (up, false)
  else if negb (write_ok e) then (EvHijack :: EvCloseClient :: up, false)
  else if negb (flush_ok e) then (EvHijack :: EvCloseClient :: up, false)
  else ([EvHijack; EvEstablished], true).

Definition hand_over (e : env) (up : list conn_event) (h : handler) : list conn_event * ending :=
  let '(evs, ok) := establish e up in (evs, Finished (if ok then Some h else None)).

(** * handleConnect *)

(** The effective mode and upstream under the rule's connect policy. *)
Definition apply_policy (rule : Rule) (resolvedUpstream : string) : string * string :=
  let policy := norm (r_ConnectPolicy rule) in
  if bool_decide (policy = "tunnel_origin") then ("transparent", "")
  else if bool_decide (policy = "tunnel_upstream") then ("transparent", resolvedUpstream)
  else if bool_decide (policy = "mitm") then ("mitm", resolvedUpstream)
  else if bool_decide (policy = "direct") then ("direct", "")
  else (r_Mode rule, resolvedUpstream).

(** The second stage: the rule of the upstream host laid over the first one. *)
Definition upstream_stage (now stored : Z) (targetHost effectiveMode resolvedUpstream : string) (rule : Rule)
    (rm : RuleManager) : Rule * RuleManager :=
  if (bool_decide (effectiveMode = "mitm") || bool_decide (effectiveMode = "transparent"))
     && negb (bool_decide (TrimSpace resolvedUpstream = "")) then
    let upHost := firstUpstreamHost targetHost resolvedUpstream in
    if negb (bool_decide (upHost = "")) then
      let '(upRule, _, rm') := matchRule regex_match doh now stored upHost effectiveMode rm in
      (if negb (bool_decide (r_SiteID upRule = "")) then mergeRule rule upRule else rule, rm')
    else (rule, rm)
  else (rule, rm).

Definition final_handler (mode : string) (rule : Rule) (candidates : list string) (addr : string) : handler :=
  if bool_decide (mode = "mitm") then MITM rule candidates addr
  else if bool_decide (mode = "tls-rf") then TLSFragment rule
  else Transparent rule.

Definition dial_and_serve (e : env) (targetHost targetAddr effectiveMode : string) (rule : Rule)
    (pool : option CloudflarePool) : list conn_event * ending * option CloudflarePool :=
  match buildDialCandidates doh sys pool targetHost targetAddr rule effectiveMode with
  | None => ([], Blocked, pool)
  | Some built =>
      let candidates := nonempty_or built [targetAddr] in
      match dial_candidates e (r_UseCFPool rule) candidates pool with
      | (evs, DialBlocked, pool') => (evs, Blocked, pool')
      | (evs, AllFailed, pool') => (evs ++ [EvHTTPError 502], Finished None, pool')
      | (evs, Dialled addr, pool') =>
          let '(evs', fin) := hand_over e [EvCloseUpstream] (final_handler effectiveMode rule candidates addr) in
          (evs ++ evs', fin, pool')
      end
  end.

Definition handleConnect (e : env) (relay : bool) (gasAddr urlHost reqHost : string) (rule : Rule) (now stored : Z)
    (w : world) : list conn_event * ending * world :=
  let targetAuthority := if bool_decide (urlHost = "") then reqHost else urlHost in
  let targetHost := normalizeHost targetAuthority in
  let targetAddr := ensureAddrWithPort targetAuthority "443" in
  if relay then ([], Finished (Some GASRelayConnect), w)
  else if negb (bool_decide (gasAddr = "")) then ([], Finished (Some GASConnect), w)
  else
    let '(effectiveMode, resolvedUpstream) := apply_policy rule (resolveRuleUpstream targetHost rule) in
    let '(rule, rm') := upstream_stage now stored targetHost effectiveMode resolvedUpstream rule (manager w) in
    let w := mkWorld (cfPool w) rm' in
    if bool_decide (effectiveMode = "direct") then ([], Finished (Some DirectConnect), w)
    else if bool_decide (effectiveMode = "v2ray") then ([], Finished (Some V2RayConnect), w)
    else if bool_decide (effectiveMode = "gas") then ([], Finished (Some DirectConnect), w)
    else if bool_decide (effectiveMode = "server") then
      let '(evs, fin) := hand_over e [] (ServerMITM rule) in (evs, fin, w)
    else if bool_decide (effectiveMode = "quic") then
      let '(evs, fin) := hand_over e [] (QUICMITM rule) in (evs, fin, w)
    else
      let '(evs, fin, pool') := dial_and_serve e targetHost targetAddr effectiveMode rule (cfPool w) in
      (evs, fin, mkWorld pool' (manager w)).

(** * handleRequest *)

Inductive request_ending := ConnectEnds (evs : list conn_event) (fin : ending) | ToHTTP (rule : Rule).

Definition handleRequest (e : env) (relay : bool) (gasAddr method urlHost reqHost mode : string) (now stored : Z)
    (w : world) : request_ending * world :=
  let host := if bool_decide (reqHost = "") then urlHost else reqHost in
  let '(rule, _, rm') := matchRule regex_match doh now stored (normalizeHost host) mode (manager w) in
  let w := mkWorld (cfPool w) rm' in
  if bool_decide (method = "CONNECT") then
    let '(evs, fin, w') := handleConnect e relay gasAddr urlHost reqHost rule now stored w in (ConnectEnds evs fin, w')
  else (ToHTTP rule, w).

(** * Lemmas *)

Definition is_dialled (ev : conn_event) : bool := match ev with EvDial _ ok => ok | _ => false end.
Definition is_close_up (ev : conn_event) : bool := match ev with EvCloseUpstream => true | _ => false end.
Definition is_hijack (ev : conn_event) : bool := match ev with EvHijack => true | _ => false end.
Definition is_close_client (ev : conn_event) : bool := match ev with EvCloseClient => true | _ => false end.

Definition count (p : conn_event → bool) (evs : list conn_event) : nat := length (List.filter p evs).

Lemma count_app p a b : count p (a ++ b) = (count p a + count p b)%nat.
Proof. unfold count. by rewrite List.filter_app, length_app. Qed.

(** Whether a handler is given the dialled upstream connection, the client's. *)
Definition takes_upstream (fin : ending) : nat :=
  match fin with
  | Finished (Some (MITM _ _ _)) | Finished (Some (TLSFragment _)) | Finished (Some (Transparent _)) => 1
  | _ => 0
  end.

Definition takes_client (fin : ending) : nat :=
  match fin with
  | Finished (Some (GASRelayConnect | GASConnect | DirectConnect | V2RayConnect)) => 0
  | Finished (Some _) => 1
  | _ => 0
  end.

Lemma report_counts ok useCF addr pool evs pool' :
  report ok useCF addr pool = Some (evs, pool') →
  count is_dialled evs = 0%nat ∧ count is_close_up evs = 0%nat ∧ count is_hijack evs = 0%nat ∧ count is_close_client evs = 0%nat.
Proof.
  unfold report. destruct pool as [p|]; [|by intros [= <- _]]. destruct (useCF && _); [|by intros [= <- _]].
  destruct ok; intros (? & _ & Heq)%fmap_Some; by injection Heq as -> _.
Qed.

Lemma dial_sequential_counts e useCF cs : ∀ pool evs r pool',
  dial_sequential e useCF cs pool = (evs, r, pool') →
  count is_close_up evs = 0%nat ∧ count is_hijack evs = 0%nat ∧ count is_close_client evs = 0%nat ∧
  (r = AllFailed → count is_dialled evs = 0%nat) ∧ (∀ a, r = Dialled a → count is_dialled evs = 1%nat ∧ a ∈ cs ∧ dials e a = true).
Proof.
  induction cs as [|addr cs IH]; intros pool evs r pool'; cbn [dial_sequential]; [by intros [= <- <- _]|].
  destruct (report (dials e addr) useCF addr pool) as [[evs1 pool1]|] eqn:E.
  2: { intros [= <- <- _]. by split_and!. }
  apply report_counts in E as (H1 & H2 & H3 & H4). destruct (dials e addr) eqn:Hd.
  - intros [= <- <- _]. change (EvDial addr true :: evs1) with ([EvDial addr true] ++ evs1).
    rewrite !count_app, H1, H2, H3, H4. split_and!; [done..|]. intros a [= <-]. split_and!; [done|set_solver|done].
  - destruct (dial_sequential e useCF cs pool1) as [[evs2 r2] pool2] eqn:E2.
    destruct (IH _ _ _ _ E2) as (G1 & G2 & G3 & G4 & G5). intros [= <- <- _].
    change (EvDial addr false :: evs1 ++ evs2) with ([EvDial addr false] ++ evs1 ++ evs2).
    rewrite !count_app, H1, H2, H3, H4, G1, G2, G3. split_and!; [done..| |].
    + intros Hr. by rewrite G4.
    + intros a Ha. destruct (G5 a Ha) as (-> & ? & ?). split_and!; [done|set_solver|done].
Qed.

Lemma dial_plain_counts e cs : ∀ evs r,
  dial_plain e cs = (evs, r) →
  count is_close_up evs = 0%nat ∧ count is_hijack evs = 0%nat ∧ count is_close_client evs = 0%nat ∧ r ≠ DialBlocked ∧
  (r = AllFailed → count is_dialled evs = 0%nat) ∧ (∀ a, r = Dialled a → count is_dialled evs = 1%nat ∧ a ∈ cs ∧ dials e a = true).
Proof.
  induction cs as [|addr cs IH]; intros evs r; cbn [dial_plain]; [by intros [= <- <-]|].
  destruct (dials e addr) eqn:Hd.
  - intros [= <- <-]. split_and!; [done..|]. intros a [= <-]. split_and!; [done|set_solver|done].
  - destruct (dial_plain e cs) as [evs2 r2]. destruct (IH _ _ eq_refl) as (G1 & G2 & G3 & G4 & G5 & G6).
    intros [= <- <-]. change (EvDial addr false :: evs2) with ([EvDial addr false] ++ evs2).
    rewrite !count_app, G1, G2, G3. split_and!; [done..| |]; [intros Hr; by rewrite G5|].
    intros a Ha. destruct (G6 a Ha) as (-> & ? & ?). split_and!; [done|set_solver|done].
Qed.

Lemma dial_candidates_counts e useCF cs pool evs r pool' :
  dial_candidates e useCF cs pool = (evs, r, pool') →
  count is_close_up evs = 0%nat ∧ count is_hijack evs = 0%nat ∧ count is_close_client evs = 0%nat ∧
  (r = AllFailed → count is_dialled evs = 0%nat) ∧ (∀ a, r = Dialled a → count is_dialled evs = 1%nat ∧ a ∈ cs ∧ dials e a = true).
Proof.
  unfold dial_candidates. destruct (1 <? _)%nat; [apply dial_sequential_counts|].
  destruct (dial_plain e cs) as [evs1 r1] eqn:E. apply dial_plain_counts in E as (?&?&?&_&?&?). by intros [= <- <- <-].
Qed.

Lemma count_cons p x l : count p (x :: l) = ((if p x then 1 else 0) + count p l)%nat.
Proof. unfold count. simpl. by destruct (p x). Qed.

Lemma hand_over_counts e up h evs fin :
  hand_over e up h = (evs, fin) → takes_client (Finished (Some h)) = 1%nat →
  count is_hijack up = 0%nat → count is_close_client up = 0%nat → count is_dialled up = 0%nat →
  count is_dialled evs = 0%nat ∧
  (fin = Finished (Some h) ∧ count is_close_up evs = 0%nat ∨
   fin = Finished None ∧ count is_close_up evs = count is_close_up up) ∧
  count is_hijack evs = (count is_close_client evs + takes_client fin)%nat.
Proof.
  unfold hand_over, establish. intros H Hc H1 H2 H3.
  repeat match type of H with context [if negb ?b then _ else _] => destruct b; cbn [negb] in H end;
    injection H as <- <-; rewrite ?count_cons, ?H1, ?H2, ?H3, ?Hc; cbn [is_dialled is_close_up is_hijack is_close_client];
    (split; [done|]); (split; [|done]); (left; by split) || (right; by split).
Qed.

Lemma final_handler_takes m rule cs a :
  takes_client (Finished (Some (final_handler m rule cs a))) = 1%nat ∧
  takes_upstream (Finished (Some (final_handler m rule cs a))) = 1%nat.
Proof. unfold final_handler. by repeat case_bool_decide. Qed.

(** Balance of connections in a trace with its ending. *)
Definition balanced (evs : list conn_event) (fin : ending) : Prop :=
  count is_dialled evs = (count is_close_up evs + takes_upstream fin)%nat ∧
  count is_hijack evs = (count is_close_client evs + takes_client fin)%nat.

Lemma hand_over_server_balanced e h evs fin :
  hand_over e [] h = (evs, fin) → takes_client (Finished (Some h)) = 1%nat →
  takes_upstream (Finished (Some h)) = 0%nat → balanced evs fin.
Proof.
  intros H Hc Hu. destruct (hand_over_counts _ _ _ _ _ H Hc) as (Hd & Hup & Hh); [done..|].
  split; [|done]. rewrite Hd. destruct Hup as [[-> ->]|[-> ->]]; [by rewrite Hu|done].
Qed.

Lemma dial_and_serve_balanced e h a m rule pool evs hd pool' :
  dial_and_serve e h a m rule pool = (evs, Finished hd, pool') → balanced evs (Finished hd).
Proof.
  unfold dial_and_serve. destruct (buildDialCandidates _ _ _ _ _ _ _) as [built|]; [|done].
  set (cs := nonempty_or built [a]). destruct (dial_candidates e (r_UseCFPool rule) cs pool) as [[evs1 r] pool1] eqn:E.
  destruct (dial_candidates_counts _ _ _ _ _ _ _ E) as (H1 & H2 & H3 & H4 & H5).
  destruct r as [addr| |]; [|intros [= <- <- _]|done].
  - destruct (hand_over e [EvCloseUpstream] _) as [evs2 fin] eqn:Eh. intros [= <- -> _].
    destruct (final_handler_takes m rule cs addr) as [Hc Hu].
    destruct (hand_over_counts _ _ _ _ _ Eh Hc) as (G1 & G2 & G3); [done..|].
    destruct (H5 addr eq_refl) as (Hd & _). split; rewrite !count_app, ?H1, ?H2, ?H3, ?Hd, ?G1; [|by rewrite G3].
    destruct G2 as [[-> ->]|[-> ->]]; [by rewrite Hu|done].
  - split; rewrite !count_app, ?H1, ?H2, ?H3, ?H4 by done; done.
Qed.

(** ** The effect of a leaked pool lock on a request *)

Lemma report_failure_leaks useCF addr p evs pool' :
  report false useCF addr (Some p) = Some (evs, pool') → useCF = true →
  is_Some (allIPs p !! candidate_host addr) → candidate_host addr ≠ "" →
  ∃ p', pool' = Some p' ∧ mu_held p' = true.
Proof.
  unfold report. intros H -> [l Hl] Hne. rewrite (proj2 (nonempty_true _) Hne) in H. cbn [andb] in H.
  apply fmap_Some in H as ([b p'] & Hr & Heq). injection Heq as _ ->. exists p'. split; [done|].
  unfold ReportFailure in Hr. rewrite Hl in Hr. destruct (mu_held p); [done|].
  destruct (heap p !! l); injection Hr as _ <-; done.
Qed.

Lemma report_blocked ok addr p : mu_held p = true → candidate_host addr ≠ "" → report ok true addr (Some p) = None.
Proof.
  intros Hm Hne. unfold report. rewrite (proj2 (nonempty_true _) Hne). cbn [andb].
  destruct ok; unfold ReportSuccess, ReportFailure, locked; by rewrite Hm.
Qed.

(** ** Addresses a run dials *)

Lemma dial_sequential_addrs e useCF cs : ∀ pool evs r pool' a ok,
  dial_sequential e useCF cs pool = (evs, r, pool') → EvDial a ok ∈ evs → a ∈ cs.
Proof.
  induction cs as [|addr cs IH]; intros pool evs r pool' a ok; cbn [dial_sequential]; [intros [= <- _ _]; set_solver|].
  destruct (report (dials e addr) useCF addr pool) as [[evs1 pool1]|] eqn:E; [|intros [= <- _ _]; set_solver].
  assert (Hev : EvDial a ok ∉ evs1).
  { unfold report in E. destruct pool as [p|]; [|injection E as <- _; set_solver].
    destruct (useCF && _); [|injection E as <- _; set_solver].
    destruct (dials e addr); apply fmap_Some in E as (? & _ & Heq); injection Heq as -> _; set_solver. }
  destruct (dials e addr); [intros [= <- _ _]; set_solver|].
  destruct (dial_sequential e useCF cs pool1) as [[evs2 r2] pool2] eqn:E2. specialize (IH _ _ _ _ a ok E2).
  intros [= <- _ _]. set_solver.
Qed.

Lemma dial_plain_addrs e cs : ∀ evs r a ok, dial_plain e cs = (evs, r) → EvDial a ok ∈ evs → a ∈ cs.
Proof.
  induction cs as [|addr cs IH]; intros evs r a ok; cbn [dial_plain]; [intros [= <- _]; set_solver|].
  destruct (dials e addr); [intros [= <- _]; set_solver|].
  destruct (dial_plain e cs) as [evs2 r2]. specialize (IH _ _ a ok eq_refl). intros [= <- _]. set_solver.
Qed.

Lemma dial_candidates_addrs e useCF cs pool evs r pool' a ok :
  dial_candidates e useCF cs pool = (evs, r, pool') → EvDial a ok ∈ evs → a ∈ cs.
Proof.
  unfold dial_candidates. destruct (1 <? _)%nat; [apply dial_sequential_addrs|].
  destruct (dial_plain e cs) as [evs1 r1] eqn:E. intros [= <- _ _]. by eapply dial_plain_addrs.
Qed.

Lemma hand_over_no_dial e up h evs fin a ok :
  hand_over e up h = (evs, fin) → EvDial a ok ∈ evs → EvDial a ok ∈ up.
Proof.
  unfold hand_over, establish. intros H.
  repeat match type of H with context [if negb ?b then _ else _] => destruct b; cbn [negb] in H end;
    injection H as <- <-; set_solver.
Qed.

Lemma policy_tunnel_origin rule up : norm (r_ConnectPolicy rule) = "tunnel_origin" → apply_policy rule up = ("transparent", "").
Proof. unfold apply_policy. intros ->. done. Qed.

Lemma upstream_stage_empty now stored h m rule rm : upstream_stage now stored h m "" rule rm = (rule, rm).
Proof. unfold upstream_stage. by rewrite andb_false_r. Qed.

(** * Properties *)

(** C16: in every CONNECT that ends, each upstream connection that was opened is
    closed or given to the one transport that tunnels it, exactly once, and so is
    the hijacked client connection. *)
Theorem connect_balanced e relay gasAddr urlHost reqHost rule now stored w evs h w' :
  handleConnect e relay gasAddr urlHost reqHost rule now stored w = (evs, Finished h, w') →
  balanced evs (Finished h).
Proof.
  unfold handleConnect. destruct relay; [by intros [= <- <- _]|]. destruct (negb _); [by intros [= <- <- _]|].
  destruct (apply_policy _ _) as [mode up]. destruct (upstream_stage _ _ _ _ _ _ _) as [rule' rm'].
  repeat match goal with |- context [if bool_decide (mode = ?m) then _ else _] => case_bool_decide end;
    try (by intros [= <- <- _]).
  - destruct (hand_over e [] _) as [evs1 fin] eqn:E. intros [= <- -> _]. by eapply hand_over_server_balanced.
  - destruct (hand_over e [] _) as [evs1 fin] eqn:E. intros [= <- -> _]. by eapply hand_over_server_balanced.
  - destruct (dial_and_serve _ _ _ _ _ _) as [[evs1 fin] pool'] eqn:E. intros [= <- -> _]. by eapply dial_and_serve_balanced.
Qed.

(** With candidates from the address pool, one failed dial of a pool address
    hangs the request: the failure report leaves the pool locked, and the report on
    the next candidate never returns, even when that candidate answered. *)
Theorem pool_failure_hangs e targetHost targetAddr mode rule p a1 a2 rest :
  r_UseCFPool rule = true →
  buildDialCandidates doh sys (Some p) targetHost targetAddr rule mode = Some (a1 :: a2 :: rest) →
  dials e a1 = false → is_Some (allIPs p !! candidate_host a1) → candidate_host a1 ≠ "" → candidate_host a2 ≠ "" →
  ∃ evs pool', dial_and_serve e targetHost targetAddr mode rule (Some p) = (evs, Blocked, pool') ∧
    EvDial a1 false ∈ evs.
Proof.
  intros Hcf Hb Hd Hk Hn1 Hn2. unfold dial_and_serve. rewrite Hb, Hcf. cbn [nonempty_or].
  unfold dial_candidates. cbn [length Nat.ltb Nat.leb dial_sequential]. rewrite Hd.
  destruct (report false true a1 (Some p)) as [[evs1 pool1]|] eqn:E1; [|eexists _, _; split; [done|set_solver]].
  destruct (report_failure_leaks _ _ _ _ _ E1 eq_refl Hk Hn1) as (p' & -> & Hm).
  rewrite (report_blocked _ _ _ Hm Hn2). eexists _, _. split; [done|set_solver].
Qed.

(** The policy "tunnel_origin", which drops the rule's upstream, still dials
    it: every address such a CONNECT dials is a candidate of the rule's upstream. *)
Theorem tunnel_origin_dials_upstream e urlHost rule now stored w evs fin w' a ok :
  let targetHost := normalizeHost urlHost in
  let up := resolveRuleUpstream targetHost rule in
  norm (r_ConnectPolicy rule) = "tunnel_origin" → EqualFold (TrimSpace (r_Upstream rule)) "warp" = false →
  TrimSpace up ≠ "" → splitUpstreamCandidates targetHost up "443" ≠ [] →
  isLiteralIP (firstUpstreamHost targetHost up) = true →
  handleConnect e false "" urlHost "" rule now stored w = (evs, fin, w') →
  EvDial a ok ∈ evs → a ∈ splitUpstreamCandidates targetHost up "443".
Proof.
  intros targetHost up Hp Hw Hup Hs Hlit. unfold handleConnect.
  assert (Hauth : (if bool_decide (urlHost = "") then "" else urlHost) = urlHost) by (by case_bool_decide).
  rewrite Hauth. fold targetHost. fold up. rewrite policy_tunnel_origin, upstream_stage_empty by done.
  rewrite (bool_decide_eq_true_2 ("" = "")) by done. cbn [negb cfPool].
  repeat (rewrite bool_decide_false by done).
  unfold dial_and_serve, buildDialCandidates. fold up. rewrite Hw, (bool_decide_eq_true_2 ("transparent" ∈ _)) by (unfold dialling_modes; set_solver).
  rewrite (bool_decide_eq_false_2 _ Hup). cbn [negb]. unfold upstream_branch.
  destruct (splitUpstreamCandidates targetHost up "443") as [|c cs] eqn:Ec; [done|]. rewrite Hlit. cbn [negb].
  rewrite andb_false_r. cbn [nonempty_or].
  destruct (dial_candidates e (r_UseCFPool rule) (c :: cs) _) as [[evs1 r] pool1] eqn:E.
  pose proof (dial_candidates_addrs _ _ _ _ _ _ _ a ok E) as Ha. cbn -[hand_over elem_of].
  destruct r as [addr| |].
  - destruct (hand_over e _ _) as [evs2 fin2] eqn:Eh. pose proof (hand_over_no_dial _ _ _ _ _ a ok Eh).
    intros [= <- _ _]. set_solver.
  - intros [= <- _ _]. set_solver.
  - intros [= <- _ _]. set_solver.
Qed.

(** A global tunnel mode decides a CONNECT end to end: without a GAS tunnel,
    mode "v2ray" hands every request to the V2Ray core and mode "gas" falls back to
    a direct connection, whatever the rules say, and nothing is dialled here. *)
Theorem global_mode_connect e urlHost reqHost mode now stored w :
  norm mode = "v2ray" ∨ norm mode = "gas" →
  handleRequest e false "" "CONNECT" urlHost reqHost mode now stored w =
    (ConnectEnds [] (Finished (Some (if decide (norm mode = "v2ray") then V2RayConnect else DirectConnect))), w).
Proof.
  intros Hm. unfold handleRequest, matchRule. destruct w as [pool rm].
  destruct Hm as [Hm|Hm]; rewrite Hm; simpl; unfold handleConnect, apply_policy, upstream_stage; simpl; done.
Qed.
End connect.

(** * Concrete requests *)

Definition demo_env (up : string → bool) : env := mkEnv up true true true true.
Definition demo_world (pool : option CloudflarePool) : world := mkWorld pool (NewRuleManager Absent Absent).
Definition no_dns : system_dns := λ _, None.

Lemma connect_balanced_witness :
  let r := handleConnect no_regex None no_dns (mkEnv (λ _, true) true true false true) false "" "example.com:443" ""
             (Rule_mode "tls-rf" false) 0 0 (demo_world None) in
  fst (fst r) = [EvDial "example.com:443" true; EvHijack; EvCloseClient; EvCloseUpstream] ∧
  balanced (fst (fst r)) (Finished None).
Proof.
  intros r. split; [vm_compute; reflexivity|].
  eapply (connect_balanced no_regex None no_dns (mkEnv (λ _, true) true true false true) false "" "example.com:443" ""
    (Rule_mode "tls-rf" false) 0 0 (demo_world None)).
  vm_compute. reflexivity.
Defined.

(** A pool of two measured addresses. *)
Definition two_pool : CloudflarePool :=
  default empty_pool (checkAllIPs (λ ip, Some (if decide (ip = "1.1.1.1") then 20 else 30)) 7 demo_pool).

Definition pool_rule : Rule :=
  mkRule "" "" [] "" "mitm" "" "" "" true "" false "" true "" "" false CertVerify_zero false "".

Lemma pool_failure_hangs_witness :
  ∃ evs pool', dial_and_serve None no_dns (demo_env (λ a, bool_decide (a = "1.0.0.1:443"))) "example.com"
    "example.com:443" "mitm" pool_rule (Some two_pool) = (evs, Blocked, pool') ∧ EvDial "1.1.1.1:443" false ∈ evs.
Proof.
  eapply (pool_failure_hangs no_regex None no_dns (demo_env (λ a, bool_decide (a = "1.0.0.1:443"))) "example.com"
    "example.com:443" "mitm" pool_rule two_pool "1.1.1.1:443" "1.0.0.1:443" []); try (vm_compute; reflexivity).
  - eexists. vm_compute. reflexivity.
  - vm_compute. discriminate.
  - vm_compute. discriminate.
Defined.

Definition origin_rule : Rule :=
  mkRule "" "192.0.2.9" [] "" "mitm" "" "tunnel_origin" "" true "1" false "" false "" "" false CertVerify_zero false "".

Lemma tunnel_origin_dials_upstream_witness :
  "192.0.2.9:443" ∈ splitUpstreamCandidates "example.com" (resolveRuleUpstream "example.com" origin_rule) "443" ∧
  fst (fst (handleConnect no_regex None no_dns (demo_env (λ _, true)) false "" "example.com:443" "" origin_rule 0 0
    (demo_world None))) = [EvDial "192.0.2.9:443" true; EvHijack; EvEstablished].
Proof.
  split; [|vm_compute; reflexivity].
  eapply (tunnel_origin_dials_upstream no_regex None no_dns (demo_env (λ _, true)) "example.com:443" origin_rule 0 0
    (demo_world None) _ _ _ "192.0.2.9:443" true); try (vm_compute; (reflexivity || discriminate)).
  vm_compute. left.
Defined.

Lemma global_mode_connect_witness :
  handleRequest no_regex None no_dns (demo_env (λ _, true)) false "" "CONNECT" "example.com:443" "" " V2Ray" 0 0 (demo_world None)
    = (ConnectEnds [] (Finished (Some V2RayConnect)), demo_world None).
Proof. apply (global_mode_connect no_regex None no_dns (demo_env (λ _, true))). left. vm_compute. reflexivity. Defined.
