(* ===== verification/TunFlow.v ===== *)
(** [proxy/tun_flow.go]: the plan for one flow of the TUN device. *)

From S2P Require Import Prelude GoStrings GoNet Types Hosts AutoRouting CFPool Settings Rules Dial.

Open Scope Z_scope.

Record TUNFlow := mkTUNFlow {
  tf_Protocol : string;
  tf_Host : string;
  tf_SNI : string;
  tf_DestAddr : string;
  tf_DestPort : Z;
}.

Record TUNFlowPlan := mkTUNFlowPlan {
  tp_Protocol : string;
  tp_Host : string;
  tp_MatchHost : string;
  tp_RuleMode : string;
  tp_EffectiveMode : string;
  tp_Upstream : string;
  tp_DialCandidates : list string;
  tp_UDPStrategy : string;
  tp_CanMITM : bool;
  tp_NeedsSniffing : bool;
  tp_Notes : list string;
}.

Definition first_nonempty (l : list string) : string :=
  match List.filter nonempty l with x :: _ => x | [] => "" end.

Definition flow_protocol (flow : TUNFlow) : string :=
  let protocol := norm (tf_Protocol flow) in
  if bool_decide (protocol = "") then "tcp" else protocol.

Definition flow_host (flow : TUNFlow) : string :=
  let host := normalizeHost (tf_Host flow) in
  let host := if bool_decide (host = "") then normalizeHost (tf_SNI flow) else host in
  if bool_decide (host = "") then normalizeHost (tf_DestAddr flow) else host.

Definition flow_port (flow : TUNFlow) : Z :=
  if (tf_DestPort flow <=? 0) || (65535 <? tf_DestPort flow) then 443 else tf_DestPort flow.

Definition note_tcp_oriented (mode : string) : string :=
  mode +:+ " is TCP-oriented in the current TUN path; downgrade UDP handling to transparent passthrough".
Definition note_quic : string := "QUIC-specific UDP handling can be attached here later".
Definition note_warp : string := "Warp-selected UDP will need a dedicated UDP associate path".
Definition note_direct_udp : string := "Direct UDP flow will bypass HTTP proxy semantics and use transparent forwarding".
Definition note_quic_tcp : string := "QUIC mode selected for TCP flow; preserve rule but dataplane may remap it later".
Definition note_transparent : string := "Transparent TCP flow can reuse existing upstream dial logic without TLS termination".
Definition note_tcp : string := "TCP flow can reuse existing rule matching and upstream candidate selection".
Definition note_unknown : string := "Unknown protocol; treating as direct".
Definition note_no_host : string :=
  "No host/SNI available yet; dataplane should sniff TLS or correlate DNS before advanced routing".

(** The [switch protocol]: effective mode, CanMITM, UDP strategy and notes. *)
Definition plan_protocol (protocol effectiveMode : string) : string * bool * string * list string :=
  let canMITM := bool_decide (protocol = "tcp") in
  if bool_decide (protocol = "udp") then
    if bool_decide (effectiveMode ∈ ["mitm"; "tls-rf"; "server"])
    then ("transparent", false, "", [note_tcp_oriented effectiveMode])
    else if bool_decide (effectiveMode = "quic") then (effectiveMode, false, "native-quic", [note_quic])
    else if bool_decide (effectiveMode = "warp") then (effectiveMode, false, "warp", [note_warp])
    else (effectiveMode, false, "passthrough", if bool_decide (effectiveMode = "direct") then [note_direct_udp] else [])
  else if bool_decide (protocol = "tcp") then
    if bool_decide (effectiveMode = "quic") then (effectiveMode, canMITM, "", [note_quic_tcp])
    else if bool_decide (effectiveMode = "transparent") then (effectiveMode, false, "", [note_transparent])
    else if bool_decide (effectiveMode = "direct") then (effectiveMode, false, "", [])
    else (effectiveMode, canMITM, "", [note_tcp])
  else ("direct", canMITM, "", [note_unknown]).

Definition flow_addr (flow : TUNFlow) (targetHost : string) (port : Z) : string :=
  let targetAddr := tf_DestAddr flow in
  let targetAddr :=
    if bool_decide (TrimSpace targetAddr = "") then
      if negb (bool_decide (targetHost = "")) then JoinHostPort targetHost (Itoa port) else targetAddr
    else targetAddr in
  if bool_decide (targetAddr = "") then JoinHostPort "0.0.0.0" (Itoa port) else targetAddr.

Section tun.
Context `{MR : MapRange} (regex_match : string → string → option bool) (doh : resolver) (sys : system_dns).

(** [None] when the pool blocks. *)
Definition PlanTUNFlow (flow : TUNFlow) (now stored : Z) (pool : option CloudflarePool) (rm : RuleManager)
    : option TUNFlowPlan * RuleManager :=
  let protocol := flow_protocol flow in
  let host := flow_host flow in
  let port := flow_port flow in
  let matchMode := if bool_decide (protocol = "udp") then "transparent" else "mitm" in
  let '(rule, _, rm') := matchRule regex_match doh now stored host matchMode rm in
  let effectiveMode := norm (r_Mode rule) in
  let effectiveMode := if bool_decide (effectiveMode = "") then "direct" else effectiveMode in
  let '(effectiveMode, canMITM, udpStrategy, notes) := plan_protocol protocol effectiveMode in
  let notes := if bool_decide (host = "") then notes ++ [note_no_host] else notes in
  let targetAddr := flow_addr flow host port in
  match buildDialCandidates doh sys pool host (ensureAddrWithPort targetAddr (Itoa port)) rule effectiveMode with
  | None => (None, rm')
  | Some dialCandidates =>
      let dialCandidates :=
        if bool_decide (protocol = "udp") && (length dialCandidates =? 0)%nat && negb (bool_decide (targetAddr = ""))
        then [ensureAddrWithPort targetAddr (Itoa port)] else dialCandidates in
      (Some (mkTUNFlowPlan protocol host host (r_Mode rule) effectiveMode (resolveRuleUpstream host rule)
               dialCandidates udpStrategy canMITM (bool_decide (host = "")) notes), rm')
  end.

(** * Lemmas *)

Lemma plan_protocol_spec protocol mode :
  let '(mode', can, strategy, _) := plan_protocol protocol mode in
  (can = true → protocol = "tcp" ∧ mode' ≠ "direct" ∧ mode' ≠ "transparent" ∧ mode' = mode) ∧
  (protocol = "udp" → mode' ∉ ["mitm"; "tls-rf"; "server"] ∧ can = false ∧
     (strategy = "" ↔ mode ∈ ["mitm"; "tls-rf"; "server"])) ∧
  (protocol ≠ "udp" → strategy = "") ∧
  (protocol ≠ "udp" → protocol ≠ "tcp" → mode' = "direct").
Proof.
  unfold plan_protocol. repeat case_bool_decide; subst; split_and!; try done; try naive_solver;
    intros; split_and!; set_solver.
Qed.

(** * Properties *)

(** Interception is planned only for TCP flows whose rule is neither direct nor
    transparent; a UDP flow is never planned for a TCP-only mode; every plan has an
    address to dial, and asks for sniffing exactly when no host is known. *)
Theorem PlanTUNFlow_sound flow now stored pool rm plan rm' :
  PlanTUNFlow flow now stored pool rm = (Some plan, rm') →
  tp_DialCandidates plan ≠ [] ∧
  (tp_CanMITM plan = true → tp_Protocol plan = "tcp" ∧ tp_EffectiveMode plan ≠ "direct" ∧ tp_EffectiveMode plan ≠ "transparent") ∧
  (tp_Protocol plan = "udp" → tp_CanMITM plan = false ∧ tp_EffectiveMode plan ∉ ["mitm"; "tls-rf"; "server"]) ∧
  (tp_NeedsSniffing plan = true ↔ flow_host flow = "") ∧
  (tp_Protocol plan ∈ ["tcp"; "udp"] ∨ tp_EffectiveMode plan = "direct").
Proof.
  unfold PlanTUNFlow. destruct (matchRule _ _ _ _ _ _ _) as [[rule ev] rm1].
  set (mode := if bool_decide (norm (r_Mode rule) = "") then "direct" else norm (r_Mode rule)).
  pose proof (plan_protocol_spec (flow_protocol flow) mode) as Hp.
  destruct (plan_protocol (flow_protocol flow) mode) as [[[mode' can] strategy] notes]. destruct Hp as (H1 & H2 & H3 & H4).
  destruct (buildDialCandidates _ _ _ _ _ _ _) as [cs|] eqn:E; [|done]. intros [= <- _]; simpl.
  apply buildDialCandidates_nonempty in E. split_and!.
  - destruct (_ && _ && _); [done|exact E].
  - intros Hc. destruct (H1 Hc) as (? & ? & ? & ?). done.
  - intros Hc. destruct (H2 Hc) as (? & ? & _). done.
  - apply bool_decide_eq_true.
  - destruct (decide (flow_protocol flow = "tcp")), (decide (flow_protocol flow = "udp")); [set_solver..|auto].
Qed.
End tun.

(** A UDP flow whose rule is a TCP-only mode is downgraded to pass-through, as its
    note says, yet the plan names no UDP strategy. *)
Theorem udp_downgrade_without_strategy mode :
  mode ∈ ["mitm"; "tls-rf"; "server"] →
  plan_protocol "udp" mode = ("transparent", false, "", [note_tcp_oriented mode]) ∧
  plan_protocol "udp" "transparent" = ("transparent", false, "passthrough", []).
Proof. unfold plan_protocol. intros H. by rewrite (bool_decide_eq_true_2 _ H). Qed.

Lemma PlanTUNFlow_sound_witness :
  ∃ plan, PlanTUNFlow no_regex None (λ _, None) (mkTUNFlow " UDP" "" "" "203.0.113.5:53" 53) 0 0 None
    (NewRuleManager Absent Absent) = (Some plan, NewRuleManager Absent Absent) ∧ tp_DialCandidates plan ≠ [].
Proof.
  eexists. split; [vm_compute; reflexivity|].
  eapply (PlanTUNFlow_sound no_regex None (λ _, None) (mkTUNFlow " UDP" "" "" "203.0.113.5:53" 53) 0 0 None
    (NewRuleManager Absent Absent)).
  vm_compute. reflexivity.
Defined.
