(* ===== verification/CertVerify.v ===== *)
(** [proxy/cert_verify.go]: the custom verification of an upstream certificate.

    The certificate's fields that the code reads are a record; the chain check of
    [crypto/x509] against the system roots and SHA-256 are arguments.
    [normalizeCertVerifyConfig] also writes the normalised entries back into the
    caller's slices; here it is a function on values. *)

From Stdlib Require Import Strings.Byte.
From coqutil Require Import Datatypes.RecordSetters.
From S2P Require Import Prelude GoStrings GoNet GoBytes Types Hosts Settings Base64.
Import DoubleBraceUpdate.

Open Scope nat_scope.

Record certificate := mkCert {
  CommonName : string;
  DNSNames : list string;
  RawSubjectPublicKeyInfo : list byte;
}.

(** The error of [Certificate.Verify]; [UnknownAuthority] is what [errors.As]
    recognises as [x509.UnknownAuthorityError]. *)
Inductive verify_error := UnknownAuthority | OtherVerifyError (msg : string).

Inductive conn_error :=
  | NoPeerCertificates
  | ChainError (e : verify_error)
  | NamesMismatch
  | SuffixesMismatch
  | SPKIMismatch (hash : string)
  | UnknownMode (mode : string).

Definition normalizeCertVerifyConfig (cfg : CertVerifyConfig) (verifyName : string) : CertVerifyConfig :=
  let mode := TrimSpace (cv_Mode cfg) in
  let mode :=
    if bool_decide (mode = "") then
      if 0 <? length (cv_Names cfg) then "allow_names"
      else if 0 <? length (cv_Suffixes cfg) then "allow_suffixes"
      else if 0 <? length (cv_SPKISHA256 cfg) then "allow_spki"
      else ""
    else mode in
  let names := normalizeHost <$> cv_Names cfg in
  let names :=
    if bool_decide (mode = "strict_real") && negb (bool_decide (verifyName = "")) && (length names =? 0)
    then [normalizeHost verifyName] else names in
  mkCertVerifyConfig mode names (norm <$> cv_Suffixes cfg) (TrimSpace <$> cv_SPKISHA256 cfg)
    (cv_AllowUnknownAuthority cfg).

Definition certNames (cert : certificate) : list string :=
  dedup (List.filter nonempty (norm <$> CommonName cert :: DNSNames cert)).

Definition dnsMatch (certName host : string) : bool :=
  let certName := norm certName in
  let host := norm host in
  if bool_decide (certName = "") || bool_decide (host = "") then false
  else if bool_decide (certName = host) then true
  else if HasPrefix certName "*." then
    let base := TrimPrefix certName "*." in
    HasSuffix host ("." +:+ base) && (count_byte dot base + 1 <=? count_byte dot host)
  else false.

Definition matchesAllowedNames (cert : certificate) (names : list string) : bool :=
  let candidates := certNames cert in
  existsb (λ allowed,
    let allowed := norm allowed in
    if bool_decide (allowed = "") then false
    else existsb (λ candidate, dnsMatch candidate allowed || dnsMatch allowed candidate) candidates) names.

Definition suffix_match (candidate suffix : string) : bool :=
  let candidate := ToLower candidate in
  if bool_decide (candidate = suffix) || HasSuffix candidate suffix then true
  else if HasPrefix candidate "*." then
    let base := TrimPrefix candidate "*" in
    bool_decide (base = suffix) || HasSuffix base suffix
  else false.

Definition matchesAllowedSuffixes (cert : certificate) (suffixes : list string) : bool :=
  let candidates := certNames cert in
  existsb (λ suffix,
    let suffix := norm suffix in
    if bool_decide (suffix = "") then false
    else existsb (λ candidate, suffix_match candidate suffix) candidates) suffixes.

Definition maybeIgnoreUnknownAuthority (err : option verify_error) (cfg : CertVerifyConfig) : option verify_error :=
  match err with
  | None => None
  | Some e =>
      if negb (cv_AllowUnknownAuthority cfg) then err
      else match e with UnknownAuthority => None | _ => err end
  end.

Section verify.
(** [sha256.Sum256], and the chain check: [verify_chain certs name] with the DNS
    name to check, if any. *)
Context (sha256 : list byte → list byte) (verify_chain : list certificate → option string → option verify_error).

Definition spkiHashBase64 (cert : certificate) : string := EncodeToString (sha256 (RawSubjectPublicKeyInfo cert)).

Definition matchesSPKI (cert : certificate) (allowed : list string) : bool :=
  existsb (λ item, EqualFold (TrimSpace item) (spkiHashBase64 cert)) allowed.

(** The closure [buildVerifyConnection] returns: [None] is acceptance. *)
Definition verify_connection (realName : string) (cfg : CertVerifyConfig) (peers : list certificate) : option conn_error :=
  match peers with
  | [] => Some NoPeerCertificates
  | leaf :: _ =>
      let chain name := maybeIgnoreUnknownAuthority (verify_chain peers name) cfg in
      let then_check name (ok : bool) (e : conn_error) :=
        match chain name with
        | Some err => Some (ChainError err)
        | None => if ok then None else Some e
        end in
      let mode := cv_Mode cfg in
      if bool_decide (mode = "strict_real") then ChainError <$> chain (Some realName)
      else if bool_decide (mode = "chain_only") then ChainError <$> chain None
      else if bool_decide (mode = "allow_names")
      then then_check None (matchesAllowedNames leaf (cv_Names cfg)) NamesMismatch
      else if bool_decide (mode = "allow_suffixes")
      then then_check None (matchesAllowedSuffixes leaf (cv_Suffixes cfg)) SuffixesMismatch
      else if bool_decide (mode = "allow_spki")
      then then_check None (matchesSPKI leaf (cv_SPKISHA256 cfg)) (SPKIMismatch (spkiHashBase64 leaf))
      else Some (UnknownMode mode)
  end.

(** [nil] when the mode is empty: the TLS library's own policy applies. *)
Definition buildVerifyConnection (realName : string) (cfg : CertVerifyConfig)
    : option (list certificate → option conn_error) :=
  let cfg := normalizeCertVerifyConfig cfg realName in
  if bool_decide (cv_Mode cfg = "") then None else Some (verify_connection realName cfg).

(** * What acceptance means *)

Definition chain_trusted (cfg : CertVerifyConfig) (peers : list certificate) (name : option string) : Prop :=
  verify_chain peers name = None ∨
  cv_AllowUnknownAuthority cfg = true ∧ verify_chain peers name = Some UnknownAuthority.

(** A name under a wildcard, at any depth. *)
Definition covers (c h : string) : Prop :=
  norm c ≠ "" ∧ norm h ≠ "" ∧
  (norm c = norm h ∨ ∃ base x, norm c = "*." +:+ base ∧ norm h = x +:+ "." +:+ base).

Definition leaf_allowed (cfg : CertVerifyConfig) (leaf : certificate) : Prop :=
  let mode := cv_Mode cfg in
  (mode = "allow_names" ∧ ∃ n c, n ∈ cv_Names cfg ∧ c ∈ certNames leaf ∧ (covers c n ∨ covers n c)) ∨
  (mode = "allow_suffixes" ∧ ∃ s c, s ∈ cv_Suffixes cfg ∧ norm s ≠ "" ∧ c ∈ certNames leaf ∧
     (HasSuffix c (norm s) = true ∨ ∃ base, c = "*" +:+ base ∧ HasPrefix base "." = true ∧ HasSuffix base (norm s) = true)) ∨
  (mode = "allow_spki" ∧ ∃ k, k ∈ cv_SPKISHA256 cfg ∧ EqualFold (TrimSpace k) (spkiHashBase64 leaf) = true) ∨
  mode = "chain_only" ∨ mode = "strict_real".

(** * Lemmas *)

Lemma count_byte_app c s t : count_byte c (s +:+ t) = count_byte c s + count_byte c t.
Proof.
  induction s as [|d s IH]; rewrite ?str_app_empty, ?str_app_cons; cbn [count_byte]; [done|].
  rewrite IH. lia.
Qed.

Lemma dnsMatch_covers c h : dnsMatch c h = true ↔ covers c h.
Proof.
  unfold dnsMatch, covers. destruct (bool_decide_reflect (norm c = "")); [simpl; split; [done|tauto]|].
  destruct (bool_decide_reflect (norm h = "")); [simpl; split; [done|tauto]|]. cbn [orb].
  destruct (bool_decide_reflect (norm c = norm h)); [tauto|]. split.
  - destruct (HasPrefix (norm c) "*.") eqn:Hp; [|done]. apply HasPrefix_spec in Hp as [base Hb].
    rewrite Hb, TrimPrefix_app. intros [Hs _]%andb_prop. apply HasSuffix_spec in Hs as [x Hx]. split_and!; [done..|].
    right. eauto.
  - intros (_ & _ & [?|(base & x & Hc & Hh)]); [done|]. rewrite Hc, Hh.
    assert (HasPrefix ("*." +:+ base) "*." = true) as -> by (apply HasPrefix_spec; eauto).
    rewrite TrimPrefix_app. apply andb_true_intro. split; [apply HasSuffix_spec; eauto|].
    rewrite !count_byte_app. apply Nat.leb_le. change (count_byte dot ".") with 1. lia.
Qed.

Lemma maybeIgnore_None cfg peers name :
  maybeIgnoreUnknownAuthority (verify_chain peers name) cfg = None ↔ chain_trusted cfg peers name.
Proof.
  unfold maybeIgnoreUnknownAuthority, chain_trusted. destruct (verify_chain peers name) as [[|m]|]; [| |naive_solver].
  - destruct (cv_AllowUnknownAuthority cfg); simpl; naive_solver.
  - destruct (cv_AllowUnknownAuthority cfg); simpl; naive_solver.
Qed.

Lemma existsb_elem {A} (p : A → bool) l : existsb p l = true ↔ ∃ x, x ∈ l ∧ p x = true.
Proof. rewrite existsb_exists. by setoid_rewrite list_elem_of_In. Qed.

Lemma elem_certNames cert c : c ∈ certNames cert → norm c = c ∧ c ≠ "".
Proof.
  unfold certNames. rewrite elem_of_dedup, elem_of_filter_bool, nonempty_true. intros [Hin Hne].
  apply list_elem_of_fmap in Hin as (x & -> & _). split; [apply norm_idemp|done].
Qed.

Lemma ToLower_of_norm c : norm c = c → ToLower c = c.
Proof. intros <-. apply ToLower_norm. Qed.

Lemma HasSuffix_refl s : HasSuffix s s = true.
Proof. apply HasSuffix_spec. by exists "". Qed.

Lemma suffix_match_spec c s :
  norm c = c →
  suffix_match c s = true ↔
  HasSuffix c s = true ∨ ∃ base, c = "*" +:+ base ∧ HasPrefix base "." = true ∧ HasSuffix base s = true.
Proof.
  intros Hc. unfold suffix_match. rewrite (ToLower_of_norm c Hc).
  destruct (bool_decide_reflect (c = s)) as [->|]; cbn [orb]; [by rewrite HasSuffix_refl; tauto|].
  destruct (HasSuffix c s); [tauto|]. destruct (HasPrefix c "*.") eqn:Hp.
  - apply HasPrefix_spec in Hp as [t ->]. change ("*." +:+ t) with ("*" +:+ String dot t). rewrite TrimPrefix_app.
    split.
    + intros H. right. exists (String dot t). split; [done|]. split; [done|].
      destruct (bool_decide_reflect (String dot t = s)) as [<-|]; [apply HasSuffix_refl|exact H].
    + intros [?|(base & Hb & _ & Hs)]; [done|]. assert (base = String dot t) as -> by (injection Hb as Hb; symmetry; exact Hb). rewrite Hs. apply orb_true_r.
  - split; [done|]. intros [?|(base & -> & Hb & _)]; [done|]. apply HasPrefix_spec in Hb as [t ->]. discriminate Hp.
Qed.

Lemma matchesAllowedNames_spec leaf names :
  matchesAllowedNames leaf names = true ↔ ∃ n c, n ∈ names ∧ c ∈ certNames leaf ∧ (covers c n ∨ covers n c).
Proof.
  unfold matchesAllowedNames. rewrite existsb_elem. setoid_rewrite <- dnsMatch_covers.
  assert (Hnorm : ∀ a b, dnsMatch a (norm b) = dnsMatch a b ∧ dnsMatch (norm a) b = dnsMatch a b).
  { intros a b. unfold dnsMatch. by rewrite !norm_idemp. }
  split.
  - intros (n & Hn & H). case_bool_decide; [done|]. apply existsb_elem in H as (c & Hc & H).
    destruct (Hnorm c n) as [E1 _], (Hnorm n c) as [_ E2]. rewrite E1, E2 in H. apply orb_true_iff in H. eauto.
  - intros (n & c & Hn & Hc & H). exists n. split; [done|]. rewrite bool_decide_false.
    + apply existsb_elem. exists c. split; [done|]. destruct (Hnorm c n) as [-> _], (Hnorm n c) as [_ ->].
      by apply orb_true_iff.
    + intros E. rewrite !dnsMatch_covers in H. destruct H as [(_ & ? & _)|(? & _)]; done.
Qed.

Lemma matchesAllowedSuffixes_spec leaf suffixes :
  matchesAllowedSuffixes leaf suffixes = true ↔
  ∃ s c, s ∈ suffixes ∧ norm s ≠ "" ∧ c ∈ certNames leaf ∧
     (HasSuffix c (norm s) = true ∨ ∃ base, c = "*" +:+ base ∧ HasPrefix base "." = true ∧ HasSuffix base (norm s) = true).
Proof.
  unfold matchesAllowedSuffixes. rewrite existsb_elem. split.
  - intros (s & Hs & H). case_bool_decide; [done|]. apply existsb_elem in H as (c & Hc & H).
    rewrite suffix_match_spec in H by (by apply (elem_certNames leaf)). eauto 7.
  - intros (s & c & Hs & Hne & Hc & H). exists s. split; [done|]. rewrite bool_decide_false by done.
    apply existsb_elem. exists c. split; [done|]. rewrite suffix_match_spec by (by apply (elem_certNames leaf)). done.
Qed.

Lemma then_check_None (o : option verify_error) (ok : bool) e :
  match o with Some err => Some (ChainError err) | None => if ok then None else Some e end = None ↔ o = None ∧ ok = true.
Proof. destruct o; [naive_solver|]. destruct ok; naive_solver. Qed.

Lemma chain_only_None (o : option verify_error) : ChainError <$> o = None ↔ o = None.
Proof. destruct o; naive_solver. Qed.

(** * Properties *)

(** C20: the verification accepts a connection exactly when there is a leaf, its chain
    is trusted (an unknown authority counts only if the configuration allows it; the
    real name is checked only by "strict_real"), and the leaf meets the mode's
    condition on names, suffixes or key digest; an unknown mode accepts nothing. *)
Theorem verify_accepts_iff realName cfg peers :
  verify_connection realName cfg peers = None ↔
  ∃ leaf rest, peers = leaf :: rest ∧
    chain_trusted cfg peers (if decide (cv_Mode cfg = "strict_real") then Some realName else None) ∧
    leaf_allowed cfg leaf.
Proof.
  unfold verify_connection. destruct peers as [|leaf rest]; [split; [done|naive_solver]|].
  transitivity (chain_trusted cfg (leaf :: rest) (if decide (cv_Mode cfg = "strict_real") then Some realName else None)
    ∧ leaf_allowed cfg leaf); [|naive_solver].
  unfold leaf_allowed. rewrite <- (matchesAllowedNames_spec leaf), <- (matchesAllowedSuffixes_spec leaf).
  rewrite <- (existsb_elem (λ k, EqualFold (TrimSpace k) (spkiHashBase64 leaf)) (cv_SPKISHA256 cfg)).
  fold (matchesSPKI leaf (cv_SPKISHA256 cfg)).
  rewrite <- (maybeIgnore_None cfg (leaf :: rest)).
  destruct (decide (cv_Mode cfg = "strict_real")) as [->|Hs]; [simpl; rewrite chain_only_None; naive_solver|].
  rewrite (bool_decide_eq_false_2 _ Hs).
  destruct (bool_decide_reflect (cv_Mode cfg = "chain_only")) as [->|]; [rewrite chain_only_None; naive_solver|].
  destruct (bool_decide_reflect (cv_Mode cfg = "allow_names")) as [->|]; [rewrite then_check_None; naive_solver|].
  destruct (bool_decide_reflect (cv_Mode cfg = "allow_suffixes")) as [->|]; [rewrite then_check_None; naive_solver|].
  destruct (bool_decide_reflect (cv_Mode cfg = "allow_spki")) as [->|]; [rewrite then_check_None; naive_solver|].
  split; [done|]. naive_solver.
Qed.

(** An allowed suffix is matched without a label boundary: a trusted certificate
    for any other domain that merely ends in the same letters is accepted. *)
Theorem suffix_without_boundary realName suffix prefix spki rest :
  norm suffix = suffix → suffix ≠ "" → norm (prefix +:+ suffix) = prefix +:+ suffix →
  let cert := mkCert "" [prefix +:+ suffix] spki in
  let cfg := mkCertVerifyConfig "allow_suffixes" [] [suffix] [] false in
  verify_chain (cert :: rest) None = None →
  verify_connection realName cfg (cert :: rest) = None.
Proof.
  intros Hn Hne Hp cert cfg Hv. unfold verify_connection. simpl (cv_Mode cfg).
  repeat (rewrite bool_decide_false by done). rewrite bool_decide_true by done.
  unfold maybeIgnoreUnknownAuthority. rewrite Hv.
  assert (matchesAllowedSuffixes cert (cv_Suffixes cfg) = true) as ->; [|done].
  apply matchesAllowedSuffixes_spec. exists suffix, (prefix +:+ suffix). rewrite Hn. split_and!; [left|done| |].
  - unfold certNames. rewrite elem_of_dedup, elem_of_filter_bool, nonempty_true. split.
    + rewrite !fmap_cons. simpl. rewrite Hp. set_solver.
    + intros E. destruct prefix; [by rewrite str_app_empty in E|done].
  - left. apply HasSuffix_spec. by exists prefix.
Qed.
End verify.

Definition zero_digest : list byte := replicate 32 x00.
Definition other_digest : list byte := [x69; xa6; x9a] ++ replicate 29 x00.

(** Pins are compared without regard to case, though base64 is case sensitive:
    there are two different key digests such that a pin on one accepts a certificate
    with the other. *)
Theorem spki_pin_case_collision :
  ∃ d1 d2 : list byte, d1 ≠ d2 ∧ length d1 = 32 ∧ length d2 = 32 ∧
    ∀ sha256 verify_chain cert, sha256 (RawSubjectPublicKeyInfo cert) = d2 → verify_chain [cert] None = None →
      verify_connection sha256 verify_chain "" (mkCertVerifyConfig "allow_spki" [] [] [EncodeToString d1] false) [cert] = None.
Proof.
  exists zero_digest, other_digest. split_and!; [discriminate|reflexivity..|].
  intros sha256 verify_chain cert Hs Hv. unfold verify_connection, maybeIgnoreUnknownAuthority, matchesSPKI, spkiHashBase64.
  rewrite Hs, Hv. vm_compute. reflexivity.
Qed.

(** A wildcard name covers subdomains of every depth. *)
Lemma wildcard_any_depth base x :
  norm ("*." +:+ base) = "*." +:+ base → norm (x +:+ "." +:+ base) = x +:+ "." +:+ base →
  dnsMatch ("*." +:+ base) (x +:+ "." +:+ base) = true.
Proof.
  intros H1 H2. apply dnsMatch_covers. unfold covers. rewrite H1, H2. split_and!; [done| |right; eauto].
  destruct x; [by rewrite str_app_empty|done].
Qed.

Lemma suffix_without_boundary_witness :
  verify_connection (λ b, b) (λ _ _, None) "www.google.com" (mkCertVerifyConfig "allow_suffixes" [] ["google.com"] [] false)
    [mkCert "" ["evilgoogle.com"] []] = None.
Proof. exact (suffix_without_boundary (λ b, b) (λ _ _, None) "www.google.com" "google.com" "evil" [] [] eq_refl ltac:(discriminate) eq_refl eq_refl). Defined.
