(* ===== verification/Socks5.v ===== *)
(** The SOCKS5 front end of [proxy/proxy.go]: [handleSOCKS5], [socksRelay],
    [socksGASRelayDirect], [socksDirect] and [socksTunnel].

    The bytes the client sends before it closes, or before its deadline, are a
    list; a read that cannot be served from it fails.  Writes to the client are
    fire and forget, as in the code.  The outcomes of dials, of the CONNECT to the
    GAS proxy and of the TLS handshake are an environment.  A panic ends the process:
    the handler runs in a goroutine of its own that recovers nothing. *)

From Stdlib Require Import Strings.Byte.
From S2P Require Import Prelude GoStrings GoNet GoBytes.

Open Scope Z_scope.

(** * Reading and writing the client connection *)

Section conn.
Context {A B : Type}.

(** A computation on the client connection: it consumes input and produces
    writes; [None] is an early [return]. *)
Definition conn (R : Type) : Type := list byte → list (list byte) * option (R * list byte).

Definition conn_ret (a : A) : conn A := λ s, ([], Some (a, s)).

Definition conn_bind (m : conn A) (k : A → conn B) : conn B := λ s,
  match m s with
  | (w, None) => (w, None)
  | (w, Some (a, s')) => let '(w', r) := k a s' in (w ++ w', r)
  end.

(** [return] out of the handler. *)
Definition hang_up : conn A := λ _, ([], None).
End conn.

(** [io.ReadFull] on a buffer of [n] bytes. *)
Definition ReadFull (n : nat) : conn (list byte) := λ s,
  if (n <=? length s)%nat then ([], Some (take n s, drop n s)) else ([], None).

Definition Write_client (data : list byte) : conn unit := λ s, ([data], Some (tt, s)).

Notation "x <- m ;;; k" := (conn_bind m (fun x => k))
  (at level 100, m at next level, right associativity).
Notation "m ;;; k" := (conn_bind m (fun _ => k)) (at level 100, right associativity).

(** * handleSOCKS5 *)

Definition reply_method : list byte := [x05; x00].
Definition reply (code : byte) : list byte := [x05; code; x00; x01; x00; x00; x00; x00; x00; x00].

(** [buf[i]]; every buffer is indexed within the length it was made with. *)
Definition nth_byte (l : list byte) (i : nat) : Z := bval (default x00 (l !! i)).

(** The address part: IPv4, domain name or IPv6. *)
Definition read_host (addrType : Z) : conn string :=
  if addrType =? 1 then
    ip <- ReadFull 4 ;;; conn_ret (IP_String (bval <$> ip))
  else if addrType =? 3 then
    ln <- ReadFull 1 ;;;
    name <- ReadFull (Z.to_nat (nth_byte ln 0)) ;;;
    conn_ret (String.string_of_list_byte name)
  else if addrType =? 4 then
    ip <- ReadFull 16 ;;; conn_ret (IP_String (bval <$> ip))
  else
    Write_client (reply x08) ;;; hang_up.

(** From the greeting to the success reply. *)
Definition socks_handshake : conn (string * Z) :=
  buf <- ReadFull 2 ;;;
  if negb (nth_byte buf 0 =? 5) then hang_up
  else
    ReadFull (Z.to_nat (nth_byte buf 1)) ;;;
    Write_client reply_method ;;;
    request <- ReadFull 4 ;;;
    if negb (nth_byte request 0 =? 5) || negb (nth_byte request 1 =? 1) then
      Write_client (reply x07) ;;; hang_up
    else
      host <- read_host (nth_byte request 3) ;;;
      portBuf <- ReadFull 2 ;;;
      let port := Z.lor (Z.shiftl (nth_byte portBuf 0) 8) (nth_byte portBuf 1) in
      Write_client (reply x00) ;;;
      conn_ret (host, port).

(** * Relaying *)

(** [p.certGenerator] and what comes of it: nil; an interface that holds a nil manager, whose
    [GetCACert] dereferences it; a manager without an authority; one whose certificate for
    the host cannot be made; one with the certificate. *)
Inductive mitm_authority := GenNone | GenNilManager | GenNoCA | GenFails | GenReady.

(** What the network and the certificate generator answer. *)
Record socks_env := mkSocksEnv {
  gasRelay : bool;                 (** [p.gasRelay != nil] *)
  gasDialAddr : string;
  gas_dial_ok : bool;
  gas_write_ok : bool;
  gas_status : option Z;           (** [http.ReadResponse]: an error or a status *)
  authority : mitm_authority;
  handshake_ok : bool;             (** the TLS handshake with the client *)
  handshake_reads : nat;           (** how many of the client's bytes a failed one has read *)
  direct_dial_ok : string → bool;
}.

Inductive socks_event :=
  | SockWrite (data : list byte)
  | SockDialGAS (ok : bool)
  | SockRequestGAS (request : string)
  | SockDialDirect (target : string) (ok : bool)
  | SockTunnelGAS (rest : list byte)                       (** with what is left of the client's bytes *)
  | SockTunnelDirect (target : string) (rest : list byte)
  | SockMITM (host : string) (port : Z)
  | SockPanic                                              (** the deferred closes still run *)
  | SockCloseGAS
  | SockCloseDirect
  | SockCloseClient.

(** [socksTunnel] closes both ends itself once either copy ends. *)
Definition socksTunnel (tunnel close_upstream : socks_event) : list socks_event :=
  [tunnel; SockCloseClient; close_upstream].

Definition socksDirect (e : socks_env) (host : string) (port : Z) (rest : list byte) : list socks_event :=
  let target := JoinHostPort host (Itoa port) in
  if direct_dial_ok e target
  then SockDialDirect target true :: socksTunnel (SockTunnelDirect target rest) SockCloseDirect ++ [SockCloseDirect]
  else [SockDialDirect target false].

Definition socksGASRelayDirect (e : socks_env) (host : string) (port : Z) (rest : list byte) : list socks_event :=
  (if port =? 443 then
     match authority e with
     | GenNilManager => [SockPanic]
     | GenNone | GenNoCA | GenFails => socksDirect e host port rest
     | GenReady =>
         if negb (handshake_ok e) then socksDirect e host port (drop (handshake_reads e) rest)
         else [SockMITM host port]
     end
   else socksDirect e host port rest) ++ [SockCloseClient].

Definition crlf : string := String "013" (String "010" "").

Definition connect_request (host : string) (port : Z) : string :=
  "CONNECT " +:+ JoinHostPort host (Itoa port) +:+ " HTTP/1.1" +:+ crlf +:+
  "Host: " +:+ host +:+ crlf +:+ crlf.

Definition socksRelay (e : socks_env) (host : string) (port : Z) (rest : list byte) : list socks_event :=
  if gasRelay e then socksGASRelayDirect e host port rest
  else if negb (nonempty (gasDialAddr e)) then socksDirect e host port rest
  else if negb (gas_dial_ok e) then SockDialGAS false :: socksDirect e host port rest
  else
    SockDialGAS true ::
    (if negb (gas_write_ok e) then socksDirect e host port rest
     else
       SockRequestGAS (connect_request host port) ::
       match gas_status e with
       | Some status => if status =? 200 then socksTunnel (SockTunnelGAS rest) SockCloseGAS else socksDirect e host port rest
       | None => socksDirect e host port rest
       end) ++ [SockCloseGAS].

Definition handleSOCKS5 (e : socks_env) (input : list byte) : list socks_event :=
  let '(writes, r) := socks_handshake input in
  match r with
  | None => (SockWrite <$> writes) ++ [SockCloseClient]
  | Some ((host, port), rest) => (SockWrite <$> writes) ++ socksRelay e host port rest ++ [SockCloseClient]
  end.

(** * Well-formed requests *)

Inductive socks_dest := Dest4 (ip : list byte) | DestName (name : list byte) | Dest6 (ip : list byte).

Record socks_request := mkSocksRequest {
  sq_methods : list byte;
  sq_rsv : byte;
  sq_dest : socks_dest;
  sq_port : Z;
}.

Definition dest_wf (d : socks_dest) : Prop :=
  match d with Dest4 ip => length ip = 4%nat | DestName name => blen name < 256 | Dest6 ip => length ip = 16%nat end.

Definition request_wf (q : socks_request) : Prop :=
  blen (sq_methods q) < 256 ∧ dest_wf (sq_dest q) ∧ 0 <= sq_port q < 65536.

Definition encode_dest (d : socks_dest) : list byte :=
  match d with
  | Dest4 ip => x01 :: ip
  | DestName name => x03 :: byte_of (blen name) :: name
  | Dest6 ip => x04 :: ip
  end.

Definition dest_host (d : socks_dest) : string :=
  match d with
  | Dest4 ip | Dest6 ip => IP_String (bval <$> ip)
  | DestName name => String.string_of_list_byte name
  end.

(** The greeting and the CONNECT request, as RFC 1928 lays them out. *)
Definition encode_request (q : socks_request) : list byte :=
  [x05; byte_of (blen (sq_methods q))] ++ sq_methods q ++
  [x05; x01; sq_rsv q] ++ encode_dest (sq_dest q) ++ put16 (sq_port q).

(** * Lemmas *)

Lemma conn_bind_Some {A B} (m : conn A) (k : A → conn B) s w b s' :
  conn_bind m k s = (w, Some (b, s')) ↔
  ∃ w1 a s1 w2, m s = (w1, Some (a, s1)) ∧ k a s1 = (w2, Some (b, s')) ∧ w = w1 ++ w2.
Proof.
  unfold conn_bind. destruct (m s) as [w1 [[a s1]|]]; [|by split; [|intros (?&?&?&?&?&_)]].
  destruct (k a s1) as [w2 r] eqn:E. split.
  - intros [= <- ->]. by exists w1, a, s1, w2.
  - intros (w1' & a' & s1' & w2' & [= <- <- <-] & E' & ->). rewrite E in E'. by injection E' as -> ->.
Qed.

Lemma ReadFull_Some n s w l s' :
  ReadFull n s = (w, Some (l, s')) ↔ w = [] ∧ s = l ++ s' ∧ length l = n.
Proof.
  unfold ReadFull. destruct (Nat.leb_spec n (length s)) as [Hle|Hlt]; split.
  - intros [= <- <- <-]. split; [done|]. by rewrite take_drop, length_take_le.
  - intros (-> & -> & <-). by rewrite take_app_length, drop_app_length.
  - done.
  - intros (_ & -> & <-). rewrite length_app in Hlt. lia.
Qed.

Lemma ReadFull_app n l s : length l = n → ReadFull n (l ++ s) = ([], Some (l, s)).
Proof. intros H. by apply ReadFull_Some. Qed.

Lemma Write_client_Some d s w u s' : Write_client d s = (w, Some (u, s')) ↔ w = [d] ∧ s' = s.
Proof. unfold Write_client. destruct u. split; [by intros [= <- <-]|by intros [-> ->]]. Qed.

Lemma conn_ret_Some {A} (a b : A) s w s' : conn_ret a s = (w, Some (b, s')) ↔ w = [] ∧ b = a ∧ s' = s.
Proof. unfold conn_ret. split; [by intros [= <- <- <-]|by intros (-> & -> & ->)]. Qed.

Lemma bval_inj b c : bval b = bval c → b = c.
Proof.
  unfold bval. intros H%N2Z.inj. pose proof (Byte.of_to_N b) as Hb. pose proof (Byte.of_to_N c) as Hc. congruence.
Qed.

Lemma put16_of_be16 a b : put16 (be16 a b) = [a; b].
Proof.
  destruct (be16_put16 (be16 a b) (be16_range a b)) as (hi & lo & Hp & Hv).
  rewrite Hp.
  rewrite !be16_val in Hv. pose proof (bval_range a). pose proof (bval_range b).
  pose proof (bval_range hi). pose proof (bval_range lo). f_equal; [|f_equal]; apply bval_inj; lia.
Qed.

Lemma nth_byte_cons b l : nth_byte (b :: l) 0 = bval b.
Proof. done. Qed.

Lemma length_byte_inv l n : Z.to_nat (bval n) = length l → n = byte_of (blen l) ∧ blen l < 256.
Proof.
  intros H. pose proof (bval_range n). assert (blen l = bval n) as -> by (unfold blen; lia).
  rewrite byte_of_bval. split; [done|lia].
Qed.

Lemma bval_byte_of_blen l : blen l < 256 → Z.to_nat (bval (byte_of (blen l))) = length l.
Proof.
  intros H. pose proof (blen_nonneg l). rewrite bval_byte_of, Z.mod_small by lia. unfold blen. lia.
Qed.

(** Inverts the reads and writes of a successful run, one bind at a time. *)
Ltac conn_inv :=
  repeat match goal with
  | H : conn_bind _ _ _ = (_, Some _) |- _ => apply conn_bind_Some in H as (? & ? & ? & ? & ? & ? & ?)
  | H : ReadFull _ _ = (_, Some _) |- _ => apply ReadFull_Some in H as (? & ? & ?)
  | H : Write_client _ _ = (_, Some _) |- _ => apply Write_client_Some in H as (? & ?)
  | H : conn_ret _ _ = (_, Some _) |- _ => apply conn_ret_Some in H as (? & ? & ?)
  | H : hang_up _ = (_, Some _) |- _ => discriminate H
  end; subst.

(** Two bytes read are the two bytes; a list of length one, two or four is listed. *)
Lemma length_1_inv (l : list byte) : length l = 1%nat → ∃ a, l = [a].
Proof. destruct l as [|a [|]]; naive_solver. Qed.

Lemma length_2_inv (l : list byte) : length l = 2%nat → ∃ a b, l = [a; b].
Proof. destruct l as [|a [|b [|]]]; naive_solver. Qed.

Lemma length_4_inv (l : list byte) : length l = 4%nat → ∃ a b c d, l = [a; b; c; d].
Proof. destruct l as [|a [|b [|c [|d [|]]]]]; naive_solver. Qed.

(** The address type on the wire and the address that follows it. *)
Lemma read_host_Some t s w h s' :
  read_host (bval t) s = (w, Some (h, s')) ↔
  ∃ d, dest_wf d ∧ t :: s = encode_dest d ++ s' ∧ h = dest_host d ∧ w = [].
Proof.
  unfold read_host. split.
  - destruct (Z.eqb_spec (bval t) 1) as [->%(bval_inj t x01)|].
    { intros H. conn_inv. match goal with L : length ?l = _ |- _ => by exists (Dest4 l) end. }
    destruct (Z.eqb_spec (bval t) 3) as [->%(bval_inj t x03)|].
    { intros H. conn_inv. match goal with L : length ?l = 1%nat, L' : length ?name = _ |- _ =>
        apply length_1_inv in L as [ln ->]; rewrite nth_byte_cons in L';
        destruct (length_byte_inv name ln (eq_sym L')) as [-> ?]; by exists (DestName name) end. }
    destruct (Z.eqb_spec (bval t) 4) as [->%(bval_inj t x04)|]; intros H; conn_inv.
    match goal with L : length ?l = _ |- _ => by exists (Dest6 l) end.
  - intros ([ip|name|ip] & Hwf & E & -> & ->); simpl in Hwf, E; injection E as -> ->; simpl;
      unfold conn_bind; rewrite ?ReadFull_app by done; [done| |done].
    change (byte_of (blen name) :: name ++ s') with ([byte_of (blen name)] ++ name ++ s').
    rewrite ReadFull_app by done. rewrite nth_byte_cons, bval_byte_of_blen by done. by rewrite ReadFull_app.
Qed.

Lemma negb_eqb_false a b : negb (a =? b) = false ↔ a = b.
Proof. rewrite negb_false_iff. apply Z.eqb_eq. Qed.

(** The bytes after the method reply. *)
Definition socks_request_bytes (q : socks_request) : list byte :=
  [x05; x01; sq_rsv q] ++ encode_dest (sq_dest q) ++ put16 (sq_port q).

Lemma socks_handshake_parses s w host port rest :
  socks_handshake s = (w, Some ((host, port), rest)) →
  ∃ q, request_wf q ∧ s = encode_request q ++ rest ∧ host = dest_host (sq_dest q) ∧ port = sq_port q ∧
    w = [reply_method; reply x00].
Proof.
  unfold socks_handshake. intros H. apply conn_bind_Some in H as (w1 & buf & s1 & w2 & H1 & H & ->).
  apply ReadFull_Some in H1 as (-> & -> & (v & n & ->)%length_2_inv). rewrite nth_byte_cons in H.
  destruct (negb (bval v =? 5)) eqn:Ev; [conn_inv|]. apply negb_eqb_false, (bval_inj v x05) in Ev as ->.
  apply conn_bind_Some in H as (? & methods & s2 & w3 & (-> & -> & Hm)%ReadFull_Some & H & ->).
  destruct (length_byte_inv methods n (eq_sym Hm)) as [-> Hml].
  apply conn_bind_Some in H as (? & u & s3 & w4 & (-> & ->)%Write_client_Some & H & ->).
  apply conn_bind_Some in H as (? & req & s4 & w5 & (-> & -> & Hreq)%ReadFull_Some & H & ->).
  apply length_4_inv in Hreq as (v' & c & r & t & ->).
  destruct (negb (nth_byte [v'; c; r; t] 0 =? 5) || negb (nth_byte [v'; c; r; t] 1 =? 1)) eqn:Ev; [conn_inv|].
  apply orb_false_iff in Ev as [->%negb_eqb_false%(bval_inj v' x05) ->%negb_eqb_false%(bval_inj c x01)].
  apply conn_bind_Some in H as (? & h & s5 & w6 & (d & Hd & Hs & -> & ->)%(read_host_Some t) & H & ->).
  apply conn_bind_Some in H as (? & pb & s6 & w7 & (-> & -> & (p1 & p2 & ->)%length_2_inv)%ReadFull_Some & H & ->).
  apply conn_bind_Some in H as (? & u' & s7 & w8 & (-> & ->)%Write_client_Some & (-> & [= -> ->] & ->)%conn_ret_Some & ->).
  exists (mkSocksRequest methods r d (be16 p1 p2)). split; [exact (conj Hml (conj Hd (be16_range p1 p2)))|].
  split_and!; try done.
  unfold encode_request. simpl sq_methods. simpl sq_rsv. simpl sq_dest. simpl sq_port.
  rewrite put16_of_be16. simpl. do 2 f_equal. rewrite <- !app_assoc. do 4 f_equal. simpl. rewrite Hs, <- !app_assoc. done.
Qed.

Lemma conn_bind_step {A B} (m : conn A) (k : A → conn B) s w1 a s1 w2 r :
  m s = (w1, Some (a, s1)) → k a s1 = (w2, r) → conn_bind m k s = (w1 ++ w2, r).
Proof. unfold conn_bind. intros -> ->. done. Qed.

Lemma socks_handshake_encodes q rest :
  request_wf q →
  socks_handshake (encode_request q ++ rest) =
    ([reply_method; reply x00], Some ((dest_host (sq_dest q), sq_port q), rest)).
Proof.
  intros (Hm & Hd & Hp). destruct (be16_put16 (sq_port q) Hp) as (hi & lo & Hput & Hv).
  unfold encode_request. rewrite Hput, <- !app_assoc. unfold socks_handshake.
  assert (Et : ∃ t, encode_dest (sq_dest q) = t :: tail (encode_dest (sq_dest q))) by (destruct (sq_dest q); by eexists).
  destruct Et as [t Et].
  eapply (conn_bind_step _ _ _ []); [by apply ReadFull_app|]. rewrite nth_byte_cons. simpl negb. cbv iota.
  eapply (conn_bind_step _ _ _ []); [apply ReadFull_app; symmetry; by apply bval_byte_of_blen|].
  eapply (conn_bind_step _ _ _ [reply_method] tt); [done|]. rewrite Et.
  change ([x05; x01; sq_rsv q] ++ (t :: tail (encode_dest (sq_dest q))) ++ [hi; lo] ++ rest)
    with ([x05; x01; sq_rsv q; t] ++ tail (encode_dest (sq_dest q)) ++ [hi; lo] ++ rest).
  eapply (conn_bind_step _ _ _ []); [by apply ReadFull_app|]. cbv zeta.
  change (negb (nth_byte [x05; x01; sq_rsv q; t] 0 =? 5) || negb (nth_byte [x05; x01; sq_rsv q; t] 1 =? 1)) with false.
  eapply (conn_bind_step _ _ _ []).
  { apply (read_host_Some t). exists (sq_dest q). split_and!; [done| |done|done]. by rewrite Et. }
  eapply (conn_bind_step _ _ _ [] [hi; lo]); [by apply ReadFull_app|].
  eapply (conn_bind_step _ _ _ [reply x00] tt rest []); [done|]. by rewrite <- Hv.
Qed.

(** * What a connection goes through *)

(** The connections a run holds open; [None] is a misuse: dialling over an open
    connection, writing to or tunnelling on a closed one. *)
Record sock_conns := mkSockConns { client_open : bool; gas_open : bool; direct_open : bool }.

Definition guarded (b : bool) (c : sock_conns) : option sock_conns := if b then Some c else None.

Definition sock_step (c : sock_conns) (ev : socks_event) : option sock_conns :=
  match ev with
  | SockWrite _ => guarded (client_open c) c
  | SockDialGAS ok => guarded (negb (gas_open c)) (mkSockConns (client_open c) ok (direct_open c))
  | SockDialDirect _ ok => guarded (negb (direct_open c)) (mkSockConns (client_open c) (gas_open c) ok)
  | SockRequestGAS _ => guarded (gas_open c) c
  | SockTunnelGAS _ => guarded (client_open c && gas_open c) c
  | SockTunnelDirect _ _ => guarded (client_open c && direct_open c) c
  | SockMITM _ _ => guarded (client_open c) c
  | SockPanic => Some c
  | SockCloseGAS => Some (mkSockConns (client_open c) false (direct_open c))
  | SockCloseDirect => Some (mkSockConns (client_open c) (gas_open c) false)
  | SockCloseClient => Some (mkSockConns false (gas_open c) (direct_open c))
  end.

Fixpoint sock_run (c : sock_conns) (evs : list socks_event) : option sock_conns :=
  match evs with
  | [] => Some c
  | ev :: evs' => match sock_step c ev with Some c' => sock_run c' evs' | None => None end
  end.

Lemma sock_run_app c a b :
  sock_run c (a ++ b) = match sock_run c a with Some c' => sock_run c' b | None => None end.
Proof. revert c. induction a as [|ev a IH]; intros c; simpl; [done|]. destruct (sock_step c ev); auto. Qed.

Lemma sock_run_writes w g d : sock_run (mkSockConns true g d) (SockWrite <$> w) = Some (mkSockConns true g d).
Proof. induction w as [|x w IH]; simpl; [done|]. exact IH. Qed.

Lemma socksDirect_run e host port g rest :
  ∃ c, sock_run (mkSockConns true g false) (socksDirect e host port rest) = Some (mkSockConns c g false).
Proof. unfold socksDirect. destruct (direct_dial_ok e _); by eexists. Qed.

Lemma socksGASRelayDirect_run e host port rest :
  ∃ c, sock_run (mkSockConns true false false) (socksGASRelayDirect e host port rest) = Some (mkSockConns c false false).
Proof.
  unfold socksGASRelayDirect. rewrite sock_run_app.
  assert (Hd : ∀ rest, ∃ c, match sock_run (mkSockConns true false false) (socksDirect e host port rest) with
      Some c' => sock_run c' [SockCloseClient] | None => None end = Some (mkSockConns c false false)).
  { intros r. destruct (socksDirect_run e host port false r) as [c ->]. by eexists. }
  destruct (port =? 443); [|apply Hd]. destruct (authority e); try apply Hd; [by eexists|].
  destruct (negb (handshake_ok e)); [apply Hd|by eexists].
Qed.

Lemma socksRelay_run e host port rest :
  ∃ c, sock_run (mkSockConns true false false) (socksRelay e host port rest) = Some (mkSockConns c false false).
Proof.
  destruct (socksDirect_run e host port false rest) as [c0 H0]. destruct (socksDirect_run e host port true rest) as [c1 H1].
  unfold socksRelay. destruct (gasRelay e); [apply socksGASRelayDirect_run|].
  destruct (negb (nonempty _)); [by eexists|]. destruct (negb (gas_dial_ok e)); [by eexists|]. cbn [sock_run sock_step negb client_open gas_open direct_open guarded].
  rewrite sock_run_app. destruct (negb (gas_write_ok e)); [rewrite H1; by eexists|]. cbn.
  destruct (gas_status e) as [st|]; [|rewrite H1; by eexists].
  destruct (st =? 200); [by eexists|]. rewrite H1. by eexists.
Qed.

(** What [socksRelay] dials directly is the requested address. *)
Lemma socksDirect_target e host port rest t ok :
  SockDialDirect t ok ∈ socksDirect e host port rest → t = JoinHostPort host (Itoa port).
Proof.
  unfold socksDirect. destruct (direct_dial_ok e _); simpl; rewrite ?elem_of_cons, ?elem_of_nil; naive_solver.
Qed.

Lemma socksRelay_target e host port rest t ok :
  SockDialDirect t ok ∈ socksRelay e host port rest → t = JoinHostPort host (Itoa port).
Proof.
  pose proof (λ rest, socksDirect_target e host port rest t ok).
  unfold socksRelay, socksGASRelayDirect; intros Hin;
    repeat case_match; set_solver.
Qed.

(** * Properties *)

(** What becomes of a request: the events after which nothing more is tried. *)
Definition final (ev : socks_event) : bool :=
  match ev with SockTunnelGAS _ | SockTunnelDirect _ _ | SockMITM _ _ | SockPanic | SockDialDirect _ false => true | _ => false end.

Definition through_gas (e : socks_env) : bool :=
  nonempty (gasDialAddr e) && gas_dial_ok e && gas_write_ok e && bool_decide (gas_status e = Some 200).

(** With the relay a request to port 443 is intercepted if the authority and the client agree;
    other requests go through the GAS proxy if there is no relay and the proxy accepts them;
    all the rest directly to the address requested. *)
Definition served (e : socks_env) (host : string) (port : Z) (rest : list byte) : socks_event :=
  let target := JoinHostPort host (Itoa port) in
  let direct rest := if direct_dial_ok e target then SockTunnelDirect target rest else SockDialDirect target false in
  if gasRelay e && (port =? 443) then
    match authority e with
    | GenReady => if handshake_ok e then SockMITM host port else direct (drop (handshake_reads e) rest)
    | GenNilManager => SockPanic
    | _ => direct rest
    end
  else if negb (gasRelay e) && through_gas e then SockTunnelGAS rest
  else direct rest.

Lemma final_direct e host port rest :
  List.filter final (socksDirect e host port rest) =
    [if direct_dial_ok e (JoinHostPort host (Itoa port)) then SockTunnelDirect (JoinHostPort host (Itoa port)) rest
     else SockDialDirect (JoinHostPort host (Itoa port)) false].
Proof. unfold socksDirect. by destruct (direct_dial_ok e _). Qed.

Lemma final_relay e host port rest : List.filter final (socksRelay e host port rest) = [served e host port rest].
Proof.
  unfold socksRelay, served, through_gas. destruct (gasRelay e); cbn [negb andb].
  - unfold socksGASRelayDirect. rewrite List.filter_app, app_nil_r. destruct (port =? 443); [|apply final_direct].
    destruct (authority e); try apply final_direct; [done|]. destruct (handshake_ok e); [done|apply final_direct].
  - destruct (nonempty (gasDialAddr e)); cbn [negb andb]; [|apply final_direct]. destruct (gas_dial_ok e); cbn [negb andb]; [|apply final_direct].
    cbn [List.filter final]. rewrite List.filter_app, app_nil_r. destruct (gas_write_ok e); cbn [negb andb]; [|apply final_direct].
    cbn [List.filter final]. destruct (gas_status e) as [st|]; [|by rewrite final_direct, bool_decide_false].
    destruct (Z.eqb_spec st 200) as [->|Hne]; [by rewrite bool_decide_true|]. rewrite final_direct, bool_decide_false by congruence. done.
Qed.

(** C23: The SOCKS5 handler serves exactly the well-formed requests.  If the input begins with a
    greeting and a CONNECT request as RFC 1928 lays them out, the handler answers both and
    exactly one thing becomes of the request: with the relay, port 443 is intercepted under the
    host requested; without it, the GAS proxy is asked for that host and port if it can be
    reached, and the tunnel through it gets all the bytes after the request; otherwise the
    address requested is dialled, and the tunnel to it gets the bytes after the request, all
    but those a failed TLS handshake has read.  The exception is a certificate manager that
    could not be made: a request to port 443 then panics and ends the process.  On any other
    input the handler only replies and closes the client. *)
Theorem socks_serves_requests e input :
  (∀ q rest, request_wf q → input = encode_request q ++ rest →
     let host := dest_host (sq_dest q) in
     ∃ evs, handleSOCKS5 e input = SockWrite reply_method :: SockWrite (reply x00) :: evs ∧
       List.filter final evs = [served e host (sq_port q) rest] ∧
       ∀ r, SockRequestGAS r ∈ evs → r = connect_request host (sq_port q)) ∧
  ((¬ ∃ q rest, request_wf q ∧ input = encode_request q ++ rest) →
     ∃ replies, handleSOCKS5 e input = (SockWrite <$> replies) ++ [SockCloseClient]).
Proof.
  split.
  - intros q rest Hq -> host. exists (socksRelay e host (sq_port q) rest ++ [SockCloseClient]). split_and!.
    + unfold handleSOCKS5. by rewrite socks_handshake_encodes.
    + by rewrite List.filter_app, final_relay.
    + intros r. unfold socksRelay, socksGASRelayDirect, socksDirect. intros Hin. repeat case_match; set_solver.
  - intros Hno. unfold handleSOCKS5. destruct (socks_handshake input) as [w [[[host port] rest]|]] eqn:E; [|by eexists].
    apply socks_handshake_parses in E as (q & Hq & -> & _). destruct Hno. eauto.
Qed.

(** Whatever the client sends and the network answers, the handler uses its
    connections safely: it never writes to or tunnels on a closed connection, never
    dials over an open one, and ends with every connection closed; a direct dial is
    to the requested host and port and nowhere else. *)
Theorem socks_connections_safe e input :
  sock_run (mkSockConns true false false) (handleSOCKS5 e input) = Some (mkSockConns false false false) ∧
  ∀ t ok, SockDialDirect t ok ∈ handleSOCKS5 e input →
    ∃ q rest, request_wf q ∧ input = encode_request q ++ rest ∧ t = JoinHostPort (dest_host (sq_dest q)) (Itoa (sq_port q)).
Proof.
  unfold handleSOCKS5. destruct (socks_handshake input) as [w [[[host port] rest]|]] eqn:E.
  - apply socks_handshake_parses in E as (q & Hq & -> & -> & -> & ->). split.
    + destruct (socksRelay_run e (dest_host (sq_dest q)) (sq_port q) rest) as [c Hc].
      cbn -[socksRelay]. by rewrite sock_run_app, Hc.
    + intros t ok Hin. exists q, rest. split_and!; [done..|]. apply (socksRelay_target e _ _ rest t ok).
      simpl in Hin. rewrite !elem_of_cons, elem_of_app, elem_of_cons, elem_of_nil in Hin. naive_solver.
  - split; [by rewrite sock_run_app, sock_run_writes|].
    intros t ok [(x & ? & _)%list_elem_of_fmap|Hin]%elem_of_app; [done|].
    rewrite elem_of_cons, elem_of_nil in Hin. naive_solver.
Qed.

(** With the relay, a client that trusts nothing sends eight bytes of a handshake that fails. *)
Definition distrusted_env : socks_env := mkSocksEnv true "" false false None GenReady false 8 (λ _, true).

(** A request for "a.co" on port 443, followed by ten bytes. *)
Definition demo_request : socks_request := mkSocksRequest [x00] x00 (DestName [x61; x2e; x63; x6f]) 443.

Definition hello_bytes : list byte := [x16; x03; x01; x00; x03; x01; x00; x00; x47; x48].

Lemma demo_request_wf : request_wf demo_request.
Proof. split_and!; vm_compute; congruence || done. Qed.

Lemma socks_serves_requests_witness :
  ∃ evs, handleSOCKS5 distrusted_env (encode_request demo_request ++ hello_bytes) = SockWrite reply_method :: SockWrite (reply x00) :: evs ∧
    List.filter final evs = [SockTunnelDirect "a.co:443" [x47; x48]].
Proof.
  destruct (proj1 (socks_serves_requests distrusted_env (encode_request demo_request ++ hello_bytes)) demo_request hello_bytes demo_request_wf eq_refl) as (evs & H & Hf & _).
  exists evs. split; [exact H|exact Hf].
Defined.
