(* ===== verification/Server.v ===== *)
(** The lifecycle of [ProxyServer] in [proxy/proxy.go]: [Start], [Stop], the
    address and mode setters, the serving goroutine and [socksAcceptLoop].

    [Start] and [Stop] release [p.mu] while they listen, close and wait, so a call
    is a thread with a program counter, and every critical section and every
    operation on a listener is one step: a run is any interleaving of the steps of
    any number of calls and goroutines.  The operating system is the set of open
    listeners with their addresses; listening fails when the address is taken, and
    may fail otherwise. *)

From coqutil Require Import Datatypes.RecordSetters.
From S2P Require Import Prelude GoStrings CFPool.
Import DoubleBraceUpdate.

Open Scope nat_scope.

(** * State *)

(** A call has an identity.  That of a [Start] also names the server it makes and
    its listeners: it makes at most one of each. *)
Inductive listener := Main (id : nat) | Socks (id : nat).

#[export] Instance listener_eq_dec : EqDecision listener.
Proof. solve_decision. Defined.

#[export] Instance listener_countable : Countable listener.
Proof.
  apply (inj_countable' (λ l, match l with Main i => inl i | Socks i => inr i end)
    (λ x, match x with inl i => Main i | inr i => Socks i end)). by intros [].
Defined.

(** Where a call has got to; [socks] tells whether the SOCKS5 listener is open. *)
Inductive pc :=
  | StartListen (addr : string)        (** about to listen on [listenAddr] *)
  | StartSocks                         (** about to listen for SOCKS5 *)
  | StartPublish (socks : bool)        (** about to publish the server *)
  | StartClose (socks : bool)          (** lost the race: closing *)
  | StartSpawn (socks : bool)          (** about to spawn the goroutines *)
  | StartFailed                        (** about to stop the pool *)
  | StopClose (socksLn : option nat)   (** about to close the SOCKS5 listener *)
  | StopWait                           (** [p.socksWg.Wait()] *)
  | StopServer.                        (** [p.Server.Close()] *)

#[export] Instance pc_eq_dec : EqDecision pc.
Proof. solve_decision. Defined.

(** The fields of [ProxyServer] the lifecycle uses; [sv_mu_stuck] holds once a
    critical section of [p.mu] waits forever for the pool's mutex. *)
Record ProxyServer := mkProxyServer {
  sv_Server : option nat;
  sv_listenAddr : string;
  sv_running : bool;
  sv_mode : string;
  sv_cfPool : option CloudflarePool;
  sv_socksAddr : string;
  sv_socksListener : option nat;
  sv_socksRunning : bool;
  sv_mu_stuck : bool;
}.

Record system := mkSystem {
  proxy : ProxyServer;
  listeners : gmap listener string;    (** open listeners and their addresses *)
  closed_servers : gset nat;           (** servers [Close] was called on *)
  serving : gmap nat bool;             (** serving goroutines; [false]: [Serve] has returned *)
  accept_loops : gset nat;             (** accept loops, counted by [socksWg] *)
  threads : gmap nat pc;               (** calls under way *)
  fresh : nat;                         (** the next identity *)
}.

(** * Operations *)

Inductive action :=
  | CallStart
  | CallStop
  | SetListenAddr (addr : string)
  | SetSOCKSAddr (addr : string)
  | SetMode (mode : string)
  | Pool (op : pool_op)                     (** any other use of the pool *)
  | Advance (id : nat) (listen_ok : bool)   (** one step of a call *)
  | ServeReturns (srv : nat)                (** [srv.Serve] fails or was closed *)
  | ServeReports (srv : nat)                (** the end of the serving goroutine *)
  | AcceptFails (id : nat).                 (** [Accept] fails in an accept loop *)

Definition valid_modes : list string := ["mitm"; "transparent"; "tls-rf"; "quic"; "gas"; "v2ray"; "rule"].

Definition bound (addr : string) (ls : gmap listener string) : bool :=
  bool_decide (addr ∈ (map_to_list ls).*2).

(** [net.Listen]: it succeeds only on a free address. *)
Definition listen (ok : bool) (ln : listener) (addr : string) (s : system) : bool * system :=
  if ok && negb (bound addr (listeners s))
  then (true, s {{ listeners ::= <[ln := addr]> }})
  else (false, s).

Definition close_listener (ln : listener) (s : system) : system := s {{ listeners ::= delete ln }}.

Definition close_opt (ln : option listener) (s : system) : system :=
  match ln with Some l => close_listener l s | None => s end.

Section lifecycle.
Context `{MR : MapRange}.

(** The pool's [Start] or [Stop] within or outside a critical section: [None]
    when it blocks. *)
Definition with_pool (f : CloudflarePool → option (bool * CloudflarePool)) (p : ProxyServer) : option ProxyServer :=
  match sv_cfPool p with
  | None => Some p
  | Some pool => (λ r, p {{ sv_cfPool := Some (snd r) }}) <$> f pool
  end.

(** [p.mu.Lock(); ...; p.mu.Unlock()]. *)
Definition critical (s : system) (body : option system) : option system :=
  if sv_mu_stuck (proxy s) then None else body.

Definition stick (s : system) : system := s {{ proxy := (proxy s) {{ sv_mu_stuck := true }} }}.

Definition spawn (pc0 : pc) (s : system) : system := s {{ threads ::= <[fresh s := pc0]>; fresh ::= S }}.

Definition goto (id : nat) (pc0 : pc) (s : system) : system := s {{ threads ::= <[id := pc0]> }}.

Definition finish (id : nat) (s : system) : system := s {{ threads ::= delete id }}.

(** The first critical section of [Start]. *)
Definition Start_begin (s : system) : option system :=
  critical s
    (if sv_running (proxy s) then Some s
     else match with_pool CFPool.Start (proxy s) with
          | None => Some (stick s)
          | Some p' => Some (spawn (StartListen (sv_listenAddr p')) (s {{ proxy := p' }}))
          end).

(** The second critical section of [Start]. *)
Definition Start_publish (id : nat) (socks : bool) (s : system) : option system :=
  critical s
    (if sv_running (proxy s) then Some (goto id (StartClose socks) s)
     else
       let p := (proxy s) {{ sv_Server := Some id; sv_running := true }} in
       let p := if socks then p {{ sv_socksListener := Some id; sv_socksRunning := true }} else p in
       Some (goto id (StartSpawn socks) (s {{ proxy := p }}))).

Definition spawn_goroutines (id : nat) (socks : bool) (s : system) : system :=
  let s := s {{ serving ::= <[id := true]> }} in
  if socks then s {{ accept_loops ::= union {[id]} }} else s.

(** The critical section of [Stop]. *)
Definition Stop_begin (s : system) : option system :=
  critical s
    (if negb (sv_running (proxy s)) then Some s
     else match with_pool CFPool.Stop ((proxy s) {{ sv_running := false }}) with
          | None => Some (stick (s {{ proxy := (proxy s) {{ sv_running := false }} }}))
          | Some p' =>
              Some (spawn (StopClose (sv_socksListener p'))
                     (s {{ proxy := p' {{ sv_socksListener := None; sv_socksRunning := false }} }}))
          end).

(** One step of a call.  [Server.Close] closes the main listener too, if [Serve] has taken it;
    here the listener counts as closed when [Serve] returns for it, which is all that is left
    to [Serve] then. *)
Definition advance_pc (id : nat) (listen_ok : bool) (pc0 : pc) (s : system) : option system :=
  match pc0 with
  | StartListen addr =>
      let '(ok, s') := listen listen_ok (Main id) addr s in
      Some (goto id (if ok then StartSocks else StartFailed) s')
  | StartFailed => (λ p', finish id (s {{ proxy := p' }})) <$> with_pool CFPool.Stop (proxy s)
  | StartSocks =>
      critical s
        (if nonempty (sv_socksAddr (proxy s)) then
           let '(ok, s') := listen listen_ok (Socks id) (sv_socksAddr (proxy s)) s in
           Some (goto id (StartPublish ok) s')
         else Some (goto id (StartPublish false) s))
  | StartPublish socks => Start_publish id socks s
  | StartClose socks =>
      Some (finish id (close_opt (if socks then Some (Socks id) else None) (close_listener (Main id) s)))
  | StartSpawn socks => Some (finish id (spawn_goroutines id socks s))
  | StopClose socksLn => Some (goto id StopWait (close_opt (Socks <$> socksLn) s))
  | StopWait => if bool_decide (accept_loops s = ∅) then Some (goto id StopServer s) else None
  | StopServer =>
      Some (finish id match sv_Server (proxy s) with
                      | Some srv => s {{ closed_servers ::= union {[srv]} }}
                      | None => s
                      end)
  end.

Definition advance (id : nat) (listen_ok : bool) (s : system) : option system :=
  threads s !! id ≫= λ pc0, advance_pc id listen_ok pc0 s.

(** The serving goroutine: [Serve] closes its listener as it returns; then the
    goroutine reports, if its server is still the current one. *)
Definition serve_returns (srv : nat) (s : system) : option system :=
  match serving s !! srv with
  | Some true => Some (close_listener (Main srv) (s {{ serving ::= <[srv := false]> }}))
  | _ => None
  end.

Definition serve_reports (srv : nat) (s : system) : option system :=
  match serving s !! srv with
  | Some false =>
      critical s
        (let s' := s {{ serving ::= delete srv }} in
         Some (if bool_decide (sv_Server (proxy s) = Some srv)
               then s' {{ proxy := (proxy s) {{ sv_running := false }} }} else s'))
  | _ => None
  end.

(** [socksAcceptLoop] after a failed [Accept]: it ends unless the proxy runs. *)
Definition accept_fails (id : nat) (s : system) : option system :=
  if bool_decide (id ∈ accept_loops s) then
    critical s (Some (if sv_running (proxy s) then s else s {{ accept_loops ::= λ ls, ls ∖ {[id]} }}))
  else None.

(** The setters answer whether they succeeded. *)
Definition set_listen_addr (addr : string) (p : ProxyServer) : outcome unit * ProxyServer :=
  if sv_running p then (Err "cannot change address while proxy is running", p)
  else (Ok tt, p {{ sv_listenAddr := addr }}).

Definition set_socks_addr (addr : string) (p : ProxyServer) : outcome unit * ProxyServer :=
  if sv_running p then (Err "cannot change SOCKS5 address while proxy is running", p)
  else (Ok tt, p {{ sv_socksAddr := addr }}).

Definition set_mode (mode : string) (p : ProxyServer) : outcome unit * ProxyServer :=
  let mode := norm mode in
  if negb (bool_decide (mode ∈ valid_modes)) then (Err ("invalid proxy mode: " +:+ mode), p)
  else (Ok tt, p {{ sv_mode := mode }}).

(** One step of the system. *)
Definition exec (a : action) (s : system) : option system :=
  match a with
  | CallStart => Start_begin s
  | CallStop => Stop_begin s
  | SetListenAddr addr => critical s (Some (s {{ proxy := snd (set_listen_addr addr (proxy s)) }}))
  | SetSOCKSAddr addr => critical s (Some (s {{ proxy := snd (set_socks_addr addr (proxy s)) }}))
  | SetMode mode => critical s (Some (s {{ proxy := snd (set_mode mode (proxy s)) }}))
  | Pool op =>
      match sv_cfPool (proxy s) with
      | Some pool => (λ p', s {{ proxy := (proxy s) {{ sv_cfPool := Some p' }} }}) <$> run_op op pool
      | None => None
      end
  | Advance id ok => advance id ok s
  | ServeReturns srv => serve_returns srv s
  | ServeReports srv => serve_reports srv s
  | AcceptFails id => accept_fails id s
  end.

Fixpoint exec_all (l : list action) (s : system) : option system :=
  match l with
  | [] => Some s
  | a :: l' => exec a s ≫= exec_all l'
  end.

(** [NewProxyServer]. *)
Definition NewProxyServer (addr : string) : ProxyServer :=
  mkProxyServer None addr false "mitm" (NewCloudflarePool []) "" None false false.

Definition boot (addr : string) : system := mkSystem (NewProxyServer addr) ∅ ∅ ∅ ∅ ∅ 0.

Inductive reachable (addr : string) : system → Prop :=
  | reach_boot : reachable addr (boot addr)
  | reach_step a s s' : reachable addr s → exec a s = Some s' → reachable addr s'.
End lifecycle.

(** * The invariant *)

(** Whether a call owns the main listener it opened. *)
Definition holds_main (pc0 : pc) : bool :=
  match pc0 with StartSocks | StartPublish _ | StartClose _ | StartSpawn _ => true | _ => false end.

(** Identities are fresh, a call and a serving goroutine never share one, and the
    open main listeners are those owned by a call or served. *)
Record net (T : gmap nat pc) (S : gmap nat bool) (L : gmap listener string) (n : nat) : Prop := mkNet {
  net_fresh id : n ≤ id → T !! id = None ∧ S !! id = None ∧ L !! Main id = None;
  net_excl id pc0 : T !! id = Some pc0 → S !! id = None;
  net_main id : is_Some (L !! Main id) ↔ S !! id = Some true ∨ ∃ pc0, T !! id = Some pc0 ∧ holds_main pc0 = true;
}.

(** A running proxy has a current server with a goroutine, or about to get one. *)
Definition served (p : ProxyServer) (T : gmap nat pc) (S : gmap nat bool) : Prop :=
  sv_running p = true → ∃ srv, sv_Server p = Some srv ∧ (is_Some (S !! srv) ∨ ∃ b, T !! srv = Some (StartSpawn b)).

Record system_wf (s : system) : Prop := mkSystemWf {
  wf_net : net (threads s) (serving s) (listeners s) (fresh s);
  wf_served : served (proxy s) (threads s) (serving s);
  wf_socks : sv_socksRunning (proxy s) = bool_decide (is_Some (sv_socksListener (proxy s)));
  wf_mode : sv_mode (proxy s) ∈ valid_modes;
}.

(** ** Steps on the maps *)

(** Who owns a listener, by cases on the owner. *)
Ltac owners :=
  split; intros [?|(? & ? & ?)]; simplify_eq; try congruence;
    solve [by left | right; eexists; split; [done|congruence]].

Lemma net_known T S L n id pc0 : net T S L n → T !! id = Some pc0 → id < n.
Proof. intros H Hid. destruct (decide (id < n)); [done|]. destruct (net_fresh _ _ _ _ H id); [lia|congruence]. Qed.

Lemma net_known_serving T S L n id b : net T S L n → S !! id = Some b → id < n.
Proof. intros H Hid. destruct (decide (id < n)); [done|]. destruct (net_fresh _ _ _ _ H id) as (_ & ? & _); [lia|congruence]. Qed.

Lemma net_spawn T S L n pc0 : net T S L n → holds_main pc0 = false → net (<[n:=pc0]> T) S L (Datatypes.S n).
Proof.
  intros H Hpc. destruct (net_fresh _ _ _ _ H n) as (Ht & Hs & Hl); [lia|]. split.
  - intros id Hid. rewrite lookup_insert_ne by lia. apply (net_fresh _ _ _ _ H). lia.
  - intros id pc1. destruct (decide (n = id)) as [<-|]; [by rewrite Hs|]. rewrite lookup_insert_ne by done. apply (net_excl _ _ _ _ H).
  - intros id. rewrite (net_main _ _ _ _ H). destruct (decide (n = id)) as [<-|]; [|by rewrite lookup_insert_ne].
    rewrite lookup_insert_eq, Hs, Ht. owners.
Qed.

Lemma net_goto T S L n id pc0 pc1 :
  net T S L n → T !! id = Some pc0 → holds_main pc1 = holds_main pc0 → net (<[id:=pc1]> T) S L n.
Proof.
  intros H Hid Hpc. pose proof (net_known _ _ _ _ _ _ H Hid). split.
  - intros id' ?. rewrite lookup_insert_ne by lia. by apply (net_fresh _ _ _ _ H).
  - intros id' pc2. destruct (decide (id = id')) as [<-|]; [|rewrite lookup_insert_ne by done; apply (net_excl _ _ _ _ H)].
    intros _. by eapply (net_excl _ _ _ _ H).
  - intros id'. rewrite (net_main _ _ _ _ H). destruct (decide (id = id')) as [<-|]; [|by rewrite lookup_insert_ne].
    rewrite lookup_insert_eq. owners.
Qed.

Lemma net_finish T S L n id pc0 :
  net T S L n → T !! id = Some pc0 → holds_main pc0 = false → net (delete id T) S L n.
Proof.
  intros H Hid Hpc. split.
  - intros id' ?. destruct (net_fresh _ _ _ _ H id') as (Ht & ?); [done|]. split; [|done].
    by rewrite lookup_delete_None; right.
  - intros id' pc2 [_ Hd]%lookup_delete_Some. by eapply (net_excl _ _ _ _ H).
  - intros id'. rewrite (net_main _ _ _ _ H). destruct (decide (id = id')) as [<-|]; [|by rewrite lookup_delete_ne].
    rewrite lookup_delete_eq. owners.
Qed.

Lemma net_listen T S L n id pc0 pc1 addr :
  net T S L n → T !! id = Some pc0 → holds_main pc1 = true → net (<[id:=pc1]> T) S (<[Main id:=addr]> L) n.
Proof.
  intros H Hid Hpc. pose proof (net_known _ _ _ _ _ _ H Hid). split.
  - intros id' ?. assert (id ≠ id') by lia. rewrite !lookup_insert_ne by congruence. by apply (net_fresh _ _ _ _ H).
  - intros id' pc2. destruct (decide (id = id')) as [<-|]; [|rewrite lookup_insert_ne by done; apply (net_excl _ _ _ _ H)].
    intros _. by eapply (net_excl _ _ _ _ H).
  - intros id'. destruct (decide (id = id')) as [<-|]; [|rewrite !lookup_insert_ne by congruence; apply (net_main _ _ _ _ H)].
    rewrite !lookup_insert_eq. split; [intros _; right; by exists pc1|by eexists].
Qed.

(** Releasing a main listener: the call or the goroutine that owned it is gone. *)
Lemma net_release T S L n id :
  net T S L n → net (delete id T) (delete id S) (delete (Main id) L) n.
Proof.
  intros H. split.
  - intros id' Hn. destruct (net_fresh _ _ _ _ H id' Hn) as (? & ? & ?). rewrite !lookup_delete_None. auto.
  - intros id' pc2 [Hne Hd]%lookup_delete_Some. rewrite lookup_delete_ne by done. by eapply (net_excl _ _ _ _ H).
  - intros id'. destruct (decide (id = id')) as [<-|]; [|rewrite !lookup_delete_ne by congruence; apply (net_main _ _ _ _ H)].
    rewrite !lookup_delete_eq. split; [by intros []|intros [?|(? & ? & ?)]; congruence].
Qed.

Lemma net_serve T S L n id pc0 :
  net T S L n → T !! id = Some pc0 → holds_main pc0 = true → net (delete id T) (<[id:=true]> S) L n.
Proof.
  intros H Hid Hpc. pose proof (net_known _ _ _ _ _ _ H Hid). split.
  - intros id' ?. destruct (net_fresh _ _ _ _ H id') as (? & ? & ?); [done|]. rewrite lookup_delete_None, lookup_insert_ne by lia. auto.
  - intros id' pc2 [Hne Hd]%lookup_delete_Some. rewrite lookup_insert_ne by done. by eapply (net_excl _ _ _ _ H).
  - intros id'. rewrite (net_main _ _ _ _ H). destruct (decide (id = id')) as [<-|]; [|by rewrite lookup_delete_ne, lookup_insert_ne].
    rewrite lookup_insert_eq. split; [by left|intros _; right; by exists pc0].
Qed.

Lemma net_returns T S L n id :
  net T S L n → S !! id = Some true → net T (<[id:=false]> S) (delete (Main id) L) n.
Proof.
  intros H Hid. pose proof (net_known_serving _ _ _ _ _ _ H Hid).
  assert (Ht : T !! id = None) by (destruct (T !! id) as [pc0|] eqn:E; [apply (net_excl _ _ _ _ H) in E; congruence|done]). split.
  - intros id' Hn. destruct (net_fresh _ _ _ _ H id' Hn) as (? & ? & ?). rewrite lookup_insert_ne, lookup_delete_None by lia. auto.
  - intros id' pc2 Hp. rewrite lookup_insert_ne by congruence. by eapply (net_excl _ _ _ _ H).
  - intros id'. destruct (decide (id = id')) as [<-|]; [|rewrite lookup_insert_ne, lookup_delete_ne by congruence; apply (net_main _ _ _ _ H)].
    rewrite lookup_insert_eq, lookup_delete_eq, Ht. split; [by intros []|intros [?|(? & ? & ?)]; congruence].
Qed.

Lemma net_reports T S L n id :
  net T S L n → S !! id = Some false → net T (delete id S) L n.
Proof.
  intros H Hid. split.
  - intros id' Hn. destruct (net_fresh _ _ _ _ H id' Hn) as (? & ? & ?). rewrite lookup_delete_None. auto.
  - intros id' pc2 Hp. rewrite lookup_delete_None. right. by eapply (net_excl _ _ _ _ H).
  - intros id'. rewrite (net_main _ _ _ _ H). destruct (decide (id = id')) as [<-|]; [|by rewrite lookup_delete_ne].
    rewrite lookup_delete_eq. owners.
Qed.

Lemma net_socks_insert T S L n id addr : net T S L n → net T S (<[Socks id:=addr]> L) n.
Proof.
  intros H. split; [|by apply (net_excl _ _ _ _ H)|]; intros id'; rewrite lookup_insert_ne by done;
    [apply (net_fresh _ _ _ _ H)|apply (net_main _ _ _ _ H)].
Qed.

Lemma net_socks_delete T S L n id : net T S L n → net T S (delete (Socks id) L) n.
Proof.
  intros H. split; [|by apply (net_excl _ _ _ _ H)|]; intros id'; rewrite lookup_delete_ne by done;
    [apply (net_fresh _ _ _ _ H)|apply (net_main _ _ _ _ H)].
Qed.

Lemma served_mono p p' T S T' S' :
  (sv_running p' = true → sv_running p = true ∧ sv_Server p' = sv_Server p) →
  (∀ srv, is_Some (S !! srv) → sv_Server p' = Some srv → is_Some (S' !! srv)) →
  (∀ srv b, T !! srv = Some (StartSpawn b) → is_Some (S' !! srv) ∨ T' !! srv = Some (StartSpawn b)) →
  served p T S → served p' T' S'.
Proof.
  intros Hr HS HT H Hr'. destruct (Hr Hr') as [Hrun E]. destruct (H Hrun) as (srv & Hsrv & Hor).
  rewrite <- E in Hsrv. exists srv. split; [done|]. destruct Hor as [Hs|[b Hb]]; [left; auto|].
  destruct (HT srv b Hb); [by left|right; eauto].
Qed.

Lemma served_same p T S T' S' :
  (∀ srv, is_Some (S !! srv) → is_Some (S' !! srv)) →
  (∀ srv b, T !! srv = Some (StartSpawn b) → is_Some (S' !! srv) ∨ T' !! srv = Some (StartSpawn b)) →
  served p T S → served p T' S'.
Proof. intros HS HT. apply served_mono; auto. Qed.

(** What the pool operations and the setters leave alone. *)
Record same_core (p p' : ProxyServer) : Prop := {
  same_running : sv_running p' = sv_running p;
  same_Server : sv_Server p' = sv_Server p;
  same_listener : sv_socksListener p' = sv_socksListener p;
  same_socks : sv_socksRunning p' = sv_socksRunning p;
  same_mode : sv_mode p' ∈ valid_modes;
}.

Lemma with_pool_core f p p' : with_pool f p = Some p' → sv_mode p ∈ valid_modes → same_core p p'.
Proof.
  unfold with_pool. destruct (sv_cfPool p) as [pool|]; [|by intros [= <-]].
  intros (r & _ & ->)%fmap_Some Hm. by split.
Qed.

Lemma wf_proxy s p' : system_wf s → same_core (proxy s) p' → system_wf (s {{ proxy := p' }}).
Proof.
  intros W C. split; simpl; unfold constant; [apply (wf_net s W)| | |apply (same_mode _ _ C)].
  - apply (served_mono (proxy s) p' (threads s) (serving s)); [|eauto|eauto|apply (wf_served s W)].
    by rewrite (same_running _ _ C), (same_Server _ _ C).
  - rewrite (same_socks _ _ C), (same_listener _ _ C). apply (wf_socks s W).
Qed.

(** Changes of the maps that keep what the invariant says of the proxy. *)
Lemma wf_maps s T' S' L' n' c' a' :
  system_wf s → net T' S' L' n' →
  (∀ srv, is_Some (serving s !! srv) → is_Some (S' !! srv)) →
  (∀ srv b, threads s !! srv = Some (StartSpawn b) → is_Some (S' !! srv) ∨ T' !! srv = Some (StartSpawn b)) →
  system_wf (mkSystem (proxy s) L' c' S' a' T' n').
Proof.
  intros W N HS HT. split; simpl; [done| |apply (wf_socks s W)|apply (wf_mode s W)].
  by apply (served_same _ (threads s) (serving s)); [..|apply (wf_served s W)].
Qed.

Lemma wf_goto s id pc0 pc1 :
  system_wf s → threads s !! id = Some pc0 → holds_main pc1 = holds_main pc0 → (∀ b, pc0 ≠ StartSpawn b) →
  system_wf (goto id pc1 s).
Proof.
  intros W Hid Hh Hne. apply (wf_maps s); [done|by eapply net_goto; [apply (wf_net s W)|..]|auto|].
  intros srv b Hb. right. rewrite lookup_insert_ne; [done|]. intros <-. rewrite Hb in Hid. injection Hid as <-. by apply (Hne b).
Qed.

Lemma wf_finish s id pc0 :
  system_wf s → threads s !! id = Some pc0 → holds_main pc0 = false → system_wf (finish id s).
Proof.
  intros W Hid Hh. apply (wf_maps s); [done|by eapply net_finish; [apply (wf_net s W)|..]|auto|].
  intros srv b Hb. right. rewrite lookup_delete_ne; [done|]. intros <-. rewrite Hb in Hid. by injection Hid as <-.
Qed.

Lemma wf_spawn s pc0 : system_wf s → holds_main pc0 = false → system_wf (spawn pc0 s).
Proof.
  intros W Hh. apply (wf_maps s); [done|by apply net_spawn; [apply (wf_net s W)|]|auto|].
  intros srv b Hb. right. simpl. rewrite lookup_insert_ne; [done|]. pose proof (net_known _ _ _ _ _ _ (wf_net s W) Hb). lia.
Qed.

Lemma wf_close_socks s id : system_wf s → system_wf (close_listener (Socks id) s).
Proof. intros W. apply (wf_maps s); auto. apply net_socks_delete, (wf_net s W). Qed.

Lemma wf_listen_socks s ok id addr : system_wf s → system_wf (snd (listen ok (Socks id) addr s)).
Proof.
  intros W. unfold listen. destruct (ok && _); [|done]. apply (wf_maps s); auto. apply net_socks_insert, (wf_net s W).
Qed.

Lemma threads_listen ok ln addr s : threads (snd (listen ok ln addr s)) = threads s.
Proof. unfold listen. by destruct (ok && _). Qed.

(** ** Steps of the system *)

Section steps.
Context `{MR : MapRange}.

Lemma critical_Some s o s' : critical s o = Some s' → o = Some s'.
Proof. unfold critical. by destruct (sv_mu_stuck _). Qed.

Lemma wf_stick s : system_wf s → system_wf (stick s).
Proof. intros W. apply wf_proxy; [done|]. split; try done. apply (wf_mode s W). Qed.

(** A proxy that stops running needs no server. *)
Lemma wf_halt s p' :
  system_wf s → sv_running p' = false → sv_socksRunning p' = bool_decide (is_Some (sv_socksListener p')) →
  sv_mode p' ∈ valid_modes → system_wf (s {{ proxy := p' }}).
Proof.
  intros W Hr Hs Hm. split; simpl; unfold constant; [apply (wf_net s W)| |done|done].
  intros Hrun. congruence.
Qed.

Lemma wf_Start_begin s s' : system_wf s → Start_begin s = Some s' → system_wf s'.
Proof.
  intros W H%critical_Some. destruct (sv_running _); [by simplify_eq|].
  destruct (with_pool _ _) as [p'|] eqn:E; injection H as <-; [|by apply wf_stick].
  apply wf_spawn; [|done]. apply wf_proxy; [done|]. by eapply with_pool_core; [|apply (wf_mode s W)].
Qed.

Lemma wf_Stop_begin s s' : system_wf s → Stop_begin s = Some s' → system_wf s'.
Proof.
  intros W H%critical_Some. destruct (negb _); [by simplify_eq|].
  destruct (with_pool _ _) as [p'|] eqn:E; injection H as <-.
  - apply with_pool_core in E as [C1 C2 C3 C4 C5]; [|apply (wf_mode s W)].
    apply wf_spawn; [|done]. by apply wf_halt.
  - apply wf_stick. apply wf_halt; [done..|apply (wf_socks s W)|apply (wf_mode s W)].
Qed.

Lemma wf_Start_publish id socks s s' :
  system_wf s → threads s !! id = Some (StartPublish socks) → Start_publish id socks s = Some s' → system_wf s'.
Proof.
  intros W Hid H%critical_Some. destruct (sv_running _) eqn:Hr.
  { injection H as <-. by eapply wf_goto. }
  injection H as <-. split; simpl.
  - by eapply net_goto; [apply (wf_net s W)|..].
  - intros _. exists id. rewrite lookup_insert_eq. destruct socks; simpl; eauto.
  - destruct socks; simpl; [done|apply (wf_socks s W)].
  - destruct socks; simpl; apply (wf_mode s W).
Qed.

Lemma wf_StartSpawn id socks s :
  system_wf s → threads s !! id = Some (StartSpawn socks) → system_wf (finish id (spawn_goroutines id socks s)).
Proof.
  intros W Hid.
  assert (E : finish id (spawn_goroutines id socks s) =
    mkSystem (proxy s) (listeners s) (closed_servers s) (<[id:=true]> (serving s))
      (if socks then {[id]} ∪ accept_loops s else accept_loops s) (delete id (threads s)) (fresh s)) by (by destruct socks).
  rewrite E. apply wf_maps; [done|by eapply net_serve; [apply (wf_net s W)|..]| |].
  - intros srv Hs. destruct (decide (id = srv)) as [<-|]; [rewrite lookup_insert_eq|rewrite lookup_insert_ne]; eauto.
  - intros srv b Hb. destruct (decide (id = srv)) as [<-|]; [left; rewrite lookup_insert_eq; eauto|].
    right. by rewrite lookup_delete_ne.
Qed.

Lemma wf_StartClose id socks s :
  system_wf s → threads s !! id = Some (StartClose socks) →
  system_wf (finish id (close_opt (if socks then Some (Socks id) else None) (close_listener (Main id) s))).
Proof.
  intros W Hid.
  assert (N : net (delete id (threads s)) (serving s) (delete (Main id) (listeners s)) (fresh s)).
  { pose proof (net_release _ _ _ _ id (wf_net s W)) as N.
    rewrite (delete_id (serving s)) in N; [done|]. by eapply net_excl; [apply (wf_net s W)|]. }
  assert (Hmain : system_wf (finish id (close_listener (Main id) s))).
  { apply (wf_maps s); [done|exact N|done|].
    - intros srv b Hb. right. simpl. rewrite lookup_delete_ne; [done|congruence]. }
  destruct socks; [|done]. exact (wf_close_socks _ id Hmain).
Qed.

Lemma wf_StartListen id ok addr s s1 b :
  system_wf s → threads s !! id = Some (StartListen addr) → listen ok (Main id) addr s = (b, s1) →
  system_wf (goto id (if b then StartSocks else StartFailed) s1).
Proof.
  intros W Hid. unfold listen. destruct (ok && _); intros [= <- <-]; [|by eapply wf_goto].
  apply (wf_maps s); [done|by eapply net_listen; [apply (wf_net s W)|..]|done|].
  intros srv b Hb. right. simpl. rewrite lookup_insert_ne; [done|congruence].
Qed.

Lemma wf_advance id ok s s' : system_wf s → advance id ok s = Some s' → system_wf s'.
Proof.
  intros W. unfold advance. destruct (threads s !! id) as [pc0|] eqn:Hid; [|done]. simpl.
  destruct pc0 as [addr| |socks|socks|socks| |socksLn| |]; simpl.
  - destruct (listen ok (Main id) addr s) as [b s1] eqn:E. intros [= <-]. by eapply wf_StartListen.
  - intros H%critical_Some. destruct (nonempty _); [|by injection H as <-; eapply wf_goto].
    pose proof (wf_listen_socks s ok id (sv_socksAddr (proxy s)) W) as W1.
    pose proof (threads_listen ok (Socks id) (sv_socksAddr (proxy s)) s) as Et.
    destruct (listen _ _ _ _) as [b s1]. injection H as <-. simpl in *. by eapply wf_goto; [done|rewrite Et|..].
  - by apply wf_Start_publish.
  - intros [= <-]. by apply wf_StartClose.
  - intros [= <-]. by apply wf_StartSpawn.
  - intros (p' & E & ->)%fmap_Some. eapply wf_finish; [|done|done].
    apply wf_proxy; [done|]. by eapply with_pool_core; [|apply (wf_mode s W)].
  - intros [= <-]. destruct socksLn as [l|]; simpl; [|by eapply wf_goto].
    eapply (wf_goto (close_listener (Socks l) s)); [by apply wf_close_socks|done|done|done].
  - case_bool_decide; [|done]. intros [= <-]. by eapply wf_goto.
  - intros [= <-]. destruct (sv_Server _); [|by eapply wf_finish].
    eapply wf_finish; [|done|done]. by apply (wf_maps s); [|apply (wf_net s W)|..]; auto.
Qed.

Lemma wf_serve_returns srv s s' : system_wf s → serve_returns srv s = Some s' → system_wf s'.
Proof.
  unfold serve_returns. intros W. destruct (serving s !! srv) as [[]|] eqn:Hs; [|done..]. intros [= <-].
  apply (wf_maps s); [done|by apply net_returns; [apply (wf_net s W)|]| |auto].
  intros srv' H. simpl. destruct (decide (srv = srv')) as [<-|]; [rewrite lookup_insert_eq|rewrite lookup_insert_ne]; eauto.
Qed.

Lemma wf_serve_reports srv s s' : system_wf s → serve_reports srv s = Some s' → system_wf s'.
Proof.
  unfold serve_reports. intros W. destruct (serving s !! srv) as [[]|] eqn:Hs; [done| |done].
  intros [= <-]%critical_Some. pose proof (net_reports _ _ _ _ _ (wf_net s W) Hs) as N.
  case_bool_decide as Hsrv; (split; simpl; [done| |apply (wf_socks s W)|apply (wf_mode s W)]); [done|].
  apply (served_mono (proxy s) _ (threads s) (serving s)); [done| |auto|apply (wf_served s W)].
  intros srv' H E. rewrite lookup_delete_ne; [done|]. intros ->. exact (Hsrv E).
Qed.

Lemma wf_exec a s s' : system_wf s → exec a s = Some s' → system_wf s'.
Proof.
  intros W. pose proof (wf_mode s W) as Hm. destruct a as [| |addr|addr|mode|op|id ok|srv|srv|id]; simpl.
  - by apply wf_Start_begin.
  - by apply wf_Stop_begin.
  - intros [= <-]%critical_Some. apply wf_proxy; [done|]. unfold set_listen_addr. by destruct (sv_running _).
  - intros [= <-]%critical_Some. apply wf_proxy; [done|]. unfold set_socks_addr. by destruct (sv_running _).
  - intros [= <-]%critical_Some. apply wf_proxy; [done|]. unfold set_mode. case_bool_decide; by split.
  - destruct (sv_cfPool _); [|done]. intros (p' & _ & ->)%fmap_Some. by apply wf_proxy.
  - by apply wf_advance.
  - by apply wf_serve_returns.
  - by apply wf_serve_reports.
  - unfold accept_fails. case_bool_decide; [|done]. intros [= <-]%critical_Some. destruct (sv_running _); [done|].
    apply (wf_maps s); auto. apply (wf_net s W).
Qed.

Lemma wf_boot addr : system_wf (boot addr).
Proof.
  split; simpl; [|done|done|unfold valid_modes; left]. split; [done|done|].
  intros id. rewrite !lookup_empty. split; [by intros []|]. intros [?|(? & ? & _)]; done.
Qed.

Lemma reachable_system_wf addr s : reachable addr s → system_wf s.
Proof. induction 1 as [|a s s' _ W E]; [apply wf_boot|by eapply wf_exec]. Qed.
End steps.

(** ** A SOCKS5 listener nobody can close *)

(** What the operating system answers: [Accept] fails only on a closed listener. *)
Definition os_ok (a : action) (s : system) : bool :=
  match a with AcceptFails id => bool_decide (listeners s !! Socks id = None) | _ => true end.

Inductive continues `{MR : MapRange} : system → system → Prop :=
  | continues_refl s : continues s s
  | continues_step a s s1 s2 : os_ok a s = true → exec a s = Some s1 → continues s1 s2 → continues s s2.

(** The accept loop of an earlier start still runs on its open listener, and
    neither the proxy nor a call knows that listener any more. *)
Record orphan (l : nat) (s : system) : Prop := mkOrphan {
  orphan_loop : l ∈ accept_loops s;
  orphan_open : is_Some (listeners s !! Socks l);
  orphan_old : l < fresh s ∧ threads s !! l = None;
  orphan_unknown : sv_socksListener (proxy s) ≠ Some l;
  orphan_uncalled : ∀ id, threads s !! id ≠ Some (StopClose (Some l));
}.

Section orphans.
Context `{MR : MapRange}.

Lemma with_pool_listener f p p' : with_pool f p = Some p' → sv_socksListener p' = sv_socksListener p.
Proof. unfold with_pool. destruct (sv_cfPool p); [by intros (r & _ & ->)%fmap_Some|by intros [= <-]]. Qed.

(** A step that touches neither the loops nor the listener keeps an orphan. *)
Lemma orphan_keep l s s' :
  orphan l s → accept_loops s ⊆ accept_loops s' → (is_Some (listeners s !! Socks l) → is_Some (listeners s' !! Socks l)) →
  fresh s ≤ fresh s' → threads s' !! l = None → sv_socksListener (proxy s') ≠ Some l →
  (∀ id, threads s' !! id ≠ Some (StopClose (Some l))) → orphan l s'.
Proof. intros [H1 H2 [H3 _] _ _] Ha Hl Hf Ht Hk Hu. split; auto. split; [lia|done]. Qed.

Lemma orphan_threads l s s' id pc0 :
  orphan l s → threads s !! id = Some pc0 →
  accept_loops s ⊆ accept_loops s' → (is_Some (listeners s !! Socks l) → is_Some (listeners s' !! Socks l)) →
  fresh s ≤ fresh s' → sv_socksListener (proxy s') ≠ Some l →
  (threads s' = delete id (threads s) ∨ ∃ pc1, threads s' = <[id:=pc1]> (threads s) ∧ pc1 ≠ StopClose (Some l)) →
  orphan l s'.
Proof.
  intros O Hid Ha Hl Hf Hk Ht. pose proof (orphan_old _ _ O) as [_ Hn].
  assert (Hne : id ≠ l) by congruence. apply (orphan_keep l s _ O); try done.
  - destruct Ht as [->|(pc1 & -> & _)]; [by rewrite lookup_delete_ne|by rewrite lookup_insert_ne].
  - intros id' E. destruct Ht as [Ht|(pc1 & Ht & Hpc)]; rewrite Ht in E.
    + apply lookup_delete_Some in E as [_ E]. exact (orphan_uncalled _ _ O id' E).
    + destruct (decide (id = id')) as [<-|]; [rewrite lookup_insert_eq in E; congruence|].
      rewrite lookup_insert_ne in E by done. exact (orphan_uncalled _ _ O id' E).
Qed.

Lemma orphan_spawn l s s' pc0 :
  orphan l s → accept_loops s ⊆ accept_loops s' → listeners s' = listeners s → fresh s' = S (fresh s) →
  threads s' = <[fresh s:=pc0]> (threads s) → sv_socksListener (proxy s') ≠ Some l → pc0 ≠ StopClose (Some l) → orphan l s'.
Proof.
  intros O Ha Hl Hf Ht Hk Hpc. pose proof (orphan_old _ _ O) as [Hlt Hn].
  apply (orphan_keep l s _ O); try done; [by rewrite Hl|lia|rewrite Ht, lookup_insert_ne; [done|lia]|].
  intros id. rewrite Ht. destruct (decide (fresh s = id)) as [<-|]; [rewrite lookup_insert_eq; congruence|].
  rewrite lookup_insert_ne by done. apply (orphan_uncalled _ _ O).
Qed.

Lemma listen_keeps ok ln addr s l :
  is_Some (listeners s !! l) → is_Some (listeners (snd (listen ok ln addr s)) !! l).
Proof.
  unfold listen. destruct (ok && _); [|done]. simpl. intros H.
  destruct (decide (ln = l)) as [<-|]; [rewrite lookup_insert_eq; eauto|by rewrite lookup_insert_ne].
Qed.

Lemma listen_fields ok ln addr s :
  let s' := snd (listen ok ln addr s) in
  proxy s' = proxy s ∧ accept_loops s' = accept_loops s ∧ fresh s' = fresh s ∧ threads s' = threads s.
Proof. unfold listen. by destruct (ok && _). Qed.

Lemma orphan_advance l s s' id ok : orphan l s → advance id ok s = Some s' → orphan l s'.
Proof.
  intros O. pose proof (orphan_unknown _ _ O) as Hk. pose proof (orphan_old _ _ O) as [_ Hn].
  unfold advance. destruct (threads s !! id) as [pc0|] eqn:Hid; [|done]. simpl.
  assert (Hne : id ≠ l) by congruence. destruct pc0 as [addr| |socks|socks|socks| |socksLn| |]; simpl.
  - pose proof (listen_keeps ok (Main id) addr s (Socks l)) as Hl. pose proof (listen_fields ok (Main id) addr s) as (E1 & E2 & E3 & E4).
    destruct (listen _ _ _ _) as [b [p1 L1 c1 S1 a1 T1 n1]]. simpl in *. subst p1 a1 n1 T1. intros [= <-].
    eapply (orphan_threads l s _ id _ O Hid); try done. right. eexists. split; [done|]. by destruct b.
  - intros H%critical_Some. destruct (nonempty _).
    + pose proof (listen_keeps ok (Socks id) (sv_socksAddr (proxy s)) s (Socks l)) as Hl.
      pose proof (listen_fields ok (Socks id) (sv_socksAddr (proxy s)) s) as (E1 & E2 & E3 & E4).
      destruct (listen _ _ _ _) as [b [p1 L1 c1 S1 a1 T1 n1]]. simpl in *. subst p1 a1 n1 T1. injection H as <-.
      eapply (orphan_threads l s _ id _ O Hid); try done. right. by eexists.
    + injection H as <-. eapply (orphan_threads l s _ id _ O Hid); try done. right. by eexists.
  - intros H%critical_Some. destruct (sv_running _); injection H as <-; (eapply (orphan_threads l s _ id _ O Hid); try done); simpl; [right; by eexists| |right; by eexists].
    destruct socks; simpl; [unfold constant; congruence|done].
  - intros [= <-]. eapply (orphan_threads l s _ id _ O Hid); try done; destruct socks; simpl; try done; rewrite ?lookup_delete_ne by congruence; auto.
  - intros [= <-]. eapply (orphan_threads l s _ id _ O Hid); try done; destruct socks; simpl; try done; [set_solver|by left..].
  - intros (p' & E & ->)%fmap_Some. eapply (orphan_threads l s _ id _ O Hid); try done; simpl; [|by left].
    unfold constant. by rewrite (with_pool_listener _ _ _ E).
  - intros [= <-]. pose proof (orphan_uncalled _ _ O id) as Hu.
    eapply (orphan_threads l s _ id _ O Hid); try done; destruct socksLn as [m|]; simpl; try done; try (right; by eexists).
    rewrite lookup_delete_ne; [done|]. intros [= ->]. by apply Hu.
  - case_bool_decide; [|done]. intros [= <-]. eapply (orphan_threads l s _ id _ O Hid); try done. right. by eexists.
  - intros [= <-]. destruct (sv_Server _); (eapply (orphan_threads l s _ id _ O Hid); try done); by left.
Qed.

(** A step of one call leaves the other calls alone, and makes no new one. *)
Lemma advance_pc_other id ok pc0 s s' w :
  id ≠ w → advance_pc id ok pc0 s = Some s' → threads s' !! w = threads s !! w ∧ fresh s' = fresh s.
Proof.
  intros Hne. destruct pc0 as [addr| |socks|socks|socks| |socksLn| |]; simpl.
  - pose proof (listen_fields ok (Main id) addr s) as (_ & _ & E3 & E4). destruct (listen _ _ _ _) as [b s1]. simpl in E3, E4.
    intros [= <-]. unfold goto. split; [|exact E3]. rewrite <- E4. by apply lookup_insert_ne.
  - intros H%critical_Some. destruct (nonempty _); [|injection H as <-; split; [by apply lookup_insert_ne|done]].
    pose proof (listen_fields ok (Socks id) (sv_socksAddr (proxy s)) s) as (_ & _ & E3 & E4). destruct (listen _ _ _ _) as [b s1].
    simpl in E3, E4. injection H as <-. split; [|exact E3]. rewrite <- E4. by apply lookup_insert_ne.
  - intros H%critical_Some. destruct (sv_running _); injection H as <-; (split; [by apply lookup_insert_ne|done]).
  - intros [= <-]. split; [|by destruct socks]. destruct socks; by apply lookup_delete_ne.
  - intros [= <-]. split; [|by destruct socks]. destruct socks; by apply lookup_delete_ne.
  - intros (p' & E & ->)%fmap_Some. split; [by apply lookup_delete_ne|done].
  - intros [= <-]. split; [|by destruct socksLn]. destruct socksLn; by apply lookup_insert_ne.
  - case_bool_decide; [|done]. intros [= <-]. split; [by apply lookup_insert_ne|done].
  - intros [= <-]. destruct (sv_Server _); (split; [by apply lookup_delete_ne|done]).
Qed.

Lemma orphan_exec a l s s' : orphan l s → os_ok a s = true → exec a s = Some s' → orphan l s'.
Proof.
  intros O Hos. pose proof (orphan_unknown _ _ O) as Hk. pose proof (orphan_old _ _ O) as [_ Hn].
  pose proof (orphan_uncalled _ _ O) as Hu. destruct a as [| |addr|addr|mode|op|id ok|srv|srv|id]; simpl.
  - intros H%critical_Some. destruct (sv_running _); [by injection H as <-|].
    destruct (with_pool _ _) as [p'|] eqn:E; injection H as <-; [|by apply (orphan_keep l s _ O)].
    eapply (orphan_spawn l s _ _ O); try done. simpl. unfold constant. by rewrite (with_pool_listener _ _ _ E).
  - intros H%critical_Some. destruct (negb _); [by injection H as <-|].
    destruct (with_pool _ _) as [p'|] eqn:E; injection H as <-; [|by apply (orphan_keep l s _ O)].
    apply with_pool_listener in E. simpl in E.
    eapply (orphan_spawn l s _ _ O); try done. rewrite E. intros X. injection X. exact Hk.
  - intros [= <-]%critical_Some. apply (orphan_keep l s _ O); try done. simpl. unfold constant, set_listen_addr. by destruct (sv_running _).
  - intros [= <-]%critical_Some. apply (orphan_keep l s _ O); try done. simpl. unfold constant, set_socks_addr. by destruct (sv_running _).
  - intros [= <-]%critical_Some. apply (orphan_keep l s _ O); try done. simpl. unfold constant, set_mode. by case_bool_decide.
  - destruct (sv_cfPool _); [|done]. intros (p' & _ & ->)%fmap_Some. by apply (orphan_keep l s _ O).
  - by apply orphan_advance.
  - unfold serve_returns. destruct (serving s !! srv) as [[]|]; [|done..]. intros [= <-].
    apply (orphan_keep l s _ O); try done. simpl. by rewrite lookup_delete_ne.
  - unfold serve_reports. destruct (serving s !! srv) as [[]|]; [done| |done]. intros [= <-]%critical_Some.
    apply (orphan_keep l s _ O); case_bool_decide; done.
  - unfold accept_fails. case_bool_decide; [|done]. intros [= <-]%critical_Some. destruct (sv_running _); [done|].
    simpl in Hos. apply bool_decide_eq_true in Hos. destruct (orphan_open _ _ O) as [addr Ho].
    assert (id ≠ l) by congruence. pose proof (orphan_loop _ _ O). destruct O as [? ? [] ? ?]. split; try done. simpl. set_solver.
Qed.

Lemma waiting_exec a l w s s' :
  orphan l s → threads s !! w = Some StopWait → w < fresh s → exec a s = Some s' → threads s' !! w = Some StopWait.
Proof.
  intros O Hw Hlt. destruct a as [| |addr|addr|mode|op|id ok|srv|srv|id]; simpl.
  - intros H%critical_Some. destruct (sv_running _); [by injection H as <-|].
    destruct (with_pool _ _); injection H as <-; [|done]. simpl. rewrite lookup_insert_ne; [done|change (fresh s ≠ w); lia].
  - intros H%critical_Some. destruct (negb _); [by injection H as <-|].
    destruct (with_pool _ _); injection H as <-; [|done]. simpl. rewrite lookup_insert_ne; [done|change (fresh s ≠ w); lia].
  - by intros [= <-]%critical_Some.
  - by intros [= <-]%critical_Some.
  - by intros [= <-]%critical_Some.
  - destruct (sv_cfPool _); [|done]. by intros (p' & _ & ->)%fmap_Some.
  - unfold advance. destruct (decide (id = w)) as [->|Hne].
    { rewrite Hw. simpl. rewrite bool_decide_false; [done|]. pose proof (orphan_loop _ _ O). set_solver. }
    destruct (threads s !! id) as [pc0|]; [|done]. simpl. intros H. rewrite <- Hw. by eapply (advance_pc_other id ok pc0).
  - unfold serve_returns. destruct (serving s !! srv) as [[]|]; [|done..]. by intros [= <-].
  - unfold serve_reports. destruct (serving s !! srv) as [[]|]; [done| |done]. intros [= <-]%critical_Some. by case_bool_decide.
  - unfold accept_fails. case_bool_decide; [|done]. intros [= <-]%critical_Some. by destruct (sv_running _).
Qed.

Lemma exec_fresh a s s' : exec a s = Some s' → fresh s ≤ fresh s'.
Proof.
  destruct a as [| |addr|addr|mode|op|id ok|srv|srv|id]; simpl.
  - intros H%critical_Some. destruct (sv_running _); [by injection H as <-|]. destruct (with_pool _ _); injection H as <-; [|done].
    change (fresh s ≤ S (fresh s)). lia.
  - intros H%critical_Some. destruct (negb _); [by injection H as <-|]. destruct (with_pool _ _); injection H as <-; [|done].
    change (fresh s ≤ S (fresh s)). lia.
  - by intros [= <-]%critical_Some.
  - by intros [= <-]%critical_Some.
  - by intros [= <-]%critical_Some.
  - destruct (sv_cfPool _); [|done]. by intros (p' & _ & ->)%fmap_Some.
  - unfold advance. destruct (threads s !! id) as [pc0|]; [|done]. simpl.
    intros H%(advance_pc_other id ok pc0 s s' (S id)); [|lia]. destruct H as [_ ->]. done.
  - unfold serve_returns. destruct (serving s !! srv) as [[]|]; [|done..]. by intros [= <-].
  - unfold serve_reports. destruct (serving s !! srv) as [[]|]; [done| |done]. intros [= <-]%critical_Some. by case_bool_decide.
  - unfold accept_fails. case_bool_decide; [|done]. intros [= <-]%critical_Some. by destruct (sv_running _).
Qed.

Lemma waiting_forever l w s s' :
  continues s s' → orphan l s → threads s !! w = Some StopWait → w < fresh s → threads s' !! w = Some StopWait.
Proof.
  induction 1 as [|a s s1 s2 Hos He _ IH]; [done|]. intros O Hw Hlt.
  apply IH; [by eapply orphan_exec|by eapply waiting_exec|]. pose proof (exec_fresh _ _ _ He). lia.
Qed.
End orphans.

(** ** One start and one stop *)

(** Nothing is open and nothing runs. *)
Definition idle (s : system) : Prop :=
  sv_running (proxy s) = false ∧ sv_mu_stuck (proxy s) = false ∧
  (∀ pool, sv_cfPool (proxy s) = Some pool → mu_held pool = false) ∧
  threads s = ∅ ∧ serving s = ∅ ∧ accept_loops s = ∅ ∧ listeners s = ∅.

(** The listeners a proxy with these addresses opens: SOCKS5 only if it has an
    address of its own. *)
Definition has_socks (p : ProxyServer) : bool :=
  nonempty (sv_socksAddr p) && negb (bool_decide (sv_socksAddr p = sv_listenAddr p)).

Definition expected_listeners (id : nat) (p : ProxyServer) : gmap listener string :=
  (if has_socks p then <[Socks id := sv_socksAddr p]> else λ m, m) {[Main id := sv_listenAddr p]}.

Definition start_schedule (id : nat) : list action := CallStart :: replicate 4 (Advance id true).

Definition stop_schedule (id : nat) (socks : bool) : list action :=
  [CallStop; Advance (S id) true] ++ (if socks then [AcceptFails id] else []) ++
  [Advance (S id) true; Advance (S id) true; ServeReturns id; ServeReports id].

Section cycle.
Context `{MR : MapRange}.

Lemma pool_call_ok (f : CloudflarePool → option (bool * CloudflarePool)) p :
  (∀ pool, sv_cfPool p = Some pool → mu_held pool = false) →
  (∀ pool, mu_held pool = false → ∃ b pool', f pool = Some (b, pool') ∧ mu_held pool' = false) →
  ∃ c, with_pool f p = Some (p {{ sv_cfPool := c }}) ∧ (∀ pool, c = Some pool → mu_held pool = false).
Proof.
  intros Hp Hf. unfold with_pool. destruct (sv_cfPool p) as [pool|] eqn:E.
  - destruct (Hf pool) as (b & pool' & -> & Hu); [by apply Hp|]. exists (Some pool'). split; [done|]. by intros ? [= <-].
  - exists None. split; [|done]. f_equal. destruct p. simpl in E. by subst.
Qed.

Lemma pool_start_ok pool : mu_held pool = false → ∃ b pool', CFPool.Start pool = Some (b, pool') ∧ mu_held pool' = false.
Proof. intros H. unfold CFPool.Start, locked. rewrite H. destruct (running pool); eauto. Qed.

Lemma pool_stop_ok pool : mu_held pool = false → ∃ b pool', CFPool.Stop pool = Some (b, pool') ∧ mu_held pool' = false.
Proof. intros H. unfold CFPool.Stop, locked. rewrite H. destruct (running pool); eauto. Qed.

Lemma bound_empty addr : bound addr ∅ = false.
Proof. unfold bound. rewrite map_to_list_empty. by apply bool_decide_eq_false; apply not_elem_of_nil. Qed.

Lemma bound_singleton addr ln a : bound addr {[ln := a]} = bool_decide (addr = a).
Proof. unfold bound. rewrite map_to_list_singleton. apply bool_decide_ext. simpl. set_solver. Qed.

(** The running system a start from an idle one leads to. *)
Definition started (s : system) (c : option CloudflarePool) : system :=
  let p := proxy s in let id := fresh s in
  mkSystem
    (mkProxyServer (Some id) (sv_listenAddr p) true (sv_mode p) c (sv_socksAddr p)
       (if has_socks p then Some id else sv_socksListener p) (has_socks p || sv_socksRunning p) false)
    (expected_listeners id p) (closed_servers s) {[id := true]} (if has_socks p then {[id]} else ∅) ∅ (S id).

Lemma advance_at id ok pc0 s : threads s !! id = Some pc0 → advance id ok s = advance_pc id ok pc0 s.
Proof. unfold advance. by intros ->. Qed.

(** Runs the next step of a call, which has got to [pc0]. *)
Ltac step_to pc0 :=
  unfold spawn, apply_update, constant; cbn;
  rewrite (advance_at _ _ pc0) by apply lookup_insert_eq;
  unfold advance_pc, critical, goto, finish, apply_update, constant; cbn; rewrite ?insert_insert_eq.

Lemma start_from_idle s :
  idle s → ∃ c, exec_all (start_schedule (fresh s)) s = Some (started s c) ∧ (∀ pool, c = Some pool → mu_held pool = false).
Proof.
  intros (Hr & Hst & Hp & Ht & Hs & Ha & Hl).
  destruct (pool_call_ok CFPool.Start (proxy s) Hp pool_start_ok) as (c & Ec & Hc). exists c. split; [|exact Hc].
  destruct s as [[srv la run mode pool sa sl sr st] L C SV A T n]. simpl in *. subst.
  unfold start_schedule. cbn [replicate exec_all exec fresh].
  unfold Start_begin, critical. cbn [proxy sv_mu_stuck sv_running]. rewrite Ec. clear Ec Hp.
  cbn [mbind option_bind]. step_to (StartListen la). unfold listen. cbn. rewrite bound_empty. cbn.
  step_to StartSocks. unfold started, expected_listeners, has_socks, listen. cbn.
  destruct (nonempty sa) eqn:Hn; cbn; [rewrite insert_empty, bound_singleton; destruct (bool_decide (sa = la)) eqn:Hb; cbn|].
  - step_to (StartPublish false). unfold Start_publish, critical, goto, apply_update, constant. cbn.
    step_to (StartSpawn false). by rewrite ?delete_insert_eq.
  - step_to (StartPublish true). unfold Start_publish, critical, goto, apply_update, constant. cbn.
    step_to (StartSpawn true). by rewrite ?delete_insert_eq, ?(right_id_L ∅ (∪)).
  - step_to (StartPublish false). unfold Start_publish, critical, goto, apply_update, constant. cbn.
    step_to (StartSpawn false). by rewrite ?delete_insert_eq.
Qed.

(** The idle system a stop leads back to. *)
Definition stopped (s : system) (c : option CloudflarePool) : system :=
  let p := proxy s in let id := fresh s in
  mkSystem
    (mkProxyServer (Some id) (sv_listenAddr p) false (sv_mode p) c (sv_socksAddr p) None false false)
    ∅ ({[id]} ∪ closed_servers s) ∅ ∅ ∅ (S (S id)).

(** From the wait on: the accept loops are gone, and the server is closed. *)
Lemma stop_tail p la C n :
  sv_Server p = Some n → sv_running p = false → sv_mu_stuck p = false →
  exec_all [Advance (S n) true; Advance (S n) true; ServeReturns n; ServeReports n]
    (mkSystem p {[Main n := la]} C {[n := true]} ∅ (<[S n := StopWait]> ∅) (S (S n))) =
  Some (mkSystem p ∅ ({[n]} ∪ C) ∅ ∅ ∅ (S (S n))).
Proof.
  intros Hs Hr Hst. destruct p as [srv l run mode c sa sl sr st]. simpl in *. subst. cbn [exec_all exec].
  step_to StopWait. rewrite bool_decide_true by done. cbn [mbind option_bind].
  step_to StopServer. rewrite delete_insert_eq by done.
  unfold serve_returns. cbn. rewrite lookup_singleton_eq. cbn.
  unfold serve_reports, critical, apply_update, constant. cbn. rewrite lookup_insert_eq, bool_decide_true by done. cbn.
  by rewrite delete_insert_eq, !delete_singleton_eq, delete_empty.
Qed.

Lemma stop_from_started s c0 :
  idle s → (∀ pool, c0 = Some pool → mu_held pool = false) →
  ∃ c, exec_all (stop_schedule (fresh s) (has_socks (proxy s))) (started s c0) = Some (stopped s c) ∧
    (∀ pool, c = Some pool → mu_held pool = false).
Proof.
  intros (Hr & Hst & Hp & Ht & Hs & Ha & Hl) Hc0.
  destruct s as [[srv la run mode pool sa sl sr st] L C SV A T n]. simpl in Hr, Hst, Ht, Hs, Ha, Hl. subst.
  unfold started, expected_listeners. cbn [proxy fresh].
  set (hs := has_socks _). unfold stop_schedule. cbn [exec_all exec app]. unfold Stop_begin, critical. cbn.
  match goal with |- context [with_pool CFPool.Stop ?p] => destruct (pool_call_ok CFPool.Stop p Hc0 pool_stop_ok) as (c & Ec & Hc) end.
  exists c. split; [|exact Hc]. rewrite Ec. clear Ec Hp Hc0. cbn [mbind option_bind].
  destruct hs; [|destruct sl as [m|]].
  - step_to (StopClose (Some n)). unfold accept_fails. cbn. rewrite bool_decide_true by set_solver.
    unfold critical, apply_update. cbn. rewrite delete_insert_eq by done.
    rewrite (difference_diag_L {[n]}). apply (stop_tail _ la); done.
  - step_to (StopClose (Some m)). rewrite delete_singleton_ne by done. apply (stop_tail _ la); done.
  - step_to (StopClose None). apply (stop_tail _ la); done.
Qed.
End cycle.

(** * Properties *)

Section properties.
Context `{MR : MapRange}.

(** C21: under any interleaving of starts, stops, setters and goroutines, the open
    main listeners are exactly those of starts under way and of serving goroutines;
    a proxy that says it runs has a current server with a goroutine, or a start
    about to spawn one; the SOCKS5 flag says whether a SOCKS5 listener is held; and
    the mode is one of the seven valid ones. *)
Theorem server_invariant addr s :
  reachable addr s →
  (∀ id, is_Some (listeners s !! Main id) ↔
     serving s !! id = Some true ∨ ∃ pc0, threads s !! id = Some pc0 ∧ holds_main pc0 = true) ∧
  (sv_running (proxy s) = true →
     ∃ srv, sv_Server (proxy s) = Some srv ∧ (is_Some (serving s !! srv) ∨ ∃ b, threads s !! srv = Some (StartSpawn b))) ∧
  sv_socksRunning (proxy s) = bool_decide (is_Some (sv_socksListener (proxy s))) ∧
  sv_mode (proxy s) ∈ valid_modes.
Proof.
  intros W%reachable_system_wf. split_and!;
    [apply (net_main _ _ _ _ (wf_net s W))|exact (wf_served s W)|apply (wf_socks s W)|apply (wf_mode s W)].
Qed.

(** From an idle proxy, a start whose listens succeed brings up the main
    listener and, when it has an address of its own, the SOCKS5 listener, each with
    its goroutine; the stop that follows runs to its end and leaves the proxy idle,
    every listener closed and every goroutine gone, with its settings as they were. *)
Theorem start_stop_cycle s :
  idle s →
  ∃ s1 s2,
    exec_all (start_schedule (fresh s)) s = Some s1 ∧
    sv_running (proxy s1) = true ∧ threads s1 = ∅ ∧ serving s1 = {[fresh s := true]} ∧
    listeners s1 = expected_listeners (fresh s) (proxy s) ∧
    accept_loops s1 = (if has_socks (proxy s) then {[fresh s]} else ∅) ∧
    exec_all (stop_schedule (fresh s) (has_socks (proxy s))) s1 = Some s2 ∧
    idle s2 ∧ sv_listenAddr (proxy s2) = sv_listenAddr (proxy s) ∧
    sv_socksAddr (proxy s2) = sv_socksAddr (proxy s) ∧ sv_mode (proxy s2) = sv_mode (proxy s).
Proof.
  intros H. destruct (start_from_idle s H) as (c & E1 & Hc). destruct (stop_from_started s c H Hc) as (c' & E2 & Hc').
  exists (started s c), (stopped s c'). by split_and!.
Qed.

Lemma reachable_exec_all addr l : ∀ s s', reachable addr s → exec_all l s = Some s' → reachable addr s'.
Proof.
  induction l as [|a l IH]; intros s s' R; simpl; [by intros [= <-]|].
  destruct (exec a s) as [s1|] eqn:E; [|done]. apply IH. by eapply reach_step.
Qed.

(** [Stop] can hang for good.  After the serving goroutine of one start failed
    and the SOCKS5 address was changed, a second start overwrites the only reference
    to the first SOCKS5 listener: the stop that follows waits for an accept loop
    nobody can end, in every continuation in which [Accept] fails only on closed
    listeners. *)
Theorem stop_hangs :
  ∃ s stop, reachable "127.0.0.1:8080" s ∧ threads s !! stop = Some StopWait ∧
    ∀ s', continues s s' → threads s' !! stop = Some StopWait.
Proof.
  set (l := [SetSOCKSAddr "127.0.0.1:1080"] ++ start_schedule 0 ++ [ServeReturns 0; ServeReports 0] ++
            [SetSOCKSAddr "127.0.0.1:1081"] ++ start_schedule 1 ++ [CallStop; Advance 2 true]).
  assert (H : ∃ s, exec_all l (boot "127.0.0.1:8080") = Some s ∧ threads s !! 2 = Some StopWait ∧ fresh s = 3 ∧ orphan 0 s).
  { eexists. split; [vm_compute; reflexivity|]. do 2 (split; [reflexivity|]). split.
    - exact (eq_refl : _ = Some ()).
    - by eexists.
    - split; [simpl; lia|reflexivity].
    - done.
    - match goal with |- ∀ id, ?T !! id ≠ _ =>
        assert (F : map_Forall (λ _ pc0, pc0 ≠ StopClose (Some 0)) T) by (apply (bool_decide_unpack _); vm_compute; exact I) end.
      intros id E. exact (F _ _ E eq_refl). }
  destruct H as (s & E & Hw & Hf & O). exists s, 2. split; [by eapply reachable_exec_all; [constructor|]|].
  split; [done|]. intros s' Hc. eapply waiting_forever; try done. lia.
Qed.
End properties.

(** ** Concrete runs *)

(** A second start that loses the race for the address stops the pool of the first. *)
Theorem lost_start_stops_pool `{MR : MapRange} :
  ∃ s pool, reachable "127.0.0.1:8080" s ∧ sv_running (proxy s) = true ∧ threads s = ∅ ∧
    sv_cfPool (proxy s) = Some pool ∧ running pool = false.
Proof.
  set (l := [CallStart; CallStart] ++ replicate 4 (Advance 0 true) ++ [Advance 1 true; Advance 1 true]).
  assert (H : ∃ s pool, exec_all l (boot "127.0.0.1:8080") = Some s ∧ sv_running (proxy s) = true ∧ threads s = ∅ ∧
    sv_cfPool (proxy s) = Some pool ∧ running pool = false).
  { eexists _, _. split; [vm_compute; reflexivity|]. by split_and!. }
  destruct H as (s & pool & E & H). exists s, pool. split; [by eapply reachable_exec_all; [constructor|]|done].
Qed.

Definition demo_boot : system := boot "127.0.0.1:8080".

Lemma server_invariant_witness :
  ∃ s, exec_all (start_schedule 0 ++ [ServeReturns 0]) demo_boot = Some s ∧
    sv_running (proxy s) = true ∧ listeners s !! Main 0 = None ∧
    ∃ srv, sv_Server (proxy s) = Some srv ∧ (is_Some (serving s !! srv) ∨ ∃ b, threads s !! srv = Some (StartSpawn b)).
Proof.
  eexists. split; [vm_compute; reflexivity|]. split; [reflexivity|]. split; [reflexivity|].
  eapply (server_invariant "127.0.0.1:8080"); [|reflexivity].
  eapply (reachable_exec_all _ (start_schedule 0 ++ [ServeReturns 0])); [constructor|vm_compute; reflexivity].
Defined.

Lemma start_stop_cycle_witness :
  ∃ s1 s2, exec_all (start_schedule 0) demo_boot = Some s1 ∧ listeners s1 = {[Main 0 := "127.0.0.1:8080"]} ∧
    exec_all (stop_schedule 0 false) s1 = Some s2 ∧ idle s2.
Proof.
  destruct (start_stop_cycle demo_boot) as (s1 & s2 & H1 & _ & _ & _ & H2 & _ & H3 & H4 & _).
  { split_and!; try reflexivity. intros pool H. injection H as <-. reflexivity. }
  exists s1, s2. by split_and!.
Defined.
