(* ===== verification/Doh.v ===== *)
(** [proxy/doh.go]: the failover resolver, with [resolveRuleECHConfig] and
    [FetchECH] of [proxy/proxy.go], which call back into it.

    The DNS library's messages are modelled by a question and the answer records
    the program looks at.  Parsing of URLs, dials, the HTTP exchange over TLS or
    QUIC and the system resolver are arguments.  Looking up an ECH configuration,
    or the addresses of a QUIC node, may ask the resolver again, which may look up
    the same again: [exchange] recurses on fuel and [None] is a call that has not
    come back yet.
    Deadlines are left out: a wait that only a deadline ends does not end here.
    The goroutines of the parallel race run in the order of their answers, up to
    the first success, which cancels the others. *)

From Stdlib Require Import Strings.Byte.
From coqutil Require Import Datatypes.RecordSetters.
From S2P Require Import Prelude GoStrings GoNet GoBytes Types Base64 Hosts Settings Rules Dial.

Import DoubleBraceUpdate.

Open Scope Z_scope.

(** * Messages *)

Inductive qtype := TypeA | TypeAAAA | TypeHTTPS.

#[export] Instance qtype_eq_dec : EqDecision qtype.
Proof. solve_decision. Defined.

Record question := mkQuestion { q_Name : string; q_Qtype : qtype }.

Inductive svcb := SVCBECHConfig (ech : list byte) | SVCBOther.

Inductive rr := RR_A (ip : IP) | RR_AAAA (ip : IP) | RR_HTTPS (value : list svcb) | RR_Other.

(** What an HTTP exchange with a node ends in: an error of the client, or a status
    with the message the body unpacks to. *)
Inductive http_result := TransportError | Status (code : Z) (body : option (list rr)).

(** [ip.To16()] of a non-nil address. *)
Definition To16 (ip : IP) : option IP :=
  if (length ip =? 4)%nat then Some (v4in6_prefix ++ ip)
  else if (length ip =? 16)%nat then Some ip else None.

(** The first ECH configuration of an answer. *)
Fixpoint ech_of_values (vs : list svcb) : option (list byte) :=
  match vs with
  | [] => None
  | SVCBECHConfig ech :: _ => Some ech
  | SVCBOther :: vs' => ech_of_values vs'
  end.

Fixpoint ech_of_answers (l : list rr) : option (list byte) :=
  match l with
  | [] => None
  | RR_HTTPS vs :: l' => match ech_of_values vs with Some ech => Some ech | None => ech_of_answers l' end
  | _ :: l' => ech_of_answers l'
  end.

(** * Appending addresses *)

(** One of the two lookups of [ResolveIPAddrs]: the addresses still to append to
    the shared slice, and the slice it has read for the append under way.  Neither
    lookup takes a lock around [ips = append(ips, ...)]. *)
Record appender := mkAppender { todo : list IP; read_slice : option (list IP) }.

Definition append_step (shared : list IP) (a : appender) : list IP * appender :=
  match todo a, read_slice a with
  | _ :: _, None => (shared, mkAppender (todo a) (Some shared))
  | ip :: rest, Some l => (l ++ [ip], mkAppender rest None)
  | [], _ => (shared, a)
  end.

(** What is left of a lookup once the other has ended. *)
Definition append_rest (shared : list IP) (a : appender) : list IP :=
  match todo a with
  | [] => shared
  | _ => default shared (read_slice a) ++ todo a
  end.

(** The schedule says whose turn it is: [true] for the A lookup. *)
Fixpoint collect (sched : list bool) (shared : list IP) (a b : appender) : list IP :=
  match sched with
  | [] => append_rest (append_rest shared a) b
  | true :: sched' => let '(shared', a') := append_step shared a in collect sched' shared' a' b
  | false :: sched' => let '(shared', b') := append_step shared b in collect sched' shared' a b'
  end.

Definition ips_of (r : outcome (list rr)) : list IP :=
  match r with
  | Ok answers => omap (λ x, match x with RR_A ip | RR_AAAA ip => Some ip | _ => None end) answers
  | _ => []
  end.

Section doh.
(** The environment. *)
Context (parse_url : string → option (string * string)).      (** [url.Parse]: host name and port *)
Context (Fqdn : string → string).                              (** [dns.Fqdn] *)
Context (dial_ok : string → bool).                             (** [dialWithRule] *)
Context (over_tls : DNSNode → list byte → question → http_result). (** uTLS and HTTP, with an ECH config *)
Context (over_quic : DNSNode → list string → list byte → question → http_result). (** HTTP/3 over the candidates, with an ECH config *)
Context (arrivals : list DNSNode → list DNSNode).              (** the order the race's answers come in *)
Context (sys : system_dns).                                    (** [net.LookupIP] *)
Context (schedule : string → list bool).                       (** whose turn it is in the lookups of a QUIC node's host *)
Context (save_answer : RuleManager → write_result RulesConfig).

Definition result (A : Type) : Type := option (outcome A * RuleManager).

Definition rbind {A B} (m : result A) (k : A → RuleManager → result B) : result B :=
  match m with
  | None => None
  | Some (Ok a, rm) => k a rm
  | Some (Err e, rm) => Some (Err e, rm)
  | Some (Panic, rm) => Some (Panic, rm)
  end.

Section body.
(** The resolver, as the functions below call it. *)
Context (exch : RuleManager → question → result (list rr)).

(** * ECH configurations *)

Definition ResolveECH (rm : RuleManager) (domain : string) : result (list byte) :=
  rbind (exch rm (mkQuestion (Fqdn domain) TypeHTTPS)) (λ answers rm',
    match ech_of_answers answers with
    | Some ech => Some (Ok ech, rm')
    | None => Some (Err ("no ECH config found for " +:+ domain), rm')
    end).

(** [p.UpdateECHProfileConfig], whose error is dropped. *)
Definition sync_profile (id : string) (ech : list byte) (rm : RuleManager) : RuleManager :=
  snd (UpdateECHProfileConfig id ech (save_answer rm) rm).

(** [resolveRuleECHConfig] for the rule [getNodeClient] makes of a node. *)
Definition resolveRuleECHConfig (rm : RuleManager) (host : string) (node : DNSNode) : option (list byte * RuleManager) :=
  if negb (dn_ECHEnabled node) then Some ([], rm)
  else
    let data := if nonempty (dn_ECHProfileID node) then default [] (GetBinaryECHConfig (dn_ECHProfileID node) rm) else [] in
    match data with
    | _ :: _ => Some (data, rm)
    | [] =>
        if dn_ECHAutoUpdate node then
          match ResolveECH rm host with
          | None => None
          | Some (Ok (b :: ech), rm') =>
              Some (b :: ech, if nonempty (dn_ECHProfileID node) then sync_profile (dn_ECHProfileID node) (b :: ech) rm' else rm')
          | Some (_, rm') => Some ([], rm')
          end
        else Some ([], rm)
    end.

(** * Addresses of hosts *)

Definition is_doh_host (rm : RuleManager) (domain : string) : bool :=
  existsb (λ n,
    match parse_url (dn_URL n) with
    | Some (h, _) => EqualFold h domain || EqualFold h (TrimSuffix domain ".")
    | None => false
    end) (dnsNodes rm).

Definition lookup_all (sched : list bool) (rm : RuleManager) (domain : string) : result (list IP) :=
  match exch rm (mkQuestion (Fqdn domain) TypeA) with
  | None => None
  | Some (ra, rm1) =>
      match exch rm1 (mkQuestion (Fqdn domain) TypeAAAA) with
      | None => None
      | Some (rb, rm2) =>
          Some (match collect sched [] (mkAppender (ips_of ra) None) (mkAppender (ips_of rb) None) with
                | ip :: ips => Ok (ip :: ips)
                | [] =>
                    match (if hd true sched then (ra, rb) else (rb, ra)) with
                    | (Err e, _) | (_, Err e) => Err e
                    | _ => Err ("no IP records found for " +:+ domain)
                    end
                end, rm2)
      end
  end.

Definition ResolveIPAddrs (sched : list bool) (rm : RuleManager) (domain : string) : result (list IP) :=
  if is_doh_host rm domain then
    match sys domain with
    | Some (ip :: ips) => Some (Ok (ip :: ips), rm)
    | _ => lookup_all sched rm domain
    end
  else lookup_all sched rm domain.

Definition ResolveIPs (sched : list bool) (rm : RuleManager) (domain : string) : result (list string) :=
  rbind (ResolveIPAddrs sched rm domain) (λ ips rm', Some (Ok (IP_String <$> ips), rm')).

(** * One node *)

(** The addresses [getNodeClient]'s dialer tries. *)
Definition node_candidates (node : DNSNode) (host port : string) : list string :=
  let port := if nonempty port then port else "443" in
  match dn_IPs node with
  | [] => [JoinHostPort host port]
  | ips => (λ ip, JoinHostPort ip port) <$> ips
  end.

(** [client.Do]: the dial, the ECH configuration, then TLS and HTTP. *)
Definition client_do (rm : RuleManager) (node : DNSNode) (host port : string) (q : question)
    : option (http_result * RuleManager) :=
  if existsb dial_ok (node_candidates node host port) then
    match resolveRuleECHConfig rm host node with
    | None => None
    | Some (ech, rm') => Some (over_tls node ech q, rm')
    end
  else Some (TransportError, rm).

Definition http_answer (r : http_result) : outcome (list rr) :=
  match r with
  | TransportError => Err "transport"
  | Status code body =>
      if negb (code =? 200) then Err ("DoH server returned status " +:+ Itoa code)
      else match body with Some answers => Ok answers | None => Err "unpack" end
  end.

(** The addresses of a QUIC node: [buildDialCandidates] for the rule of a node, which names
    neither an upstream nor the pool, asks this resolver for the host. *)
Definition node_quic_candidates (rm : RuleManager) (host : string) : option (list string * RuleManager) :=
  let domain := normalizeHost host in
  let candidates doh := nonempty_or (resolve_or_system doh sys host "") [JoinHostPort host "443"] in
  if bool_decide (domain = "") || isLiteralIP domain then Some (candidates None, rm)
  else match ResolveIPAddrs (schedule domain) rm domain with
       | None => None
       | Some (r, rm') => Some (candidates (Some (λ _, r)), rm')
       end.

(** [getNodeClient] and the request; [None] in the first component of the answer
    is an error before any exchange. *)
Definition ask_node (rm : RuleManager) (node : DNSNode) (q : question) : option (option http_result * RuleManager) :=
  match parse_url (dn_URL node) with
  | None => Some (None, rm)
  | Some (host, port) =>
      if dn_QUIC node then
        match node_quic_candidates rm host with
        | None => None
        | Some (candidates, rm1) =>
            match resolveRuleECHConfig rm1 host node with
            | None => None
            | Some (ech, rm2) => Some (Some (over_quic node candidates ech q), rm2)
            end
        end
      else (λ r, (Some (fst r), snd r)) <$> client_do rm node host port q
  end.

(** [exchangeNodeWithRetry] without a retry. *)
Definition exchange_once (rm : RuleManager) (node : DNSNode) (q : question) : result (list rr) :=
  match ask_node rm node q with
  | None => None
  | Some (None, rm') => Some (Err "no client", rm')
  | Some (Some r, rm') => Some (http_answer r, rm')
  end.

(** [exchangeSafe]: the enabled nodes without ECH, in order. *)
Fixpoint try_safe (rm : RuleManager) (nodes : list DNSNode) (q : question) : result (list rr) :=
  match nodes with
  | [] => Some (Err "all safe DNS resolution attempts failed", rm)
  | node :: nodes' =>
      match exchange_once rm node q with
      | None => None
      | Some (Ok answers, rm') => Some (Ok answers, rm')
      | Some (_, rm') => try_safe rm' nodes' q
      end
  end.

Definition safe_nodes (rm : RuleManager) : list DNSNode :=
  List.filter (λ n, dn_Enabled n && negb (dn_ECHEnabled n)) (dnsNodes rm).

Definition exchangeSafe (rm : RuleManager) (q : question) : result (list rr) :=
  match safe_nodes rm with
  | [] => Some (Err "no safe (non-ECH) DNS nodes available for fallback", rm)
  | nodes => try_safe rm nodes q
  end.

Definition ResolveECHSafe (rm : RuleManager) (domain : string) : result (list byte) :=
  rbind (exchangeSafe rm (mkQuestion (Fqdn domain) TypeHTTPS)) (λ answers rm',
    match ech_of_answers answers with
    | Some ech => Some (Ok ech, rm')
    | None => Some (Err ("no ECH config found via safe source for " +:+ domain), rm')
    end).

(** [exchangeNode]: with one retry after an ECH refresh from a safe node. *)
Definition exchangeNode (rm : RuleManager) (node : DNSNode) (q : question) : result (list rr) :=
  match ask_node rm node q with
  | None => None
  | Some (None, rm') => Some (Err "no client", rm')
  | Some (Some TransportError, rm') =>
      if dn_ECHEnabled node && dn_ECHAutoUpdate node then
        match parse_url (dn_URL node) with
        | None => Some (Err "transport", rm')
        | Some (host, _) =>
            match ResolveECHSafe rm' host with
            | None => None
            | Some (Ok (b :: ech), rm'') =>
                let rm'' := if nonempty (dn_ECHProfileID node) then sync_profile (dn_ECHProfileID node) (b :: ech) rm'' else rm'' in
                exchange_once rm'' node q
            | Some (_, rm'') => Some (Err "transport", rm'')
            end
        end
      else Some (Err "transport", rm')
  | Some (Some r, rm') => Some (http_answer r, rm')
  end.

(** [TestNode]: one node, without failover. *)
Definition TestNode (rm : RuleManager) (node : DNSNode) : result (list string) :=
  rbind (exchangeNode rm node (mkQuestion (Fqdn "cloudflare.com") TypeA)) (λ answers rm',
    match omap (λ x, match x with RR_A ip => Some (IP_String ip) | _ => None end) answers with
    | ip :: ips => Some (Ok (ip :: ips), rm')
    | [] => Some (Err "no A records returned", rm')
    end).

(** * Failover *)

(** The answers of the race, in the order they arrive. *)
Fixpoint race (rm : RuleManager) (nodes : list DNSNode) (q : question) : option (option (list rr) * RuleManager) :=
  match nodes with
  | [] => Some (None, rm)
  | node :: nodes' =>
      match exchangeNode rm node q with
      | None => None
      | Some (Ok answers, rm') => Some (Some answers, rm')
      | Some (_, rm') => race rm' nodes' q
      end
  end.

(** The records the system resolver's addresses give for a question. *)
Definition system_records (t : qtype) (ips : list IP) : list rr :=
  omap (λ ip,
    match To4 ip, t with
    | Some ip4, TypeA => Some (RR_A ip4)
    | _, TypeAAAA => RR_AAAA <$> To16 ip
    | _, _ => None
    end) ips.

Definition system_exchange (q : question) : outcome (list rr) :=
  match q_Qtype q with
  | TypeHTTPS => Err "all DNS resolution attempts failed"
  | t =>
      match sys (TrimSuffix (q_Name q) ".") with
      | Some (ip :: ips) => Ok (system_records t (ip :: ips))
      | _ => Err "all DNS resolution attempts failed"
      end
  end.

Definition active_nodes (rm : RuleManager) : list DNSNode := List.filter dn_Enabled (dnsNodes rm).

Definition exchange_body (rm : RuleManager) (q : question) : result (list rr) :=
  match active_nodes rm with
  | [] => Some (system_exchange q, rm)
  | primary :: others =>
      match exchangeNode rm primary q with
      | None => None
      | Some (Ok answers, rm') => Some (Ok answers, rm')
      | Some (_, rm') =>
          match race rm' (arrivals others) q with
          | None => None
          | Some (Some answers, rm'') => Some (Ok answers, rm'')
          | Some (None, rm'') => Some (system_exchange q, rm'')
          end
      end
  end.
End body.

Fixpoint exchange (fuel : nat) (rm : RuleManager) (q : question) : result (list rr) :=
  match fuel with
  | O => None
  | S fuel' => exchange_body (exchange fuel') rm q
  end.

End doh.

(** * Appending without a lock *)

Lemma append_rest_subset (P : IP → Prop) shared a :
  (∀ x, x ∈ shared → P x) → (∀ x, x ∈ todo a → P x) → (∀ l x, read_slice a = Some l → x ∈ l → P x) →
  ∀ x, x ∈ append_rest shared a → P x.
Proof.
  intros Hs Ht Hl x. unfold append_rest. destruct (todo a) as [|ip rest] eqn:E; [apply Hs|].
  intros [Hx|Hx]%elem_of_app; [|by apply Ht]. destruct (read_slice a) as [l|] eqn:El; [by eapply Hl|by apply Hs].
Qed.

Lemma append_step_subset (P : IP → Prop) shared a shared' a' :
  append_step shared a = (shared', a') →
  (∀ x, x ∈ shared → P x) → (∀ x, x ∈ todo a → P x) → (∀ l x, read_slice a = Some l → x ∈ l → P x) →
  (∀ x, x ∈ shared' → P x) ∧ (∀ x, x ∈ todo a' → P x) ∧ (∀ l x, read_slice a' = Some l → x ∈ l → P x).
Proof.
  unfold append_step. intros E Hs Ht Hl. destruct (todo a) as [|ip rest] eqn:Et; [by injection E as <- <-; rewrite Et|].
  destruct (read_slice a) as [l|] eqn:El; injection E as <- <-; simpl.
  - split_and!; [|intros x Hx; apply Ht; by right|done]. intros x [Hx|Hx]%elem_of_app; [by eapply Hl|].
    apply Ht. apply list_elem_of_singleton in Hx as ->. left.
  - split_and!; [done|done|]. intros l x [= <-]. apply Hs.
Qed.

Lemma collect_subset (P : IP → Prop) sched : ∀ shared a b,
  (∀ x, x ∈ shared → P x) → (∀ x, x ∈ todo a → P x) → (∀ l x, read_slice a = Some l → x ∈ l → P x) →
  (∀ x, x ∈ todo b → P x) → (∀ l x, read_slice b = Some l → x ∈ l → P x) →
  ∀ x, x ∈ collect sched shared a b → P x.
Proof.
  induction sched as [|[] sched IH]; intros shared a b Hs Ha Hla Hb Hlb x; cbn [collect].
  - apply append_rest_subset; [|done..]. by apply append_rest_subset.
  - destruct (append_step shared a) as [shared' a'] eqn:E.
    destruct (append_step_subset P _ _ _ _ E) as (? & ? & ?); [done..|]. by apply IH.
  - destruct (append_step shared b) as [shared' b'] eqn:E.
    destruct (append_step_subset P _ _ _ _ E) as (? & ? & ?); [done..|]. by apply IH.
Qed.

(** Something has been written or is still to be written. *)
Definition pending (shared : list IP) (a b : appender) : Prop := shared ≠ [] ∨ todo a ≠ [] ∨ todo b ≠ [].

Lemma append_rest_nonempty shared a : shared ≠ [] ∨ todo a ≠ [] → append_rest shared a ≠ [].
Proof.
  unfold append_rest. destruct (todo a) as [|ip rest]; [by intros []|]. intros _ E. by apply app_eq_nil in E as [_ ?].
Qed.

Lemma append_step_pending shared a shared' a' :
  append_step shared a = (shared', a') → shared ≠ [] ∨ todo a ≠ [] → shared' ≠ [] ∨ todo a' ≠ [].
Proof.
  unfold append_step. destruct (todo a) as [|ip rest] eqn:Et; [intros [= <- <-]; by rewrite Et|].
  destruct (read_slice a) as [l|]; intros [= <- <-] _; [left; by destruct l|by right].
Qed.

Lemma append_step_grows shared a shared' a' : append_step shared a = (shared', a') → shared ≠ [] → shared' ≠ [].
Proof.
  unfold append_step. destruct (todo a) as [|ip rest]; [by intros [= <- <-]|]. destruct (read_slice a) as [l|]; intros [= <- <-]; [by destruct l|done].
Qed.

Lemma collect_nonempty sched : ∀ shared a b, pending shared a b → collect sched shared a b ≠ [].
Proof.
  induction sched as [|[] sched IH]; intros shared a b H; cbn [collect].
  - apply append_rest_nonempty. destruct H as [H|[H|H]]; [left|left|by right]; apply append_rest_nonempty; auto.
  - destruct (append_step shared a) as [shared' a'] eqn:E. apply IH. destruct H as [H|[H|H]].
    + left. by eapply append_step_grows.
    + destruct (append_step_pending _ _ _ _ E); [by right|by left|by right; left].
    + by right; right.
  - destruct (append_step shared b) as [shared' b'] eqn:E. apply IH. destruct H as [H|[H|H]].
    + left. by eapply append_step_grows.
    + by right; left.
    + destruct (append_step_pending _ _ _ _ E); [by right|by left|by right; right].
Qed.

(** Running one lookup to its end, when it is not in the middle of an append. *)
Lemma collect_drain sched b l : ∀ shared,
  collect (replicate (2 * length l) true ++ sched) shared (mkAppender l None) b
  = collect sched (shared ++ l) (mkAppender [] None) b.
Proof.
  induction l as [|ip l IH]; intros shared; [by rewrite app_nil_r|].
  replace (2 * length (ip :: l))%nat with (S (S (2 * length l))) by (simpl; lia).
  cbn [replicate app]. cbn -[Nat.mul]. rewrite IH. by rewrite <- app_assoc.
Qed.

(** * The resolver *)

(** What an exchange may change: the ECH profiles, and the file they are saved to. *)
Record same_but_profiles (rm rm' : RuleManager) : Prop := {
  sb_rules : rules rm' = rules rm;
  sb_groups : siteGroups rm' = siteGroups rm;
  sb_upstreams : upstreams rm' = upstreams rm;
  sb_nodes : dnsNodes rm' = dnsNodes rm;
  sb_settings : settings rm' = settings rm;
}.

#[export] Instance same_but_profiles_refl : Reflexive same_but_profiles.
Proof. by split. Qed.

#[export] Instance same_but_profiles_trans : Transitive same_but_profiles.
Proof. intros a b c [] []. split; congruence. Qed.

Lemma find_update_first_ne id id' f (l : list ECHProfile) :
  id ≠ id' → (∀ q, ep_ID (f q) = ep_ID q) →
  List.find (has_epID id') (update_first (has_epID id) f l) = List.find (has_epID id') l.
Proof.
  intros Hne Hf. induction l as [|q l IH]; simpl; [done|]. destruct (has_epID id q) eqn:Hq; simpl.
  - unfold has_epID in *. rewrite Hf. apply bool_decide_eq_true in Hq.
    rewrite bool_decide_false by congruence. done.
  - destruct (has_epID id' q); [done|exact IH].
Qed.

Section resolver.
Context (parse_url : string → option (string * string)) (Fqdn : string → string) (dial_ok : string → bool).
Context (over_tls : DNSNode → list byte → question → http_result) (over_quic : DNSNode → list string → list byte → question → http_result).
Context (arrivals : list DNSNode → list DNSNode) (sys : system_dns) (schedule : string → list bool) (save_answer : RuleManager → write_result RulesConfig).
(** The answers of a race come from its nodes, each once. *)
Context (arrivals_perm : ∀ l, arrivals l ≡ₚ l).

Notation sync := (sync_profile save_answer).
Notation resolve_ech := (resolveRuleECHConfig Fqdn save_answer).
Notation once := (exchange_once parse_url Fqdn dial_ok over_tls over_quic sys schedule save_answer).
Notation full := (exchangeNode parse_url Fqdn dial_ok over_tls over_quic sys schedule save_answer).
Notation exch_all := (exchange parse_url Fqdn dial_ok over_tls over_quic arrivals sys schedule save_answer).
Notation body := (exchange_body parse_url Fqdn dial_ok over_tls over_quic arrivals sys schedule save_answer).

Lemma sync_same id ech rm : same_but_profiles rm (sync id ech rm).
Proof.
  unfold sync_profile, UpdateECHProfileConfig. destruct (_ || _); [done|]. destruct (List.find _ _) as [p|]; [|done].
  destruct (bool_decide _); [done|].
  match goal with |- context [saveRulesConfig ?w ?x] => pose proof (saveRulesConfig_fields w x) as (? & ? & ? & ? & ? & ? & ?) end.
  by split.
Qed.

(** The configuration data of a node's own profile. *)
Definition profile_data (rm : RuleManager) (node : DNSNode) : list byte :=
  if nonempty (dn_ECHProfileID node) then default [] (GetBinaryECHConfig (dn_ECHProfileID node) rm) else [].

(** Connecting to the node never looks up an ECH configuration. *)
Definition ech_at_hand (rm : RuleManager) (node : DNSNode) : bool :=
  negb (dn_ECHEnabled node) || negb (dn_ECHAutoUpdate node) || negb (length (profile_data rm node) =? 0)%nat.

(** The host of a node is an address, or known for one of the nodes' to the resolver and to the
    system. *)
Definition known_host (rm : RuleManager) (node : DNSNode) : bool :=
  match parse_url (dn_URL node) with
  | None => true
  | Some (host, _) =>
      let domain := normalizeHost host in
      bool_decide (domain = "") || isLiteralIP domain ||
      (is_doh_host parse_url rm domain && match sys domain with Some (_ :: _) => true | _ => false end)
  end.

(** Asking the node needs no other exchange. *)
Definition quiet (rm : RuleManager) (node : DNSNode) : bool := ech_at_hand rm node && (negb (dn_QUIC node) || known_host rm node).

Definition all_quiet (rm : RuleManager) : Prop := ∀ n, n ∈ dnsNodes rm → dn_Enabled n = true → quiet rm n = true.

Lemma GetBinary_nonempty id rm data : GetBinaryECHConfig id rm = Some data → data ≠ [].
Proof.
  unfold GetBinaryECHConfig. destruct (List.find _ _); [|done]. destruct (DecodeString _) as [d|]; [|done].
  destruct (Nat.ltb_spec 0 (length d)); [|done]. intros [= <-]. intros ->. simpl in *. lia.
Qed.

Lemma sync_keeps_data id id' b ech rm :
  is_Some (GetBinaryECHConfig id' rm) → is_Some (GetBinaryECHConfig id' (sync id (b :: ech) rm)).
Proof.
  intros Hs. destruct (decide (id = "")) as [->|Hid].
  { unfold sync_profile, UpdateECHProfileConfig. rewrite bool_decide_true by done. exact Hs. }
  destruct (List.find (has_epID id) (echProfiles rm)) as [p|] eqn:Hf.
  2: { unfold sync_profile, UpdateECHProfileConfig. rewrite bool_decide_false by done. simpl. by rewrite Hf. }
  destruct (decide (id = id')) as [->|Hne].
  - unfold sync_profile. destruct (UpdateECHProfileConfig id' (b :: ech) (save_answer rm) rm) as [r rm'] eqn:E.
    exists (b :: ech). apply (ECHConfig_roundtrip id' (b :: ech) (save_answer rm) rm r rm'); [done|done|by exists p|exact E].
  - unfold sync_profile, UpdateECHProfileConfig. rewrite bool_decide_false by done. simpl. rewrite Hf.
    destruct (bool_decide _); [done|].
    match goal with |- context [saveRulesConfig ?w ?x] => pose proof (saveRulesConfig_fields w x) as (_ & _ & _ & _ & He & _) end.
    unfold GetBinaryECHConfig in *. rewrite He. simpl. by rewrite (find_update_first_ne id id') by done.
Qed.

Lemma is_doh_host_nodes rm rm' domain :
  same_but_profiles rm rm' → is_doh_host parse_url rm' domain = is_doh_host parse_url rm domain.
Proof. intros H. unfold is_doh_host. by rewrite (sb_nodes _ _ H). Qed.

Lemma ech_at_hand_sync id b ech rm n : ech_at_hand rm n = true → ech_at_hand (sync id (b :: ech) rm) n = true.
Proof.
  unfold ech_at_hand, profile_data. rewrite !orb_true_iff. intros [H|H]; [by left|right].
  destruct (nonempty (dn_ECHProfileID n)); [|done]. rewrite !negb_true_iff, !Nat.eqb_neq in *.
  destruct (GetBinaryECHConfig (dn_ECHProfileID n) rm) as [data|] eqn:E; [|done].
  destruct (sync_keeps_data id (dn_ECHProfileID n) b ech rm) as [d Hd]; [by eexists|]. rewrite Hd.
  apply GetBinary_nonempty in Hd. by destruct d.
Qed.

Lemma quiet_sync id b ech rm n : quiet rm n = true → quiet (sync id (b :: ech) rm) n = true.
Proof.
  unfold quiet, known_host. rewrite !andb_true_iff. intros [He Hq]. split; [by apply ech_at_hand_sync|].
  destruct (parse_url (dn_URL n)) as [[host port]|]; [|done]. by rewrite (is_doh_host_nodes rm _ _ (sync_same id (b :: ech) rm)).
Qed.

Lemma all_quiet_sync id b ech rm : all_quiet rm → all_quiet (sync id (b :: ech) rm).
Proof.
  intros H n. rewrite (sb_nodes _ _ (sync_same id (b :: ech) rm)). intros Hn He. by apply quiet_sync, H.
Qed.

Lemma quiet_resolve exch rm host node :
  ech_at_hand rm node = true →
  resolve_ech exch rm host node = Some (if dn_ECHEnabled node then profile_data rm node else [], rm).
Proof.
  unfold ech_at_hand, resolveRuleECHConfig. intros Hq. fold (profile_data rm node).
  destruct (dn_ECHEnabled node); [|done]. simpl in *. destruct (profile_data rm node); [|done].
  by destruct (dn_ECHAutoUpdate node).
Qed.

Notation quic_candidates := (node_quic_candidates parse_url Fqdn sys schedule).

Lemma known_candidates rm node host port :
  parse_url (dn_URL node) = Some (host, port) → known_host rm node = true → ∃ candidates, ∀ exch, quic_candidates exch rm host = Some (candidates, rm).
Proof.
  unfold known_host, node_quic_candidates. intros -> Hk. cbv zeta in *. destruct (bool_decide (normalizeHost host = "") || isLiteralIP (normalizeHost host)); [by eexists|].
  apply andb_true_iff in Hk as [Hd Hs]. unfold ResolveIPAddrs. rewrite Hd. destruct (sys (normalizeHost host)) as [[|ip ips]|]; [done|by eexists|done].
Qed.

(** Asking a quiet node leaves the manager alone and does not need the resolver. *)
Lemma quiet_ask rm node q :
  quiet rm node = true →
  ∃ r, ∀ exch, ask_node parse_url Fqdn dial_ok over_tls over_quic sys schedule save_answer exch rm node q = Some (r, rm).
Proof.
  intros [He Hk]%andb_true_iff. unfold ask_node, client_do. destruct (parse_url _) as [[host port]|] eqn:Eu; [|by eexists].
  destruct (dn_QUIC node) eqn:E.
  - destruct (known_candidates rm node host port Eu Hk) as [candidates Hc]. eexists. intros exch. by rewrite Hc, quiet_resolve.
  - destruct (existsb _ _); [|by eexists]. eexists. intros exch. by rewrite quiet_resolve.
Qed.

Lemma quiet_once rm node q : quiet rm node = true → ∃ r, ∀ exch, once exch rm node q = Some (r, rm).
Proof.
  intros Hq. destruct (quiet_ask rm node q Hq) as [r H]. unfold exchange_once.
  destruct r as [r|]; eexists; intros exch; by rewrite H.
Qed.

Lemma quiet_try_safe rm q nodes :
  (∀ n, n ∈ nodes → quiet rm n = true) →
  ∃ r, ∀ exch, try_safe parse_url Fqdn dial_ok over_tls over_quic sys schedule save_answer exch rm nodes q = Some (r, rm).
Proof.
  induction nodes as [|n nodes IH]; intros Hq; cbn [try_safe]; [by eexists|].
  destruct (quiet_once rm n q) as [r H]; [apply Hq; left|].
  destruct IH as [r' H']; [intros; apply Hq; by right|].
  destruct r as [a|e|]; eexists; intros exch; rewrite H; [done|apply H'|apply H'].
Qed.

Lemma quiet_safe rm domain :
  all_quiet rm →
  ∃ r, ∀ exch, ResolveECHSafe parse_url Fqdn dial_ok over_tls over_quic sys schedule save_answer exch rm domain = Some (r, rm).
Proof.
  intros Ha. unfold ResolveECHSafe, exchangeSafe.
  assert (Hs : ∀ n, n ∈ safe_nodes rm → quiet rm n = true).
  { intros n [Hn [He _]%andb_true_iff]%elem_of_filter_bool. by apply Ha. }
  destruct (safe_nodes rm) as [|n ns]; [by eexists|].
  destruct (quiet_try_safe rm (mkQuestion (Fqdn domain) TypeHTTPS) (n :: ns) Hs) as [r H].
  destruct r as [a|e|]; eexists; intros exch; rewrite H; simpl; [|done|done].
  instantiate (1 := match ech_of_answers a with Some ech => Ok ech | None => _ end). by destruct (ech_of_answers a).
Qed.

(** A query to a quiet node comes back, and leaves every node quiet. *)
Lemma quiet_full rm node q :
  all_quiet rm → quiet rm node = true →
  ∃ r rm', (∀ exch, full exch rm node q = Some (r, rm')) ∧ all_quiet rm' ∧ same_but_profiles rm rm' ∧
    ∀ n, quiet rm n = true → quiet rm' n = true.
Proof.
  intros Ha Hq. unfold exchangeNode. destruct (quiet_ask rm node q Hq) as [r H].
  destruct r as [[|code b]|]; [|by (eexists _, rm; split_and!; [intros exch; by rewrite H|..])..].
  destruct (dn_ECHEnabled node && dn_ECHAutoUpdate node); [|by (eexists _, rm; split_and!; [intros exch; by rewrite H|..])].
  destruct (parse_url (dn_URL node)) as [[host port]|]; [|by (eexists _, rm; split_and!; [intros exch; by rewrite H|..])].
  destruct (quiet_safe rm host Ha) as [rs Hs].
  destruct rs as [[|b ech]|e|]; [by (eexists _, rm; split_and!; [intros exch; by rewrite H, Hs|..])| |by (eexists _, rm; split_and!; [intros exch; by rewrite H, Hs|..])..].
  set (rm1 := if nonempty (dn_ECHProfileID node) then sync (dn_ECHProfileID node) (b :: ech) rm else rm).
  assert (Hq1 : ∀ n, quiet rm n = true → quiet rm1 n = true) by (intros n; unfold rm1; destruct (nonempty _); [apply quiet_sync|done]).
  destruct (quiet_once rm1 node q (Hq1 _ Hq)) as [r Hr]. exists r, rm1. split_and!; [intros exch; rewrite H, Hs; apply Hr| | |done].
  - unfold rm1. destruct (nonempty _); [by apply all_quiet_sync|done].
  - unfold rm1. destruct (nonempty _); [apply sync_same|done].
Qed.

Notation race_all := (race parse_url Fqdn dial_ok over_tls over_quic sys schedule save_answer).

Lemma quiet_race q nodes : ∀ rm,
  all_quiet rm → (∀ n, n ∈ nodes → quiet rm n = true) →
  ∃ r rm', (∀ exch, race_all exch rm nodes q = Some (r, rm')) ∧ same_but_profiles rm rm'.
Proof.
  induction nodes as [|n nodes IH]; intros rm Ha Hq; cbn [race]; [by eexists _, rm|].
  destruct (quiet_full rm n q) as (r & rm1 & H & Ha1 & Hs & Hq1); [done|apply Hq; left|].
  destruct (IH rm1 Ha1) as (r' & rm2 & H' & Hs'); [intros; apply Hq1, Hq; by right|].
  destruct r as [a|e|]; [exists (Some a), rm1|exists r', rm2..]; split.
  - intros exch. by rewrite H.
  - done.
  - intros exch. by rewrite H, H'.
  - by etrans.
  - intros exch. by rewrite H, H'.
  - by etrans.
Qed.

Lemma active_node n rm : n ∈ active_nodes rm ↔ n ∈ dnsNodes rm ∧ dn_Enabled n = true.
Proof. apply elem_of_filter_bool. Qed.

(** C27: When every enabled node can be asked without another exchange - the ECH configuration
    it needs is at hand, and the host of a QUIC node is an address or one that the resolver
    recognises as a node's and the system resolver knows - a DNS exchange ends after asking the
    nodes, whatever they answer: one level of recursion is enough and any more gives the same
    result.  It leaves the routing configuration alone. *)
Theorem exchange_terminates rm q :
  all_quiet rm →
  ∃ r rm', (∀ fuel, exch_all (S fuel) rm q = Some (r, rm')) ∧ same_but_profiles rm rm'.
Proof.
  intros Ha. cbn [exchange]. unfold exchange_body.
  assert (Hact : ∀ n, n ∈ active_nodes rm → quiet rm n = true) by (intros n [? ?]%active_node; by apply Ha).
  destruct (active_nodes rm) as [|primary others]; [by eexists _, rm|].
  destruct (quiet_full rm primary q) as (r & rm1 & H & Ha1 & Hs & Hq1); [done|apply Hact; left|].
  destruct (quiet_race q (arrivals others) rm1 Ha1) as (r' & rm2 & H' & Hs').
  { intros n Hn. apply Hq1, Hact. right. by rewrite <- (arrivals_perm others). }
  destruct r as [a|e|]; [eexists (Ok a), rm1|destruct r' as [a|]; eexists _, rm2..]; split.
  all: try (intros fuel; rewrite H, ?H'; reflexivity).
  all: by try etrans.
Qed.

(** When the first enabled node needs another exchange - for its ECH configuration, which is
    looked up automatically and is not at hand, or for the address of its host, which is that of
    a QUIC node and unknown to the system - every exchange asks for it, which is an exchange
    through the same node: at every depth the lookup waits for another one, for any question.
    Only the deadline of each single lookup, which the model leaves out, ends the waits. *)
Theorem exchange_diverges rm node others host port :
  active_nodes rm = node :: others →
  parse_url (dn_URL node) = Some (host, port) →
  (dn_QUIC node = false → existsb dial_ok (node_candidates node host port) = true) →
  quiet rm node = false →
  ∀ fuel q, exch_all fuel rm q = None.
Proof.
  intros Hact Hurl Hdial Hq fuel. induction fuel as [|fuel IH]; intros q; cbn [exchange]; [done|]. unfold exchange_body. rewrite Hact.
  unfold exchangeNode. enough (ask_node parse_url Fqdn dial_ok over_tls over_quic sys schedule save_answer (exch_all fuel) rm node q = None) as -> by done.
  assert (Hech : ech_at_hand rm node = false → resolve_ech (exch_all fuel) rm host node = None).
  { unfold ech_at_hand. rewrite !orb_false_iff, !negb_false_iff. intros [[He Hu] Hd%Nat.eqb_eq%nil_length_inv].
    unfold resolveRuleECHConfig. rewrite He. simpl. fold (profile_data rm node). rewrite Hd, Hu. unfold ResolveECH. by rewrite IH. }
  unfold ask_node, client_do. rewrite Hurl. unfold quiet in Hq. destruct (dn_QUIC node); cbn [negb orb andb] in Hq.
  - destruct (known_host rm node) eqn:Hk.
    + destruct (known_candidates rm node host port Hurl Hk) as [candidates ->]. rewrite andb_true_r in Hq. by rewrite Hech.
    + unfold node_quic_candidates. unfold known_host in Hk. rewrite Hurl in Hk. apply orb_false_iff in Hk as [-> Hk].
      unfold ResolveIPAddrs, lookup_all. rewrite IH. destruct (is_doh_host _ _ _); [|done]. by destruct (sys _) as [[|ip ips]|].
  - rewrite Hdial by done. rewrite andb_true_r in Hq. by rewrite Hech.
Qed.

(** * Where answers come from *)

(** An answer of one enabled node to this question. *)
Definition node_answers (rm : RuleManager) (q : question) (answers : list rr) : Prop :=
  ∃ n, n ∈ dnsNodes rm ∧ dn_Enabled n = true ∧
    ((∃ ech, over_tls n ech q = Status 200 (Some answers)) ∨ ∃ candidates ech, over_quic n candidates ech q = Status 200 (Some answers)).

Definition keeps (exch : RuleManager → question → result (list rr)) : Prop :=
  ∀ rm q r rm', exch rm q = Some (r, rm') → same_but_profiles rm rm'.

Lemma resolve_ech_keeps exch rm host node ech rm' :
  keeps exch → resolve_ech exch rm host node = Some (ech, rm') → same_but_profiles rm rm'.
Proof.
  intros Hk. unfold resolveRuleECHConfig. destruct (dn_ECHEnabled node); [|by intros [= _ <-]].
  cbn [negb]. destruct (if nonempty _ then _ else _); [|by intros [= _ <-]].
  destruct (dn_ECHAutoUpdate node); [|by intros [= _ <-]].
  unfold ResolveECH. destruct (exch rm _) as [[[l|e|] rm1]|] eqn:E; [|by intros [= _ <-]; eapply Hk..|done].
  cbn [rbind]. apply Hk in E. destruct (ech_of_answers l) as [[|b ech']|]; intros [= <- <-]; [done| |done].
  destruct (nonempty _); [|done]. etrans; [done|apply sync_same].
Qed.

Lemma resolve_ips_keeps exch sched rm domain r rm' :
  keeps exch → ResolveIPAddrs parse_url Fqdn sys exch sched rm domain = Some (r, rm') → same_but_profiles rm rm'.
Proof.
  intros Hk. assert (Hl : lookup_all Fqdn exch sched rm domain = Some (r, rm') → same_but_profiles rm rm').
  { unfold lookup_all. destruct (exch rm _) as [[ra rm1]|] eqn:Ea; [|done]. destruct (exch rm1 _) as [[rb rm2]|] eqn:Eb; [|done].
    intros [= _ <-]. apply Hk in Ea, Eb. by etrans. }
  unfold ResolveIPAddrs. destruct (is_doh_host _ _ _); [|done]. destruct (sys domain) as [[|ip ips]|]; [done|by intros [= _ <-]|done].
Qed.

Lemma node_quic_keeps exch rm host candidates rm' : keeps exch → quic_candidates exch rm host = Some (candidates, rm') → same_but_profiles rm rm'.
Proof.
  intros Hk. unfold node_quic_candidates. destruct (_ || _); [by intros [= _ <-]|].
  destruct (ResolveIPAddrs _ _ _ _ _ _ _) as [[r rm1]|] eqn:E; [|done]. intros [= _ <-]. by eapply resolve_ips_keeps.
Qed.

Lemma http_answer_ok r answers : http_answer r = Ok answers → r = Status 200 (Some answers).
Proof.
  destruct r as [|code b]; simpl; [done|]. destruct (Z.eqb_spec code 200); [|done]. simpl.
  destruct b; intros [= ->]. by subst.
Qed.

Lemma ask_keeps exch rm node q r rm' :
  keeps exch → ask_node parse_url Fqdn dial_ok over_tls over_quic sys schedule save_answer exch rm node q = Some (r, rm') →
  same_but_profiles rm rm' ∧
  ∀ answers, r = Some (Status 200 (Some answers)) →
    (∃ ech, over_tls node ech q = Status 200 (Some answers)) ∨ ∃ candidates ech, over_quic node candidates ech q = Status 200 (Some answers).
Proof.
  intros Hk. unfold ask_node, client_do. destruct (parse_url _) as [[host port]|]; [|by intros [= <- <-]].
  destruct (dn_QUIC node).
  { destruct (quic_candidates exch rm host) as [[candidates rm1]|] eqn:Ec; [|done]. apply node_quic_keeps in Ec; [|done].
    destruct (resolve_ech exch rm1 host node) as [[ech rm2]|] eqn:E; [|done]. intros [= <- <-].
    split; [etrans; [done|by eapply resolve_ech_keeps]|]. intros answers [= H]. right. by exists candidates, ech. }
  destruct (existsb _ _); [|by intros [= <- <-]].
  destruct (resolve_ech exch rm host node) as [[ech rm1]|] eqn:E; [|done]. intros [= <- <-]. simpl.
  split; [by eapply resolve_ech_keeps|]. intros answers [= H]. left. by exists ech.
Qed.

Lemma once_keeps exch rm node q r rm' :
  keeps exch → once exch rm node q = Some (r, rm') →
  same_but_profiles rm rm' ∧
  ∀ answers, r = Ok answers →
    (∃ ech, over_tls node ech q = Status 200 (Some answers)) ∨ ∃ candidates ech, over_quic node candidates ech q = Status 200 (Some answers).
Proof.
  intros Hk. unfold exchange_once. destruct (ask_node _ _ _ _ _ _ _ _ _ _ _ _) as [[[r1|] rm1]|] eqn:E; intros [= <- <-].
  all: apply ask_keeps in E as [Hs Hr]; [|done]; split; [done|]. 2: by intros.
  intros answers ->%http_answer_ok. by apply Hr.
Qed.

Lemma safe_keeps exch rm domain r rm' :
  keeps exch →
  ResolveECHSafe parse_url Fqdn dial_ok over_tls over_quic sys schedule save_answer exch rm domain = Some (r, rm') →
  same_but_profiles rm rm'.
Proof.
  intros Hk. unfold ResolveECHSafe, exchangeSafe.
  assert (Ht : ∀ nodes rm r rm', try_safe parse_url Fqdn dial_ok over_tls over_quic sys schedule save_answer exch rm nodes
    (mkQuestion (Fqdn domain) TypeHTTPS) = Some (r, rm') → same_but_profiles rm rm').
  { induction nodes as [|n nodes IH]; intros rm0 r0 rm0'; cbn [try_safe]; [by intros [= _ <-]|].
    destruct (once exch rm0 n _) as [[r1 rm1]|] eqn:E; [|done]. apply once_keeps in E as [Hs _]; [|done].
    destruct r1 as [a|e|]; [by intros [= _ <-]|by intros H%IH; etrans..]. }
  destruct (safe_nodes rm) as [|n ns]; [by intros [= _ <-]|].
  destruct (try_safe _ _ _ _ _ _ _ _ _ rm (n :: ns) _) as [[[a|e|] rm1]|] eqn:E; cbn [rbind]; [|by intros [= _ <-]; eapply Ht..|done].
  apply Ht in E. by destruct (ech_of_answers a); intros [= _ <-].
Qed.

Lemma full_keeps exch rm node q r rm' :
  keeps exch → full exch rm node q = Some (r, rm') →
  same_but_profiles rm rm' ∧
  ∀ answers, r = Ok answers →
    (∃ ech, over_tls node ech q = Status 200 (Some answers)) ∨ ∃ candidates ech, over_quic node candidates ech q = Status 200 (Some answers).
Proof.
  intros Hk. unfold exchangeNode. destruct (ask_node _ _ _ _ _ _ _ _ _ _ _ _) as [[[[|code b]|] rm1]|] eqn:E; [| | |done].
  - apply ask_keeps in E as [Hs Hr]; [|done].
    destruct (dn_ECHEnabled node && dn_ECHAutoUpdate node); [|by intros [= <- <-]].
    destruct (parse_url (dn_URL node)) as [[host port]|]; [|by intros [= <- <-]].
    destruct (ResolveECHSafe _ _ _ _ _ _ _ _ _ rm1 host) as [[rs rm2]|] eqn:E2; [|done].
    apply safe_keeps in E2; [|done].
    destruct rs as [[|x ech]|e|]; [by intros [= <- <-]; split; [etrans|]| |by intros [= <- <-]; split; [etrans|]..].
    intros E3. apply once_keeps in E3 as [Hs3 Hr3]; [|done]. split; [|done].
    etrans; [exact Hs|]. etrans; [exact E2|]. etrans; [|exact Hs3]. destruct (nonempty _); [apply sync_same|done].
  - apply ask_keeps in E as [Hs Hr]; [|done]. intros [= <- <-]. split; [done|]. intros answers H%(http_answer_ok (Status code b)). apply Hr. by rewrite H.
  - apply ask_keeps in E as [Hs Hr]; [|done]. by intros [= <- <-].
Qed.

Lemma race_keeps exch q nodes : ∀ rm r rm',
  keeps exch → race_all exch rm nodes q = Some (r, rm') →
  same_but_profiles rm rm' ∧
  ∀ answers, r = Some answers → ∃ n, n ∈ nodes ∧
    ((∃ ech, over_tls n ech q = Status 200 (Some answers)) ∨ ∃ candidates ech, over_quic n candidates ech q = Status 200 (Some answers)).
Proof.
  induction nodes as [|n nodes IH]; intros rm r rm' Hk; cbn [race]; [by intros [= <- <-]|].
  destruct (full exch rm n q) as [[r1 rm1]|] eqn:E; [|done]. apply full_keeps in E as [Hs Hr]; [|done].
  destruct r1 as [a|e|].
  - intros [= <- <-]. split; [done|]. intros answers [= <-]. exists n. split; [left|by apply Hr].
  - intros H%IH; [|done]. destruct H as [Hs' Hr']. split; [by etrans|]. intros answers (m & Hm & H)%Hr'. exists m. by split; [right|].
  - intros H%IH; [|done]. destruct H as [Hs' Hr']. split; [by etrans|]. intros answers (m & Hm & H)%Hr'. exists m. by split; [right|].
Qed.

Lemma body_keeps exch rm q r rm' :
  keeps exch → body exch rm q = Some (r, rm') →
  same_but_profiles rm rm' ∧
  ∀ answers, r = Ok answers → node_answers rm q answers ∨ system_exchange sys q = Ok answers.
Proof.
  intros Hk. unfold exchange_body.
  assert (Hin : ∀ n, n ∈ active_nodes rm → n ∈ dnsNodes rm ∧ dn_Enabled n = true) by (intros n; apply active_node).
  destruct (active_nodes rm) as [|primary others]; [intros [= <- <-]; split; [done|by right]|].
  destruct (full exch rm primary q) as [[r1 rm1]|] eqn:E; [|done]. apply full_keeps in E as [Hs Hr]; [|done].
  destruct r1 as [a|e|].
  { intros [= <- <-]. split; [done|]. intros answers [= <-]. left. destruct (Hin primary) as [??]; [left|].
    exists primary. split_and!; [done..|by apply Hr]. }
  all: destruct (race_all exch rm1 (arrivals others) q) as [[r2 rm2]|] eqn:E; try done.
  all: apply race_keeps in E as [Hs' Hr']; [|done].
  all: destruct r2 as [a|]; intros [= <- <-]; (split; [by etrans|]).
  all: intros answers Ha; first [by right|injection Ha as <-; left].
  all: destruct (Hr' a eq_refl) as (n & Hn & H); rewrite arrivals_perm in Hn.
  all: destruct (Hin n) as [??]; [by right|by exists n].
Qed.

Lemma exchange_keeps fuel : keeps (exch_all fuel).
Proof. induction fuel as [|fuel IH]; intros rm q r rm'; cbn [exchange]; [done|]. intros H. by apply body_keeps in H as [? _]. Qed.

(** What an exchange answers is what an enabled node answered with status 200
    to the very question, or what the system resolver knows about it; and whatever
    happens, at most ECH profiles change. *)
Theorem exchange_sound fuel rm q r rm' :
  exch_all fuel rm q = Some (r, rm') →
  same_but_profiles rm rm' ∧
  ∀ answers, r = Ok answers → node_answers rm q answers ∨ system_exchange sys q = Ok answers.
Proof.
  destruct fuel as [|fuel]; cbn [exchange]; [done|]. intros H. apply body_keeps in H; [done|apply exchange_keeps].
Qed.

(** * Both address families *)

Notation resolve_ips fuel := (ResolveIPAddrs parse_url Fqdn sys (exch_all fuel)).

(** When both lookups answer with addresses, a resolution succeeds with some of
    them under every interleaving of the two, and with all of them when they run
    one after the other; but there is an interleaving that loses every IPv4
    address: the shared slice is appended to without the lock. *)
Theorem resolve_loses_addresses fuel rm domain ra rb rm1 rm2 :
  is_doh_host parse_url rm domain = false →
  exch_all fuel rm (mkQuestion (Fqdn domain) TypeA) = Some (Ok ra, rm1) →
  exch_all fuel rm1 (mkQuestion (Fqdn domain) TypeAAAA) = Some (Ok rb, rm2) →
  ips_of (Ok ra) ≠ [] → ips_of (Ok rb) ≠ [] →
  (∀ sched, ∃ l, resolve_ips fuel sched rm domain = Some (Ok l, rm2) ∧ l ≠ [] ∧
     ∀ x, x ∈ l → x ∈ ips_of (Ok ra) ++ ips_of (Ok rb)) ∧
  (∃ sched, resolve_ips fuel sched rm domain = Some (Ok (ips_of (Ok ra) ++ ips_of (Ok rb)), rm2)) ∧
  (∃ sched, resolve_ips fuel sched rm domain = Some (Ok (ips_of (Ok rb)), rm2)).
Proof.
  clear arrivals_perm. intros Hd Ha Hb Hna Hnb. unfold ResolveIPAddrs, lookup_all. rewrite Hd. setoid_rewrite Ha. setoid_rewrite Hb.
  set (la := ips_of (Ok ra)) in *. set (lb := ips_of (Ok rb)) in *. split_and!.
  - intros sched. assert (Hne := collect_nonempty sched [] (mkAppender la None) (mkAppender lb None) (or_intror (or_introl Hna))).
    assert (Hsub := collect_subset (λ x, x ∈ la ++ lb) sched [] (mkAppender la None) (mkAppender lb None)).
    destruct (collect _ _ _ _) as [|ip l]; [done|]. exists (ip :: l). split_and!; [done..|].
    apply Hsub; simpl; try done; set_solver.
  - exists []. unfold collect, append_rest. simpl. destruct la as [|x la]; [done|]. destruct lb as [|y lb]; [done|]. done.
  - exists (false :: replicate (2 * length la) true). destruct lb as [|y lb]; [done|]. cbn [collect append_step todo read_slice].
    rewrite <- (app_nil_r (replicate _ _)), collect_drain. done.
Qed.
End resolver.

(** * Witnesses *)

Definition demo_node (id url : string) (ech : bool) : DNSNode :=
  mkDNSNode id id url "" [] ech "" ech false CertVerify_zero true.

Definition demo_manager (nodes : list DNSNode) : RuleManager := (NewRuleManager Absent Absent) {{ dnsNodes := nodes }}.

Definition demo_tls (n : DNSNode) (ech : list byte) (q : question) : http_result :=
  match q_Qtype q with
  | TypeA => Status 200 (Some [RR_A [1; 1; 1; 1]; RR_A [1; 0; 0; 1]])
  | TypeAAAA => Status 200 (Some [RR_AAAA (v4in6_prefix ++ [9; 9; 9; 9])])
  | TypeHTTPS => TransportError
  end.

Definition demo_url (s : string) : option (string * string) := Some (s, "").
Definition demo_fqdn (d : string) : string := d +:+ ".".

Lemma demo_arrivals (l : list DNSNode) : rev l ≡ₚ l.
Proof. symmetry. apply Permutation_rev. Qed.

Notation demo_exchange sys :=
  (exchange demo_url demo_fqdn (λ _, true) demo_tls (λ _ _ _ _, TransportError) (@rev DNSNode) sys (λ _, []) (λ _, Written)).

(** A node over HTTP/3 whose host the system knows. *)
Definition demo_quic : DNSNode := mkDNSNode "b" "b" "two.example" "" [] false "" false true CertVerify_zero true.

Definition demo_sys : system_dns := λ host, if bool_decide (host = "two.example") then Some [[192; 0; 2; 1]] else None.

Lemma exchange_terminates_witness :
  ∃ r rm', (∀ fuel, demo_exchange demo_sys (S fuel) (demo_manager [demo_node "a" "one.example" false; demo_quic])
    (mkQuestion "x." TypeHTTPS) = Some (r, rm')) ∧
    same_but_profiles (demo_manager [demo_node "a" "one.example" false; demo_quic]) rm'.
Proof.
  apply (exchange_terminates demo_url demo_fqdn (λ _, true) demo_tls (λ _ _ _ _, TransportError) (@rev DNSNode) demo_sys (λ _, []) (λ _, Written) demo_arrivals).
  intros n Hn _. simpl in Hn. apply elem_of_cons in Hn as [->|Hn]; [vm_compute; reflexivity|].
  apply list_elem_of_singleton in Hn as ->. vm_compute. reflexivity.
Defined.

Lemma exchange_diverges_witness :
  demo_exchange (λ _, None) 1000 (demo_manager [demo_node "a" "one.example" true; demo_node "b" "two.example" false])
    (mkQuestion "x." TypeA) = None.
Proof.
  apply (exchange_diverges demo_url demo_fqdn (λ _, true) demo_tls (λ _ _ _ _, TransportError) (@rev DNSNode) (λ _, None) (λ _, []) (λ _, Written)
    _ (demo_node "a" "one.example" true) [demo_node "b" "two.example" false] "one.example" "");
    vm_compute; reflexivity.
Defined.

Lemma exchange_sound_witness :
  same_but_profiles (demo_manager [demo_node "a" "one.example" false]) (demo_manager [demo_node "a" "one.example" false]) ∧
  ∀ answers, Ok [RR_A [1; 1; 1; 1]; RR_A [1; 0; 0; 1]] = Ok answers →
    node_answers demo_tls (λ _ _ _ _, TransportError) (demo_manager [demo_node "a" "one.example" false]) (mkQuestion "x." TypeA) answers
    ∨ system_exchange (λ _, None) (mkQuestion "x." TypeA) = Ok answers.
Proof.
  apply (exchange_sound demo_url demo_fqdn (λ _, true) demo_tls (λ _ _ _ _, TransportError) (@rev DNSNode) (λ _, None) (λ _, []) (λ _, Written)
    demo_arrivals 1). vm_compute. reflexivity.
Defined.

Lemma resolve_loses_addresses_witness :
  let rm := demo_manager [demo_node "a" "one.example" false] in
  let resolve sched := ResolveIPAddrs demo_url demo_fqdn (λ _, None) (demo_exchange (λ _, None) 1) sched rm "x" in
  let v4 := [[1; 1; 1; 1]; [1; 0; 0; 1]] in
  let v6 := [v4in6_prefix ++ [9; 9; 9; 9]] in
  (∀ sched, ∃ l, resolve sched = Some (Ok l, rm) ∧ l ≠ [] ∧ ∀ x, x ∈ l → x ∈ v4 ++ v6) ∧
  (∃ sched, resolve sched = Some (Ok (v4 ++ v6), rm)) ∧ (∃ sched, resolve sched = Some (Ok v6, rm)).
Proof.
  apply (resolve_loses_addresses demo_url demo_fqdn (λ _, true) demo_tls (λ _ _ _ _, TransportError) (@rev DNSNode) (λ _, None) (λ _, []) (λ _, Written)
    1 (demo_manager [demo_node "a" "one.example" false]) "x" [RR_A [1; 1; 1; 1]; RR_A [1; 0; 0; 1]]
    [RR_AAAA (v4in6_prefix ++ [9; 9; 9; 9])] (demo_manager [demo_node "a" "one.example" false]));
    solve [vm_compute; reflexivity|discriminate].
Defined.
