(* ===== verification/GoText.v ===== *)
(** More of Go's standard library, shared by the components that read and write
    text: searching and cutting strings, numbers, lines of a reader, byte slices as
    strings, and the values [encoding/json] decodes into an [any]. *)

From Stdlib Require Import Strings.Byte.
From S2P Require Import Prelude GoStrings.

Open Scope Z_scope.

(** * Text *)

(** [len(s)]. *)
Definition zlen (s : string) : Z := Z.of_nat (slen s).

Definition bytes_string (l : list byte) : string := Stdlib.Strings.String.string_of_list_byte l.

Definition CRLF : string := String "013" (String "010" "").
Definition LF : ascii := "010".

(** * The [strings] and [bytes] functions used here *)

(** [strings.Index]. *)
Fixpoint Index (s sub : string) : option nat :=
  if is_prefix sub s then Some 0%nat
  else match s with "" => None | String _ s' => S <$> Index s' sub end.

(** [strings.Split] for a separator of more than one byte. *)
Fixpoint split_seq (fuel : nat) (s sep : string) : list string :=
  match fuel, Index s sep with
  | S fuel', Some i => str_take i s :: split_seq fuel' (str_drop (i + slen sep) s) sep
  | _, _ => [s]
  end.

Definition SplitSeq (s sep : string) : list string := split_seq (slen s) s sep.

(** [strings.SplitN(s, sep, 2)] when it gives two parts. *)
Definition Cut (s : string) (sep : ascii) : option (string * string) :=
  match index_byte sep s with
  | Some i => Some (str_take i s, str_drop (S i) s)
  | None => None
  end.

(** [strings.TrimRight(s, "\r\n")]. *)
Definition TrimEOL (s : string) : string := trim_right_by (λ c, contains_byte c CRLF) s.

Fixpoint ToUpper (s : string) : string :=
  match s with
  | "" => ""
  | String c s' =>
      let n := byte_val c in
      String (if ((97 <=? n) && (n <=? 122))%nat then ascii_of_nat (n - 32) else c) (ToUpper s')
  end.

(** [strconv.ParseInt(s, 10, 64)]: the value it returns, and whether it reports an error. *)
Definition max_int64 : Z := 9223372036854775807.

Definition ParseInt (s : string) : Z * bool :=
  let '(neg, ds) :=
    match s with
    | String c s' => if ceq c "-" then (true, s') else if ceq c "+" then (false, s') else (false, s)
    | "" => (false, "")
    end in
  match ds, digits_val 0 ds with
  | String _ _, Some v =>
      if neg then (if max_int64 + 1 <? v then (- max_int64 - 1, true) else (- v, false))
      else (if max_int64 <? v then (max_int64, true) else (v, false))
  | _, _ => (0, true)
  end.

(** [reader.ReadString('\n')]: the line with its end, [None] when the stream ends first. *)
Definition ReadLine (s : string) : option (string * string) :=
  match index_byte LF s with
  | Some i => Some (str_take (S i) s, str_drop (S i) s)
  | None => None
  end.

(** [s[i:]] *)
Definition slice_from (s : string) (i : nat) : outcome string :=
  if (i <=? slen s)%nat then Ok (str_drop i s) else Panic.

(** * Decoded JSON

    A decoded object is a list of members with distinct keys. *)
Inductive jvalue :=
  | JNull
  | JBool (b : bool)
  | JNum (int_part : Z)
  | JStr (s : string)
  | JArr (items : list jvalue)
  | JObj (members : list (string * jvalue)).

Definition jobject : Type := list (string * jvalue).

(** [data[k]] *)
Definition member (k : string) (data : jobject) : option jvalue :=
  snd <$> List.find (λ kv, bool_decide (fst kv = k)) data.

(** * Lemmas *)

Lemma zlen_nonneg s : 0 ≤ zlen s.
Proof. unfold zlen. lia. Qed.

Lemma zlen_app s t : zlen (s +:+ t) = zlen s + zlen t.
Proof. unfold zlen. rewrite slen_app. lia. Qed.

Lemma trim_right_id p s : (∀ c, p c = true → contains_byte c s = false) → trim_right_by p s = s.
Proof.
  induction s as [|c s IH]; intros H; [done|]. cbn [trim_right_by].
  rewrite IH by (intros d Hd; apply H in Hd; rewrite contains_byte_cons in Hd; by apply orb_false_iff in Hd as [_ ?]).
  destruct s; [|done]. destruct (p c) eqn:Hc; [|done]. apply H in Hc. rewrite contains_byte_cons, ceq_refl in Hc. done.
Qed.

Lemma TrimSpace_fresh s : (∀ c, is_space c = true → contains_byte c s = false) → TrimSpace s = s.
Proof.
  intros H. unfold TrimSpace, trim_by. rewrite trim_left_id, trim_right_id; [done|done|].
  destruct s as [|c s]; [done|]. simpl. destruct (is_space c) eqn:Hc; [|done]. apply H in Hc.
  rewrite contains_byte_cons, ceq_refl in Hc. done.
Qed.

Lemma TrimSpace_Itoa n : TrimSpace (Itoa n) = Itoa n.
Proof.
  apply TrimSpace_fresh. intros c Hc. apply Itoa_fresh; [|by intros ->].
  destruct c as [[] [] [] [] [] [] [] []]; first [done|discriminate Hc].
Qed.

Lemma ParseInt_Itoa n : 0 ≤ n ≤ max_int64 → ParseInt (Itoa n) = (n, false).
Proof.
  intros Hn. assert (Hd := digits_val_Itoa n (proj1 Hn)). assert (Hne := Itoa_nonempty n). revert Hd Hne.
  destruct (Itoa n) as [|c s]; [done|]. intros Hd _. unfold ParseInt.
  assert (Hc : is_digit c = true) by (cbn [digits_val] in Hd; by destruct (is_digit c)).
  rewrite (proj2 (ceq_false c "-")) by (by intros ->). rewrite (proj2 (ceq_false c "+")) by (by intros ->).
  rewrite Hd. destruct (Z.ltb_spec max_int64 n); [lia|done].
Qed.
