(* ===== verification/GoURL.v ===== *)
(** Go's [net/url], as far as the sources use it: escaping, [Parse] of a URL with an
    authority, host and port of the result, and queries.

    A bracketed host must be an IPv6 literal, with or without a zone; paths are only
    checked for well-formed escapes, because nothing reads them. *)

From Stdlib Require Import Strings.Byte.
From S2P Require Import Prelude GoStrings GoNet GoBytes Base64 GoText.

Open Scope Z_scope.

(** * Escaping *)

Inductive encoding :=
  | encodePath
  | encodeHost
  | encodeZone
  | encodeUserPassword
  | encodeQueryComponent
  | encodeFragment.

#[global] Instance encoding_eq_dec : EqDecision encoding.
Proof. solve_decision. Defined.

Definition is_alnum (c : ascii) : bool :=
  let n := byte_val c in
  is_digit c || is_upper c || ((97 <=? n) && (n <=? 122))%nat.

Definition in_host (mode : encoding) : bool := bool_decide (mode = encodeHost) || bool_decide (mode = encodeZone).

(** The bytes a host keeps; the last one is the double quote. *)
Definition host_bytes : string := "!$&'()*+,;=:[]<>" +:+ String "034" "".

Definition shouldEscape (c : ascii) (mode : encoding) : bool :=
  if is_alnum c then false
  else if in_host mode && contains_byte c host_bytes then false
  else if contains_byte c "-_.~" then false
  else if contains_byte c "$&+,/:;=?@" then
    match mode with
    | encodePath => ceq c "?"
    | encodeUserPassword => contains_byte c "@/?:"
    | encodeFragment => false
    | _ => true
    end
  else negb (bool_decide (mode = encodeFragment) && contains_byte c "!()*").

Definition hex_byte (x y : Z) : ascii := ascii_of_nat (Z.to_nat (16 * x + y)).

(** What an escape may stand for in a host or a zone. *)
Definition escape_allowed (mode : encoding) (x : Z) (v : ascii) : bool :=
  match mode with
  | encodeHost => negb (x <? 8) || ceq v "%"
  | encodeZone => ceq v "%" || ceq v " " || negb (shouldEscape v encodeHost)
  | _ => true
  end.

(** [unescape]; [None] for an error. *)
Fixpoint unescape (mode : encoding) (s : string) : option string :=
  match s with
  | "" => Some ""
  | String c s' =>
      if ceq c "%" then
        match s' with
        | String a (String b s'') =>
            match hex_digit a, hex_digit b with
            | Some x, Some y =>
                if escape_allowed mode x (hex_byte x y) then String (hex_byte x y) <$> unescape mode s'' else None
            | _, _ => None
            end
        | _ => None
        end
      else if ceq c "+" then String (if bool_decide (mode = encodeQueryComponent) then " "%char else c) <$> unescape mode s'
      else if in_host mode && (byte_val c <? 128)%nat && shouldEscape c mode then None
      else String c <$> unescape mode s'
  end.

Definition QueryUnescape (s : string) : option string := unescape encodeQueryComponent s.

Definition upper_hex (d : nat) : ascii := default "0"%char (Stdlib.Strings.String.get d "0123456789ABCDEF").

(** One byte written as an escape. *)
Definition percent (c : ascii) : string :=
  String "%" (String (upper_hex (byte_val c / 16)) (String (upper_hex (byte_val c mod 16)) "")).

Fixpoint escape (mode : encoding) (s : string) : string :=
  match s with
  | "" => ""
  | String c s' =>
      if ceq c " " && bool_decide (mode = encodeQueryComponent) then String "+" (escape mode s')
      else if shouldEscape c mode then percent c +:+ escape mode s'
      else String c (escape mode s')
  end.

(** * URLs *)

(** [Userinfo]: the username, and the password when one is set. *)
Record Userinfo := mkUserinfo { username : string; password : option string }.

(** The methods treat the nil pointer as an empty one. *)
Definition Userinfo_String (u : option Userinfo) : string :=
  match u with
  | None => ""
  | Some u =>
      escape encodeUserPassword (username u)
      +:+ match password u with Some pw => ":" +:+ escape encodeUserPassword pw | None => "" end
  end.

Definition Username (u : option Userinfo) : string := match u with Some u => username u | None => "" end.

Definition Password (u : option Userinfo) : string :=
  match u with Some u => default "" (password u) | None => "" end.

Record URL := mkURL {
  Scheme : string;
  User : option Userinfo;
  Host : string;
  RawQuery : string;
  Fragment : string;
}.

Fixpoint all_bytes (p : ascii → bool) (s : string) : bool :=
  match s with "" => true | String c s' => p c && all_bytes p s' end.

Definition is_ctl (c : ascii) : bool := (byte_val c <? 32)%nat || (byte_val c =? 127)%nat.

(** [getScheme]: [None] for an error, a scheme that may be empty, and the rest. *)
Fixpoint get_scheme (i : nat) (s orig : string) : option (string * string) :=
  match s with
  | "" => Some ("", orig)
  | String c s' =>
      if is_alnum c && negb (is_digit c) then get_scheme (S i) s' orig
      else if is_digit c || contains_byte c "+-." then
        if (i =? 0)%nat then Some ("", orig) else get_scheme (S i) s' orig
      else if ceq c ":" then if (i =? 0)%nat then None else Some (str_take i orig, s')
      else Some ("", orig)
  end.

Definition getScheme (s : string) : option (string * string) := get_scheme 0 s s.

Definition validOptionalPort (port : string) : bool :=
  match port with "" => true | String c ds => ceq c ":" && all_bytes is_digit ds end.

Definition validUserinfo (s : string) : bool := all_bytes (λ c, is_alnum c || contains_byte c "-._:~!$&'()*+,;=%@") s.

(** An IPv6 literal, before the zone when there is one. *)
Definition ipv6_literal (s : string) : bool :=
  let '(addr, zoned) := match index_byte "%" s with Some i => (str_take i s, str_drop (S i) s) | None => (s, "x") end in
  bool_decide (is_Some (parseIPv6 addr)) && nonempty zoned.

(** The host between brackets: what follows an escaped percent sign is the zone. *)
Definition unescape_literal (hostname : string) : option string :=
  match Index hostname "%25" with
  | Some z =>
      a ← unescape encodeHost (str_take z hostname);
      b ← unescape encodeZone (str_drop z hostname);
      Some (a +:+ b)
  | None => unescape encodeHost hostname
  end.

(** An opening bracket elsewhere than in front is refused. *)
Definition parseHost (host : string) : option string :=
  match last_index_byte lbrack host with
  | Some (S _) => None
  | Some O =>
      match last_index_byte rbrack host with
      | None => None
      | Some e =>
          let colonPort := str_drop (S e) host in
          if negb (validOptionalPort colonPort) then None
          else
            port ← unescape encodeHost colonPort;
            name ← unescape_literal (str_slice 1 e host);
            if ipv6_literal name then Some ("[" +:+ name +:+ "]" +:+ port) else None
      end
  | None =>
      match last_index_byte colon host with
      | Some i => if validOptionalPort (str_drop i host) then unescape encodeHost host else None
      | None => unescape encodeHost host
      end
  end.

Definition parseAuthority (authority : string) : option (option Userinfo * string) :=
  match last_index_byte "@" authority with
  | None => host ← parseHost authority; Some (None, host)
  | Some i =>
      host ← parseHost (str_drop (S i) authority);
      let userinfo := str_take i authority in
      if negb (validUserinfo userinfo) then None
      else
        match Cut userinfo ":" with
        | None => u ← unescape encodeUserPassword userinfo; Some (Some (mkUserinfo u None), host)
        | Some (u, pw) =>
            u ← unescape encodeUserPassword u;
            pw ← unescape encodeUserPassword pw;
            Some (Some (mkUserinfo u (Some pw)), host)
        end
  end.

(** [strings.Cut]: without the separator everything is before it. *)
Definition cut (s : string) (sep : ascii) : string * string := default (s, "") (Cut s sep).

(** [parse], without the fragment. *)
Definition parse (rawURL : string) : option URL :=
  if negb (all_bytes (λ c, negb (is_ctl c)) rawURL) then None
  else
    '(scheme, rest) ← getScheme rawURL;
    let '(rest, query) := cut rest "?" in
    if negb (HasPrefix rest "/") then
      if nonempty scheme then Some (mkURL (ToLower scheme) None "" query "")
      else if contains_byte ":" (fst (cut rest "/")) then None
      else _ ← unescape encodePath rest; Some (mkURL "" None "" query "")
    else if HasPrefix rest "//" && (nonempty scheme || negb (HasPrefix rest "///")) then
      let authority := str_drop 2 rest in
      let '(authority, path) :=
        match index_byte "/" authority with
        | Some i => (str_take i authority, str_drop i authority)
        | None => (authority, "")
        end in
      '(user, host) ← parseAuthority authority;
      _ ← unescape encodePath path;
      Some (mkURL (ToLower scheme) user host query "")
    else _ ← unescape encodePath rest; Some (mkURL (ToLower scheme) None "" query "").

Definition Parse (rawURL : string) : option URL :=
  let '(front, frag) := cut rawURL "#" in
  u ← parse front;
  frag ← unescape encodeFragment frag;
  Some (mkURL (Scheme u) (User u) (Host u) (RawQuery u) frag).

(** [splitHostPort]: [Hostname] and [Port]. *)
Definition url_split (hostPort : string) : string * string :=
  let '(host, port) :=
    match last_index_byte colon hostPort with
    | Some i => if validOptionalPort (str_drop i hostPort) then (str_take i hostPort, str_drop (S i) hostPort) else (hostPort, "")
    | None => (hostPort, "")
    end in
  (if HasPrefix host "[" && HasSuffix host "]" then str_slice 1 (slen host - 1) host else host, port).

Definition Hostname (u : URL) : string := fst (url_split (Host u)).

Definition Port (u : URL) : string := snd (url_split (Host u)).

(** * Queries *)

(** One setting of a query; [None] for a piece that is skipped. *)
Definition query_pair (piece : string) : option (string * string) :=
  if contains_byte ";" piece || negb (nonempty piece) then None
  else
    let '(k, v) := cut piece "=" in
    k ← QueryUnescape k;
    v ← QueryUnescape v;
    Some (k, v).

(** [ParseQuery] without its error, its settings in order. *)
Definition ParseQuery (query : string) : list (string * string) := omap query_pair (Split query "&").

(** [Values.Get]: the first value of the key. *)
Definition query_get (q : list (string * string)) (key : string) : string :=
  default "" (snd <$> List.find (λ kv, bool_decide (fst kv = key)) q).

(** * Lemmas *)

Section bytes.
Context (p : ascii → bool).

Lemma all_bytes_app s t : all_bytes p (s +:+ t) = all_bytes p s && all_bytes p t.
Proof. induction s as [|c s IH]; [done|]. rewrite str_app_cons. cbn [all_bytes]. by rewrite IH, andb_assoc. Qed.

Lemma all_bytes_fresh d s : p d = false → all_bytes p s = true → contains_byte d s = false.
Proof.
  intros Hd. induction s as [|c s IH]; [done|]. cbn [all_bytes]. intros [Hc Hs]%andb_prop. rewrite contains_byte_cons, IH by done.
  rewrite orb_false_r. apply ceq_false. intros ->. congruence.
Qed.

Lemma all_bytes_impl (q : ascii → bool) s : (∀ c, p c = true → q c = true) → all_bytes p s = true → all_bytes q s = true.
Proof.
  intros Hpq. induction s as [|c s IH]; [done|]. cbn [all_bytes]. intros [Hc Hs]%andb_prop. by rewrite Hpq, IH.
Qed.
End bytes.

(** The bytes no mode escapes. *)
Definition unreserved (c : ascii) : bool := is_alnum c || contains_byte c "-_.~".

(** Percent-encoding of every other byte, as producers of links do it. *)
Fixpoint quote (s : string) : string :=
  match s with "" => "" | String c s' => if unreserved c then String c (quote s') else percent c +:+ quote s' end.

(** A statement about one byte holds when it does for each of the 256. *)
Ltac every_byte := intros [[] [] [] [] [] [] [] []]; vm_compute; first [done | discriminate | congruence].

Lemma unreserved_shown mode : ∀ c, unreserved c = true → shouldEscape c mode = false.
Proof. destruct mode; every_byte. Qed.

Lemma unreserved_plain : ∀ c, unreserved c = true → ceq c "%" || ceq c "+" || ceq c " " = false.
Proof. every_byte. Qed.

Lemma percent_value : ∀ c, percent c = String "%" (String (upper_hex (byte_val c / 16)) (String (upper_hex (byte_val c mod 16)) "")) ∧
  (x ← hex_digit (upper_hex (byte_val c / 16)); y ← hex_digit (upper_hex (byte_val c mod 16)); Some (hex_byte x y)) = Some c.
Proof. intros c. split; [done|]. revert c. every_byte. Qed.

Lemma percent_bytes (p : ascii → bool) :
  p "%"%char = true → (∀ c, unreserved c = true → p c = true) → ∀ c, all_bytes p (percent c) = true.
Proof.
  intros Hp Hu c. unfold percent. cbn [all_bytes]. rewrite Hp.
  assert (H : ∀ c, unreserved (upper_hex (byte_val c / 16)) = true ∧ unreserved (upper_hex (byte_val c mod 16)) = true) by every_byte.
  destruct (H c) as [H1 H2]. by rewrite !Hu.
Qed.

Lemma quote_bytes (p : ascii → bool) s :
  p "%"%char = true → (∀ c, unreserved c = true → p c = true) → all_bytes p (quote s) = true.
Proof.
  intros Hp Hu. induction s as [|c s IH]; [done|]. cbn [quote]. destruct (unreserved c) eqn:E.
  - cbn [all_bytes]. by rewrite Hu, IH.
  - by rewrite all_bytes_app, percent_bytes, IH.
Qed.

Lemma unescape_quote mode s : in_host mode = false → unescape mode (quote s) = Some s.
Proof.
  intros Hm. induction s as [|c s IH]; [done|]. cbn [quote]. destruct (unreserved c) eqn:E.
  - apply unreserved_plain in E as E'. apply orb_false_iff in E' as [[Hpc Hpl]%orb_false_iff _].
    cbn [unescape]. by rewrite Hpc, Hpl, Hm, IH.
  - destruct (percent_value c) as [-> Hc]. rewrite !str_app_cons, str_app_empty. cbn [unescape]. rewrite ceq_refl.
    destruct (hex_digit (upper_hex (byte_val c / 16))) as [x|]; [|done].
    destruct (hex_digit (upper_hex (byte_val c mod 16))) as [y|]; [|done]. cbn in Hc. injection Hc as Hc. rewrite Hc.
    replace (escape_allowed mode x c) with true by (by destruct mode). by rewrite IH.
Qed.

Lemma unescape_shown mode s :
  all_bytes (λ c, negb (ceq c "%" || ceq c "+" || shouldEscape c mode && in_host mode)) s = true → unescape mode s = Some s.
Proof.
  induction s as [|c s IH]; [done|]. cbn [all_bytes unescape]. intros [Hc Hs]%andb_prop. apply negb_true_iff in Hc.
  apply orb_false_iff in Hc as [[-> ->]%orb_false_iff Hc]. rewrite IH by done.
  destruct (in_host mode); [|done]. rewrite andb_true_r in Hc. by rewrite Hc, andb_false_r.
Qed.

Lemma escape_unreserved mode s : all_bytes unreserved s = true → escape mode s = s.
Proof.
  induction s as [|c s IH]; [done|]. cbn [all_bytes escape]. intros [Hc Hs]%andb_prop. rewrite IH by done.
  apply unreserved_plain in Hc as H'. apply orb_false_iff in H' as [_ ->]. cbn. by rewrite unreserved_shown.
Qed.

Lemma unescape_unreserved mode s : all_bytes unreserved s = true → unescape mode s = Some s.
Proof.
  intros Hs. apply unescape_shown. revert Hs. apply all_bytes_impl. intros c Hc.
  apply unreserved_plain in Hc as H'. apply orb_false_iff in H' as [-> _]. by rewrite unreserved_shown.
Qed.

Lemma Cut_app s sep t : contains_byte sep s = false → Cut (s +:+ String sep t) sep = Some (s, t).
Proof. intros Hs. unfold Cut. by rewrite index_byte_app_fresh, str_take_app, str_drop_app_S. Qed.

Lemma Cut_fresh s sep : contains_byte sep s = false → Cut s sep = None.
Proof. intros Hs. unfold Cut. by rewrite (proj2 (index_byte_None sep s)). Qed.

Lemma cut_app s sep t : contains_byte sep s = false → cut (s +:+ String sep t) sep = (s, t).
Proof. intros Hs. unfold cut. by rewrite Cut_app. Qed.

(** ** A query written as [k=v&...] *)

Definition query_text (q : list (string * string)) : string := Join ((λ kv, fst kv +:+ "=" +:+ quote (snd kv)) <$> q) "&".

Definition key_ok (k : string) : Prop := k ≠ "" ∧ all_bytes unreserved k = true.

Lemma query_pair_text k v : key_ok k → query_pair (k +:+ "=" +:+ quote v) = Some (k, v).
Proof.
  intros [Hne Hk]. unfold query_pair. rewrite !contains_byte_app, (all_bytes_fresh unreserved ";") by done. cbn [orb].
  rewrite (all_bytes_fresh (λ c, unreserved c || ceq c "%") ";" (quote v)), orb_false_r;
    [|done|apply quote_bytes; [done|by intros c ->]].
  replace (nonempty _) with true by (by destruct k). cbn [contains_byte negb].
  change ("=" +:+ quote v) with (String "=" (quote v)).
  rewrite cut_app by (by apply (all_bytes_fresh unreserved)). unfold QueryUnescape.
  cbv beta iota. rewrite (unescape_unreserved _ k) by done. cbn [mbind option_bind]. by rewrite unescape_quote.
Qed.

Lemma query_text_bytes (p : ascii → bool) q :
  p "%"%char = true → p "="%char = true → p "&"%char = true → (∀ c, unreserved c = true → p c = true) →
  Forall (λ kv, key_ok (fst kv)) q → all_bytes p (query_text q) = true.
Proof.
  intros Hp He Ha Hu Hq. assert (Hpiece : ∀ kv, key_ok (fst kv) → all_bytes p (fst kv +:+ "=" +:+ quote (snd kv)) = true).
  { intros [k v] [_ Hk]. rewrite !all_bytes_app, quote_bytes by done. cbn [all_bytes fst]. rewrite He.
    by rewrite (all_bytes_impl unreserved p k). }
  unfold query_text. induction Hq as [|kv q Hkv Hq IH]; [done|]. destruct q as [|kv' q]; [by apply Hpiece|].
  change ((?f <$> kv :: kv' :: q)) with (f kv :: f kv' :: (f <$> q)). rewrite Join_cons2.
  rewrite (all_bytes_app p (fst kv +:+ "=" +:+ quote (snd kv))), Hpiece by done. cbn [andb].
  rewrite all_bytes_app. cbn [all_bytes]. rewrite Ha. exact IH.
Qed.

Lemma ParseQuery_text q : Forall (λ kv, key_ok (fst kv)) q → ParseQuery (query_text q) = q.
Proof.
  intros Hq. unfold ParseQuery, query_text. destruct q as [|kv q]; [done|]. rewrite Split_Join.
  - induction Hq as [|kv' q' Hkv _ IH]; [done|]. destruct kv' as [k v]. cbn [fmap list_fmap omap list_omap fst snd].
    rewrite query_pair_text by done. f_equal. exact IH.
  - done.
  - apply Forall_fmap, (list.Forall_impl _ _ _ Hq). intros [k v] [_ Hk]. cbn. rewrite !contains_byte_app.
    rewrite (all_bytes_fresh unreserved "&") by done.
    rewrite (all_bytes_fresh (λ c, unreserved c || ceq c "%") "&" (quote v));
      [done..|apply quote_bytes; [done|by intros c ->]].
Qed.

(** ** A URL with user, host, port, query and fragment *)

Definition is_lower (c : ascii) : bool := let n := byte_val c in ((97 <=? n) && (n <=? 122))%nat.

Lemma is_lower_letter : ∀ c, is_lower c = true → is_alnum c && negb (is_digit c) = true ∧ lower_byte c = c ∧ unreserved c = true.
Proof. intros c. destruct c as [[] [] [] [] [] [] [] []]; vm_compute; first [discriminate | done]. Qed.

Lemma get_scheme_letters s rest orig : ∀ i, all_bytes is_lower s = true → (0 < i + slen s)%nat →
  get_scheme i (s +:+ ":" +:+ rest) orig = Some (str_take (i + slen s) orig, rest).
Proof.
  induction s as [|c s IH]; intros i Hs Hi.
  - change ("" +:+ ":" +:+ rest) with (String ":" rest). cbn [slen Stdlib.Strings.String.length] in Hi |- *.
    cbn [get_scheme]. change (is_alnum ":" && negb (is_digit ":")) with false. cbn iota.
    change (is_digit ":" || contains_byte ":" "+-.") with false. cbn iota. rewrite ceq_refl.
    rewrite Nat.add_0_r in *. by destruct (Nat.eqb_spec i 0) as [->|]; [lia|].
  - cbn [all_bytes] in Hs. apply andb_prop in Hs as [Hc Hs]. apply is_lower_letter in Hc as (Hl & _ & _).
    rewrite str_app_cons. cbn [get_scheme]. rewrite Hl, slen_cons, IH by (done || lia). by rewrite Nat.add_succ_comm.
Qed.

Lemma ToLower_lower s : all_bytes is_lower s = true → ToLower s = s.
Proof.
  induction s as [|c s IH]; [done|]. cbn [all_bytes ToLower]. intros [Hc Hs]%andb_prop.
  apply is_lower_letter in Hc as (_ & -> & _). by rewrite IH.
Qed.

Record link_ok (scheme host port : string) (q : list (string * string)) : Prop := {
  ok_scheme : all_bytes is_lower scheme = true ∧ scheme ≠ "";
  ok_host : all_bytes unreserved host = true;
  ok_port : all_bytes is_digit port = true;
  ok_query : Forall (λ kv, key_ok (fst kv)) q;
}.

Definition host_port (host port : string) : string := host +:+ ":" +:+ port.

Definition link_front (scheme user host port : string) : string :=
  scheme +:+ "://" +:+ quote user +:+ "@" +:+ host_port host port.

(** [scheme://user@host:port?query#fragment], percent-encoded. *)
Definition link_text (scheme user host port : string) (q : list (string * string)) (frag : string) : string :=
  link_front scheme user host port +:+ "?" +:+ query_text q +:+ "#" +:+ quote frag.

Definition link_byte (c : ascii) : bool := unreserved c || contains_byte c "%:/@?=&".

Section link.
Context (scheme user host port : string) (q : list (string * string)) (ok : link_ok scheme host port q).

Lemma digit_unreserved : ∀ c, is_digit c = true → unreserved c = true.
Proof. every_byte. Qed.

Lemma host_port_bytes (p : ascii → bool) :
  p ":"%char = true → (∀ c, unreserved c = true → p c = true) → all_bytes p (host_port host port) = true.
Proof.
  intros Hp Hu. unfold host_port. rewrite !all_bytes_app. cbn [all_bytes].
  rewrite Hp, (all_bytes_impl unreserved p host), (all_bytes_impl is_digit p port); [done|..|by apply ok].
  - intros c Hc. by apply Hu, digit_unreserved.
  - apply ok.
  - done.
Qed.

Lemma link_front_bytes (p : ascii → bool) :
  Forall (λ c, p c = true) [":"; "/"; "@"; "%"]%char → (∀ c, unreserved c = true → p c = true) →
  all_bytes p (link_front scheme user host port) = true.
Proof.
  rewrite !list.Forall_cons. intros (Hc & Hs & Ha & Hp & _) Hu. unfold link_front. rewrite !all_bytes_app, quote_bytes, host_port_bytes by done.
  cbn [all_bytes]. rewrite Hc, Hs, Ha. rewrite (all_bytes_impl is_lower p scheme); [done| |by apply ok].
  intros c Hl. by apply Hu, is_lower_letter.
Qed.

Lemma parseHost_host_port : parseHost (host_port host port) = Some (host_port host port).
Proof.
  unfold parseHost. rewrite (last_index_byte_None lbrack (host_port host port)).
  2: { apply (all_bytes_fresh (λ c, unreserved c || ceq c ":")); [done|]. apply host_port_bytes; [done|by intros c ->]. }
  unfold host_port at 1. change (":" +:+ port) with (String colon port).
  rewrite last_index_byte_app by (apply (all_bytes_fresh is_digit); [done|apply ok]).
  assert (Hd : str_drop (slen host) (host_port host port) = String colon port) by apply str_drop_app.
  rewrite Hd. cbn [validOptionalPort]. rewrite ceq_refl, (ok_port _ _ _ _ ok). cbn [andb].
  apply unescape_shown. apply host_port_bytes; [done|]. every_byte.
Qed.

Lemma parseAuthority_link :
  parseAuthority (quote user +:+ "@" +:+ host_port host port) = Some (Some (mkUserinfo user None), host_port host port).
Proof.
  unfold parseAuthority. change ("@" +:+ host_port host port) with (String "@" (host_port host port)).
  assert (Hat : contains_byte "@" (host_port host port) = false).
  { apply (all_bytes_fresh (λ c, unreserved c || ceq c ":")); [done|]. apply host_port_bytes; [done|by intros c ->]. }
  rewrite last_index_byte_app by done. cbv beta iota.
  rewrite str_drop_app_S, str_take_app, parseHost_host_port. cbn [mbind option_bind].
  replace (validUserinfo (quote user)) with true by (symmetry; apply quote_bytes; [done|every_byte]). cbn [negb].
  rewrite Cut_fresh by (apply (all_bytes_fresh (λ c, unreserved c || ceq c "%")); [done|apply quote_bytes; [done|by intros c ->]]).
  by rewrite unescape_quote.
Qed.

Lemma split_host_port : url_split (host_port host port) = (host, port).
Proof.
  unfold url_split, host_port. change (":" +:+ port) with (String colon port).
  rewrite last_index_byte_app by (apply (all_bytes_fresh is_digit); [done|apply ok]).
  rewrite str_drop_app. cbn [validOptionalPort]. rewrite ceq_refl, (ok_port _ _ _ _ ok), str_take_app, str_drop_app_S. cbn [andb].
  replace (HasPrefix host "[") with false; [done|]. pose proof (ok_host _ _ _ _ ok) as Hh. destruct host as [|c h]; [done|].
  cbn [all_bytes] in Hh. apply andb_prop in Hh as [Hc _]. revert Hc. unfold HasPrefix. cbn [is_prefix]. clear. revert c. every_byte.
Qed.

Lemma getScheme_link rest : getScheme (scheme +:+ ":" +:+ rest) = Some (scheme, rest).
Proof.
  destruct (ok_scheme _ _ _ _ ok) as [Hl Hne]. unfold getScheme. rewrite get_scheme_letters; [|done|].
  - by rewrite Nat.add_0_l, str_take_app.
  - destruct scheme; [done|]. rewrite slen_cons. lia.
Qed.

Definition link_authority : string := quote user +:+ "@" +:+ host_port host port.

Lemma authority_bytes (p : ascii → bool) :
  Forall (λ c, p c = true) [":"; "@"; "%"]%char → (∀ c, unreserved c = true → p c = true) → all_bytes p link_authority = true.
Proof.
  rewrite !list.Forall_cons. intros (Hc & Ha & Hp & _) Hu. unfold link_authority.
  rewrite !all_bytes_app, quote_bytes, host_port_bytes by done. cbn [all_bytes]. by rewrite Ha.
Qed.

Lemma link_authority_fresh d : unreserved d || contains_byte d ":@%" = false → contains_byte d link_authority = false.
Proof.
  intros Hd. apply (all_bytes_fresh (λ c, unreserved c || contains_byte c ":@%")); [done|].
  apply authority_bytes; [by repeat constructor|by intros c ->].
Qed.

Lemma parse_front : parse (link_front scheme user host port +:+ "?" +:+ query_text q) =
  Some (mkURL scheme (Some (mkUserinfo user None)) (host_port host port) (query_text q) "").
Proof.
  assert (Hctl : all_bytes (λ c, negb (is_ctl c)) (link_front scheme user host port +:+ "?" +:+ query_text q) = true).
  { rewrite !all_bytes_app, link_front_bytes, query_text_bytes; [done|done..|every_byte|apply ok|by repeat constructor|every_byte]. }
  unfold parse. rewrite Hctl. cbn [negb].
  replace (link_front scheme user host port +:+ "?" +:+ query_text q)
    with (scheme +:+ ":" +:+ ("//" +:+ link_authority) +:+ String "?" (query_text q))
    by (unfold link_front, link_authority; by rewrite !str_app_assoc).
  rewrite getScheme_link. cbn [mbind option_bind].
  rewrite cut_app; [|rewrite contains_byte_app, link_authority_fresh; done].
  change (HasPrefix ("//" +:+ link_authority) "/") with true. change (HasPrefix ("//" +:+ link_authority) "//") with true.
  replace (nonempty scheme) with true by (destruct (ok_scheme _ _ _ _ ok) as [_ Hne]; by destruct scheme).
  cbn [negb andb orb]. change (str_drop 2 ("//" +:+ link_authority)) with link_authority.
  rewrite (proj2 (index_byte_None "/" _)) by by apply link_authority_fresh.
  unfold link_authority. rewrite parseAuthority_link. cbn. by rewrite ToLower_lower by apply ok.
Qed.

(** Percent-encoding the user and the fragment is undone by [Parse]. *)
Lemma Parse_link frag : Parse (link_text scheme user host port q frag) =
  Some (mkURL scheme (Some (mkUserinfo user None)) (host_port host port) (query_text q) frag).
Proof.
  unfold Parse, link_text. change ("#" +:+ quote frag) with (String "#" (quote frag)).
  rewrite <- !str_app_assoc, cut_app, str_app_assoc, parse_front; [cbn; by rewrite unescape_quote|].
  apply (all_bytes_fresh link_byte); [done|].
  rewrite !all_bytes_app, link_front_bytes, query_text_bytes; [done|done..|by intros c; unfold link_byte; intros ->|apply ok|by repeat constructor|].
  by intros c; unfold link_byte; intros ->.
Qed.

Lemma link_text_bytes frag : all_bytes (λ c, link_byte c || ceq c "#") (link_text scheme user host port q frag) = true.
Proof.
  unfold link_text. rewrite !all_bytes_app, link_front_bytes, query_text_bytes, quote_bytes;
    [done|done|intros c; unfold link_byte; by intros ->|done..|intros c; unfold link_byte; by intros ->|apply ok|by repeat constructor|
     intros c; unfold link_byte; by intros ->].
Qed.

Lemma TrimSpace_link frag : TrimSpace (link_text scheme user host port q frag) = link_text scheme user host port q frag.
Proof.
  apply TrimSpace_fresh. intros c Hc. apply (all_bytes_fresh (λ c, link_byte c || ceq c "#")); [|apply link_text_bytes].
  revert c Hc. every_byte.
Qed.
End link.

Lemma link_query_get scheme host port q k v : link_ok scheme host port q →
  List.find (λ kv, bool_decide (fst kv = k)) q = Some (k, v) → query_get (ParseQuery (query_text q)) k = v.
Proof. intros ok Hf. unfold query_get. rewrite ParseQuery_text by apply ok. by rewrite Hf. Qed.

(** ** Base64 in URLs *)

(** The digits of the URL alphabet, by enumeration. *)
Definition url_digit_ok (c : ascii) : bool :=
  unreserved (digit_url c) && negb (ceq c "-") && negb (ceq c "_").

Lemma url_digits_ok v : url_digit_ok (enc6 (Z.land v 63)) = true.
Proof.
  assert (H : forallb (λ v, url_digit_ok (enc6 v)) (Z.of_nat <$> seq 0 64) = true) by (vm_compute; reflexivity).
  rewrite forallb_forall in H. apply H, list_elem_of_In, list_elem_of_fmap.
  change 63 with (Z.ones 6). rewrite Z.land_ones by lia. pose proof (Z.mod_pos_bound v (2 ^ 6)).
  exists (Z.to_nat (v mod 2 ^ 6)). split; [lia|]. apply elem_of_seq. lia.
Qed.

Lemma Encode_bytes l : all_bytes (λ c, url_digit_ok c || ceq c pad) (EncodeToString l) = true.
Proof.
  assert (Hd : ∀ v, url_digit_ok (enc6 (Z.land v 63)) || ceq (enc6 (Z.land v 63)) pad = true)
    by (intros v; by rewrite url_digits_ok).
  induction l as [|a|a b|a b c l IH] using list_ind3; [done|..]; cbn [EncodeToString]; cbv zeta; cbn [all_bytes]; by rewrite ?Hd, ?IH.
Qed.

Lemma digit_url_url : ∀ c, url_digit_ok c || ceq c pad = true → url_digit (digit_url c) = c.
Proof. every_byte. Qed.

Lemma URLEncode_bytes l : all_bytes (λ c, unreserved c || ceq c pad) (URLEncodeToString l) = true.
Proof.
  unfold URLEncodeToString. pose proof (Encode_bytes l) as Hb. induction (EncodeToString l) as [|c s IH]; [done|].
  cbn [all_bytes map_bytes] in *. apply andb_prop in Hb as [Hc Hs]. rewrite IH by done. rewrite andb_true_r.
  revert c Hc. every_byte.
Qed.

Lemma URLDecode_Encode l : URLDecodeString (URLEncodeToString l) = Some l.
Proof.
  unfold URLDecodeString, std_only.
  rewrite !(all_bytes_fresh (λ c, unreserved c || ceq c pad) _ (URLEncodeToString l)) by (done || apply URLEncode_bytes).
  cbn [orb]. rewrite <- (Decode_Encode l). f_equal. unfold URLEncodeToString.
  pose proof (Encode_bytes l) as Hb. induction (EncodeToString l) as [|c s IH]; [done|].
  cbn [all_bytes map_bytes] in *. apply andb_prop in Hb as [Hc Hs]. by rewrite digit_url_url, IH.
Qed.
