(* ===== verification/GasCache.v ===== *)
(** [gasResponseCache] of [proxy/gas_relay.go]: the relay's response cache, and a
    specification it refines.

    Entries are kept in a map and their URLs in a slice, oldest first; [put] evicts
    from the front of the slice until the new response fits.  Time is in
    nanoseconds; [now] is what [time.Now()] answers. *)

From S2P Require Import Prelude GoStrings GoText.
From coqutil Require Import Datatypes.RecordSetters.
Import DoubleBraceUpdate.

Open Scope Z_scope.

(** * The cache *)

Record gasCacheEntry := mkCacheEntry { raw : string; expires : Z }.

Record gasResponseCache := mkCache {
  store : gmap string gasCacheEntry;
  order : list string;
  size : Z;
  max : Z;
}.

Definition second : Z := 1000000000.

Definition newGASCache (maxMB : Z) : gasResponseCache := mkCache ∅ [] 0 (maxMB * 1024 * 1024).

Definition is_url (url u : string) : bool := bool_decide (u = url).

(** [None] is the nil slice. *)
Definition get (now : Z) (url : string) (c : gasResponseCache) : option string * gasResponseCache :=
  match store c !! url with
  | None => (None, c)
  | Some entry =>
      if expires entry <? now then
        (None, c {{ size ::= λ s, s - zlen (raw entry); store ::= delete url; order ::= remove_first (is_url url) }})
      else (Some (raw entry), c)
  end.

(** The length of [c.store[url].raw], which is 0 for a missing key. *)
Definition stored_len (st : gmap string gasCacheEntry) (url : string) : Z :=
  match st !! url with Some e => zlen (raw e) | None => 0 end.

(** The eviction loop; [c.order[0]] of an empty slice panics. *)
Fixpoint evict (limit need : Z) (st : gmap string gasCacheEntry) (ord : list string) (sz : Z)
    : outcome (gmap string gasCacheEntry * list string * Z) :=
  if (limit <? sz + need) && bool_decide (st ≠ ∅) then
    match ord with
    | [] => Panic
    | oldURL :: ord' => evict limit need (delete oldURL st) ord' (sz - stored_len st oldURL)
    end
  else Ok (st, ord, sz).

Definition put (now : Z) (url body : string) (ttl : Z) (c : gasResponseCache) : outcome gasResponseCache :=
  if zlen body =? 0 then Ok c
  else if max c ÷ 4 <? zlen body then Ok c
  else
    obind (evict (max c) (zlen body) (store c) (order c) (size c)) (λ '(st, ord, sz),
      let ord := match st !! url with Some _ => remove_first (is_url url) ord | None => ord end in
      let sz := sz - stored_len st url in
      Ok (mkCache (<[url := mkCacheEntry body (now + ttl * second)]> st) (ord ++ [url]) (sz + zlen body) (max c))).

(** * The specification

    A list of URLs and entries, oldest first, each URL once. *)
Module Spec.
Definition cache : Type := list (string * gasCacheEntry).

Definition total (l : cache) : Z := fold_right (λ ue acc, zlen (raw (snd ue)) + acc) 0 l.

Definition without (url : string) (l : cache) : cache := List.filter (λ ue, negb (is_url url (fst ue))) l.

Definition lookup (url : string) (l : cache) : option gasCacheEntry := snd <$> List.find (λ ue, is_url url (fst ue)) l.

Definition fetch (now : Z) (url : string) (l : cache) : option string * cache :=
  match lookup url l with
  | None => (None, l)
  | Some e => if expires e <? now then (None, without url l) else (Some (raw e), l)
  end.

(** The longest suffix that leaves room for [need] bytes. *)
Fixpoint make_room (limit need : Z) (l : cache) : cache :=
  match l with
  | [] => []
  | ue :: l' => if total l + need <=? limit then l else make_room limit need l'
  end.

Definition insert (limit now : Z) (url body : string) (ttl : Z) (l : cache) : cache :=
  if (zlen body =? 0) || (limit ÷ 4 <? zlen body) then l
  else without url (make_room limit (zlen body) l) ++ [(url, mkCacheEntry body (now + ttl * second))].
End Spec.

(** * Sequences of operations *)

Inductive op := Get (now : Z) (url : string) | Put (now : Z) (url body : string) (ttl : Z).

Definition step (o : op) (c : gasResponseCache) : outcome (option string * gasResponseCache) :=
  match o with
  | Get now url => Ok (get now url c)
  | Put now url body ttl => obind (put now url body ttl c) (λ c', Ok (None, c'))
  end.

Fixpoint run (ops : list op) (c : gasResponseCache) : outcome (list (option string) * gasResponseCache) :=
  match ops with
  | [] => Ok ([], c)
  | o :: ops' =>
      obind (step o c) (λ '(r, c'), obind (run ops' c') (λ '(rs, c''), Ok (r :: rs, c'')))
  end.

Definition spec_step (limit : Z) (o : op) (l : Spec.cache) : option string * Spec.cache :=
  match o with
  | Get now url => Spec.fetch now url l
  | Put now url body ttl => (None, Spec.insert limit now url body ttl l)
  end.

Fixpoint spec_run (limit : Z) (ops : list op) (l : Spec.cache) : list (option string) * Spec.cache :=
  match ops with
  | [] => ([], l)
  | o :: ops' =>
      let '(r, l') := spec_step limit o l in
      let '(rs, l'') := spec_run limit ops' l' in
      (r :: rs, l'')
  end.

(** * The abstraction *)

Definition entries (st : gmap string gasCacheEntry) (ord : list string) : Spec.cache :=
  omap (λ u, pair u <$> st !! u) ord.

Definition abs (c : gasResponseCache) : Spec.cache := entries (store c) (order c).

(** The slice lists the keys of the map, each once, and [sz] counts their bytes. *)
Record coherent (st : gmap string gasCacheEntry) (ord : list string) (sz : Z) : Prop := {
  co_nodup : NoDup ord;
  co_keys : ∀ u, u ∈ ord ↔ is_Some (st !! u);
  co_size : sz = Spec.total (entries st ord);
}.

Record cache_ok (c : gasResponseCache) : Prop := {
  ok_coherent : coherent (store c) (order c) (size c);
  ok_max : size c ≤ max c;
}.

Lemma is_url_true url u : is_url url u = true ↔ u = url.
Proof. apply bool_decide_eq_true. Qed.

Lemma is_url_ne url u : u ≠ url → is_url url u = false.
Proof. apply bool_decide_false. Qed.

Lemma is_url_refl url : is_url url url = true.
Proof. by apply is_url_true. Qed.

Lemma total_app l l' : Spec.total (l ++ l') = Spec.total l + Spec.total l'.
Proof. induction l as [|ue l IH]; simpl; lia. Qed.

Lemma total_nonneg l : 0 ≤ Spec.total l.
Proof. induction l as [|[u e] l IH]; simpl; [lia|]. pose proof (zlen_nonneg (raw e)). lia. Qed.

Section entries.
Context (st : gmap string gasCacheEntry).

Lemma entries_cons u ord : entries st (u :: ord) = option_list (pair u <$> st !! u) ++ entries st ord.
Proof. unfold entries. simpl. by destruct (st !! u). Qed.

Lemma entries_app ord ord' : entries st (ord ++ ord') = entries st ord ++ entries st ord'.
Proof. unfold entries. apply list.omap_app. Qed.

Lemma entries_other st' ord : (∀ u, u ∈ ord → st' !! u = st !! u) → entries st' ord = entries st ord.
Proof.
  unfold entries. induction ord as [|u ord IH]; intros H; csimpl; [done|].
  rewrite (H u) by left. rewrite IH; [done|]. intros v Hv. apply H. by right.
Qed.

Lemma without_absent url ord : url ∉ ord → Spec.without url (entries st ord) = entries st ord.
Proof.
  induction ord as [|u ord IH]; intros H; [done|]. rewrite entries_cons. unfold Spec.without in *. rewrite List.filter_app, IH by set_solver.
  destruct (st !! u); simpl; [|done]. by rewrite is_url_ne by set_solver.
Qed.

Lemma entries_remove url ord :
  NoDup ord → entries (delete url st) (remove_first (is_url url) ord) = Spec.without url (entries st ord).
Proof.
  induction ord as [|u ord IH]; intros Hnd; [done|]. apply list.NoDup_cons in Hnd as [Hu Hnd]. cbn [remove_first].
  rewrite entries_cons. unfold Spec.without. rewrite List.filter_app. fold (Spec.without url (entries st ord)).
  destruct (decide (u = url)) as [->|Hne].
  - rewrite is_url_refl, without_absent by done. destruct (st !! url); simpl; [rewrite is_url_refl; simpl|].
    all: apply entries_other; intros v Hv; apply lookup_delete_ne; intros ->; done.
  - rewrite is_url_ne by done. rewrite <- (IH Hnd). unfold entries at 1. simpl. rewrite lookup_delete_ne by done.
    destruct (st !! u); simpl; [|done]. by rewrite is_url_ne.
Qed.

Lemma total_remove url ord :
  NoDup ord → (is_Some (st !! url) → url ∈ ord) →
  Spec.total (Spec.without url (entries st ord)) = Spec.total (entries st ord) - stored_len st url.
Proof.
  induction ord as [|u ord IH]; intros Hnd Hin.
  - unfold stored_len. destruct (st !! url) eqn:E; [|done]. exfalso. apply (not_elem_of_nil url), Hin. by exists g.
  - apply list.NoDup_cons in Hnd as [Hu Hnd]. rewrite entries_cons. unfold Spec.without.
    rewrite List.filter_app, !total_app. fold (Spec.without url (entries st ord)).
    destruct (decide (u = url)) as [->|Hne].
    + rewrite without_absent by done. unfold stored_len. destruct (st !! url); simpl; [rewrite is_url_refl; simpl|]; lia.
    + rewrite IH; [|done|set_solver]. destruct (st !! u); simpl; [rewrite is_url_ne by done; simpl|]; lia.
Qed.

Lemma lookup_entries url ord : (is_Some (st !! url) → url ∈ ord) → Spec.lookup url (entries st ord) = st !! url.
Proof.
  induction ord as [|u ord IH]; intros Hin; unfold Spec.lookup.
  - destruct (st !! url) eqn:E; [|done]. exfalso. apply (not_elem_of_nil url), Hin. by exists g.
  - rewrite entries_cons. destruct (decide (u = url)) as [->|Hne].
    + destruct (st !! url) eqn:E; simpl; [by rewrite is_url_refl|]. apply IH. by intros [? [=]].
    + destruct (st !! u); simpl; [rewrite is_url_ne by done|]; apply IH; set_solver.
Qed.
End entries.

(** * Each operation refines its specification *)

Lemma evict_spec limit need ord : ∀ st sz,
  coherent st ord sz →
  ∃ st' ord' sz', evict limit need st ord sz = Ok (st', ord', sz') ∧ coherent st' ord' sz' ∧
    entries st' ord' = Spec.make_room limit need (entries st ord) ∧ (sz' = 0 ∨ sz' + need ≤ limit).
Proof.
  induction ord as [|u ord IH]; intros st sz Hc; cbn [evict].
  - assert (st = ∅) as ->.
    { apply map_eq. intros u. rewrite lookup_empty. apply eq_None_not_Some. intros Hs%Hc. by apply not_elem_of_nil in Hs. }
    rewrite bool_decide_false by (intros H; by apply H). rewrite andb_false_r.
    exists ∅, [], sz. split_and!; [done..|]. left. by rewrite (co_size _ _ _ Hc).
  - assert (Hn := co_nodup _ _ _ Hc). apply list.NoDup_cons in Hn as [Hu Hn].
    destruct (proj1 (co_keys _ _ _ Hc u)) as [e He]; [left|].
    assert (Hcons : entries st (u :: ord) = (u, e) :: entries (delete u st) ord).
    { rewrite entries_cons, He. simpl. f_equal. symmetry. apply entries_other. intros v Hv. apply lookup_delete_ne. by intros ->. }
    assert (Hsz := co_size _ _ _ Hc). rewrite Hcons in Hsz |- *. simpl in Hsz.
    rewrite bool_decide_true by (intros ->; by rewrite lookup_empty in He). rewrite andb_true_r. cbn [Spec.make_room].
    cbn [Spec.total fold_right snd]. fold (Spec.total (entries (delete u st) ord)). rewrite <- Hsz.
    destruct (Z.ltb_spec limit (sz + need)) as [Hlt|Hge].
    + destruct (Z.leb_spec (sz + need) limit); [lia|]. apply IH. split; [done| |].
      * intros v. destruct (decide (v = u)) as [->|Hne].
        -- rewrite lookup_delete_eq. split; [done|]. by intros [? [=]].
        -- rewrite lookup_delete_ne by done. rewrite <- (co_keys _ _ _ Hc). set_solver.
      * unfold stored_len. rewrite He. lia.
    + destruct (Z.leb_spec (sz + need) limit); [|lia]. exists st, (u :: ord), sz. split_and!; [done..|by right].
Qed.

Lemma coherent_remove st ord sz url :
  coherent st ord sz → is_Some (st !! url) →
  coherent (delete url st) (remove_first (is_url url) ord) (sz - stored_len st url).
Proof.
  intros Hc Hs. split.
  - eapply sublist_NoDup; [apply Hc|apply remove_first_sublist].
  - intros u. assert (Hk := co_keys _ _ _ Hc u). assert (Hn := co_nodup _ _ _ Hc).
    assert (Hrem : ∀ l, NoDup l → u ∈ remove_first (is_url url) l ↔ u ∈ l ∧ u ≠ url).
    { clear. induction l as [|v l IH]; intros Hn; simpl; [set_solver|]. apply list.NoDup_cons in Hn as [Hv Hn].
      destruct (decide (v = url)) as [->|Hne]; [rewrite is_url_refl; set_solver|].
      rewrite is_url_ne by done. rewrite !elem_of_cons, IH by done. set_solver. }
    rewrite Hrem, Hk by done. destruct (decide (u = url)) as [->|Hne].
    + rewrite lookup_delete_eq. split; [by intros []|by intros [? [=]]].
    + rewrite lookup_delete_ne by done. tauto.
  - rewrite entries_remove by apply Hc. rewrite total_remove; [|apply Hc..]. by rewrite (co_size _ _ _ Hc).
Qed.

Lemma coherent_insert st ord sz url e :
  coherent st ord sz → st !! url = None →
  coherent (<[url := e]> st) (ord ++ [url]) (sz + zlen (raw e)) ∧
  entries (<[url := e]> st) (ord ++ [url]) = entries st ord ++ [(url, e)].
Proof.
  intros Hc Hnone.
  assert (Hnin : url ∉ ord) by (rewrite (co_keys _ _ _ Hc), Hnone; by intros [? [=]]).
  assert (He : entries (<[url := e]> st) (ord ++ [url]) = entries st ord ++ [(url, e)]).
  { rewrite entries_app. f_equal.
    - apply entries_other. intros u Hu. apply lookup_insert_ne. by intros ->.
    - rewrite entries_cons, lookup_insert_eq. done. }
  split; [|done]. split.
  - apply list.NoDup_app. split_and!; [apply Hc| |apply NoDup_singleton]. intros u Hu ->%list_elem_of_singleton. done.
  - intros u. rewrite elem_of_app, list_elem_of_singleton. destruct (decide (u = url)) as [->|Hne].
    + rewrite lookup_insert_eq. split; [by eexists|by right].
    + rewrite lookup_insert_ne by done. rewrite <- (co_keys _ _ _ Hc). tauto.
  - rewrite He, total_app. simpl. rewrite (co_size _ _ _ Hc). lia.
Qed.

Lemma stored_len_nonneg st url : 0 ≤ stored_len st url.
Proof. unfold stored_len. destruct (st !! url); [apply zlen_nonneg|lia]. Qed.

Lemma get_refines now url c :
  cache_ok c → let '(r, c') := get now url c in Spec.fetch now url (abs c) = (r, abs c') ∧ cache_ok c' ∧ max c' = max c.
Proof.
  intros [Hc Hm]. unfold get, Spec.fetch. unfold abs at 1. rewrite lookup_entries by apply Hc.
  destruct (store c !! url) as [e|] eqn:E; [|by split_and!].
  destruct (expires e <? now); [|by split_and!]. unfold abs. simpl. split_and!; [|split; simpl|done].
  - by rewrite entries_remove by apply Hc.
  - assert (Hr := coherent_remove _ _ _ url Hc). unfold stored_len in Hr. rewrite E in Hr. apply Hr. by eexists.
  - pose proof (zlen_nonneg (raw e)). change (size c - zlen (raw e) ≤ max c). lia.
Qed.

Lemma put_refines now url body ttl c :
  cache_ok c →
  ∃ c', put now url body ttl c = Ok c' ∧ abs c' = Spec.insert (max c) now url body ttl (abs c) ∧ cache_ok c' ∧ max c' = max c.
Proof.
  intros [Hc Hm]. unfold put, Spec.insert.
  destruct (Z.eqb_spec (zlen body) 0) as [|Hz]; [by exists c|].
  destruct (Z.ltb_spec (max c ÷ 4) (zlen body)) as [|Hfit]; [by exists c|]. simpl.
  destruct (evict_spec (max c) (zlen body) (order c) (store c) (size c) Hc) as (st & ord & sz & -> & Hc' & He & Hroom).
  cbn [obind]. fold (abs c) in He. rewrite <- He.
  set (st1 := delete url st). set (ord1 := match st !! url with Some _ => remove_first (is_url url) ord | None => ord end).
  assert (H1 : coherent st1 ord1 (sz - stored_len st url) ∧ entries st1 ord1 = Spec.without url (entries st ord)).
  { unfold st1, ord1. destruct (st !! url) as [e|] eqn:E.
    - split; [apply coherent_remove; [done|by eexists]|apply entries_remove, Hc'].
    - unfold stored_len. rewrite E, delete_id, Z.sub_0_r by done. split; [done|].
      rewrite without_absent; [done|]. rewrite (co_keys _ _ _ Hc'), E. by intros [? [=]]. }
  destruct H1 as [H1 H2]. destruct (coherent_insert _ _ _ url (mkCacheEntry body (now + ttl * second)) H1) as [H3 H4].
  { apply lookup_delete_eq. }
  unfold st1 in H2, H3, H4. rewrite insert_delete_eq in H3, H4.
  eexists. split_and!; [done|unfold abs; simpl; by rewrite H4, H2|split; simpl; [exact H3|]|done].
  pose proof (stored_len_nonneg st url). pose proof (zlen_nonneg body).
  assert (zlen body ≤ max c) by (Z.to_euclidean_division_equations; lia). lia.
Qed.

Lemma step_refines o c :
  cache_ok c →
  ∃ r c', step o c = Ok (r, c') ∧ spec_step (max c) o (abs c) = (r, abs c') ∧ cache_ok c' ∧ max c' = max c.
Proof.
  intros Hok. destruct o as [now url|now url body ttl]; simpl.
  - pose proof (get_refines now url c Hok) as H. destruct (get now url c) as [r c']. destruct H as (? & ? & ?). by eexists _, _.
  - destruct (put_refines now url body ttl c Hok) as (c' & -> & Ha & ? & ?). exists None, c'. simpl. by rewrite Ha.
Qed.

Lemma run_refines ops : ∀ c,
  cache_ok c →
  ∃ rs c', run ops c = Ok (rs, c') ∧ spec_run (max c) ops (abs c) = (rs, abs c') ∧ cache_ok c' ∧ max c' = max c.
Proof.
  induction ops as [|o ops IH]; intros c Hok; cbn [run spec_run]; [by eexists [], c|].
  destruct (step_refines o c Hok) as (r & c1 & -> & Hs & Hok1 & Hm). rewrite Hs. cbn [obind].
  destruct (IH c1 Hok1) as (rs & c2 & -> & Hs2 & Hok2 & Hm2). rewrite <- Hm, Hs2. by eexists _, _.
Qed.

(** C11: The response cache refines the list of entries in insertion order: every
    sequence of [get] and [put] from an empty cache runs without a panic and
    answers what the specification answers, where [put] drops the oldest entries
    until the new one fits and [get] drops an expired entry; the counted size is
    the size of the entries held and never exceeds the limit. *)
Theorem cache_refines maxMB ops :
  0 ≤ maxMB →
  ∃ rs c, run ops (newGASCache maxMB) = Ok (rs, c) ∧
    spec_run (maxMB * 1024 * 1024) ops [] = (rs, abs c) ∧
    size c = Spec.total (abs c) ∧ 0 ≤ size c ≤ maxMB * 1024 * 1024.
Proof.
  intros Hmb. destruct (run_refines ops (newGASCache maxMB)) as (rs & c & Hr & Hs & [Hc Hm] & Hmax).
  { split; simpl; [|lia]. split; simpl; [constructor| |done]. intros u. rewrite lookup_empty. split; [by intros ?%not_elem_of_nil|by intros [? [=]]]. }
  exists rs, c. split_and!; [done..|apply Hc| |].
  - rewrite (co_size _ _ _ Hc). apply total_nonneg.
  - etrans; [exact Hm|]. by rewrite Hmax.
Qed.

Definition demo_ops : list op :=
  [Put 0 "a" "aaaa" 10; Get 5 "a"; Put 1 "b" "bb" 1; Put 2 "a" "a2" 10; Get (2 * second) "b"; Get 7 "a"].

Lemma cache_refines_witness :
  ∃ rs c, run demo_ops (newGASCache 1) = Ok (rs, c) ∧
    spec_run (1 * 1024 * 1024) demo_ops [] = (rs, abs c) ∧
    size c = Spec.total (abs c) ∧ 0 ≤ size c ≤ 1 * 1024 * 1024.
Proof. apply (cache_refines 1 demo_ops). lia. Defined.

Example demo_ops_answers :
  (∃ c, run demo_ops (newGASCache 1) = Ok ([None; Some "aaaa"; None; None; None; Some "a2"], c)).
Proof. eexists. vm_compute. reflexivity. Qed.
