(* ===== verification/GasHTTP.v ===== *)
(** The HTTP text handling of [proxy/gas_relay.go]: reading requests and responses,
    the answers the relay builds, CORS headers, and the classification of URLs and
    hosts.  Byte slices are strings; a connection that is read is the string of the
    bytes it still delivers.

    [net/url]'s parser, the decompressors, the JSON decoder and [fmt]'s [%v] are
    arguments.  A decoded JSON object is a list of members with distinct keys, in the
    order the program happens to range over it. *)

From Stdlib Require Import Strings.Byte.
From S2P Require Import Prelude GoStrings GoBytes Base64 GoText GasCache.

Open Scope Z_scope.

(** * Answers the relay builds *)

Definition gasErrorResponse (status : Z) (message : string) : string :=
  let body := "<html><body><h1>" +:+ Itoa status +:+ "</h1><p>" +:+ message +:+ "</p></body></html>" in
  "HTTP/1.1 " +:+ Itoa status +:+ " Error" +:+ CRLF +:+ "Content-Type: text/html" +:+ CRLF +:+
  "Content-Length: " +:+ Itoa (zlen body) +:+ CRLF +:+ CRLF +:+ body.

Definition gasTruncate (s : string) (max : nat) : string := if (slen s <=? max)%nat then s else str_take max s.

(** [%.1f] of [n / d]: rounded to tenths, ties to even. *)
Definition tenths (n d : Z) : Z :=
  let q := 10 * n / d in let r := (10 * n) mod d in
  if (d <? 2 * r) || ((2 * r =? d) && Z.odd q) then q + 1 else q.

Fixpoint unit_loop (fuel : nat) (n div : Z) (exp : nat) : Z * nat :=
  match fuel with
  | O => (div, exp)
  | S fuel' => if 1024 <=? n then unit_loop fuel' (n / 1024) (div * 1024) (S exp) else (div, exp)
  end.

(** A 64-bit size is divided by 1024 at most six times. *)
Definition humanSize (bytes : Z) : outcome string :=
  if bytes <? 1024 then Ok (Itoa bytes +:+ " B")
  else
    let '(div, exp) := unit_loop 7 (bytes / 1024) 1024 0 in
    let t := tenths bytes div in
    match Stdlib.Strings.String.get exp "KMGTPE" with
    | Some u => Ok (Itoa (t / 10) +:+ "." +:+ Itoa (t mod 10) +:+ " " +:+ String u "B")
    | None => Panic
    end.

Definition gasCORSPreflight (origin acrMethod acrHeaders : string) : string :=
  let allowOrigin := if nonempty origin then origin else "*" in
  let allowMethods := "GET, POST, PUT, DELETE, PATCH, OPTIONS" in
  let allowMethods := if nonempty acrMethod then acrMethod +:+ ", " +:+ allowMethods else allowMethods in
  let allowHeaders := if nonempty acrHeaders then acrHeaders else "*" in
  "HTTP/1.1 204 No Content" +:+ CRLF +:+
  "Access-Control-Allow-Origin: " +:+ allowOrigin +:+ CRLF +:+
  "Access-Control-Allow-Methods: " +:+ allowMethods +:+ CRLF +:+
  "Access-Control-Allow-Headers: " +:+ allowHeaders +:+ CRLF +:+
  "Access-Control-Allow-Credentials: true" +:+ CRLF +:+
  "Access-Control-Max-Age: 86400" +:+ CRLF +:+
  "Vary: Origin" +:+ CRLF +:+
  "Content-Length: 0" +:+ CRLF +:+ CRLF.

Definition is_cors_header (ln : string) : bool := HasPrefix (ToLower ln) "access-control-".

Definition cors_headers (origin : string) : list string :=
  ["Access-Control-Allow-Origin: " +:+ (if nonempty origin then origin else "*");
   "Access-Control-Allow-Credentials: true";
   "Access-Control-Allow-Methods: GET, POST, PUT, DELETE, PATCH, OPTIONS";
   "Access-Control-Allow-Headers: *";
   "Access-Control-Expose-Headers: *";
   "Vary: Origin"].

Definition gasInjectCORS (response origin : string) : string :=
  match Index response (CRLF +:+ CRLF) with
  | None => response
  | Some idx =>
      let lines := SplitSeq (str_take idx response) CRLF in
      Join (List.filter (λ ln, negb (is_cors_header ln)) lines ++ cors_headers origin) CRLF
      +:+ CRLF +:+ CRLF +:+ str_drop (idx + 4) response
  end.

(** * Reading responses *)

Definition gasExtractBody (resp : string) : option string :=
  match Index resp (CRLF +:+ CRLF) with
  | Some idx => Some (str_drop (idx + 4) resp)
  | None => None
  end.

(** [line[16:]] of a line that is only known to have 15 bytes. *)
Fixpoint content_length_of (lines : list string) : outcome Z :=
  match lines with
  | [] => Ok 0
  | line :: lines' =>
      if HasPrefix (ToLower line) "content-length:" then
        obind (slice_from line 16) (λ rest, Ok (fst (ParseInt (TrimSpace (TrimPrefix rest " ")))))
      else content_length_of lines'
  end.

Definition gasParseContentLength (resp : string) : outcome Z := content_length_of (SplitSeq resp CRLF).

Definition gasLooksLikeHTMLError (body : string) : bool :=
  if (slen body <? 50)%nat then false
  else
    let trimmed := TrimSpace (ToLower body) in
    Contains trimmed "<html" &&
    (Contains trimmed "error" || Contains trimmed "try again" || Contains trimmed "timeout" || Contains trimmed "unavailable").

Definition gasResponseBytesIsError (resp : string) : bool :=
  nonempty resp && (HasPrefix resp "HTTP/1.1 502" || HasPrefix resp "HTTP/1.1 503").

(** The lines of a head up to one that satisfies [stop], with what follows it.
    [total] counts the bytes read, [over] says when they are too many. *)
Inductive head := HeadEOF | HeadTooLarge | Head (lines : list string) (rest : string).

Fixpoint read_head (stop : string → bool) (over : Z → bool) (total : Z) (cur s : string) : head :=
  match s with
  | "" => HeadEOF
  | String c s' =>
      if ceq c LF then
        let line := str_rev_app cur (String LF "") in
        let total := total + zlen line in
        if over total then HeadTooLarge
        else if stop line then Head [line] s'
        else match read_head stop over total "" s' with
             | Head ls rest => Head (line :: ls) rest
             | h => h
             end
      else read_head stop over total (String c cur) s'
  end.

(** The first three digits in a row. *)
Fixpoint status_of (line : string) : Z :=
  match line with
  | "" => 0
  | String _ line' =>
      if (slen (str_take 3 line) =? 3)%nat then
        match digits_val 0 (str_take 3 line) with Some v => v | None => status_of line' end
      else 0
  end.

Definition add_lower_header (h : gmap string string) (line : string) : gmap string string :=
  match Cut (TrimEOL line) ":" with
  | Some (k, v) => <[norm k := TrimSpace v]> h
  | None => h
  end.

Section decode.
Context (gunzip inflate unbrotli unzstd : string → option string).

(** A body that does not decode is left as it is. *)
Definition gasDecodeGzip (data : string) : string := default data (gunzip data).
Definition gasDecodeDeflate (data : string) : string := default data (inflate data).
Definition gasDecodeBrotli (data : string) : string := default data (unbrotli data).
Definition gasDecodeZstd (data : string) : string := default data (unzstd data).

(** An encoding without a comma. *)
Definition decode_one (body encoding : string) : string :=
  if negb (nonempty body) then body
  else
    let enc := norm encoding in
    if bool_decide (enc = "gzip") then gasDecodeGzip body
    else if bool_decide (enc = "deflate") then gasDecodeDeflate body
    else if bool_decide (enc = "br") then gasDecodeBrotli body
    else if bool_decide (enc = "zstd") then gasDecodeZstd body
    else body.

Definition gasDecodeContent (body encoding : string) : string :=
  if negb (nonempty body) then body
  else
    let enc := norm encoding in
    if contains_byte "," enc then fold_right (λ part body, decode_one body part) body (Split enc ",")
    else decode_one body enc.

(** Status, headers and body; [None] is an error. *)
Definition gasReadHTTPResponse (conn : string) (maxBody : Z) : option (Z * gmap string string * string) :=
  match ReadLine conn with
  | None => None
  | Some (statusLine, s) =>
      match read_head (λ l, negb (nonempty (TrimEOL l))) (λ _, false) 0 "" s with
      | Head lines rest =>
          let headers := foldl add_lower_header ∅ (removelast lines) in
          let cl := match headers !! "content-length" with Some v => fst (ParseInt v) | None => 0 end in
          let finish body :=
            let enc := default "" (headers !! "content-encoding") in
            Some (status_of statusLine, headers, if nonempty enc then gasDecodeContent body enc else body) in
          if 0 <? cl then
            if maxBody <? cl then None
            else if zlen rest <? cl then None
            else finish (str_take (Z.to_nat cl) rest)
          else finish rest
      | _ => None
      end
  end.
End decode.

(** * Reading requests *)

Definition parse_header (h : gmap string string) (ln : string) : gmap string string :=
  let ln := TrimEOL ln in
  if negb (nonempty ln) then h
  else match Cut ln ":" with Some (k, v) => <[TrimSpace k := TrimSpace v]> h | None => h end.

Definition gasParseHeaders (lines : list string) : gmap string string := foldl parse_header ∅ lines.

(** The iteration order of a header map. *)
Class HeaderRange := {
  header_range : gmap string string → list (string * string);
  header_range_perm h : header_range h ≡ₚ map_to_list h;
}.

#[export] Instance header_list_range : HeaderRange | 100 :=
  {| header_range h := map_to_list h; header_range_perm h := reflexivity _ |}.

Definition headerValue `{HeaderRange} (headers : gmap string string) (name : string) : string :=
  default "" (snd <$> List.find (λ kv, bool_decide (ToLower (fst kv) = name)) (header_range headers)).

(** The declared length; [None] is the return of nil before the body is read. *)
Fixpoint declared_length (cl : Z) (headers : list string) : option Z :=
  match headers with
  | [] => Some cl
  | ln :: headers' =>
      if HasPrefix (ToLower ln) "content-length:" then
        let '(n, err) := ParseInt (TrimSpace (TrimPrefix (ToLower ln) "content-length:")) in
        if err || (n <? 0) then None else declared_length n headers'
      else declared_length cl headers'
  end.

(** The body, and what is left of the stream. *)
Definition gasReadBody (reader : string) (headers : list string) : string * string :=
  match declared_length 0 headers with
  | None => ("", reader)
  | Some cl =>
      if 100 * 1024 * 1024 <? cl then ("", reader)
      else if cl =? 0 then ("", reader)
      else if zlen reader <? cl then ("", "")
      else (str_take (Z.to_nat cl) reader, str_drop (Z.to_nat cl) reader)
  end.

Definition gasParseRequestLine (line : string) : string * string :=
  match Split (TrimSpace line) " " with
  | method :: path :: _ => (method, path)
  | _ => ("GET", "/")
  end.

Definition gasNormalizeURL (host : string) (port : Z) (path : string) : string :=
  if HasPrefix path "http://" || HasPrefix path "https://" then path
  else
    let scheme := if port =? 443 then "https" else "http" in
    if (port =? 80) || (port =? 443) then scheme +:+ "://" +:+ host +:+ path
    else scheme +:+ "://" +:+ host +:+ ":" +:+ Itoa port +:+ path.

Definition gasSplitHostPort (target : string) (defPort : Z) : string * Z :=
  if contains_byte ":" target then
    let parts := Split target ":" in
    if (2 <=? length parts)%nat then (Join (removelast parts) ":", fst (ParseInt (List.last parts "")))
    else (target, defPort)
  else (target, defPort).

(** * Hosts *)

Definition gasGoogleDirectExactExclude : list string :=
  ["gemini.google.com"; "aistudio.google.com"; "notebooklm.google.com"; "labs.google.com"; "meet.google.com";
   "accounts.google.com"; "ogs.google.com"; "mail.google.com"; "calendar.google.com"; "drive.google.com";
   "docs.google.com"; "chat.google.com"; "photos.google.com"; "maps.google.com"; "myaccount.google.com";
   "contacts.google.com"; "classroom.google.com"; "keep.google.com"; "play.google.com"; "translate.google.com";
   "assistant.google.com"; "lens.google.com"].

Definition gasGoogleDirectSuffixExclude : list string := [".meet.google.com"].

Definition gasSNIRewriteSuffixes : list string :=
  ["youtube.com"; "youtu.be"; "youtube-nocookie.com"; "ytimg.com"; "ggpht.com"; "gvt1.com"; "gvt2.com";
   "doubleclick.net"; "googlesyndication.com"; "googleadservices.com"; "google-analytics.com";
   "googletagmanager.com"; "googletagservices.com"; "fonts.googleapis.com"; "script.google.com"].

Definition gasShouldDirectConnect (host : string) : bool :=
  if negb (nonempty host) then false
  else
    let host := ToLower (TrimSuffix host ".") in
    bool_decide (host ∈ gasGoogleDirectExactExclude) || existsb (HasSuffix host) gasGoogleDirectSuffixExclude.

Definition gasNeedsSNIRewrite (host : string) : bool :=
  if negb (nonempty host) then false
  else
    let host := ToLower (TrimSuffix host ".") in
    existsb (λ suffix, HasSuffix host suffix || bool_decide (host = suffix)) gasSNIRewriteSuffixes.

Definition gasStaticExts : list string :=
  [".css"; ".js"; ".mjs"; ".woff"; ".woff2"; ".ttf"; ".eot"; ".png"; ".jpg"; ".jpeg"; ".gif"; ".webp"; ".svg"; ".ico";
   ".mp3"; ".mp4"; ".webm"; ".wasm"; ".avif"].

Definition gasLargeFileExts : list string :=
  [".bin"; ".zip"; ".tar"; ".gz"; ".bz2"; ".xz"; ".7z"; ".rar"; ".exe"; ".msi"; ".dmg"; ".deb"; ".rpm"; ".apk";
   ".iso"; ".img"; ".mp4"; ".mkv"; ".avi"; ".mov"; ".mp3"; ".flac"; ".wav"; ".aac"; ".pdf"; ".doc"; ".docx"; ".ppt"; ".pptx"].

Definition gasIsLargeFileExt (urlStr : string) : bool := existsb (HasSuffix (ToLower urlStr)) gasLargeFileExts.

Section url.
(** [url.Parse]: the [Hostname()] and [Path] of a URL. *)
Context (parse_url : string → option (string * string)).

Definition gasExtractHost (urlStr : string) : string :=
  match (if Contains urlStr "://" then parse_url urlStr else None) with
  | Some (host, _) => ToLower host
  | None => ToLower (hd "" (Split urlStr ":"))
  end.

Definition gasHostKey (urlOrHost : string) : string :=
  if negb (nonempty urlOrHost) then ""
  else match (if Contains urlOrHost "://" then parse_url urlOrHost else None) with
       | Some (host, _) => ToLower (TrimSuffix host ".")
       | None => ToLower (TrimSuffix urlOrHost ".")
       end.

Definition gasIsStaticAsset (urlStr : string) : bool :=
  match parse_url urlStr with
  | Some (_, path) => existsb (HasSuffix (ToLower path)) gasStaticExts
  | None => false
  end.

Context `{HeaderRange}.

Definition isStatefulRequest (method urlStr : string) (headers : gmap string string) (body : string) : bool :=
  let method := ToUpper method in
  if negb (bool_decide (method = "GET")) && negb (bool_decide (method = "HEAD")) then true
  else if nonempty body then true
  else if existsb (λ name, nonempty (headerValue headers name))
    ["cookie"; "authorization"; "proxy-authorization"; "origin"; "referer"; "if-none-match"; "if-modified-since";
     "cache-control"; "pragma"] then true
  else
    let accept := ToLower (headerValue headers "accept") in
    if Contains accept "text/html" || Contains accept "application/json" then true
    else
      let fetchMode := ToLower (headerValue headers "sec-fetch-mode") in
      if bool_decide (fetchMode = "navigate") || bool_decide (fetchMode = "cors") then true
      else negb (gasIsStaticAsset urlStr).

Definition coalesceKey (urlStr : string) (headers : gmap string string) : string :=
  Join (urlStr :: omap (λ name,
    let v := headerValue headers name in
    if nonempty v then Some (name +:+ "=" +:+ v) else None)
    ["accept"; "accept-language"; "user-agent"; "sec-fetch-dest"; "sec-fetch-mode"; "sec-fetch-site"]) (String LF "").
End url.

(** * The time to live of a response *)

(** The digits after the first [max-age=] that has any. *)
Fixpoint digits_prefix (s : string) : string :=
  match s with
  | String c s' => if is_digit c then String c (digits_prefix s') else ""
  | "" => ""
  end.

Fixpoint max_age (s : string) : option string :=
  match s with
  | "" => None
  | String _ s' =>
      let ds := digits_prefix (TrimPrefix s "max-age=") in
      if HasPrefix s "max-age=" && nonempty ds then Some ds else max_age s'
  end.

Definition gasCacheTTLLong : Z := 3600.
Definition gasCacheTTLMed : Z := 1800.
Definition gasCacheTTLMax : Z := 86400.

(** [string(raw[:20])] *)
Definition parseTTL (raw urlStr : string) : outcome Z :=
  match Index raw (CRLF +:+ CRLF) with
  | None => Ok 0
  | Some idx =>
      let head := ToLower (str_take idx raw) in
      if (slen raw <? 20)%nat then Panic
      else if negb (HasPrefix (str_take 20 raw) "HTTP/1.1 200") then Ok 0
      else if Contains head "no-store" || Contains head "private" || Contains head "set-cookie:" then Ok 0
      else
        match max_age head with
        | Some ds =>
            let v := fst (ParseInt ds) in
            Ok (if gasCacheTTLMax <? v then gasCacheTTLMax else v)
        | None =>
            let path := ToLower (hd "" (Split urlStr "?")) in
            if existsb (HasSuffix path) gasStaticExts then Ok gasCacheTTLLong
            else if Contains head "image/" || Contains head "font/" then Ok gasCacheTTLLong
            else if Contains head "text/css" || Contains head "javascript" then Ok gasCacheTTLMed
            else Ok 0
        end
  end.

(** * Answers of the script *)

Definition gasIntVal (v : option jvalue) (def : Z) : Z :=
  match v with
  | Some (JNum n) => n
  | Some (JStr s) => let '(i, err) := ParseInt s in if err then def else i
  | _ => def
  end.

Definition statusText (status : Z) : string :=
  if status =? 206 then "Partial Content" else if status =? 301 then "Moved" else if status =? 302 then "Found"
  else if status =? 304 then "Not Modified" else if status =? 400 then "Bad Request" else if status =? 403 then "Forbidden"
  else if status =? 404 then "Not Found" else if status =? 500 then "Internal Server Error" else "OK".

Definition skipped_headers : list string :=
  ["transfer-encoding"; "connection"; "keep-alive"; "content-length"; "content-encoding"].

(** The texts of the decoders' own errors are left out of the error answers. *)
Section json.
Context (Unmarshal : string → option jobject).                 (** [json.Unmarshal] into a map *)
Context (fmt_v : jvalue → string).                              (** [%v] *)
Context (maxRespBody : Z).

(** The values written for a header: one line per item of an array. *)
Definition shown (v : jvalue) : list string :=
  match v with JArr items => fmt_v <$> items | v => [fmt_v v] end.

Definition header_lines (kv : string * jvalue) : list string :=
  if bool_decide (ToLower (fst kv) ∈ skipped_headers) then []
  else (λ text, fst kv +:+ ": " +:+ text) <$> shown (snd kv).

Definition object_headers (data : jobject) : jobject :=
  match member "h" data with Some (JObj h) => h | _ => [] end.

Definition object_body (data : jobject) : option (list byte) :=
  DecodeString match member "b" data with Some (JStr b) => b | _ => "" end.

(** Lines with their ends. *)
Definition with_eol (lines : list string) : string := foldr (λ l acc, l +:+ CRLF +:+ acc) "" lines.

Definition response_lines (status : Z) (headers : jobject) (body : string) : list string :=
  ("HTTP/1.1 " +:+ Itoa status +:+ " " +:+ statusText status)
  :: mjoin (header_lines <$> headers) ++ ["Content-Length: " +:+ Itoa (zlen body)].

Definition parseRelayJSON (data : jobject) : outcome string :=
  match member "e" data with
  | Some e => Ok (gasErrorResponse 502 ("Relay error: " +:+ fmt_v e))
  | None =>
      match object_body data with
      | None => Ok (gasErrorResponse 502 "Relay base64 decode error")
      | Some decoded =>
          let body := bytes_string decoded in
          if maxRespBody <? zlen body then
            obind (humanSize maxRespBody) (λ sz, Ok (gasErrorResponse 502 ("Relay response exceeds cap (" +:+ sz +:+ ")")))
          else
            Ok (with_eol (response_lines (gasIntVal (member "s" data) 200) (object_headers data) body) +:+ CRLF +:+ body)
      end
  end.

(** From the first opening brace to the last closing one on its line: the match of
    the greedy expression, whose dot does not match a line feed. *)
Fixpoint json_candidate (s : string) : string :=
  match s with
  | "" => ""
  | String c s' =>
      if ceq c "{" then
        let line := match index_byte LF s with Some i => str_take i s | None => s end in
        match last_index_byte "}" line with
        | Some j => str_take (S j) line
        | None => json_candidate s'
        end
      else json_candidate s'
  end.

Definition parseRelayResponse (body : string) : outcome string :=
  let text := TrimSpace body in
  if negb (nonempty text) then Ok (gasErrorResponse 502 "Empty response from relay")
  else if gasLooksLikeHTMLError body then Ok (gasErrorResponse 502 ("GAS HTML error: " +:+ gasTruncate text 200))
  else
    match Unmarshal text with
    | Some data => parseRelayJSON data
    | None =>
        let m := json_candidate text in
        if negb (nonempty m) then Ok (gasErrorResponse 502 ("No JSON: " +:+ gasTruncate text 200))
        else match Unmarshal m with
             | Some data => parseRelayJSON data
             | None => Ok (gasErrorResponse 502 ("Bad JSON: " +:+ gasTruncate text 200))
             end
    end.

(** The answers of the items that are objects; the others leave no answer. *)
Fixpoint batch_answers (items : list jvalue) : outcome (list string) :=
  match items with
  | [] => Ok []
  | JObj data :: items' =>
      obind (parseRelayJSON data) (λ r, obind (batch_answers items') (λ rs, Ok (r :: rs)))
  | _ :: items' => batch_answers items'
  end.

Definition parseBatchBody (body : string) (expected : nat) : outcome (list string) :=
  let text := TrimSpace body in
  if gasLooksLikeHTMLError body then Err ("batch HTML error: " +:+ gasTruncate text 200)
  else
    match Unmarshal text with
    | None => Err "invalid JSON"
    | Some data =>
        match member "e" data with
        | Some e => Err ("batch error: " +:+ fmt_v e)
        | None =>
            match member "q" data with
            | Some (JArr arr) =>
                if (length arr =? expected)%nat then batch_answers arr else Err "batch size mismatch"
            | _ => Err "batch size mismatch"
            end
        end
    end.
End json.

(** * Lemmas on lines *)

Definition CR : ascii := "013".

(** A text without line ends. *)
Definition plain (s : string) : Prop := contains_byte CR s = false ∧ contains_byte LF s = false.

Lemma plain_app s t : plain (s +:+ t) ↔ plain s ∧ plain t.
Proof. unfold plain. rewrite !contains_byte_app, !orb_false_iff. tauto. Qed.

Lemma plain_cons c s : plain (String c s) → c ≠ CR ∧ c ≠ LF ∧ plain s.
Proof.
  unfold plain. rewrite !contains_byte_cons. intros [[H1 H2]%orb_false_iff [H3 H4]%orb_false_iff].
  apply ceq_false in H1, H3. split_and!; congruence.
Qed.

Lemma plain_Itoa n : plain (Itoa n).
Proof. split; apply Itoa_fresh; done. Qed.

Lemma is_prefix_cons p pre c s : is_prefix (String p pre) (String c s) = ceq p c && is_prefix pre s.
Proof. done. Qed.

Lemma prefix_ne p pre c s : c ≠ p → is_prefix (String p pre) (String c s) = false.
Proof. intros H. rewrite is_prefix_cons. apply andb_false_iff. left. apply ceq_false. congruence. Qed.

Lemma Index_cons c s sub : is_prefix sub (String c s) = false → Index (String c s) sub = S <$> Index s sub.
Proof. intros H. cbn [Index]. by rewrite H. Qed.

Lemma Index_prefix s sub : is_prefix sub s = true → Index s sub = Some 0%nat.
Proof. intros H. destruct s; cbn [Index]; by rewrite H. Qed.

(** A separator that starts with a carriage return does not start inside a plain text. *)
Lemma Index_plain l s sub :
  plain l → Index (l +:+ s) (String CR sub) = (λ i, (slen l + i)%nat) <$> Index s (String CR sub).
Proof.
  induction l as [|c l IH]; intros Hp.
  - rewrite str_app_empty. by destruct (Index s (String CR sub)).
  - apply plain_cons in Hp as (Hc & _ & Hp). rewrite str_app_cons, Index_cons by (by apply prefix_ne).
    rewrite IH by done. by destruct (Index s _).
Qed.

Lemma CRLF_app s : CRLF +:+ s = String CR (String LF s).
Proof. done. Qed.

Lemma Index_line l s : plain l → Index (l +:+ CRLF +:+ s) CRLF = Some (slen l).
Proof.
  intros Hp. change CRLF with (String CR (String LF "")) at 2. rewrite Index_plain by done.
  rewrite Index_prefix by done. simpl. by rewrite Nat.add_0_r.
Qed.

(** The end of a head is not found before its last line. *)
Lemma Index_blank l s :
  plain l → is_prefix CRLF s = false →
  Index (l +:+ CRLF +:+ s) (CRLF +:+ CRLF) = (λ i, (slen l + 2 + i)%nat) <$> Index s (CRLF +:+ CRLF).
Proof.
  intros Hp Hs. rewrite (CRLF_app CRLF), Index_plain by done. rewrite (CRLF_app s), Index_cons.
  - rewrite Index_cons by done. destruct (Index s _); simpl; [|done]. f_equal. lia.
  - rewrite !is_prefix_cons, !ceq_refl. exact Hs.
Qed.

Lemma Index_end l s : plain l → Index (l +:+ CRLF +:+ CRLF +:+ s) (CRLF +:+ CRLF) = Some (slen l).
Proof.
  intros Hp. rewrite (CRLF_app CRLF), Index_plain by done. rewrite Index_prefix by done. simpl. by rewrite Nat.add_0_r.
Qed.

Lemma plain_not_CRLF l s : plain l → l ≠ "" → is_prefix CRLF (l +:+ s) = false.
Proof. destruct l as [|c l]; [done|]. intros (H & _ & _)%plain_cons _. rewrite str_app_cons. by apply prefix_ne. Qed.

(** A head: lines that are plain and not empty. *)
Definition head_ok (lines : list string) : Prop := Forall (λ l, plain l ∧ l ≠ "") lines.

Lemma with_eol_cons l lines : with_eol (l :: lines) = l +:+ CRLF +:+ with_eol lines.
Proof. done. Qed.

Lemma with_eol_app a b : with_eol (a ++ b) = with_eol a +:+ with_eol b.
Proof. induction a as [|l a IH]; [done|]. cbn [app]. rewrite !with_eol_cons, IH, !str_app_assoc. done. Qed.

(** The head ends where its lines end. *)
Lemma Index_head lines body :
  head_ok lines → lines ≠ [] →
  ∃ i, Index (with_eol lines +:+ CRLF +:+ body) (CRLF +:+ CRLF) = Some i ∧ (i + 2)%nat = slen (with_eol lines).
Proof.
  induction lines as [|l lines IH]; intros Hok Hne; [done|]. apply list.Forall_cons in Hok as [[Hp Hn] Hok].
  rewrite with_eol_cons, !str_app_assoc. destruct lines as [|l' lines].
  - exists (slen l). cbn [with_eol foldr]. rewrite !str_app_empty, Index_end by done. split; [done|].
    rewrite !slen_app. simpl. lia.
  - destruct IH as (i & Hi & Hl); [done..|]. rewrite Index_blank, Hi; [|done|].
    + exists (slen l + 2 + i)%nat. split; [done|]. rewrite !slen_app, <- Hl. simpl. lia.
    + apply list.Forall_cons in Hok as [[? ?] _]. rewrite with_eol_cons, !str_app_assoc. by apply plain_not_CRLF.
Qed.

Lemma str_drop_app_le n s t : (slen s <= n)%nat → str_drop n (s +:+ t) = str_drop (n - slen s) t.
Proof.
  revert n. induction s as [|c s IH]; intros n H; [rewrite str_app_empty; f_equal; simpl; lia|].
  rewrite slen_cons in *. destruct n as [|n]; [lia|]. rewrite str_app_cons. simpl. apply IH. lia.
Qed.

Lemma extract_head lines body :
  head_ok lines → lines ≠ [] → gasExtractBody (with_eol lines +:+ CRLF +:+ body) = Some body.
Proof.
  intros Hok Hn. unfold gasExtractBody. destruct (Index_head lines body Hok Hn) as (i & -> & Hi).
  rewrite str_drop_app_le by lia. replace (i + 4 - slen (with_eol lines))%nat with 2%nat by lia. done.
Qed.

(** Splitting a text into its lines. *)
Lemma split_seq_line fuel l s :
  plain l → (slen (l +:+ CRLF +:+ s) <= fuel)%nat →
  split_seq fuel (l +:+ CRLF +:+ s) CRLF = l :: split_seq (pred fuel) s CRLF.
Proof.
  intros Hp Hf. rewrite !slen_app in Hf. simpl in Hf. destruct fuel as [|fuel]; [lia|].
  cbn [split_seq]. rewrite Index_line by done. rewrite str_take_app. f_equal.
  rewrite str_drop_app_le by lia. replace (slen l + slen CRLF - slen l)%nat with 2%nat by (simpl; lia). done.
Qed.

Lemma split_head lines rest fuel :
  Forall plain lines → (slen (with_eol lines +:+ rest) <= fuel)%nat →
  ∃ fuel', (slen rest <= fuel')%nat ∧ split_seq fuel (with_eol lines +:+ rest) CRLF = lines ++ split_seq fuel' rest CRLF.
Proof.
  revert fuel. induction lines as [|l lines IH]; intros fuel Hp Hf; [by exists fuel|].
  apply list.Forall_cons in Hp as [Hl Hp]. rewrite with_eol_cons, !str_app_assoc in Hf |- *.
  rewrite split_seq_line by done. rewrite !slen_app in Hf. simpl in Hf.
  destruct (IH (pred fuel)) as (fuel' & Hf' & ->); [done|rewrite slen_app; lia|]. by exists fuel'.
Qed.

Lemma split_seq_plain fuel l : plain l → split_seq fuel l CRLF = [l].
Proof.
  intros Hp. destruct fuel as [|fuel]; [done|]. cbn [split_seq].
  assert (H : Index l CRLF = None).
  { rewrite <- (str_app_nil_r l). change CRLF with (String CR (String LF "")). by rewrite Index_plain. }
  by rewrite H.
Qed.

Lemma with_eol_Join lines l : with_eol lines +:+ l = Join (lines ++ [l]) CRLF.
Proof.
  induction lines as [|x lines IH]; [by rewrite str_app_empty|].
  rewrite with_eol_cons, !str_app_assoc, IH. cbn [app]. destruct (lines ++ [l]) eqn:E; [by apply app_eq_nil in E as [_ ?]|].
  by rewrite Join_cons2.
Qed.

Lemma with_eol_snoc lines l : with_eol (lines ++ [l]) = with_eol lines +:+ l +:+ CRLF.
Proof. rewrite with_eol_app. done. Qed.

Lemma str_take_app_le n s t : (n <= slen s)%nat → str_take n (s +:+ t) = str_take n s.
Proof.
  revert n. induction s as [|c s IH]; intros [|n] H; rewrite ?str_app_empty; simpl in *; try done; try lia.
  f_equal. apply IH. lia.
Qed.

(** The lines of a head, as splitting its text finds them. *)
Lemma head_lines lines body i :
  head_ok lines → lines ≠ [] → Index (with_eol lines +:+ CRLF +:+ body) (CRLF +:+ CRLF) = Some i →
  SplitSeq (str_take i (with_eol lines +:+ CRLF +:+ body)) CRLF = lines.
Proof.
  intros Hok Hn Hi. destruct (Index_head lines body Hok Hn) as (j & Hj & Hl). rewrite Hj in Hi. injection Hi as ->.
  destruct (exists_last Hn) as (front & l & ->). rewrite with_eol_snoc in Hl |- *.
  rewrite !str_app_assoc. rewrite !slen_app in Hl. simpl in Hl.
  assert (i = (slen (with_eol front) + slen l)%nat) as -> by lia.
  replace (with_eol front +:+ l +:+ CRLF +:+ CRLF +:+ body) with ((with_eol front +:+ l) +:+ CRLF +:+ CRLF +:+ body)
    by (by rewrite !str_app_assoc).
  rewrite <- slen_app, str_take_app. unfold SplitSeq.
  apply Forall_app in Hok as [Hok Hlast]. apply list.Forall_cons in Hlast as [[Hp _] _].
  destruct (split_head front l (slen (with_eol front +:+ l))) as (fuel & _ & ->); [|done|].
  - eapply list.Forall_impl; [exact Hok|]. by intros ? [].
  - by rewrite split_seq_plain.
Qed.

(** Adding the CORS headers to a response keeps its other header lines in order
    and its body byte for byte, drops every CORS header the origin server sent and
    appends one set that allows the request's origin; the head still ends where the
    body starts. *)
Theorem gasInjectCORS_correct lines body origin :
  head_ok lines → lines ≠ [] → plain origin →
  let kept := List.filter (λ ln, negb (is_cors_header ln)) lines in
  let response := gasInjectCORS (with_eol lines +:+ CRLF +:+ body) origin in
  response = with_eol (kept ++ cors_headers origin) +:+ CRLF +:+ body ∧
  gasExtractBody response = Some body ∧
  (∀ ln, ln ∈ kept ↔ ln ∈ lines ∧ is_cors_header ln = false).
Proof.
  intros Hok Hn Ho kept response.
  assert (Hr : response = with_eol (kept ++ cors_headers origin) +:+ CRLF +:+ body).
  { unfold response, gasInjectCORS. destruct (Index_head lines body Hok Hn) as (i & Hi & Hl). rewrite Hi.
    rewrite (head_lines _ _ _ Hok Hn Hi). fold kept.
    rewrite str_drop_app_le by lia. replace (i + 4 - slen (with_eol lines))%nat with 2%nat by lia.
    change (str_drop 2 (CRLF +:+ body)) with body. unfold cors_headers.
    set (a := "Access-Control-Allow-Origin: " +:+ _).
    change [a; ?b; ?c; ?d; ?e; ?f] with ([a; b; c; d; e] ++ [f]).
    rewrite app_assoc, with_eol_snoc, <- with_eol_Join, !str_app_assoc. done. }
  split; [exact Hr|]. split.
  - rewrite Hr. apply extract_head; [|by destruct kept]. apply Forall_app. split.
    + apply list.Forall_forall. intros x [Hx _]%elem_of_filter_bool. by eapply list.Forall_forall in Hok.
    + repeat constructor; try done. all: destruct (nonempty origin); [|done]; apply plain_app; by split.
  - intros ln. unfold kept. rewrite elem_of_filter_bool. by rewrite negb_true_iff.
Qed.

(** * Answers of the script, rendered *)

Lemma unit_loop_bound m : ∀ fuel n div e, (m < fuel)%nat → n < 1024 * 1024 ^ Z.of_nat m →
  (snd (unit_loop fuel n div e) <= e + m)%nat.
Proof.
  induction m as [|m IH]; intros [|fuel] n div e Hf Hn; [lia| |lia|]; cbn [unit_loop].
  - destruct (Z.leb_spec 1024 n); simpl in *; lia.
  - destruct (Z.leb_spec 1024 n); simpl; [|lia]. etrans; [apply IH; [lia|]|lia].
    apply Z.div_lt_upper_bound; [lia|]. rewrite Nat2Z.inj_succ, Z.pow_succ_r in Hn; lia.
Qed.

Lemma humanSize_total b : b ≤ max_int64 → ∃ s, humanSize b = Ok s.
Proof.
  intros Hb. unfold humanSize. destruct (b <? 1024); [by eexists|].
  assert (H := unit_loop_bound 5 7 (b / 1024) 1024 0 ltac:(lia)).
  destruct (unit_loop 7 (b / 1024) 1024 0) as [div e]. simpl in H.
  assert (He : (e <= 5)%nat) by (apply H, Z.div_lt_upper_bound; unfold max_int64 in *; lia).
  do 6 (destruct e as [|e]; [by eexists|]). lia.
Qed.

Section answers.
Context (fmt_v : jvalue → string) (maxRespBody : Z).
Context (cap : maxRespBody ≤ max_int64).

Notation parse_json := (parseRelayJSON fmt_v maxRespBody).

Lemma parseRelayJSON_total data : ∃ resp, parse_json data = Ok resp ∧ HasPrefix resp "HTTP/1.1 " = true.
Proof.
  unfold parseRelayJSON. destruct (member "e" data); [by eexists|].
  destruct (object_body data) as [decoded|]; [|by eexists].
  destruct (maxRespBody <? _); [|by eexists]. destruct (humanSize_total maxRespBody cap) as [sz ->]. by eexists.
Qed.

Lemma parse_relay_ok (Unmarshal : string → option jobject) body :
  ∃ resp, parseRelayResponse Unmarshal fmt_v maxRespBody body = Ok resp ∧ HasPrefix resp "HTTP/1.1 " = true.
Proof.
  unfold parseRelayResponse. destruct (negb _); [by eexists|]. destruct (gasLooksLikeHTMLError body); [by eexists|].
  destruct (Unmarshal _) as [data|]; [apply parseRelayJSON_total|]. destruct (negb _); [by eexists|].
  destruct (Unmarshal _) as [data|]; [apply parseRelayJSON_total|by eexists].
Qed.

(** Whatever the script sends back, interpreting it ends without a panic in an
    HTTP response: nothing, an HTML page, text around the JSON, JSON of any shape,
    undecodable or oversized bodies. *)
Theorem parseRelayResponse_total (Unmarshal : string → option jobject) body :
  ∃ resp, parseRelayResponse Unmarshal fmt_v maxRespBody body = Ok resp ∧ HasPrefix resp "HTTP/1.1 " = true.
Proof. apply parse_relay_ok. Qed.

(** A header of the script's answer with an ordinary name and printable values. *)
Definition field_ok (kv : string * jvalue) : Prop :=
  plain (fst kv) ∧ contains_byte ":" (fst kv) = false ∧ Forall plain (shown fmt_v (snd kv)).

Lemma header_lines_ok kv : field_ok kv → head_ok (header_lines fmt_v kv).
Proof.
  intros (Hk & _ & Hv). unfold header_lines. case_bool_decide; [constructor|].
  apply list.Forall_forall. intros l (text & -> & Ht)%list_elem_of_fmap. split.
  - apply plain_app; split; [done|]. apply plain_app; split; [done|]. by eapply list.Forall_forall in Hv.
  - by destruct (fst kv).
Qed.

Lemma prefix_colon k v name :
  contains_byte ":" k = false → contains_byte ":" name = false →
  HasPrefix (ToLower (k +:+ ": " +:+ v)) (name +:+ ":") = true → ToLower k = name.
Proof.
  rewrite ToLower_app. intros Hk Hn. assert (Hk' : contains_byte ":" (ToLower k) = false).
  { rewrite contains_byte_ToLower; [done|]. intros c. by destruct c as [[] [] [] [] [] [] [] []]. }
  revert name Hn. induction (ToLower k) as [|c k' IH]; intros [|d name] Hn; try done.
  - intros H. unfold HasPrefix in H. rewrite str_app_cons, ToLower_app in H. cbn in H. apply andb_prop in H as [H _].
    apply ceq_true in H as ->. done.
  - intros H. unfold HasPrefix in H. rewrite str_app_cons in H. cbn in H. apply andb_prop in H as [H _].
    apply ceq_true in H as <-. done.
  - intros H. unfold HasPrefix in *. rewrite !str_app_cons, is_prefix_cons in H. apply andb_prop in H as [->%ceq_true H].
    rewrite contains_byte_cons in Hk', Hn. apply orb_false_iff in Hk' as [_ Hk'], Hn as [_ Hn]. f_equal. by apply IH.
Qed.

Lemma content_length_skip front lines :
  Forall (λ l, HasPrefix (ToLower l) "content-length:" = false) front →
  content_length_of (front ++ lines) = content_length_of lines.
Proof. induction 1 as [|l front Hl _ IH]; [done|]. cbn [app content_length_of]. by rewrite Hl. Qed.

Lemma content_length_line n lines :
  0 ≤ n ≤ max_int64 → content_length_of (("Content-Length: " +:+ Itoa n) :: lines) = Ok n.
Proof.
  intros Hn. cbn [content_length_of]. rewrite ToLower_app. unfold slice_from. rewrite slen_app.
  change (slen "Content-Length: ") with 16%nat. destruct (Nat.leb_spec 16 (16 + slen (Itoa n))); [|lia].
  change 16%nat with (slen "Content-Length: ") at 1. rewrite str_drop_app. cbn [obind].
  replace (TrimPrefix (Itoa n) " ") with (Itoa n); [by rewrite TrimSpace_Itoa, ParseInt_Itoa|].
  unfold TrimPrefix. destruct (HasPrefix (Itoa n) " ") eqn:E; [|done]. apply HasPrefix_spec in E as [t Ht].
  assert (Hf : contains_byte " " (Itoa n) = false) by (by apply Itoa_fresh). by rewrite Ht in Hf.
Qed.

Lemma error_response_length msg :
  zlen msg ≤ 4 * 1024 * 1024 →
  ∃ n, gasParseContentLength (gasErrorResponse 502 msg) = Ok n ∧ n ≤ zlen msg + 100.
Proof.
  intros Hm. unfold gasErrorResponse. set (body := "<html><body><h1>" +:+ _).
  assert (Hb : zlen body = zlen msg + 45).
  { unfold body, zlen. rewrite !slen_app. change (slen (Itoa 502)) with 3%nat. simpl slen. lia. }
  exists (zlen body). split; [|lia]. pose proof (zlen_nonneg msg).
  match goal with |- gasParseContentLength ?t = _ =>
    replace t with (with_eol ["HTTP/1.1 502 Error"; "Content-Type: text/html"; "Content-Length: " +:+ Itoa (zlen body)] +:+ CRLF +:+ body)
      by (rewrite !with_eol_cons, !str_app_assoc; reflexivity) end.
  unfold gasParseContentLength, SplitSeq.
  destruct (split_head ["HTTP/1.1 502 Error"; "Content-Type: text/html"; "Content-Length: " +:+ Itoa (zlen body)] (CRLF +:+ body)
    (slen (with_eol ["HTTP/1.1 502 Error"; "Content-Type: text/html"; "Content-Length: " +:+ Itoa (zlen body)] +:+ CRLF +:+ body)))
    as (fuel & _ & ->).
  - repeat (apply list.Forall_cons; split); [done|done| |done]. apply plain_app. split; [done|apply plain_Itoa].
  - apply le_n.
  - change (["HTTP/1.1 502 Error"; "Content-Type: text/html"; "Content-Length: " +:+ Itoa (zlen body)] ++ split_seq fuel (CRLF +:+ body) CRLF)
      with (["HTTP/1.1 502 Error"; "Content-Type: text/html"] ++ ("Content-Length: " +:+ Itoa (zlen body)) :: split_seq fuel (CRLF +:+ body) CRLF).
    rewrite content_length_skip by (repeat constructor; done). apply content_length_line. unfold max_int64. lia.
Qed.

Lemma response_lines_ok status headers body :
  Forall field_ok headers →
  head_ok (response_lines fmt_v status headers body) ∧
  Forall (λ l, HasPrefix (ToLower l) "content-length:" = false) (mjoin (header_lines fmt_v <$> headers)).
Proof.
  intros Hok. split.
  - unfold response_lines. constructor; [|apply Forall_app; split; [|apply list.Forall_singleton]].
    + split; [|done]. repeat (apply plain_app; split); try done; [apply plain_Itoa|]. unfold statusText. by repeat case_match.
    + induction Hok as [|kv headers Hkv _ IH]; [constructor|]. apply Forall_app. split; [by apply header_lines_ok|exact IH].
    + split; [|done]. apply plain_app; split; [done|apply plain_Itoa].
  - induction Hok as [|kv headers Hkv _ IH]; [constructor|]. apply Forall_app. split; [|exact IH].
    destruct Hkv as (_ & Hk & _). unfold header_lines. case_bool_decide as Hskip; [constructor|].
    apply list.Forall_forall. intros l (text & -> & _)%list_elem_of_fmap. apply not_true_iff_false. intros Hp.
    apply (prefix_colon _ _ "content-length") in Hp; [|done..]. apply Hskip. rewrite Hp. set_solver.
Qed.

Lemma relay_answer_read data decoded :
  member "e" data = None → object_body data = Some decoded → zlen (bytes_string decoded) ≤ maxRespBody →
  Forall field_ok (object_headers data) →
  ∃ resp, parse_json data = Ok resp ∧ gasExtractBody resp = Some (bytes_string decoded) ∧
    gasParseContentLength resp = Ok (zlen (bytes_string decoded)).
Proof.
  intros He Hb Hmax Hok. unfold parseRelayJSON. rewrite He, Hb. destruct (Z.ltb_spec maxRespBody (zlen (bytes_string decoded))); [lia|].
  set (body := bytes_string decoded) in *. set (status := gasIntVal _ _).
  destruct (response_lines_ok status (object_headers data) body Hok) as [Hhead Hmid].
  eexists. split; [reflexivity|]. split; [by apply extract_head|].
  unfold gasParseContentLength, SplitSeq.
  destruct (split_head (response_lines fmt_v status (object_headers data) body) (CRLF +:+ body) _
    (list.Forall_impl _ _ _ Hhead (λ l, @proj1 _ _)) (le_n _)) as (fuel & _ & ->).
  unfold response_lines. rewrite <- !app_comm_cons, <- app_assoc. cbn [content_length_of].
  change (HasPrefix _ _) with false at 1. cbn iota. rewrite content_length_skip by done.
  apply content_length_line. pose proof (zlen_nonneg body). lia.
Qed.

(** The answer rendered from the script's JSON gives back the decoded body, and
    the length the relay reads out of it is the length of that body: the script's
    own length, encoding and connection headers have no say. *)
Theorem relay_answer_roundtrip data decoded :
  member "e" data = None → object_body data = Some decoded → zlen (bytes_string decoded) ≤ maxRespBody →
  Forall field_ok (object_headers data) →
  ∃ resp, parse_json data = Ok resp ∧ gasExtractBody resp = Some (bytes_string decoded) ∧
    gasParseContentLength resp = Ok (zlen (bytes_string decoded)).
Proof. apply relay_answer_read. Qed.
End answers.

(** * Witnesses *)

Definition demo_fmt (v : jvalue) : string := match v with JStr s => s | JNum n => Itoa n | _ => "null" end.

Definition demo_answer : jobject :=
  [("s", JNum 200); ("h", JObj [("Content-Length", JStr "999"); ("X-A", JArr [JStr "1"; JStr "2"])]); ("b", JStr "aGVsbG8=")].

Lemma gasInjectCORS_correct_witness :
  let lines := ["HTTP/1.1 200 OK"; "Access-Control-Allow-Origin: null"; "X-A: 1"] in
  let response := gasInjectCORS (with_eol lines +:+ CRLF +:+ "hello") "https://a.example" in
  response = with_eol (["HTTP/1.1 200 OK"; "X-A: 1"] ++ cors_headers "https://a.example") +:+ CRLF +:+ "hello" ∧
  gasExtractBody response = Some "hello" ∧
  (∀ ln, ln ∈ ["HTTP/1.1 200 OK"; "X-A: 1"] ↔ ln ∈ lines ∧ is_cors_header ln = false).
Proof.
  apply (gasInjectCORS_correct ["HTTP/1.1 200 OK"; "Access-Control-Allow-Origin: null"; "X-A: 1"] "hello" "https://a.example");
    [repeat constructor; done|done|done].
Defined.

Lemma parseRelayResponse_total_witness :
  ∃ resp, parseRelayResponse (λ _, Some demo_answer) demo_fmt (200 * 1024 * 1024) "x{}" = Ok resp ∧ HasPrefix resp "HTTP/1.1 " = true.
Proof. apply parseRelayResponse_total. vm_compute. discriminate. Defined.

Lemma relay_answer_roundtrip_witness :
  ∃ resp, parseRelayJSON demo_fmt 1000 demo_answer = Ok resp ∧ gasExtractBody resp = Some "hello" ∧
    gasParseContentLength resp = Ok 5.
Proof.
  apply (relay_answer_roundtrip demo_fmt 1000 ltac:(by vm_compute) demo_answer [x68; x65; x6c; x6c; x6f]%byte).
  - done.
  - vm_compute. done.
  - by vm_compute.
  - repeat constructor; done.
Defined.
