(* ===== verification/GasPool.v ===== *)
(** The HTTP/1.1 transport of [proxy/gas_relay.go]: the pool of TLS connections
    ([acquireConn], [releaseConn]), the rotation of server names and [relayHTTP1].

    Connections are numbered in the order they are dialled; [None] is the nil
    connection.  Each answer of the world (the clock, a dial, a write, a read) is
    indexed by a counter of the answers taken so far.  The pool's mutex is part of
    the state: an operation may crash while it is held, unlock it twice, or wait
    for it in vain.  The operations of one goroutine run without interruption. *)

From coqutil Require Import Datatypes.RecordSetters.
From S2P Require Import Prelude GoStrings GoText GasCache GasHTTP.
Import DoubleBraceUpdate.

Open Scope Z_scope.

(** * State *)

Record gasPooledConn := mkPooled { conn : option nat; created : Z }.

Record transport := mkTransport {
  pool : list gasPooledConn;
  poolMu : bool;                (** held *)
  sniIdx : Z;
  answers : nat;                (** answers of the world taken so far *)
  dialled : nat;                (** connections dialled so far *)
  closes : list nat;            (** the connections that were closed *)
}.

(** The single updates of the state. *)
Definition tick (s : transport) : transport := s {{ answers ::= S }}.
Definition set_mu (b : bool) (s : transport) : transport := s {{ poolMu := b }}.
Definition set_sni (n : Z) (s : transport) : transport := s {{ sniIdx := n }}.
Definition drop_last (s : transport) : transport := s {{ pool ::= @removelast _ }}.
Definition push_conn (c : option nat) (t : Z) (s : transport) : transport := s {{ pool ::= λ l, l ++ [mkPooled c t] }}.
Definition log_close (n : nat) (s : transport) : transport := s {{ closes ::= cons n }}.
Definition new_conn (s : transport) : transport := s {{ dialled ::= S }}.

(** How an operation ends: with a value, an error, a panic of its goroutine, the
    fatal error of unlocking a free mutex, or never. *)
Inductive res (A : Type) := Ret (a : A) | Error | Panicked | Fatal | Hangs.
Arguments Ret {A} a.
Arguments Error {A}.
Arguments Panicked {A}.
Arguments Fatal {A}.
Arguments Hangs {A}.

Definition M (A : Type) : Type := transport → res A * transport.

Definition ret {A} (a : A) : M A := λ s, (Ret a, s).

Definition raise {A} (r : res A) : M A := λ s, (r, s).

Definition bind {A B} (m : M A) (k : A → M B) : M B := λ s,
  match m s with
  | (Ret a, s') => k a s'
  | (Error, s') => (Error, s')
  | (Panicked, s') => (Panicked, s')
  | (Fatal, s') => (Fatal, s')
  | (Hangs, s') => (Hangs, s')
  end.

Notation "x <~ m ;; k" := (bind m (fun x => k)) (at level 100, m at next level, right associativity).
Notation "m ~;; k" := (bind m (fun _ => k)) (at level 100, right associativity).

(** * Server names *)

Definition uint32 (n : Z) : Z := n mod 4294967296.

Definition nextSNI (sniHosts : list string) : M string := λ s,
  let idx := uint32 (sniIdx s + 1) in
  let s := set_sni idx s in
  match sniHosts with
  | [] => (Ret "www.google.com", s)
  | _ =>
      match sniHosts !! Z.to_nat (idx mod Z.of_nat (length sniHosts)) with
      | Some host => (Ret host, s)
      | None => (Panicked, s)
      end
  end.

Definition buildGASSNIPool (frontDomain : string) (overrides : list string) : list string :=
  match dedup (List.filter nonempty ((λ item, ToLower (TrimSuffix (TrimSpace item) ".")) <$> overrides)) with
  | [] =>
      let fd := ToLower (TrimSuffix frontDomain ".") in
      if negb (nonempty fd) then ["www.google.com"]
      else fd :: List.filter (λ h, negb (bool_decide (h = fd))) ["www.google.com"; "mail.google.com"; "accounts.google.com"]
  | out => out
  end.

Section transport.
(** The world. *)
Context (clock : nat → Z).                                                      (** nanoseconds *)
Context (dial : nat → bool).
Context (has_data : nat → bool).                                                (** the one-byte read got a byte *)
Context (write : nat → bool).
Context (read : nat → option (Z * gmap string string * string)).                (** [gasReadHTTPResponse] *)
Context (redirect_path : string → option string).                               (** path and query of [url.Parse] *)
Context (sniHosts : list string).

Definition ask {A} (f : nat → A) : M A := λ s, (Ret (f (answers s)), tick s).

(** * The pool *)

Definition gasPoolMax : nat := 50.
Definition gasConnTTL : Z := 45 * second.

Definition lock : M unit := λ s, if poolMu s then (Hangs, s) else (Ret tt, set_mu true s).

Definition unlock : M unit := λ s, if poolMu s then (Ret tt, set_mu false s) else (Fatal, s).

(** [conn.Close()], a nil dereference for the nil connection. *)
Definition close_conn (c : option nat) : M unit :=
  match c with
  | Some n => λ s, (Ret tt, log_close n s)
  | None => raise Panicked
  end.

(** [pc := r.pool[len(r.pool)-1]; r.pool = r.pool[:len(r.pool)-1]] *)
Definition pop : M (option gasPooledConn) := λ s, (Ret (list.last (pool s)), drop_last s).

(** The loop of [acquireConn]; [None] is leaving it, by its condition or by the break. *)
Fixpoint take_pooled (k : nat) : M (option nat) :=
  match k with
  | O => ret None
  | S k' =>
      pc <~ pop ;;
      match pc with
      | None => ret None
      | Some pc =>
          now <~ ask clock ;;
          if now - created pc <? gasConnTTL then
            unlock ~;;
            match conn pc with
            | None => raise Panicked
            | Some c =>
                n <~ ask has_data ;;
                if n then close_conn (Some c) ~;; ret None else ret (Some c)
            end
          else close_conn (conn pc) ~;; take_pooled k'
      end
  end.

Definition dial_new : M nat :=
  ok <~ ask dial ;;
  if negb ok then raise Error
  else
    nextSNI sniHosts ~;;
    handshake <~ ask dial ;;
    if negb handshake then raise Error
    else λ s, (Ret (dialled s), new_conn s).

Definition acquireConn : M nat :=
  lock ~;;
  (pc <~ (λ s, take_pooled (length (pool s)) s) ;;
   match pc with
   | Some c => ret c
   | None => unlock ~;; dial_new
   end).

(** The deferred unlock also runs when closing panics. *)
Definition releaseConn (c : option nat) : M unit :=
  lock ~;;
  (now <~ ask clock ;;
   λ s,
     let '(r, s) :=
       if (gasPoolMax <=? length (pool s))%nat then close_conn c s
       else (Ret tt, push_conn c now s) in
     (r, set_mu false s)).

(** * A request *)

(** The part of [relayHTTP1] between the deferred release and the explicit one: the
    value of [conn] goes along with the result. *)
Definition B (A : Type) : Type := transport → res A * option nat * transport.

(** [conn2, err2 := r.acquireConn()] and the exchange on it. *)
Definition second_try (c : nat) : B (Z * gmap string string * string) := λ s,
  match acquireConn s with
  | (Ret c2, s) =>
      match (ok <~ ask write ;;
             if negb ok then close_conn (Some c2) ~;; raise Error
             else
               r <~ ask read ;;
               match r with
               | None => close_conn (Some c2) ~;; raise Error
               | Some resp => ret resp
               end) s with
      | (Ret resp, s) => (Ret resp, Some c2, s)
      | (r, s) => (r, Some c, s)
      end
  | (Error, s) => (Error, Some c, s)
  | (Panicked, s) => (Panicked, Some c, s)
  | (Fatal, s) => (Fatal, Some c, s)
  | (Hangs, s) => (Hangs, Some c, s)
  end.

Definition read_response (c : nat) : B (Z * gmap string string * string) := λ s,
  match ask read s with
  | (Ret (Some resp), s) => (Ret resp, Some c, s)
  | (_, s) =>
      match close_conn (Some c) s with
      | (_, s) => second_try c s
      end
  end.

Definition exchange_on (c : nat) : B (Z * gmap string string * string) := λ s,
  match ask write s with
  | (Ret true, s) => read_response c s
  | (_, s) =>
      match close_conn (Some c) s with
      | (_, s) =>
          match acquireConn s with
          | (Ret c', s) =>
              match ask write s with
              | (Ret true, s) => read_response c' s
              | (_, s) => let '(_, s) := close_conn (Some c') s in (Error, Some c', s)
              end
          | (Error, s) => (Error, None, s)
          | (Panicked, s) => (Panicked, Some c, s)
          | (Fatal, s) => (Fatal, Some c, s)
          | (Hangs, s) => (Hangs, Some c, s)
          end
      end
  end.

(** The deferred release, whose own panic or wait replaces the result. *)
Definition deferred {A} (r : res A) (c : option nat) (s : transport) : res A * transport :=
  match releaseConn c s with
  | (Ret _, s) => (r, s)
  | (Error, s) => (r, s)
  | (Panicked, s) => (Panicked, s)
  | (Fatal, s) => (Fatal, s)
  | (Hangs, s) => (Hangs, s)
  end.

Definition relay_once : M (Z * gmap string string * string) := λ s,
  match acquireConn s with
  | (Ret c, s) =>
      match exchange_on c s with
      | (Ret resp, c, s) => (releaseConn c ~;; ret resp) s
      | (Error, c, s) => deferred Error c s
      | (Panicked, c, s) => deferred Panicked c s
      | (Fatal, _, s) => (Fatal, s)
      | (Hangs, _, s) => (Hangs, s)
      end
  | (Error, s) => (Error, s)
  | (Panicked, s) => (Panicked, s)
  | (Fatal, s) => (Fatal, s)
  | (Hangs, s) => (Hangs, s)
  end.

(** Redirects are followed without a limit: [None] is running out of fuel. *)
Fixpoint relayHTTP1 (fuel : nat) (s : transport) : option (res string * transport) :=
  match fuel with
  | O => None
  | S fuel' =>
      match relay_once s with
      | (Ret (status, headers, body), s) =>
          if (300 <=? status) && (status <? 400) then
            let loc := default "" (headers !! "location") in
            match (if nonempty loc then redirect_path loc else None) with
            | Some _ => relayHTTP1 fuel' s
            | None => Some (Error, s)
            end
          else Some (Ret body, s)
      | (Error, s) => Some (Error, s)
      | (Panicked, s) => Some (Panicked, s)
      | (Fatal, s) => Some (Fatal, s)
      | (Hangs, s) => Some (Hangs, s)
      end
  end.
End transport.

(** * Lemmas *)

Section lemmas.
Context (clock : nat → Z) (dial has_data write : nat → bool).
Context (read : nat → option (Z * gmap string string * string)) (sniHosts : list string).

Notation acquire := (acquireConn clock dial has_data sniHosts).
Notation release := (releaseConn clock).
Notation once := (relay_once clock dial has_data write read sniHosts).
Notation exch := (exchange_on clock dial has_data write read sniHosts).
Notation take_k := (take_pooled clock has_data).

(** A property of the state that an operation keeps, however it ends. *)
Definition keeps (P : transport → Prop) {A} (m : M A) : Prop := ∀ s, P s → P (snd (m s)).

Lemma keeps_bind P {A B} (m : M A) (k : A → M B) : keeps P m → (∀ a, keeps P (k a)) → keeps P (bind m k).
Proof.
  intros Hm Hk s Hs. unfold bind. specialize (Hm s Hs). destruct (m s) as [[a| | | |] s']; simpl in *; [by apply Hk|done..].
Qed.

Lemma keeps_ret P {A} (a : A) : keeps P (ret a).
Proof. by intros s. Qed.

Lemma keeps_raise P {A} (r : res A) : keeps P (raise r).
Proof. by intros s. Qed.

Section kept.
Context (P : transport → Prop).
Context (P_answers : ∀ s, P s → P (tick s)).
Context (P_mu : ∀ s b, P s → P (set_mu b s)).
Context (P_pop : ∀ s, P s → P (drop_last s)).
Context (P_push : ∀ s c t, P s → (length (pool s) < gasPoolMax)%nat → P (push_conn c t s)).
Context (P_close : ∀ s n, P s → P (log_close n s)).
Context (P_sni : ∀ s n, P s → P (set_sni n s)).
Context (P_dial : ∀ s, P s → P (new_conn s)).

Lemma keeps_ask {A} (f : nat → A) : keeps P (ask f).
Proof. intros s Hs. by apply P_answers. Qed.

Lemma keeps_lock : keeps P lock.
Proof. intros s Hs. unfold lock. destruct (poolMu s); [done|by apply P_mu]. Qed.

Lemma keeps_unlock : keeps P unlock.
Proof. intros s Hs. unfold unlock. destruct (poolMu s); [by apply P_mu|done]. Qed.

Lemma keeps_close c : keeps P (close_conn c).
Proof. destruct c; [intros s Hs; by apply P_close|apply keeps_raise]. Qed.

Lemma keeps_take k : keeps P (take_k k).
Proof.
  induction k as [|k IH]; cbn [take_pooled]; [apply keeps_ret|].
  apply keeps_bind; [intros s Hs; by apply P_pop|]. intros [pc|]; [|apply keeps_ret].
  apply keeps_bind; [apply keeps_ask|]. intros now. destruct (_ <? _).
  - apply keeps_bind; [apply keeps_unlock|]. intros _. destruct (conn pc) as [c|]; [|apply keeps_raise].
    apply keeps_bind; [apply keeps_ask|]. intros []; [|apply keeps_ret].
    apply keeps_bind; [apply keeps_close|]. intros _. apply keeps_ret.
  - apply keeps_bind; [apply keeps_close|]. by intros _.
Qed.

Lemma keeps_sni : keeps P (nextSNI sniHosts).
Proof. intros s Hs. unfold nextSNI. destruct sniHosts; [by apply P_sni|]. destruct (_ !! _); by apply P_sni. Qed.

Lemma keeps_acquire : keeps P acquire.
Proof.
  apply keeps_bind; [apply keeps_lock|]. intros _. apply keeps_bind; [intros s; apply keeps_take|].
  intros [c|]; [apply keeps_ret|]. apply keeps_bind; [apply keeps_unlock|]. intros _.
  apply keeps_bind; [apply keeps_ask|]. intros []; [|apply keeps_raise].
  apply keeps_bind; [apply keeps_sni|]. intros _. apply keeps_bind; [apply keeps_ask|]. intros []; [|apply keeps_raise].
  intros s Hs. by apply P_dial.
Qed.

Lemma keeps_release c : keeps P (release c).
Proof.
  apply keeps_bind; [apply keeps_lock|]. intros _. apply keeps_bind; [apply keeps_ask|]. intros now s Hs.
  destruct (Nat.leb_spec gasPoolMax (length (pool s))) as [|Hlt].
  - destruct (close_conn c s) as [r s'] eqn:E. apply P_mu. assert (Hc := keeps_close c s Hs). by rewrite E in Hc.
  - apply P_mu. by apply P_push.
Qed.

Lemma keeps_second c s : P s → P (snd (second_try clock dial has_data write read sniHosts c s)).
Proof.
  intros Hs. unfold second_try. assert (Ha := keeps_acquire s Hs). destruct (acquire s) as [[c2| | | |] s1]; cbn [fst snd] in *; try done.
  match goal with |- context [match ?m s1 with _ => _ end] => assert (Hm : keeps P m) end.
  { apply keeps_bind; [apply keeps_ask|]. intros []; simpl.
    - apply keeps_bind; [apply keeps_ask|]. intros [resp|]; [apply keeps_ret|].
      apply keeps_bind; [apply (keeps_close (Some c2))|]. intros _. apply keeps_raise.
    - apply keeps_bind; [apply (keeps_close (Some c2))|]. intros _. apply keeps_raise. }
  specialize (Hm s1 Ha). by destruct (bind _ _ s1) as [[resp| | | |] s2].
Qed.

Lemma keeps_read c s : P s → P (snd (read_response clock dial has_data write read sniHosts c s)).
Proof.
  intros Hs. unfold read_response, ask. destruct (read (answers s)) as [resp|]; [by apply P_answers|].
  cbn [close_conn]. by apply keeps_second, P_close, P_answers.
Qed.

Lemma keeps_exchange c s : P s → P (snd (exch c s)).
Proof.
  intros Hs. unfold exchange_on, ask. destruct (write (answers s)); [by apply keeps_read, P_answers|].
  cbn [close_conn]. match goal with |- context [acquire ?s1] => assert (Ha : P (snd (acquire s1))) end.
  { by apply keeps_acquire, P_close, P_answers. }
  destruct (acquire _) as [[c2| | | |] s2]; cbn [fst snd] in *; try done.
  destruct (write (answers s2)); [by apply keeps_read, P_answers|]. cbn [snd]. by apply P_close, P_answers.
Qed.

Lemma keeps_once : keeps P once.
Proof.
  intros s Hs. unfold relay_once. assert (Ha := keeps_acquire s Hs). destruct (acquire s) as [[c| | | |] s1]; cbn [fst snd] in *; try done.
  assert (He := keeps_exchange c s1 Ha). destruct (exch c s1) as [[[resp| | | |] c'] s2]; cbn [fst snd] in *; try done.
  - exact (keeps_bind P _ _ (keeps_release c') (λ _, keeps_ret P _) s2 He).
  - assert (Hr := keeps_release c' s2 He). unfold deferred. by destruct (release c' s2) as [[u| | | |] s3].
  - assert (Hr := keeps_release c' s2 He). unfold deferred. by destruct (release c' s2) as [[u| | | |] s3].
Qed.
End kept.

Notation relay := (relayHTTP1 clock dial has_data write read).

Lemma length_removelast {A} (l : list A) : (length (removelast l) <= length l)%nat.
Proof. induction l as [|x [|y l] IH]; simpl in *; lia. Qed.

Lemma once_bounded s : (length (pool s) <= gasPoolMax)%nat → (length (pool (snd (once s))) <= gasPoolMax)%nat.
Proof.
  apply (keeps_once (λ s, (length (pool s) <= gasPoolMax)%nat)); try done.
  - intros s0 H. simpl. etrans; [apply length_removelast|exact H].
  - intros s0 c t _ H. change (pool (push_conn c t s0)) with (pool s0 ++ [mkPooled c t]). rewrite length_app. simpl. unfold gasPoolMax in *. lia.
Qed.

(** The pool never holds more than [gasPoolMax] connections, whatever the
    network answers, however the request ends and however many redirects it takes. *)
Theorem pool_bounded redirect_path fuel s r s' :
  (length (pool s) <= gasPoolMax)%nat → relay redirect_path sniHosts fuel s = Some (r, s') →
  (length (pool s') <= gasPoolMax)%nat.
Proof.
  revert s. induction fuel as [|fuel IH]; intros s Hs; cbn [relayHTTP1]; [done|].
  apply once_bounded in Hs. destruct (once s) as [[[[status headers] body]| | | |] s1]; cbn [snd] in Hs; try by intros [= <- <-].
  destruct (_ && _); [|by intros [= <- <-]].
  destruct (if nonempty _ then _ else _); [by apply IH|by intros [= <- <-]].
Qed.

(** * Failures *)

Lemma closes_grow {A} (m : M A) n :
  (∀ P, (∀ s, P s → P (tick s)) → (∀ s b, P s → P (set_mu b s)) → (∀ s, P s → P (drop_last s)) →
     (∀ s c t, P s → (length (pool s) < gasPoolMax)%nat → P (push_conn c t s)) →
     (∀ s k, P s → P (log_close k s)) → (∀ s k, P s → P (set_sni k s)) → (∀ s, P s → P (new_conn s)) → keeps P m) →
  ∀ s, n ∈ closes s → n ∈ closes (snd (m s)).
Proof. intros H. apply (H (λ s, n ∈ closes s)); try done. intros s k Hn. by right. Qed.

(** A connection that is nil or has been closed. *)
Definition dead (s : transport) (c : option nat) : Prop := c = None ∨ ∃ n, c = Some n ∧ n ∈ closes s.

Lemma second_try_dead c s r c' s' :
  second_try clock dial has_data write read sniHosts c s = (r, c', s') → c ∈ closes s → r = Error → dead s' c'.
Proof.
  intros E Hc ->. assert (Hk : c ∈ closes (snd (second_try clock dial has_data write read sniHosts c s))).
  { apply (keeps_second (λ s, c ∈ closes s)); try done. intros s0 k H. by right. }
  rewrite E in Hk. revert E. unfold second_try. destruct (acquire s) as [[c2| | | |] s1]; try done.
  - destruct (bind _ _ s1) as [[resp| | | |] s2]; try done. intros [= <- <-]. right. by exists c.
  - intros [= <- <-]. right. by exists c.
Qed.

Lemma read_response_dead c s c' s' :
  read_response clock dial has_data write read sniHosts c s = (Error, c', s') → dead s' c'.
Proof.
  unfold read_response, ask. destruct (read (answers s)); [done|]. cbn [close_conn]. intros E.
  eapply second_try_dead; [exact E|left|done].
Qed.

Lemma exchange_dead c s c' s' : exch c s = (Error, c', s') → dead s' c'.
Proof.
  unfold exchange_on, ask. destruct (write (answers s)); [by apply read_response_dead|]. cbn [close_conn].
  destruct (acquire _) as [[c2| | | |] s1]; try done; [|by intros [= <- _]; left].
  destruct (write (answers s1)); [by apply read_response_dead|]. cbn. intros [= <- <-]. right. exists c2. by split; [|left].
Qed.

Lemma release_inv c s u s' :
  release c s = (Ret u, s') →
  (∃ t, pool s' = pool s ++ [mkPooled c t] ∧ closes s' = closes s) ∨ (gasPoolMax <= length (pool s'))%nat.
Proof.
  unfold releaseConn, bind, lock, ask. destruct (poolMu s); [done|]. cbn -[gasPoolMax].
  match goal with |- context [(gasPoolMax <=? ?x)%nat] => destruct (Nat.leb_spec gasPoolMax x) end;
    [destruct c; unfold raise; cbn; [|done]|]; intros [= _ <-].
  - by right.
  - left. by eexists.
Qed.

Lemma release_no_error c s s' : release c s ≠ (Error, s').
Proof.
  unfold releaseConn, bind, lock, ask. destruct (poolMu s); [done|]. cbn -[gasPoolMax].
  destruct (_ <=? _)%nat; [destruct c; unfold raise; cbn|]; done.
Qed.

(** A request that gets a connection and fails leaves that connection behind in
    the pool after closing it, or a nil connection, for the next request to take
    (unless the pool is full). *)
Theorem failed_exchange_pools_dead s c s1 s' :
  acquire s = (Ret c, s1) → once s = (Error, s') →
  (∃ pc, list.last (pool s') = Some pc ∧ dead s' (conn pc)) ∨ (gasPoolMax <= length (pool s'))%nat.
Proof.
  intros Ha. unfold relay_once. rewrite Ha. destruct (exch c s1) as [[[resp| | | |] c'] s2] eqn:E; try done.
  - unfold bind. destruct (release c' s2) as [[u| | | |] s3] eqn:Er; try done. by apply release_no_error in Er.
  - unfold deferred. apply exchange_dead in E. destruct (release c' s2) as [[u| | | |] s3] eqn:Er; try done.
    + intros [= <-]. apply release_inv in Er as [(t & Hp & Hc)|]; [left|by right]. exists (mkPooled c' t).
      rewrite Hp, last_snoc. split; [done|]. unfold dead in *. simpl. by rewrite Hc.
    + by apply release_no_error in Er.
  - unfold deferred. by destruct (release c' s2) as [[u| | | |] s3].
Qed.

(** A nil connection at the end of the pool crashes the next request; when it is
    past its time to live the crash leaves the pool locked, and a locked pool stops
    every later request.  A pooled connection that has received data ends the whole
    program: the mutex is unlocked twice. *)
Theorem pooled_crashes s l t :
  poolMu s = false →
  (pool s = l ++ [mkPooled None t] → fst (once s) = Panicked ∧
     (gasConnTTL ≤ clock (answers s) - t → poolMu (snd (once s)) = true)) ∧
  (∀ c, pool s = l ++ [mkPooled (Some c) t] → clock (answers s) - t < gasConnTTL → has_data (S (answers s)) = true →
     fst (once s) = Fatal) ∧
  (∀ s0, poolMu s0 = true → once s0 = (Hangs, s0)).
Proof.
  intros Hmu. split_and!.
  - intros Hp. unfold relay_once, acquireConn, bind, lock. rewrite Hmu.
    change (pool (set_mu true s)) with (pool s). rewrite Hp, length_app, Nat.add_1_r.
    cbn [take_pooled]. unfold bind, pop, ask. change (pool (set_mu true s)) with (pool s). rewrite Hp, last_snoc.
    change (answers (drop_last (set_mu true s))) with (answers s). cbn [created conn].
    destruct (Z.ltb_spec (clock (answers s) - t) gasConnTTL); split; try done; lia.
  - intros c Hp Ht Hd. unfold relay_once, acquireConn, bind, lock. rewrite Hmu.
    change (pool (set_mu true s)) with (pool s). rewrite Hp, length_app, Nat.add_1_r.
    cbn [take_pooled]. unfold bind, pop, ask. change (pool (set_mu true s)) with (pool s). rewrite Hp, last_snoc.
    change (answers (drop_last (set_mu true s))) with (answers s). cbn [created conn].
    destruct (Z.ltb_spec (clock (answers s) - t) gasConnTTL); [|lia]. unfold unlock.
    change (poolMu (tick (drop_last (set_mu true s)))) with true. cbn iota.
    change (answers (set_mu false (tick (drop_last (set_mu true s))))) with (S (answers s)). by rewrite Hd.
  - intros s0 H0. unfold relay_once, acquireConn, bind, lock. by rewrite H0.
Qed.
End lemmas.

(** * A healthy network *)

(** A connection that is open, in state [s]. *)
Definition is_open (s : transport) (c : nat) : Prop := (c < dialled s)%nat ∧ c ∉ closes s.

(** The pool holds open connections, each once. *)
Record pool_ok (s : transport) : Prop := {
  po_open : Forall (λ pc, ∃ c, conn pc = Some c ∧ is_open s c) (pool s);
  po_nodup : NoDup (conn <$> pool s);
  po_len : (length (pool s) <= gasPoolMax)%nat;
  po_closes : Forall (λ c, (c < dialled s)%nat) (closes s);
}.

(** An open connection that is not in the pool: somebody holds it. *)
Definition held (s : transport) (c : nat) : Prop := is_open s c ∧ Some c ∉ conn <$> pool s.

Lemma pool_ok_ext s s' :
  pool s' = pool s → dialled s' = dialled s → closes s' = closes s → pool_ok s → pool_ok s'.
Proof. intros Hp Hd Hc [H1 H2 H3 H4]. split; rewrite ?Hp, ?Hd, ?Hc; try done. unfold is_open in *. by rewrite Hd, Hc. Qed.

Lemma pop_ok s l pc :
  pool s = l ++ [pc] → pool_ok s →
  pool_ok (drop_last s) ∧ ∃ c, conn pc = Some c ∧ held (drop_last s) c.
Proof.
  intros Hp [H1 H2 H3 H4]. assert (Hd : pool (drop_last s) = l).
  { change (removelast (pool s) = l). by rewrite Hp, removelast_last. }
  rewrite Hp in H1, H2, H3. apply Forall_app in H1 as [H1 Hc]. apply list.Forall_cons in Hc as [(c & Hc & Ho) _].
  rewrite fmap_app in H2. apply list.NoDup_app in H2 as (H2 & Hdis & _). rewrite length_app in H3.
  split; [split; rewrite ?Hd; try done; lia|]. exists c. split; [done|]. split; [exact Ho|]. rewrite Hd.
  intros Hin%Hdis. apply Hin. simpl. rewrite Hc. left.
Qed.

Lemma close_ok s c : pool_ok s → held s c → pool_ok (log_close c s).
Proof.
  intros [H1 H2 H3 H4] [Ho Hn]. split; try done.
  - apply list.Forall_forall. intros pc Hpc. rewrite list.Forall_forall in H1.
    destruct (H1 pc Hpc) as (d & Hd & Hlt & Hni). exists d. split; [done|]. split; [done|].
    change (d ∉ c :: closes s). rewrite elem_of_cons. intros [->|]; [|done].
    apply Hn. rewrite <- Hd. by apply list_elem_of_fmap_2.
  - constructor; [apply Ho|done].
Qed.

Section healthy.
Context (clock : nat → Z) (dial has_data write : nat → bool).
Context (read : nat → option (Z * gmap string string * string)) (sniHosts : list string).
(** Every dial and write succeeds, every read gets a response, and the server does
    not send anything unasked. *)
Context (dials : ∀ n, dial n = true) (quiet : ∀ n, has_data n = false).
Context (writes : ∀ n, write n = true) (reads : ∀ n, is_Some (read n)).

Lemma nextSNI_ret s : ∃ host, nextSNI sniHosts s = (Ret host, set_sni (uint32 (sniIdx s + 1)) s) ∧ (host ∈ sniHosts ∨ sniHosts = []).
Proof.
  unfold nextSNI. destruct sniHosts as [|h hosts]; [eexists; split; [done|by right]|].
  destruct ((h :: hosts) !! _) as [host|] eqn:E.
  - exists host. split; [done|]. left. by eapply list_elem_of_lookup_2.
  - apply lookup_ge_None in E. pose proof (Z.mod_pos_bound (uint32 (sniIdx s + 1)) (Z.of_nat (length (h :: hosts)))). simpl length in *. lia.
Qed.

Lemma take_healthy k : ∀ s,
  pool_ok s → poolMu s = true →
  ∃ r s', take_pooled clock has_data k s = (Ret r, s') ∧ pool_ok s' ∧
    match r with Some c => poolMu s' = false ∧ held s' c | None => poolMu s' = true end.
Proof.
  induction k as [|k IH]; intros s Hok Hmu; cbn [take_pooled]; [by eexists None, s|].
  unfold bind, pop. destruct (list.last (pool s)) as [pc|] eqn:Hlast.
  2: { exists None, (drop_last s). apply last_None in Hlast. split; [done|]. split; [|done].
       eapply (pool_ok_ext s); try done. change (removelast (pool s) = pool s). by rewrite Hlast. }
  apply last_Some in Hlast as [l Hp]. destruct (pop_ok s l pc Hp Hok) as [Hok' (c & Hc & Hheld)].
  unfold ask. destruct (_ <? _).
  - unfold unlock. change (poolMu (tick (drop_last s))) with (poolMu s). rewrite Hmu, Hc, quiet.
    eexists (Some c), _. split; [reflexivity|]. split; [by apply (pool_ok_ext (drop_last s))|]. by split.
  - rewrite Hc. cbn [close_conn]. apply IH; [|exact Hmu]. apply close_ok; [by apply (pool_ok_ext (drop_last s))|exact Hheld].
Qed.

Lemma dial_healthy s :
  pool_ok s → ∃ c s', dial_new dial sniHosts s = (Ret c, s') ∧ pool_ok s' ∧ poolMu s' = poolMu s ∧ held s' c.
Proof.
  intros Hok. unfold dial_new, bind, ask. rewrite dials. cbn [negb].
  destruct (nextSNI_ret (tick s)) as (host & -> & _). rewrite dials. cbn [negb].
  eexists (dialled s), _. split; [reflexivity|]. destruct Hok as [H1 H2 H3 H4].
  assert (Hlt : ∀ c, (c < dialled s)%nat → (c < S (dialled s))%nat) by lia.
  split; [split; try done|split; [done|]].
  - eapply list.Forall_impl; [exact H1|]. intros pc (c & Hc & [Ho1 Ho2]). exists c. split; [done|]. split; [by apply Hlt|done].
  - eapply list.Forall_impl; [exact H4|]. intros c. apply Hlt.
  - split; [split|].
    + change (dialled s < S (dialled s))%nat. lia.
    + intros Hin. rewrite list.Forall_forall in H4. apply H4 in Hin. lia.
    + intros (pc & Hpc & Hin)%list_elem_of_fmap. rewrite list.Forall_forall in H1.
      destruct (H1 pc Hin) as (d & Hd & [Ho _]). rewrite Hd in Hpc. injection Hpc as <-. lia.
Qed.

Lemma acquire_healthy s :
  pool_ok s → poolMu s = false →
  ∃ c s', acquireConn clock dial has_data sniHosts s = (Ret c, s') ∧ pool_ok s' ∧ poolMu s' = false ∧ held s' c.
Proof.
  intros Hok Hmu. unfold acquireConn, bind, lock. rewrite Hmu.
  destruct (take_healthy (length (pool (set_mu true s))) (set_mu true s)) as (r & s1 & -> & Hok1 & Hr); [by apply (pool_ok_ext s)|done|].
  destruct r as [c|]; [destruct Hr; by eexists c, s1|]. unfold unlock. rewrite Hr.
  destruct (dial_healthy (set_mu false s1)) as (c & s2 & -> & Hok2 & Hmu2 & Hh); [by apply (pool_ok_ext s1)|]. by eexists c, s2.
Qed.

Lemma release_healthy c s :
  pool_ok s → poolMu s = false → held s c →
  ∃ s', releaseConn clock (Some c) s = (Ret tt, s') ∧ pool_ok s' ∧ poolMu s' = false.
Proof.
  intros Hok Hmu Hh. unfold releaseConn, bind, lock, ask. rewrite Hmu.
  set (s1 := tick (set_mu true s)). assert (Hok1 : pool_ok s1) by by apply (pool_ok_ext s).
  destruct (Nat.leb_spec gasPoolMax (length (pool s1))) as [|Hlt]; cbn [close_conn].
  - eexists. split; [reflexivity|]. split; [|done]. apply (pool_ok_ext (log_close c s1)); try done. by apply close_ok.
  - eexists. split; [reflexivity|]. split; [|done]. destruct Hok1 as [H1 H2 H3 H4], Hh as [Ho Hn].
    split; try done; change (pool (set_mu false (push_conn (Some c) (clock (answers (set_mu true s))) s1)))
      with (pool s1 ++ [mkPooled (Some c) (clock (answers (set_mu true s)))]).
    + apply Forall_app. split; [done|]. constructor; [by exists c|done].
    + rewrite fmap_app. apply list.NoDup_app. split_and!; [done| |apply NoDup_singleton].
      intros x Hx Hc%list_elem_of_singleton. simpl in Hc. by subst x.
    + rewrite length_app. cbn [length]. clear -Hlt. lia.
Qed.

(** While the network answers, requests cannot fail: from any pool of distinct
    open connections and with the mutex free, a request gets its response, and the
    pool is again one of at most [gasPoolMax] distinct open connections, with the
    mutex free and no connection closed that is still pooled. *)
Theorem relay_healthy s :
  pool_ok s → poolMu s = false →
  ∃ resp s', relay_once clock dial has_data write read sniHosts s = (Ret resp, s') ∧ pool_ok s' ∧ poolMu s' = false.
Proof.
  intros Hok Hmu. unfold relay_once. destruct (acquire_healthy s Hok Hmu) as (c & s1 & -> & Hok1 & Hmu1 & Hh).
  unfold exchange_on, ask. rewrite writes. unfold read_response, ask.
  destruct (reads (answers (tick s1))) as [resp ->]. unfold bind.
  destruct (release_healthy c (tick (tick s1))) as (s2 & -> & Hok2 & Hmu2); [by apply (pool_ok_ext s1)|done|exact Hh|].
  by eexists resp, s2.
Qed.
End healthy.

(** * Witnesses *)

Definition idle : transport := mkTransport [] false 0 0 0 [].

Definition demo_response (n : nat) : option (Z * gmap string string * string) := Some (200, ∅, "body").

Definition demo_clock (n : nat) : Z := 0.

Lemma pool_bounded_witness :
  ∃ r s', relayHTTP1 demo_clock (λ _, true) (λ _, false) (λ _, true) demo_response (λ _, None) ["www.google.com"] 1 idle = Some (r, s') ∧
    (length (pool s') <= gasPoolMax)%nat.
Proof.
  eexists _, _. split; [vm_compute; reflexivity|].
  eapply (pool_bounded demo_clock (λ _, true) (λ _, false) (λ _, true) demo_response ["www.google.com"] (λ _, None) 1 idle);
    [vm_compute; lia|vm_compute; reflexivity].
Defined.

Lemma failed_exchange_pools_dead_witness :
  let s' := mkTransport [mkPooled None 0] false 1 5 1 [0%nat] in
  (∃ pc, list.last (pool s') = Some pc ∧ dead s' (conn pc)) ∨ (gasPoolMax <= length (pool s'))%nat.
Proof.
  eapply (failed_exchange_pools_dead demo_clock (λ n, (n <? 2)%nat) (λ _, false) (λ _, false) demo_response ["www.google.com"] idle);
    vm_compute; reflexivity.
Defined.

Lemma pooled_crashes_witness :
  let once := relay_once demo_clock (λ _, true) (λ _, true) (λ _, true) demo_response ["www.google.com"] in
  let s := mkTransport [mkPooled None 0] false 1 5 1 [0%nat] in
  (pool s = [] ++ [mkPooled None 0] → fst (once s) = Panicked ∧
     (gasConnTTL ≤ demo_clock (answers s) - 0 → poolMu (snd (once s)) = true)) ∧
  (∀ c, pool s = [] ++ [mkPooled (Some c) 0] → demo_clock (answers s) - 0 < gasConnTTL → true = true → fst (once s) = Fatal) ∧
  (∀ s0, poolMu s0 = true → once s0 = (Hangs, s0)).
Proof.
  apply (pooled_crashes demo_clock (λ _, true) (λ _, true) (λ _, true) demo_response ["www.google.com"]
    (mkTransport [mkPooled None 0] false 1 5 1 [0%nat]) [] 0). reflexivity.
Defined.

Lemma relay_healthy_witness :
  ∃ resp s', relay_once demo_clock (λ _, true) (λ _, false) (λ _, true) demo_response ["www.google.com"] idle = (Ret resp, s') ∧
    pool_ok s' ∧ poolMu s' = false.
Proof.
  apply (relay_healthy demo_clock (λ _, true) (λ _, false) (λ _, true) demo_response ["www.google.com"]);
    [done|done|done|by intros n; eexists| |done].
  split; [constructor|constructor|vm_compute; lia|constructor].
Defined.
