(* ===== verification/GasRelay.v ===== *)
(** The relay of [proxy/gas_relay.go]: the circuit breaker of its HTTP/2 transport,
    the choice of a script, single, parallel and chunked requests, statistics, and
    [relayRequest] on top of them.

    The world is indexed by a counter of the answers taken so far: the clock, what
    [client.Do] on the HTTP/2 client gives for a path, and what [relayHTTP1] gives
    (GasPool models it).  Every request handed to a transport is logged.  Panics and
    the goroutines' interleaving on [scriptIdx] are left to the other files: the
    goroutines of a fan-out run one after the other and their results arrive in an
    order the world chooses. *)

From coqutil Require Import Datatypes.RecordSetters.
From S2P Require Import Prelude GoStrings GoText GasCache GasHTTP.
Import DoubleBraceUpdate.

Open Scope Z_scope.

(** * State *)

Inductive via := H2 | H1.

Record gasHostStat := mkHostStat { Requests : Z; Bytes : Z; TotalLatencyNs : Z; Errors : Z }.

Record gasRelay := mkRelay {
  scriptIdx : nat;
  sidBlacklist : gmap string Z;
  h2Client : bool;
  h2FailCount : Z;
  h2BackoffUntil : Z;
  reqCount : Z;
  bwBytes : Z;
  lastLatency : Z;
  latencyAvg : Z;
  perSite : gmap string gasHostStat;
  ticks : nat;
  posts : list (via * string);     (** the requests sent, latest first *)
}.

Definition newGASRelay : gasRelay := mkRelay 0 ∅ false 0 0 0 0 0 0 ∅ 0 [].

Definition M (A : Type) : Type := gasRelay → A * gasRelay.

Definition ret {A} (a : A) : M A := λ r, (a, r).

Definition bind {A B} (m : M A) (k : A → M B) : M B := λ r, let '(a, r') := m r in k a r'.

Notation "x <~ m ;; k" := (bind m (fun x => k)) (at level 100, m at next level, right associativity).
Notation "m ~;; k" := (bind m (fun _ => k)) (at level 100, right associativity).

Definition int64 (n : Z) : Z := (n + 9223372036854775808) mod 18446744073709551616 - 9223372036854775808.

(** * Chunks of a large file *)

Definition chunkedMinSize : Z := 5 * 1024 * 1024.
Definition chunkedMaxParallel : Z := 3.
Definition chunkedChunkSize : Z := 2 * 1024 * 1024.

(** Number and size of the chunks. *)
Definition chunk_plan (cl : Z) : Z * Z :=
  let numChunks := int64 (cl + chunkedChunkSize - 1) ÷ chunkedChunkSize in
  let numChunks := if chunkedMaxParallel <? numChunks then chunkedMaxParallel else numChunks in
  let chunkSize := cl ÷ numChunks in
  if chunkSize <? chunkedChunkSize then
    let chunkSize := chunkedChunkSize in
    let numChunks := int64 (cl + chunkSize - 1) ÷ chunkSize in
    if chunkedMaxParallel <? numChunks then (chunkedMaxParallel, cl ÷ chunkedMaxParallel) else (numChunks, chunkSize)
  else (numChunks, chunkSize).

Definition chunk_range (cl numChunks chunkSize i : Z) : Z * Z :=
  let start := i * chunkSize in
  (start, if i =? numChunks - 1 then cl - 1 else start + chunkSize - 1).

Definition chunk_ranges (cl : Z) : list (Z * Z) :=
  let '(numChunks, chunkSize) := chunk_plan cl in
  (λ i, chunk_range cl numChunks chunkSize (Z.of_nat i)) <$> seq 0 (Z.to_nat numChunks).

Section relay.
Context (scriptIDs : list string) (parallelNum : nat) (devAvail : bool).
Context (clock : nat → Z).                                   (** nanoseconds *)
Context (h2_do : nat → string → option (option string)).      (** no answer; a body, or an error reading it *)
Context (h1_relay : nat → string → option string).            (** [relayHTTP1]: a body or an error *)
Context (hash0 : string → nat).                               (** the first byte of the SHA-1 digest *)
Context (parse_url : string → option (string * string)).
Context (Unmarshal : string → option jobject) (fmt_v : jvalue → string) (maxRespBody : Z).

(** [parseRelayResponse], which always answers (GasHTTP). *)
Definition parse (body : string) : string :=
  match parseRelayResponse Unmarshal fmt_v maxRespBody body with Ok resp => resp | _ => "" end.

Definition now : M Z := λ r, (clock (ticks r), r {{ ticks ::= S }}).

(** * The circuit breaker *)

Definition h2BackoffLeft : M Z :=
  t <~ now ;;
  λ r, (if h2Client r then 0 else if h2BackoffUntil r - t <? 0 then 0 else h2BackoffUntil r - t, r).

Definition ensureH2 : M unit := λ r,
  if h2Client r then (tt, r)
  else (t <~ now ;; λ r, (tt, if t <? h2BackoffUntil r then r else r {{ h2Client := true }})) r.

Definition backoff (failCount : Z) : Z :=
  let backoff := Z.shiftl 1 (Z.min failCount 5) * second in
  if 30 * second <? backoff then 30 * second else backoff.

Definition resetH2 : M unit :=
  t <~ now ;;
  λ r, let failCount := h2FailCount r + 1 in
       (tt, r {{ h2Client := false; h2FailCount := failCount; h2BackoffUntil := t + backoff failCount }}).

Definition log_post (v : via) (path : string) : M nat := λ r, (ticks r, r {{ ticks ::= S; posts ::= cons (v, path) }}).

(** The body, or an error. *)
Definition h2Request (path : string) : M (option string) :=
  left <~ h2BackoffLeft ;;
  if 0 <? left then ret None
  else
    ensureH2 ~;;
    λ r,
      if negb (h2Client r) then (None, r)
      else
        (n <~ log_post H2 path ;;
         match h2_do n path with
         | None => resetH2 ~;; ret None
         | Some data => λ r, (data, r {{ h2FailCount := 0; h2BackoffUntil := 0 }})
         end) r.

Definition relayHTTP1 (path : string) : M (option string) :=
  n <~ log_post H1 path ;; ret (h1_relay n path).

(** * Scripts *)

Definition script (i : nat) : string := nth i scriptIDs "".

(** The loop over the scripts: with a key every round looks at the same script. *)
Fixpoint script_loop (k : nat) (key : string) : M string :=
  match k with
  | O => ret (script 0)
  | S k' =>
      sid <~ (λ r,
        if negb (nonempty key) then
          let i := ((scriptIdx r + 1) mod length scriptIDs)%nat in (script i, r {{ scriptIdx := i }})
        else (script (hash0 key mod length scriptIDs)%nat, r)) ;;
      λ r,
        match sidBlacklist r !! sid with
        | None => (sid, r)
        | Some expiry =>
            (t <~ now ;; if expiry <? t then (λ r, (sid, r {{ sidBlacklist ::= delete sid }})) else script_loop k' key) r
        end
  end.

Definition scriptIDForKey (key : string) : M string :=
  match scriptIDs with
  | [] => ret ""
  | [sid] => ret sid
  | _ => script_loop (length scriptIDs) key
  end.

Definition exec_path (sid : string) : string := "/macros/s/" +:+ sid +:+ "/exec".

Definition execPath (url : string) : M string :=
  sid <~ scriptIDForKey (gasHostKey parse_url url) ;;
  ret (if negb (nonempty sid) then "/macros/s/dev"
       else if devAvail then "/macros/s/" +:+ sid +:+ "/dev" else exec_path sid).

Definition retryWithNextScript (path : string) : M string := λ r,
  if (length scriptIDs <=? 1)%nat then (path, r)
  else let i := ((scriptIdx r + 1) mod length scriptIDs)%nat in (exec_path (script i), r {{ scriptIdx := i }}).

Definition gasScriptBlacklistTTL : Z := 600 * second.

Definition blacklistSID (path : string) : M unit := λ r,
  if (length scriptIDs <=? 1)%nat then (tt, r)
  else match List.find (λ sid, Contains path sid) scriptIDs with
       | None => (tt, r)
       | Some sid => (t <~ now ;; λ r, (tt, r {{ sidBlacklist ::= <[sid := t + gasScriptBlacklistTTL]> }})) r
       end.

(** * One request *)

(** The HTTP/1.1 part of [relaySingle]. *)
Definition single_h1 (path : string) : M (option string) :=
  resp <~ relayHTTP1 path ;;
  match resp with
  | None => blacklistSID path ~;; ret None
  | Some resp =>
      if gasResponseBytesIsError (parse resp) then
        blacklistSID path ~;;
        path <~ retryWithNextScript path ;;
        resp <~ relayHTTP1 path ;;
        ret (parse <$> resp)
      else ret (Some (parse resp))
  end.

Definition relaySingle (url : string) : M (option string) :=
  path <~ execPath url ;;
  body <~ h2Request path ;;
  match body with
  | None => single_h1 path
  | Some body =>
      let resp := parse body in
      if negb (gasResponseBytesIsError resp) then ret (Some resp)
      else
        blacklistSID path ~;;
        path <~ retryWithNextScript path ;;
        resetH2 ~;;
        body <~ h2Request path ;;
        match body with
        | Some body => ret (Some (parse body))
        | None => single_h1 path
        end
  end.

(** One goroutine of the fan-out. *)
Definition parallel_one (path : string) : M (option string) :=
  resp <~ relayHTTP1 path ;;
  match resp with
  | None => ret None
  | Some resp =>
      if gasResponseBytesIsError (parse resp) then
        p2 <~ retryWithNextScript path ;;
        resp2 <~ relayHTTP1 p2 ;;
        ret (parse <$> resp2)
      else ret (Some (parse resp))
  end.

Fixpoint run_all {A} (ms : list (M A)) : M (list A) :=
  match ms with
  | [] => ret []
  | m :: ms' => a <~ m ;; rest <~ run_all ms' ;; ret (a :: rest)
  end.

(** The first success in the order of arrival. *)
Definition first_success (results : list (option string)) : option string := hd_error (omap id results).

Definition relaySingleParallel (arrivals : list (option string) → list (option string)) (url : string) (numParallel : nat)
    : M (option string) := λ r,
  if (length scriptIDs <=? 1)%nat || (numParallel <=? 1)%nat then relaySingle url r
  else
    let n := length scriptIDs in
    let numParallel := Nat.min numParallel n in
    let base := ((scriptIdx r + 1) mod n)%nat in
    let r := r {{ scriptIdx := ((base + numParallel) mod n)%nat }} in
    (results <~ run_all ((λ i, parallel_one (exec_path (script ((base + i) mod n)))) <$> seq 0 numParallel) ;;
     ret (first_success (arrivals results))) r.

(** * Chunked download *)

Definition chunk_one (path : string) : M (option string) :=
  resp <~ relayHTTP1 path ;;
  ret match resp with
      | None => None
      | Some resp => if gasResponseBytesIsError (parse resp) then None else Some (default "" (gasExtractBody (parse resp)))
      end.

(** [None] is the nil that sends the caller on to its other strategies; a panic is
    [gasParseContentLength]'s. *)
Definition relayChunked `{HeaderRange} (url : string) (headers : gmap string string) : M (outcome (option string)) := λ r,
  if (length scriptIDs <=? 1)%nat then (Ok None, r)
  else
    (headResp <~ relaySingle url ;;
     match headResp with
     | None => ret (Ok None)
     | Some headResp =>
         match gasParseContentLength headResp with
         | Panic => ret Panic
         | Err e => ret (Err e)
         | Ok cl =>
             if cl <=? chunkedMinSize then ret (Ok None)
             else if nonempty (headerValue headers "range") then ret (Ok None)
             else λ r,
               let n := length scriptIDs in
               let ranges := chunk_ranges cl in
               let base := scriptIdx r in
               let r := r {{ scriptIdx := ((base + length ranges) mod n)%nat }} in
               (results <~ run_all ((λ i, chunk_one (exec_path (script ((base + i) mod n)))) <$> seq 0 (length ranges)) ;;
                ret match mapM id results with
                    | None => Ok None
                    | Some chunks =>
                        let full := String.concat "" chunks in
                        let ct := headerValue headers "content-type" in
                        Ok (Some ("HTTP/1.1 200 OK" +:+ CRLF +:+ "Content-Length: " +:+ Itoa (zlen full) +:+ CRLF +:+
                                  (if nonempty ct then "Content-Type: " +:+ ct +:+ CRLF else "") +:+ CRLF +:+ full))
                    end) r
         end
     end) r.

(** * Statistics *)

Definition recordStats (urlStr : string) (bodyLen start : Z) (errored : bool) : M unit :=
  t <~ now ;;
  λ r,
    let latency := t - start in
    let r := r {{ reqCount ::= λ n, int64 (n + 1); bwBytes ::= λ n, int64 (n + bodyLen); lastLatency := latency ÷ 1000000 }} in
    let host := gasHostKey parse_url urlStr in
    if negb (nonempty host) then (tt, r)
    else
      let stat := default (mkHostStat 0 0 0 0) (perSite r !! host) in
      let stat := mkHostStat (Requests stat + 1) (Bytes stat + bodyLen) (TotalLatencyNs stat + latency)
                    (if errored then Errors stat + 1 else Errors stat) in
      let avg := latencyAvg r in
      (tt, r {{ perSite ::= <[host := stat]>;
                latencyAvg := if avg =? 0 then latency ÷ 1000000 else (avg + latency ÷ 1000000) ÷ 2 }}).

(** * Requests *)

Definition gasMaxPayloadSize : Z := 512 * 1024.

(** [len(payload)] of [buildPayload]: the number of its fields. *)
Definition payload_fields `{HeaderRange} (headers : gmap string string) (body : string) : Z :=
  4 + (if nonempty body then 1 + (if nonempty (headerValue headers "content-type") then 1 else 0) else 0).

Section request.
Context `{HeaderRange} (arrivals : list (option string) → list (option string)) (err_text : string).
(** [tryCoalesce] and [batchSubmit] (GasBatch). *)
Context (tryCoalesce : string → string → M (option string)) (batchSubmit : string → M string).

Definition or_502 (resp : option string) : string := default (gasErrorResponse 502 err_text) resp.

Definition is_get (method body : string) : bool := bool_decide (ToUpper method = "GET") && negb (nonempty body).

(** The part after the attempt to fetch a large file in chunks: the response and
    whether it counts as an error. *)
Definition relay_shared (method url : string) (headers : gmap string string) (body : string) : M (string * bool) :=
  let key := coalesceKey url headers in
  if is_get method body && (1 <? parallelNum)%nat && (1 <? length scriptIDs)%nat then
    c <~ tryCoalesce key url ;;
    match c with
    | Some resp => ret (resp, false)
    | None =>
        p <~ relaySingleParallel arrivals url parallelNum ;;
        match p with
        | Some resp => ret (resp, false)
        | None => resp <~ batchSubmit url ;; ret (resp, true)
        end
    end
  else
    c <~ (if is_get method body && negb (nonempty (headerValue headers "range")) then tryCoalesce key url else ret None) ;;
    match c with
    | Some resp => ret (resp, false)
    | None => resp <~ batchSubmit url ;; ret (resp, false)
    end.

Definition relay_route (method url : string) (headers : gmap string string) (body : string) : M (outcome (string * bool)) :=
  if isStatefulRequest parse_url method url headers body || (gasMaxPayloadSize ÷ 4 <? zlen body) then
    resp <~ relaySingle url ;; ret (Ok (or_502 resp, bool_decide (resp = None)))
  else
    c <~ (if is_get method body && (1 <? length scriptIDs)%nat && negb (nonempty (headerValue headers "range")) && gasIsLargeFileExt url
          then relayChunked url headers else ret (Ok None)) ;;
    match c with
    | Ok (Some resp) => ret (Ok (resp, false))
    | Ok None => r <~ relay_shared method url headers body ;; ret (Ok r)
    | Err e => ret (Err e)
    | Panic => ret Panic
    end.

(** The deferred [recordStats] also runs when the route panics. *)
Definition relayRequest (method url : string) (headers : gmap string string) (body : string) : M (outcome string) :=
  start <~ now ;;
  res <~ relay_route method url headers body ;;
  recordStats url (payload_fields headers body) start match res with Ok (_, errored) => errored | _ => false end ~;;
  ret (obind res (λ '(resp, _), Ok resp)).
End request.
End relay.

(** * Chunks *)

(** The ranges follow one another from [from] up to [upto]. *)
Fixpoint tiles (from upto : Z) (l : list (Z * Z)) : Prop :=
  match l with
  | [] => from = upto
  | (a, b) :: l' => a = from ∧ a ≤ b ∧ tiles (b + 1) upto l'
  end.

Lemma int64_id n : 0 ≤ n < 9223372036854775808 → int64 n = n.
Proof. intros H. unfold int64. rewrite Z.mod_small; lia. Qed.

Lemma chunk_plan_spec cl :
  chunkedMinSize < cl ≤ 4611686018427387904 → ∃ size, chunk_plan cl = (3, size) ∧ 0 < size ∧ 2 * size < cl.
Proof.
  unfold chunkedMinSize. intros Hcl. unfold chunk_plan, chunkedChunkSize, chunkedMaxParallel.
  rewrite int64_id by lia. set (k := (cl + 2 * 1024 * 1024 - 1) ÷ (2 * 1024 * 1024)).
  assert (Hk : 3 ≤ k) by (unfold k; Z.to_euclidean_division_equations; lia).
  replace (if 3 <? k then 3 else k) with 3 by (destruct (Z.ltb_spec 3 k); lia).
  destruct (Z.ltb_spec (cl ÷ 3) (2 * 1024 * 1024)).
  - destruct (Z.ltb_spec 3 k); eexists; (split; [f_equal; lia|]); Z.to_euclidean_division_equations; lia.
  - eexists. split; [reflexivity|]. Z.to_euclidean_division_equations. lia.
Qed.

(** C25: A file that is fetched in chunks is fetched in three, whose byte ranges are
    not empty and follow one another from the first byte to the last: no byte is
    asked for twice and none is left out. *)
Theorem chunk_ranges_tile cl :
  chunkedMinSize < cl ≤ 4611686018427387904 → length (chunk_ranges cl) = 3%nat ∧ tiles 0 cl (chunk_ranges cl).
Proof.
  intros Hcl. destruct (chunk_plan_spec cl Hcl) as (size & Hp & Hs & Hc). unfold chunk_ranges. rewrite Hp.
  split; [done|]. unfold chunk_range. simpl. lia.
Qed.

Lemma chunk_ranges_tile_witness :
  length (chunk_ranges 10000000) = 3%nat ∧ tiles 0 10000000 (chunk_ranges 10000000).
Proof. apply chunk_ranges_tile. unfold chunkedMinSize. lia. Defined.

(** * The circuit breaker *)

Lemma backoff_bounds n : 1 ≤ n → 2 * second ≤ backoff n ≤ 30 * second.
Proof.
  intros Hn. unfold backoff. rewrite Z.shiftl_1_l.
  assert (2 ^ 1 ≤ 2 ^ Z.min n 5) by (apply Z.pow_le_mono_r; lia). unfold second.
  destruct (Z.ltb_spec (30 * 1000000000) (2 ^ Z.min n 5 * 1000000000)); lia.
Qed.

Section proofs.
Context (scriptIDs : list string) (parallelNum : nat) (devAvail : bool).
Context (clock : nat → Z) (h2_do : nat → string → option (option string)) (h1_relay : nat → string → option string).
Context (hash0 : string → nat) (parse_url : string → option (string * string)).
Context (Unmarshal : string → option jobject) (fmt_v : jvalue → string) (maxRespBody : Z).

Notation h2_request := (h2Request clock h2_do).
Notation reset := (resetH2 clock).
Notation single := (relaySingle scriptIDs devAvail clock h2_do h1_relay hash0 parse_url Unmarshal fmt_v maxRespBody).
Notation single1 := (single_h1 scriptIDs clock h1_relay Unmarshal fmt_v maxRespBody).
Notation exec := (execPath scriptIDs devAvail clock hash0 parse_url).
Notation retry := (retryWithNextScript scriptIDs).
Notation parse_body := (parse Unmarshal fmt_v maxRespBody).

(** After a failure the breaker is open for [min(2^min(n,5), 30)] seconds, [n]
    counting the failures since the last answer, and so for 2 to 30 seconds: until
    then an HTTP/2 request fails without being sent, afterwards it is sent. *)
Theorem breaker_open path r :
  0 ≤ h2FailCount r →
  let r' := snd (reset r) in
  let opened := clock (ticks r) in
  let closes := opened + backoff (h2FailCount r + 1) in
  opened + 2 * second ≤ closes ≤ opened + 30 * second ∧
  (clock (ticks r') < closes → fst (h2_request path r') = None ∧ posts (snd (h2_request path r')) = posts r) ∧
  (closes ≤ clock (ticks r') → closes ≤ clock (S (ticks r')) → posts (snd (h2_request path r')) = (H2, path) :: posts r).
Proof.
  intros Hf r' opened closes. pose proof (backoff_bounds (h2FailCount r + 1)).
  split; [unfold closes; lia|].
  assert (Hu : h2BackoffUntil r' = closes) by done. assert (Hc : h2Client r' = false) by done. assert (Hp : posts r' = posts r) by done.
  clearbody closes r'. destruct r' as [idx bl cli fc bu rc bw ll la ps tk po]. cbn [h2BackoffUntil h2Client posts ticks] in *. subst.
  unfold h2Request, bind, h2BackoffLeft, now. cbn -[Z.ltb Z.leb]. split.
  - intros Ht. destruct (Z.ltb_spec (closes - clock tk) 0); [lia|].
    destruct (Z.ltb_spec 0 (closes - clock tk)); [by split|lia].
  - intros Ht Ht'.
    replace (0 <? (if closes - clock tk <? 0 then 0 else closes - clock tk)) with false.
    2: { symmetry. apply Z.ltb_ge. destruct (Z.ltb_spec (closes - clock tk) 0); lia. }
    unfold ensureH2, bind, now. cbn -[Z.ltb]. destruct (Z.ltb_spec (clock (S tk)) closes); [lia|]. cbn.
    by destruct (h2_do _ _).
Qed.

(** * What a single request sends *)

(** The path of a configured script, or the development path when there is none. *)
Definition known (path : string) : Prop :=
  path = "/macros/s/dev" ∨ ∃ sid, sid ∈ scriptIDs ∧ (path = exec_path sid ∨ path = "/macros/s/" +:+ sid +:+ "/dev").

(** [m] sends at most [k] requests, all to known paths, and its result satisfies [Q]. *)
Definition sends {A} (m : M A) (k : nat) (Q : A → Prop) : Prop := ∀ r,
  ∃ sent, posts (snd (m r)) = sent ++ posts r ∧ (length sent <= k)%nat ∧ Forall (λ vp, known (snd vp)) sent ∧ Q (fst (m r)).

Lemma sends_ret {A} (a : A) (Q : A → Prop) : Q a → sends (ret a) 0 Q.
Proof. intros H r. by exists []. Qed.

Lemma sends_bind {A B} (m : M A) (k : A → M B) a b Q R :
  sends m a Q → (∀ x, Q x → sends (k x) b R) → sends (bind m k) (a + b) R.
Proof.
  intros Hm Hk r. unfold bind. destruct (Hm r) as (s1 & E1 & L1 & F1 & HQ). destruct (m r) as [x r1]. simpl in *.
  destruct (Hk x HQ r1) as (s2 & E2 & L2 & F2 & HR). exists (s2 ++ s1). rewrite E2, E1, app_assoc, length_app.
  split_and!; [done|lia|by apply Forall_app|done].
Qed.

Lemma sends_le {A} (m : M A) a b (Q R : A → Prop) : sends m a Q → (a <= b)%nat → (∀ x, Q x → R x) → sends m b R.
Proof. intros Hm Hle HQ r. destruct (Hm r) as (s1 & E1 & L1 & F1 & H). exists s1. split_and!; [done|lia|done|auto]. Qed.

(** An operation that leaves the log alone. *)
Lemma sends_silent {A} (m : M A) (Q : A → Prop) : (∀ r, posts (snd (m r)) = posts r ∧ Q (fst (m r))) → sends m 0 Q.
Proof. intros H r. destruct (H r). by exists []. Qed.

Lemma sends_now : sends (now clock) 0 (λ _, True).
Proof. by apply sends_silent. Qed.

Lemma sends_reset : sends reset 0 (λ _, True).
Proof. by apply sends_silent. Qed.

Lemma sends_post v path : known path → sends (log_post v path) 1 (λ _, True).
Proof. intros H r. exists [(v, path)]. split_and!; [done|done|by apply list.Forall_singleton|done]. Qed.

Lemma sends_h2 path : known path → sends (h2_request path) 1 (λ _, True).
Proof.
  intros Hk. apply (sends_bind _ _ 0 1 (λ _, True)); [by apply sends_silent|]. intros left _. destruct (0 <? left).
  - eapply sends_le; [by apply (sends_ret None (λ _, True))|lia|done].
  - apply (sends_bind _ _ 0 1 (λ _, True)).
    { apply sends_silent. intros r. unfold ensureH2. destruct (h2Client r); [done|]. unfold bind, now. by destruct (_ <? _). }
    intros _ _ r. destruct (negb (h2Client r)); [exists []; split_and!; try done; simpl; lia|].
    assert (Hp : sends (n <~ log_post H2 path;; match h2_do n path with
      | Some data => λ r, (data, r {{ h2FailCount := 0; h2BackoffUntil := 0 }}) | None => reset ~;; ret None end) 1 (λ _, True)).
    { apply (sends_bind _ _ 1 0 (λ _, True)); [by apply sends_post|]. intros n _. destruct (h2_do n path); [by apply sends_silent|].
      apply (sends_bind _ _ 0 0 (λ _, True)); [apply sends_reset|]. intros _ _. by apply sends_ret. }
    apply Hp.
Qed.

Lemma sends_h1 path : known path → sends (relayHTTP1 h1_relay path) 1 (λ _, True).
Proof. intros Hk. apply (sends_bind _ _ 1 0 (λ _, True)); [by apply sends_post|]. intros n _. by apply sends_ret. Qed.

Lemma script_known i : scriptIDs ≠ [] → script scriptIDs (i mod length scriptIDs) ∈ scriptIDs.
Proof.
  intros Hn. unfold script. apply list_elem_of_In, nth_In. apply Nat.mod_upper_bound. by destruct scriptIDs.
Qed.

Lemma sends_script_loop k key : scriptIDs ≠ [] → sends (script_loop scriptIDs clock hash0 k key) 0 (λ sid, sid ∈ scriptIDs).
Proof.
  intros Hn. induction k as [|k IH]; cbn [script_loop].
  - apply sends_ret. rewrite <- (Nat.Div0.mod_0_l (length scriptIDs)). by apply script_known.
  - apply (sends_bind _ _ 0 0 (λ sid, sid ∈ scriptIDs)).
    { apply sends_silent. intros r. destruct (negb _); split; try done; by apply script_known. }
    intros sid Hsid r. destruct (sidBlacklist r !! sid) as [expiry|]; [|by exists []].
    assert (H : sends (t <~ now clock ;; if expiry <? t then (λ r, (sid, r {{ sidBlacklist ::= delete sid }}))
      else script_loop scriptIDs clock hash0 k key) 0 (λ sid, sid ∈ scriptIDs)).
    { apply (sends_bind _ _ 0 0 (λ _, True)); [apply sends_now|]. intros t _. destruct (expiry <? t); [by apply sends_silent|exact IH]. }
    apply H.
Qed.

Lemma sends_exec url : sends (exec url) 0 known.
Proof.
  apply (sends_bind _ _ 0 0 (λ sid, sid = "" ∨ sid ∈ scriptIDs)).
  - unfold scriptIDForKey. destruct scriptIDs as [|sid [|sid' ids]] eqn:E; [apply sends_ret; by left|apply sends_ret; right; left|].
    rewrite <- E. eapply sends_le; [apply sends_script_loop; by rewrite E|lia|]. rewrite E. by right.
  - intros sid Hsid. apply sends_ret. destruct (nonempty sid) eqn:Hne; [|by left]. destruct Hsid as [->|Hsid]; [done|].
    right. exists sid. split; [done|]. destruct devAvail; [by right|by left].
Qed.

Lemma sends_retry path : known path → sends (retry path) 0 known.
Proof.
  intros Hk. apply sends_silent. intros r. unfold retryWithNextScript. destruct (Nat.leb_spec (length scriptIDs) 1); [done|].
  split; [done|]. right. eexists. split; [apply script_known; intros Hn; rewrite Hn in H; simpl in H; lia|by left].
Qed.

Lemma sends_blacklist path : sends (blacklistSID scriptIDs clock path) 0 (λ _, True).
Proof.
  apply sends_silent. intros r. unfold blacklistSID. destruct (_ <=? _)%nat; [done|]. by destruct (List.find _ _).
Qed.

(** The interpretation of something the script sent, if anything. *)
Definition responds (res : option string) : Prop := ∀ resp, res = Some resp → ∃ body, resp = parse_body body.

Lemma responds_parse body : responds (Some (parse_body body)).
Proof. intros resp [= <-]. by exists body. Qed.

Lemma responds_fmap resp : responds (parse_body <$> resp).
Proof. destruct resp; [apply responds_parse|by intros ?]. Qed.

Lemma sends_single_h1 path : known path → sends (single1 path) 2 responds.
Proof.
  intros Hk. apply (sends_bind _ _ 1 1 (λ _, True)); [by apply sends_h1|]. intros [resp|] _.
  - destruct (gasResponseBytesIsError _).
    + apply (sends_bind _ _ 0 1 (λ _, True)); [apply sends_blacklist|]. intros _ _.
      apply (sends_bind _ _ 0 1 known); [by apply sends_retry|]. intros p Hp.
      apply (sends_bind _ _ 1 0 (λ _, True)); [by apply sends_h1|]. intros resp2 _. apply sends_ret, responds_fmap.
    + eapply sends_le; [apply sends_ret, responds_parse|lia|done].
  - apply (sends_bind _ _ 0 1 (λ _, True)); [apply sends_blacklist|]. intros _ _.
    eapply sends_le; [by apply (sends_ret None responds)|lia|done].
Qed.

Lemma sends_single url : sends (single url) 4 responds.
Proof.
  apply (sends_bind _ _ 0 4 known); [apply sends_exec|]. intros path Hk.
  apply (sends_bind _ _ 1 3 (λ _, True)); [by apply sends_h2|]. intros [body|] _.
  - cbv zeta. destruct (gasResponseBytesIsError (parse_body body)); cbn [negb]; [|eapply sends_le; [apply sends_ret, responds_parse|lia|done]].
    apply (sends_bind _ _ 0 3 (λ _, True)); [apply sends_blacklist|]. intros _ _.
    apply (sends_bind _ _ 0 3 known); [by apply sends_retry|]. intros p Hp.
    apply (sends_bind _ _ 0 3 (λ _, True)); [apply sends_reset|]. intros _ _.
    apply (sends_bind _ _ 1 2 (λ _, True)); [by apply sends_h2|]. intros [body2|] _; [|by apply sends_single_h1].
    eapply sends_le; [apply sends_ret, responds_parse|lia|done].
  - eapply sends_le; [by apply sends_single_h1|lia|done].
Qed.

Context (cap : maxRespBody ≤ max_int64).

(** A single request is sent at most four times, whatever the answers, only to
    configured scripts (or to the development path when none is configured), and
    what it returns, when it does not fail, is an HTTP response. *)
Theorem relaySingle_bounded url r :
  ∃ sent, posts (snd (single url r)) = sent ++ posts r ∧ (length sent <= 4)%nat ∧
    Forall (λ vp, known (snd vp)) sent ∧
    ∀ resp, fst (single url r) = Some resp → HasPrefix resp "HTTP/1.1 " = true.
Proof.
  destruct (sends_single url r) as (sent & ? & ? & ? & Hr). exists sent. split_and!; [done..|].
  intros resp (body & ->)%Hr. unfold parse. by destruct (parse_relay_ok fmt_v maxRespBody cap Unmarshal body) as (resp & -> & Hpre).
Qed.

(** * Chunked downloads *)

(** What the script sends back has ordinary headers, and no body of more than
    [chunkedMinSize] bytes: so it is for a HEAD request. *)
Context (room : chunkedMinSize ≤ maxRespBody).
Context (fields : ∀ text data, Unmarshal text = Some data → Forall (field_ok fmt_v) (object_headers data)).
Context (heads : ∀ text data decoded,
  Unmarshal text = Some data → object_body data = Some decoded → zlen (bytes_string decoded) ≤ chunkedMinSize).
Context (errors : ∀ e, zlen (fmt_v e) ≤ 1024 * 1024).

Lemma short_error msg : zlen msg ≤ 2 * 1024 * 1024 →
  ∃ n, gasParseContentLength (gasErrorResponse 502 msg) = Ok n ∧ n ≤ chunkedMinSize.
Proof. intros H. destruct (error_response_length msg) as (n & Hn & Hle); [lia|]. exists n. unfold chunkedMinSize. split; [done|lia]. Qed.

Lemma zlen_truncate s k : zlen (gasTruncate s k) ≤ Z.of_nat k.
Proof. unfold gasTruncate, zlen. destruct (Nat.leb_spec (slen s) k); [lia|]. rewrite slen_take. lia. Qed.

Lemma json_length text data : Unmarshal text = Some data →
  ∃ resp n, parseRelayJSON fmt_v maxRespBody data = Ok resp ∧ gasParseContentLength resp = Ok n ∧ n ≤ chunkedMinSize.
Proof.
  intros Hu. destruct (member "e" data) as [e|] eqn:He.
  - unfold parseRelayJSON. rewrite He. eexists. destruct (short_error ("Relay error: " +:+ fmt_v e)) as (n & Hn & Hle).
    { rewrite zlen_app. specialize (errors e). change (zlen "Relay error: ") with 13. lia. }
    by exists n.
  - destruct (object_body data) as [decoded|] eqn:Hb.
    + assert (Hd := heads _ _ _ Hu Hb).
      destruct (relay_answer_read fmt_v maxRespBody cap data decoded He Hb) as (resp & Hr & _ & Hl); [lia|by eapply fields|].
      by exists resp, (zlen (bytes_string decoded)).
    + unfold parseRelayJSON. rewrite He, Hb. eexists.
      destruct (short_error "Relay base64 decode error") as (n & Hn & Hle); [by vm_compute|]. by exists n.
Qed.

Lemma parse_length body : ∃ n, gasParseContentLength (parse_body body) = Ok n ∧ n ≤ chunkedMinSize.
Proof.
  assert (Ht : ∀ pre s, zlen pre ≤ 100 → zlen (pre +:+ gasTruncate s 200) ≤ 2 * 1024 * 1024).
  { intros pre s H. rewrite zlen_app. pose proof (zlen_truncate s 200). lia. }
  unfold parse, parseRelayResponse. destruct (negb _); [apply short_error; by vm_compute|].
  destruct (gasLooksLikeHTMLError body); [apply short_error, Ht; by vm_compute|].
  destruct (Unmarshal (TrimSpace body)) as [data|] eqn:Hu.
  { destruct (json_length _ _ Hu) as (resp & n & -> & Hl & Hle). by exists n. }
  destruct (negb _); [apply short_error, Ht; by vm_compute|].
  destruct (Unmarshal (json_candidate _)) as [data|] eqn:Hu'; [|apply short_error, Ht; by vm_compute].
  destruct (json_length _ _ Hu') as (resp & n & -> & Hl & Hle). by exists n.
Qed.

(** A chunked download never starts: the length it goes by is the length of the
    body of the answer to a HEAD request, not the one the answer declares. *)
Theorem relayChunked_never `{HeaderRange} url headers r :
  fst (relayChunked scriptIDs devAvail clock h2_do h1_relay hash0 parse_url Unmarshal fmt_v maxRespBody url headers r) = Ok None.
Proof.
  unfold relayChunked. destruct (_ <=? _)%nat; [done|]. unfold bind at 1.
  destruct (sends_single url r) as (_ & _ & _ & _ & Hr). destruct (single url r) as [[resp|] r1]; [|done].
  destruct (Hr resp eq_refl) as (body & ->). destruct (parse_length body) as (n & -> & Hn).
  by destruct (Z.leb_spec n chunkedMinSize); [|lia].
Qed.
End proofs.

(** * Witnesses *)

Definition demo_unmarshal (s : string) : option jobject := if bool_decide (s = "{}") then Some demo_answer else None.

Definition short_fmt (v : jvalue) : string := match v with JStr s => gasTruncate s 100 | _ => "x" end.

Lemma short_fmt_length e : zlen (short_fmt e) ≤ 1024 * 1024.
Proof. destruct e as [|b|n|s|l|l]; cbn [short_fmt]; [done|done|done|pose proof (zlen_truncate s 100); lia|done|done]. Qed.

Lemma breaker_open_witness :
  let r' := snd (resetH2 Z.of_nat newGASRelay) in
  0 + 2 * second ≤ 0 + backoff 1 ≤ 0 + 30 * second ∧
  (1 < 0 + backoff 1 → fst (h2Request Z.of_nat (λ _ _, None) "/p" r') = None ∧ posts (snd (h2Request Z.of_nat (λ _ _, None) "/p" r')) = []) ∧
  (0 + backoff 1 ≤ 1 → 0 + backoff 1 ≤ 2 → posts (snd (h2Request Z.of_nat (λ _ _, None) "/p" r')) = [(H2, "/p")]).
Proof. apply (breaker_open Z.of_nat (λ _ _, None) "/p" newGASRelay). done. Defined.

Lemma relaySingle_bounded_witness :
  let single := relaySingle ["s1"; "s2"] false Z.of_nat (λ _ _, Some (Some "oops")) (λ _ _, Some "{}") (λ _, 1%nat) (λ _, None)
    demo_unmarshal demo_fmt 1000 "http://x/" newGASRelay in
  ∃ sent, posts (snd single) = sent ++ [] ∧ (length sent <= 4)%nat ∧ Forall (λ vp, known ["s1"; "s2"] (snd vp)) sent ∧
    ∀ resp, fst single = Some resp → HasPrefix resp "HTTP/1.1 " = true.
Proof.
  apply (relaySingle_bounded ["s1"; "s2"] false Z.of_nat (λ _ _, Some (Some "oops")) (λ _ _, Some "{}") (λ _, 1%nat) (λ _, None)
    demo_unmarshal demo_fmt 1000 ltac:(vm_compute; discriminate) "http://x/" newGASRelay).
Defined.

Lemma relayChunked_never_witness :
  fst (relayChunked ["s1"; "s2"] false Z.of_nat (λ _ _, Some (Some "{}")) (λ _ _, Some "{}") (λ _, 1%nat) (λ _, None)
    demo_unmarshal short_fmt (200 * 1024 * 1024) "http://x/a.iso" ∅ newGASRelay) = Ok None.
Proof.
  apply (relayChunked_never ["s1"; "s2"] false Z.of_nat (λ _ _, Some (Some "{}")) (λ _ _, Some "{}") (λ _, 1%nat) (λ _, None)
    demo_unmarshal short_fmt (200 * 1024 * 1024)).
  - vm_compute. discriminate.
  - vm_compute. discriminate.
  - unfold demo_unmarshal. intros text data. case_bool_decide; [|done]. intros [= <-]. repeat constructor; done.
  - unfold demo_unmarshal. intros text data decoded. case_bool_decide; [|done]. intros [= <-].
    assert (E : object_body demo_answer = Some (Stdlib.Strings.String.list_byte_of_string "hello")) by (vm_compute; reflexivity).
    rewrite E. intros [= <-]. vm_compute. discriminate.
  - apply short_fmt_length.
Defined.
