(* ===== verification/GasBatch.v ===== *)
(** Batching and coalescing of requests in [proxy/gas_relay.go]: [batchSubmit] and
    its timer, [flushBatch], [relayBatch], [restart], and [tryCoalesce].

    Each critical section of [batchMu] and of [coalesceMu] is one step; requests are
    numbered, and a request waits until its channel holds an answer.  A timer that
    has fired can no longer be stopped: its callback waits for the mutex.  Flushes
    run in goroutines of their own, in any order, and a panic in one of them ends
    the program. *)

From coqutil Require Import Datatypes.RecordSetters.
From S2P Require Import Prelude GoStrings GoText GasCache GasHTTP GasRelay.
Import DoubleBraceUpdate.

Open Scope nat_scope.

Definition gasBatchMax : nat := 50.

(** * Relaying a batch *)

Section relay.
Context (scriptIDs : list string) (devAvail : bool) (clock : nat → Z).
Context (h2_do : nat → string → option (option string)) (h1_relay : nat → string → option string).
Context (hash0 : string → nat) (parse_url : string → option (string * string)).
Context (Unmarshal : string → option jobject) (fmt_v : jvalue → string) (maxRespBody : Z) (err_text : string).

Notation parse_batch := (parseBatchBody Unmarshal fmt_v maxRespBody).

(** [relayBatch] of the URLs of the payloads; [payloads[0]] exists. *)
Definition relayBatch (urls : list string) : M (outcome (list string)) :=
  let n := length urls in
  let by_h1 path :=
    bind (relayHTTP1 h1_relay path) (λ resp,
      ret match resp with None => Err err_text | Some resp => parse_batch resp n end) in
  bind (execPath scriptIDs devAvail clock hash0 parse_url (hd "" urls)) (λ path,
  bind (h2Request clock h2_do path) (λ body,
    match body with
    | None => by_h1 path
    | Some body =>
        match parse_batch body n with
        | Err _ =>
            bind (retryWithNextScript scriptIDs path) (λ path,
            bind (h2Request clock h2_do path) (λ body,
              match body with
              | Some body => ret (parse_batch body n)
              | None => by_h1 path
              end))
        | results => ret results
        end
    end)).

(** The answers put into the channels, and whether the goroutine panicked. *)
Definition flushBatch (batch : list (nat * string)) : M (list (nat * string) * bool) :=
  match batch with
  | [(id, url)] =>
      bind (relaySingle scriptIDs devAvail clock h2_do h1_relay hash0 parse_url Unmarshal fmt_v maxRespBody url) (λ resp,
        ret ([(id, default (gasErrorResponse 502 err_text) resp)], false))
  | _ =>
      bind (relayBatch (snd <$> batch)) (λ results,
        ret match results with
            | Ok results => (zip (fst <$> batch) results, (length results <? length batch))
            | Err e => ((λ item, (fst item, gasErrorResponse 502 e)) <$> batch, false)
            | Panic => ([], true)
            end)
  end.
End relay.

(** What a flush may do to the channels of its batch: answer each request, or answer
    the first of them and panic. *)
Inductive delivery (ids : list nat) : list (nat * string) → bool → Prop :=
  | delivery_all out : fst <$> out = ids → delivery ids out false
  | delivery_panic out : (∃ rest, ids = (fst <$> out) ++ rest ∧ rest ≠ []) → delivery ids out true.

(** * The queue *)

Record queue := mkQueue {
  batchPending : list nat;
  batchTimer : option nat;                  (** the timer the field points to *)
  armed : gset nat;                         (** timers that have neither fired nor been stopped *)
  callbacks : nat;                          (** fired callbacks that wait for the mutex *)
  next_timer : nat;
  flushing : list (list nat);               (** batches handed to a goroutine *)
  answers : gmap nat string;                (** what the channels hold *)
  submitted : list nat;
  dropped : list nat;                       (** requests a restart has thrown away *)
  crashed : bool;
}.

Definition empty_queue : queue := mkQueue [] None ∅ 0 0 [] ∅ [] [] false.

(** [r.batchTimer.Stop(); r.batchTimer = nil] *)
Definition stop_timer (q : queue) : queue :=
  match batchTimer q with
  | Some t => q {{ armed ::= λ a, a ∖ {[t]}; batchTimer := None }}
  | None => q
  end.

Definition batchSubmit (id : nat) (q : queue) : queue :=
  let q := q {{ batchPending ::= λ l, l ++ [id]; submitted ::= λ l, l ++ [id] }} in
  if gasBatchMax <=? length (batchPending q) then
    let pending := batchPending q in
    (stop_timer (q {{ batchPending := [] }})) {{ flushing ::= λ l, l ++ [pending] }}
  else
    match batchTimer q with
    | Some _ => q
    | None => q {{ batchTimer := Some (next_timer q); armed ::= λ a, {[next_timer q]} ∪ a; next_timer ::= S }}
    end.

Definition fire (t : nat) (q : queue) : queue := q {{ armed ::= λ a, a ∖ {[t]}; callbacks ::= S }}.

(** The function given to [time.AfterFunc]. *)
Definition callback (q : queue) : queue :=
  let pending := batchPending q in
  let q := q {{ batchPending := []; batchTimer := None; callbacks ::= pred }} in
  if (0 <? length pending) then q {{ flushing ::= λ l, l ++ [pending] }} else q.

(** Answers go into the channels. *)
Definition deliver (out : list (nat * string)) (m : gmap nat string) : gmap nat string :=
  foldl (λ m ir, <[fst ir := snd ir]> m) m out.

Definition flushed (i : nat) (out : list (nat * string)) (panicked : bool) (q : queue) : queue :=
  q {{ flushing ::= delete i; answers ::= deliver out; crashed := crashed q || panicked }}.

Definition restart (q : queue) : queue :=
  stop_timer (q {{ dropped ::= λ l, l ++ batchPending q; batchPending := [] }}).

(** A crash ends the program. *)
Inductive step : queue → queue → Prop :=
  | step_submit id q : crashed q = false → id ∉ submitted q → step q (batchSubmit id q)
  | step_fire t q : crashed q = false → t ∈ armed q → step q (fire t q)
  | step_callback q : crashed q = false → 0 < callbacks q → step q (callback q)
  | step_flush i batch out panicked q :
      crashed q = false → flushing q !! i = Some batch → delivery batch out panicked → step q (flushed i out panicked q)
  | step_restart q : crashed q = false → step q (restart q).

Definition reachable (q : queue) : Prop := rtc step empty_queue q.

(** * The invariant *)

Definition answered (q : queue) : list nat := fst <$> map_to_list (answers q).

(** Every request is in one place, once. *)
Definition placed (q : queue) : Prop :=
  NoDup (submitted q) ∧ submitted q ≡ₚ batchPending q ++ mjoin (flushing q) ++ dropped q ++ answered q.

Definition batches_ok (q : queue) : Prop :=
  length (batchPending q) < gasBatchMax ∧ Forall (λ b, 0 < length b <= gasBatchMax) (flushing q).

(** A queue that is not empty will be flushed: its timer runs or has fired. *)
Definition timer_ok (q : queue) : Prop :=
  (batchPending q ≠ [] → batchTimer q ≠ None) ∧
  (∀ t, batchTimer q = Some t → t ∈ armed q ∨ 0 < callbacks q).

Record queue_ok (q : queue) : Prop := {
  qo_placed : placed q;
  qo_batches : batches_ok q;
  qo_timer : timer_ok q;
}.

(** Changes to fields the predicates do not read. *)
Lemma placed_ext q q' :
  submitted q' = submitted q → batchPending q' = batchPending q → flushing q' = flushing q →
  dropped q' = dropped q → answers q' = answers q → placed q → placed q'.
Proof. unfold placed, answered. by intros -> -> -> -> ->. Qed.

Lemma stop_timer_fields q :
  batchPending (stop_timer q) = batchPending q ∧ flushing (stop_timer q) = flushing q ∧
  submitted (stop_timer q) = submitted q ∧ dropped (stop_timer q) = dropped q ∧
  answers (stop_timer q) = answers q ∧ crashed (stop_timer q) = crashed q ∧ batchTimer (stop_timer q) = None.
Proof. unfold stop_timer. destruct (batchTimer q) eqn:E; by split_and!. Qed.

Lemma deliver_answered out : ∀ m,
  NoDup (fst <$> out) → (∀ i, i ∈ fst <$> out → m !! i = None) →
  fst <$> map_to_list (deliver out m) ≡ₚ (fst <$> out) ++ (fst <$> map_to_list m).
Proof.
  induction out as [|[i resp] out IH]; intros m Hnd Hm; [done|]. cbn [fmap list_fmap fst] in *.
  apply list.NoDup_cons in Hnd as [Hi Hnd]. unfold deliver in *. cbn [foldl fst snd]. rewrite IH; [|done|].
  - rewrite map_to_list_insert by (apply Hm; left). cbn. rewrite <- Permutation_middle. done.
  - intros j Hj. rewrite lookup_insert_ne by (intros ->; done). apply Hm. by right.
Qed.

Lemma answered_None q i : i ∉ answered q ↔ answers q !! i = None.
Proof.
  unfold answered. rewrite list_elem_of_fmap. split.
  - intros H. apply eq_None_not_Some. intros [r Hr]. apply H. exists (i, r). by split; [|apply elem_of_map_to_list].
  - intros H ([j r] & -> & Hr%elem_of_map_to_list). simpl in H. congruence.
Qed.

(** * Each step keeps it *)

Lemma submit_fields id q :
  let q' := batchSubmit id q in
  submitted q' = submitted q ++ [id] ∧ dropped q' = dropped q ∧ answers q' = answers q ∧ crashed q' = crashed q ∧
  ((gasBatchMax ≤ length (batchPending q ++ [id]) ∧ batchPending q' = [] ∧ batchTimer q' = None ∧
      flushing q' = flushing q ++ [batchPending q ++ [id]]) ∨
   (length (batchPending q ++ [id]) < gasBatchMax ∧ batchPending q' = batchPending q ++ [id] ∧ flushing q' = flushing q ∧
      ((is_Some (batchTimer q) ∧ batchTimer q' = batchTimer q ∧ armed q' = armed q ∧ callbacks q' = callbacks q) ∨
       ∃ t, batchTimer q' = Some t ∧ t ∈ armed q'))).
Proof.
  destruct q as [p tm ar cb nt fl an su dr cr]. unfold batchSubmit. cbn -[gasBatchMax].
  destruct (Nat.leb_spec gasBatchMax (length (p ++ [id]))) as [Hfull|Hroom].
  - unfold stop_timer. destruct tm; cbn; split_and!; try done; left; by split_and!.
  - destruct tm as [t|]; cbn; split_and!; try done; right; split_and!; try done.
    + left. by split_and!.
    + right. exists nt. split; [done|set_solver].
Qed.

Lemma submit_ok id q : queue_ok q → id ∉ submitted q → queue_ok (batchSubmit id q).
Proof.
  intros [[Hnd Hp] [Hlen Hb] [Ht1 Ht2]] Hid. destruct (submit_fields id q) as (Hs & Hd & Ha & Hc & Hcase).
  assert (Hnd' : NoDup (submitted q ++ [id])).
  { apply list.NoDup_app. split_and!; [done| |apply NoDup_singleton]. by intros x Hx ->%list_elem_of_singleton. }
  assert (Hpl : placed (batchSubmit id q)).
  { unfold placed, answered. rewrite Hs, Hd, Ha. split; [done|]. fold (answered q). rewrite Hp.
    destruct Hcase as [(_ & -> & _ & ->)|(_ & -> & -> & _)].
    - rewrite join_app. simpl. rewrite app_nil_r. solve_Permutation.
    - solve_Permutation. }
  split; [exact Hpl|..].
  - destruct Hcase as [(Hfull & Hp' & _ & Hf)|(Hroom & Hp' & Hf & _)]; unfold batches_ok; rewrite Hp', Hf; [|done].
    split; [unfold gasBatchMax; simpl; lia|]. apply Forall_app. split; [done|]. apply list.Forall_singleton.
    rewrite length_app in *. simpl in *. lia.
  - destruct Hcase as [(_ & Hp' & Ht & _)|(_ & Hp' & _ & Hcase)]; unfold timer_ok; rewrite Hp'; [by rewrite Ht|].
    destruct Hcase as [([t Hs'] & -> & -> & ->)|(t & -> & Hin)].
    + split; [by rewrite Hs'|exact Ht2].
    + split; [done|]. intros t' [= <-]. by left.
Qed.

Lemma fire_ok t q : queue_ok q → queue_ok (fire t q).
Proof. intros [Hp Hb [Ht1 Ht2]]. split; [exact Hp|exact Hb|]. split; [exact Ht1|]. intros t' Ht'. right. simpl. lia. Qed.

Lemma callback_ok q : queue_ok q → queue_ok (callback q).
Proof.
  intros [[Hnd Hp] [Hlen Hb] _]. unfold callback. destruct (Nat.ltb_spec 0 (length (batchPending q))) as [Hne|He].
  - split; [split; [exact Hnd|]|split; [simpl; unfold gasBatchMax; lia|]|by split].
    + change (submitted q ≡ₚ [] ++ mjoin (flushing q ++ [batchPending q]) ++ dropped q ++ answered q).
      rewrite Hp, join_app. simpl. rewrite app_nil_r. solve_Permutation.
    + apply Forall_app. split; [exact Hb|]. apply list.Forall_singleton. lia.
  - split; [split; [exact Hnd|]|split; [simpl; unfold gasBatchMax; lia|exact Hb]|by split].
    change (submitted q ≡ₚ [] ++ mjoin (flushing q) ++ dropped q ++ answered q). rewrite Hp.
    by destruct (batchPending q); [|simpl in He; lia].
Qed.

Lemma restart_ok q : queue_ok q → queue_ok (restart q).
Proof.
  intros [[Hnd Hp] [Hlen Hb] _]. destruct q as [p tm ar cb nt fl an su dr cr]. unfold restart, stop_timer. cbn in *. split.
  - destruct tm; (split; [exact Hnd|]); cbn in *; unfold answered in *; cbn in *; rewrite Hp; solve_Permutation.
  - destruct tm; (split; cbn; [unfold gasBatchMax; lia|done]).
  - destruct tm; by split.
Qed.

Lemma flush_ok i batch out q :
  queue_ok q → flushing q !! i = Some batch → fst <$> out = batch → queue_ok (flushed i out false q).
Proof.
  intros [[Hnd Hp] [Hlen Hb] Ht] Hi Ho. destruct q as [p tm ar cb nt fl an su dr cr]. unfold flushed. cbn in *.
  assert (Hfl : mjoin fl ≡ₚ batch ++ mjoin (delete i fl)) by (rewrite (delete_Permutation fl i batch Hi) at 1; done).
  assert (Hperm : su ≡ₚ p ++ (batch ++ mjoin (delete i fl)) ++ dr ++ (fst <$> map_to_list an)) by (rewrite Hp, Hfl; done).
  assert (Hnd' := Hnd). rewrite Hperm in Hnd'. split.
  - split; [exact Hnd|]. unfold answered. cbn. rewrite deliver_answered; [rewrite Ho, Hperm; solve_Permutation| |].
    + rewrite Ho. apply list.NoDup_app in Hnd' as (_ & _ & Hnd'). by apply list.NoDup_app in Hnd' as [[? _]%list.NoDup_app _].
    + intros j Hj. rewrite Ho in Hj. apply list.NoDup_app in Hnd' as (_ & _ & Hnd').
      apply list.NoDup_app in Hnd' as (_ & Hdis & _). apply eq_None_not_Some. intros [r Hr].
      apply (Hdis j); [apply elem_of_app; by left|]. apply elem_of_app. right. apply list_elem_of_fmap.
      exists (j, r). by split; [|apply elem_of_map_to_list].
  - split; [done|]. cbn. by apply list.Forall_delete.
  - exact Ht.
Qed.

Lemma empty_ok : queue_ok empty_queue.
Proof. split; [split; [constructor|done]|split; [simpl; unfold gasBatchMax; lia|constructor]|by split]. Qed.

Lemma step_ok q q' : step q q' → queue_ok q → crashed q' = false → queue_ok q'.
Proof.
  intros [id q0 _ Hid|t q0 _ Ht|q0 _ Hc|i batch out panicked q0 _ Hi Hd|q0 _] Hok Hcr.
  - by apply submit_ok.
  - by apply fire_ok.
  - by apply callback_ok.
  - destruct Hd as [out Ho|out Ho]; [by eapply flush_ok|]. unfold flushed in Hcr. simpl in Hcr. by rewrite orb_true_r in Hcr.
  - by apply restart_ok.
Qed.

Lemma steps_ok q q' : rtc step q q' → queue_ok q → crashed q' = false → queue_ok q'.
Proof.
  intros H Hok. revert q' H. apply (rtc_ind_r (λ q', crashed q' = false → queue_ok q') q); [done|].
  intros q1 q2 _ Hs IH Hc. eapply step_ok; [exact Hs| |exact Hc]. apply IH. by inversion Hs.
Qed.

(** C10: Under any interleaving of submissions, timers, flushes and restarts every
    request is in exactly one place (queued, in one batch, answered or dropped by a
    restart) and is answered at most once; a batch has 1 to [gasBatchMax] requests,
    and a queue that is not empty has a timer running or a callback on its way. *)
Theorem batch_invariant q : reachable q → crashed q = false → queue_ok q.
Proof. intros H. exact (steps_ok _ _ H empty_ok). Qed.

(** * Progress *)

(** The steps that need no client and no restart. *)
Inductive internal : queue → queue → Prop :=
  | internal_fire t q : t ∈ armed q → internal q (fire t q)
  | internal_callback q : 0 < callbacks q → internal q (callback q)
  | internal_flush i batch out q :
      flushing q !! i = Some batch → fst <$> out = batch → internal q (flushed i out false q).

Lemma internal_keeps q q' : internal q q' → submitted q' = submitted q ∧ dropped q' = dropped q ∧ crashed q' = crashed q.
Proof.
  intros [t q0 _|q0 _|i batch out q0 _ _]; [done| |].
  - unfold callback. by destruct (_ <? _).
  - split_and!; [done|done|]. unfold flushed. simpl. by rewrite orb_false_r.
Qed.

Lemma internal_step q q' : internal q q' → crashed q = false → step q q'.
Proof.
  intros [t q0 Ht|q0 Hc|i batch out q0 Hi Ho] Hcr; [by apply step_fire|by apply step_callback|].
  eapply step_flush; [done|exact Hi|by apply delivery_all].
Qed.

Lemma internals_keep q q' : rtc internal q q' →
  submitted q' = submitted q ∧ dropped q' = dropped q ∧ crashed q' = crashed q ∧ (crashed q = false → rtc step q q').
Proof.
  induction 1 as [q|q q1 q2 Hi _ (Hs & Hd & Hc & Hr)]; [by split_and!|].
  destruct (internal_keeps _ _ Hi) as (Hs1 & Hd1 & Hc1). split_and!; [congruence..|].
  intros Hcr. eapply rtc_l; [by apply internal_step|]. apply Hr. congruence.
Qed.

(** The timer empties the queue. *)
Lemma empties q : timer_ok q → ∃ q', rtc internal q q' ∧ batchPending q' = [].
Proof.
  intros [H1 H2]. destruct (batchPending q) as [|id p] eqn:Hp; [by exists q|].
  assert (Hcb : ∀ q0, 0 < callbacks q0 → ∃ q', rtc internal q0 q' ∧ batchPending q' = []).
  { intros q0 H. exists (callback q0). split; [by apply rtc_once, internal_callback|]. unfold callback. by destruct (_ <? _). }
  destruct (batchTimer q) as [t|]; [|by destruct H1]. destruct (H2 t eq_refl) as [Ht|Ht]; [|by apply Hcb].
  destruct (Hcb (fire t q)) as (q' & Hr & He); [simpl; lia|]. exists q'. split; [|done].
  eapply rtc_l; [by apply internal_fire|done].
Qed.

(** The goroutines answer the batches. *)
Lemma drains n : ∀ q, length (flushing q) = n → batchPending q = [] →
  ∃ q', rtc internal q q' ∧ batchPending q' = [] ∧ flushing q' = [].
Proof.
  induction n as [|n IH]; intros q Hn Hp; [exists q; split_and!; [done|done|by apply nil_length_inv]|].
  destruct (flushing q) as [|batch fl] eqn:Hf; [done|].
  set (out := (λ id, (id, "")) <$> batch).
  destruct (IH (flushed 0 out false q)) as (q' & Hr & Hp' & Hf').
  - change (length (delete 0 (flushing q)) = n). rewrite Hf. simpl in *. lia.
  - exact Hp.
  - exists q'. split_and!; [|done..]. eapply rtc_l; [|exact Hr]. apply (internal_flush 0 batch); [by rewrite Hf|].
    unfold out. rewrite <- list_fmap_compose. apply list_fmap_id.
Qed.

(** No request waits for ever: from every state the timer and the flushes alone
    lead to one in which each submitted request has its answer, unless a restart has
    dropped it. *)
Theorem batch_progress q :
  reachable q → crashed q = false →
  ∃ q', rtc internal q q' ∧ submitted q' = submitted q ∧
    ∀ id, id ∈ submitted q → id ∈ dropped q ∨ is_Some (answers q' !! id).
Proof.
  intros Hr Hc. assert (Hok := steps_ok _ _ Hr empty_ok Hc).
  destruct (empties q (qo_timer _ Hok)) as (q1 & H1 & Hp1).
  destruct (drains _ q1 eq_refl Hp1) as (q2 & H2 & Hp2 & Hf2).
  assert (H12 : rtc internal q q2) by by etrans. destruct (internals_keep _ _ H12) as (Hs & Hd & Hc2 & Hst).
  exists q2. split_and!; [done|done|]. intros id Hid.
  assert (Hok2 : queue_ok q2) by (eapply steps_ok; [by apply Hst|done|congruence]).
  destruct (qo_placed _ Hok2) as [_ Hperm]. rewrite Hp2, Hf2, Hs, Hd in Hperm. rewrite Hperm in Hid. simpl in Hid.
  apply elem_of_app in Hid as [Hid|Hid]; [by left|right]. apply not_eq_None_Some. intros Hn. by apply answered_None in Hn.
Qed.

(** * Requests a restart drops *)

Lemma dropped_stays q q' : rtc step q q' → ∀ id, id ∈ dropped q → id ∈ dropped q'.
Proof.
  induction 1 as [q|q q1 q2 Hs _ IH]; [done|]. intros id Hid. apply IH. clear IH.
  destruct Hs as [id' q _ _|t q _ _|q _ _|i batch out panicked q _ _ _|q _]; try exact Hid.
  - by destruct (submit_fields id' q) as (_ & -> & _).
  - unfold callback. by destruct (_ <? _).
  - unfold restart. destruct (stop_timer_fields (q {{ dropped ::= λ l, l ++ batchPending q; batchPending := [] }})) as (_ & _ & _ & Hd & _).
    rewrite Hd. apply elem_of_app. by left.
Qed.

(** A restart of the relay loses the queued requests: nothing that happens
    afterwards answers them, and their goroutines wait for ever. *)
Theorem restart_strands q q' id :
  reachable q → crashed q = false → id ∈ batchPending q → rtc step (restart q) q' → crashed q' = false →
  answers q' !! id = None.
Proof.
  intros Hr Hc Hid Hs Hc'. assert (Hok := steps_ok _ _ Hr empty_ok Hc).
  assert (Hdrop : id ∈ dropped q').
  { eapply dropped_stays; [exact Hs|]. unfold restart.
    destruct (stop_timer_fields (q {{ dropped ::= λ l, l ++ batchPending q; batchPending := [] }})) as (_ & _ & _ & Hd & _).
    rewrite Hd. apply elem_of_app. by right. }
  assert (Hok' : queue_ok q') by (eapply steps_ok; [exact Hs|by apply restart_ok|done]).
  destruct (qo_placed _ Hok') as [Hnd Hperm]. rewrite Hperm in Hnd. apply answered_None. intros Ha.
  apply list.NoDup_app in Hnd as (_ & _ & Hnd). apply list.NoDup_app in Hnd as (_ & _ & Hnd).
  apply list.NoDup_app in Hnd as (_ & Hdis & _). by apply (Hdis id).
Qed.

(** * A flush *)

Section flush.
Context (scriptIDs : list string) (devAvail : bool) (clock : nat → Z).
Context (h2_do : nat → string → option (option string)) (h1_relay : nat → string → option string).
Context (hash0 : string → nat) (parse_url : string → option (string * string)).
Context (Unmarshal : string → option jobject) (fmt_v : jvalue → string) (maxRespBody : Z) (err_text : string).

Notation parse_batch := (parseBatchBody Unmarshal fmt_v maxRespBody).
Notation relay_batch := (relayBatch scriptIDs devAvail clock h2_do h1_relay hash0 parse_url Unmarshal fmt_v maxRespBody err_text).
Notation flush := (flushBatch scriptIDs devAvail clock h2_do h1_relay hash0 parse_url Unmarshal fmt_v maxRespBody err_text).

Definition is_object (v : jvalue) : bool := match v with JObj _ => true | _ => false end.

Lemma batch_answers_length items : ∀ rs,
  batch_answers fmt_v maxRespBody items = Ok rs → length rs = length (List.filter is_object items).
Proof.
  induction items as [|[|b|n|s|l|data] items IH]; intros rs; cbn [batch_answers]; try exact (IH rs); [by intros [= <-]|].
  intros H. ok_inv. simpl. f_equal. by apply IH.
Qed.

Lemma length_filter_le {A} (p : A → bool) l : length (List.filter p l) <= length l.
Proof. induction l as [|x l IH]; simpl; [done|]. destruct (p x); simpl; lia. Qed.

Lemma length_filter_lt {A} (p : A → bool) l : (∃ x, x ∈ l ∧ p x = false) → length (List.filter p l) < length l.
Proof.
  intros (x & Hx & Hp). induction l as [|y l IH]; [by apply not_elem_of_nil in Hx|]. simpl.
  apply elem_of_cons in Hx as [<-|Hx]; [rewrite Hp; pose proof (length_filter_le p l); lia|].
  specialize (IH Hx). destruct (p y); simpl; lia.
Qed.

Lemma parse_batch_length body n rs : parse_batch body n = Ok rs → length rs <= n.
Proof.
  unfold parseBatchBody. destruct (gasLooksLikeHTMLError body); [done|]. destruct (Unmarshal _) as [data|]; [|done].
  destruct (member "e" data); [done|]. destruct (member "q" data) as [[|b|k|s|arr|o]|]; try done.
  destruct (Nat.eqb_spec (length arr) n) as [<-|]; [|done]. intros ->%batch_answers_length. apply length_filter_le.
Qed.

(** The result of a batch is what some body was parsed to, or an error. *)
Lemma relayBatch_length urls r rs : fst (relay_batch urls r) = Ok rs → length rs <= length urls.
Proof.
  unfold relayBatch, bind, relayHTTP1, log_post, ret.
  destruct (execPath _ _ _ _ _ _ r) as [path r1]. destruct (h2Request _ _ path r1) as [[body|] r2].
  - destruct (parse_batch body (length urls)) as [results|e|] eqn:E; simpl; [intros [= <-]; by eapply parse_batch_length| |done].
    destruct (retryWithNextScript _ _ r2) as [path2 r3]. destruct (h2Request _ _ path2 r3) as [[body2|] r4]; simpl; [apply parse_batch_length|].
    destruct (h1_relay _ _); [apply parse_batch_length|done].
  - simpl. destruct (h1_relay _ _); [apply parse_batch_length|done].
Qed.

Lemma fst_zip_prefix {A B} (l : list A) (k : list B) : length k <= length l → fst <$> zip l k = take (length k) l.
Proof.
  revert k. induction l as [|x l IH]; intros [|y k] H; simpl in *; try done. f_equal. apply IH. lia.
Qed.

(** C26: A flush does what the queue assumes of it: it puts one answer into the
    channel of each request of its batch, in their order, and nowhere else; or it
    answers the first of them and panics. *)
Theorem flushBatch_refines batch r :
  batch ≠ [] → let '(out, panicked) := fst (flush batch r) in delivery (fst <$> batch) out panicked.
Proof.
  intros Hne. unfold flushBatch. destruct batch as [|[id url] [|item rest]] eqn:Hb; [done| |].
  - unfold bind, ret. destruct (relaySingle _ _ _ _ _ _ _ _ _ _ url r) as [resp r1]. simpl. by apply delivery_all.
  - rewrite <- Hb. assert (Hlen : length (snd <$> batch) = length batch) by apply length_fmap.
    unfold bind, ret. assert (Hl := relayBatch_length (snd <$> batch) r). rewrite Hlen in Hl.
    destruct (relay_batch (snd <$> batch) r) as [[results|e|] r1]; simpl in Hl |- *.
    + specialize (Hl results eq_refl).
      assert (Hz : fst <$> zip (fst <$> batch) results = take (length results) (fst <$> batch)) by (apply fst_zip_prefix; by rewrite length_fmap).
      destruct (Nat.ltb_spec (length results) (length batch)).
      * apply delivery_panic. exists (drop (length results) (fst <$> batch)). rewrite Hz, take_drop. split; [done|].
        intros Hd%(f_equal length). rewrite length_drop, length_fmap in Hd. simpl in Hd. lia.
      * apply delivery_all. rewrite Hz, take_ge; [done|]. rewrite length_fmap. lia.
    + apply delivery_all. by rewrite <- list_fmap_compose.
    + apply delivery_panic. exists (fst <$> batch). split; [done|]. by rewrite Hb.
Qed.

Lemma parse_batch_null body data items n :
  gasLooksLikeHTMLError body = false → Unmarshal (TrimSpace body) = Some data → member "e" data = None →
  member "q" data = Some (JArr items) → length items = n → (∃ v, v ∈ items ∧ is_object v = false) →
  (maxRespBody ≤ max_int64)%Z →
  ∃ rs, parse_batch body n = Ok rs ∧ length rs < n.
Proof.
  intros Hh Hu He Hq <- Hv Hcap. unfold parseBatchBody. rewrite Hh, Hu, He, Hq, Nat.eqb_refl.
  assert (Ht : ∀ l, ∃ rs, batch_answers fmt_v maxRespBody l = Ok rs).
  { induction l as [|[|b|k|s|arr|o] l [rs IH]]; cbn [batch_answers]; try (by eexists).
    destruct (parseRelayJSON_total fmt_v maxRespBody Hcap o) as (resp & -> & _). rewrite IH. by eexists. }
  destruct (Ht items) as [rs Hrs]. exists rs. split; [done|]. rewrite (batch_answers_length _ _ Hrs). by apply length_filter_lt.
Qed.

Lemma script_loop_client key k : ∀ r, h2Client (snd (script_loop scriptIDs clock hash0 k key r)) = h2Client r.
Proof.
  induction k as [|k IH]; intros r; cbn [script_loop]; [done|]. unfold bind. destruct (negb (nonempty key)); cbn [sidBlacklist].
  all: destruct (_ !! _) as [expiry|]; [|done]; unfold now; destruct (expiry <? _)%Z; [done|]; by rewrite IH.
Qed.

Lemma exec_client url r : h2Client (snd (execPath scriptIDs devAvail clock hash0 parse_url url r)) = h2Client r.
Proof.
  unfold execPath, bind, scriptIDForKey. destruct scriptIDs as [|sid [|sid' ids]] eqn:E; [done|done|]. rewrite <- E.
  assert (H := script_loop_client (gasHostKey parse_url url) (length scriptIDs) r). by destruct (script_loop _ _ _ _ _ r).
Qed.

(** When the script answers a batch of several requests with an array of the
    right length in which one item is not an object, the goroutine that flushes the
    batch indexes past the results and panics, which ends the program. *)
Theorem null_item_crashes batch body data items r :
  1 < length batch → h2Client r = true → (∀ n path, h2_do n path = Some (Some body)) →
  gasLooksLikeHTMLError body = false → Unmarshal (TrimSpace body) = Some data → member "e" data = None →
  member "q" data = Some (JArr items) → length items = length batch → (∃ v, v ∈ items ∧ is_object v = false) →
  (maxRespBody ≤ max_int64)%Z →
  snd (fst (flush batch r)) = true.
Proof.
  intros Hlen Hcli Hdo Hh Hu He Hq Hn Hv Hcap.
  destruct (parse_batch_null body data items (length batch)) as (rs & Hrs & Hlt); [done..|].
  unfold flushBatch. destruct batch as [|[id url] [|item rest]] eqn:Hb; [simpl in Hlen; lia..|]. rewrite <- Hb in *.
  unfold relayBatch, bind, ret. rewrite length_fmap.
  assert (Hx : ∀ path r', h2Client r' = true → fst (h2Request clock h2_do path r') = Some body).
  { clear -Hdo. intros path r' H. unfold h2Request, bind, h2BackoffLeft, now, ensureH2, log_post.
    destruct r' as [idx bl cli fc bu rc bw ll la ps tk po]. cbn in *. subst cli. cbn. by rewrite Hdo. }
  destruct (execPath _ _ _ _ _ _ r) as [path r1] eqn:Ee.
  assert (Hc1 : h2Client r1 = true) by (rewrite <- Hcli, <- (exec_client (hd "" (snd <$> batch)) r), Ee; done).
  specialize (Hx path r1 Hc1). destruct (h2Request clock h2_do path r1) as [body' r2]. simpl in Hx. subst body'.
  rewrite Hrs. simpl. by apply Nat.ltb_lt.
Qed.
End flush.

(** * Coalescing *)

Record flights := mkFlights {
  coalesce : gmap string (list nat);    (** the channels waiting for a key's leader *)
  leading : gmap nat string;            (** the leaders and their keys *)
  asked : gmap nat string;              (** the key of every request *)
  channels : gmap nat string;           (** what the requests were given *)
}.

Definition no_flights : flights := mkFlights ∅ ∅ ∅ ∅.

(** The first critical section of [tryCoalesce]. *)
Definition join (id : nat) (key : string) (f : flights) : flights :=
  match coalesce f !! key with
  | Some waiters => f {{ coalesce ::= <[key := waiters ++ [id]]>; asked ::= <[id := key]> }}
  | None => f {{ coalesce ::= <[key := []]>; leading ::= <[id := key]>; asked ::= <[id := key]> }}
  end.

(** The leader is back from [batchSubmit]: the second critical section and the sends. *)
Definition finish (id : nat) (key resp : string) (f : flights) : flights :=
  let waiters := default [] (coalesce f !! key) in
  f {{ coalesce ::= delete key; leading ::= delete id; channels ::= deliver ((λ w, (w, resp)) <$> id :: waiters) }}.

Inductive flight_step : flights → flights → Prop :=
  | flight_join id key f : asked f !! id = None → flight_step f (join id key f)
  | flight_finish id key resp f : leading f !! id = Some key → flight_step f (finish id key resp f).

Record flights_ok (f : flights) : Prop := {
  fo_leads : ∀ id key, leading f !! id = Some key → asked f !! id = Some key ∧ is_Some (coalesce f !! key);
  fo_one : ∀ id id' key, leading f !! id = Some key → leading f !! id' = Some key → id = id';
  fo_led : ∀ key, is_Some (coalesce f !! key) → ∃ id, leading f !! id = Some key;
  fo_waits : ∀ id key ws, coalesce f !! key = Some ws → id ∈ ws → asked f !! id = Some key;
  fo_state : ∀ id key, asked f !! id = Some key →
    leading f !! id = Some key ∨ (∃ ws, coalesce f !! key = Some ws ∧ id ∈ ws) ∨ is_Some (channels f !! id);
}.

Lemma join_waiter_ok id key ws f :
  flights_ok f → asked f !! id = None → coalesce f !! key = Some ws → flights_ok (join id key f).
Proof.
  intros [H1 H2 H3 H4 H5] Hid Hk. unfold join. rewrite Hk. split; simpl.
  - intros i k [Ha Hs]%H1. split; [rewrite lookup_insert_ne by (intros ->; congruence); done|].
    destruct (decide (k = key)) as [->|]; [rewrite lookup_insert_eq; by eexists|by rewrite lookup_insert_ne].
  - exact H2.
  - intros k Hs. apply H3. destruct (decide (k = key)) as [->|]; [by eexists|by rewrite lookup_insert_ne in Hs].
  - intros i k ws'. destruct (decide (k = key)) as [->|Hne].
    + rewrite lookup_insert_eq. intros [= <-] [Hi|Hi]%elem_of_app.
      * rewrite lookup_insert_ne; [by eapply H4|]. intros <-. assert (asked f !! id = Some key) by (by eapply H4). congruence.
      * apply list_elem_of_singleton in Hi as ->. by rewrite lookup_insert_eq.
    + rewrite lookup_insert_ne by done. intros Hws Hi. assert (Ha : asked f !! i = Some k) by (by eapply H4).
      rewrite lookup_insert_ne; [done|]. intros <-. congruence.
  - intros i k. destruct (decide (i = id)) as [->|Hne].
    + rewrite lookup_insert_eq. intros [= <-]. right. left. exists (ws ++ [id]). rewrite lookup_insert_eq. split; [done|set_solver].
    + rewrite lookup_insert_ne by done. intros [?|[(ws' & Hws & Hi)|?]]%H5; [by left| |by right; right].
      right. left. destruct (decide (k = key)) as [->|]; [|exists ws'; by rewrite lookup_insert_ne].
      exists (ws ++ [id]). rewrite lookup_insert_eq. split; [done|]. assert (ws' = ws) as -> by congruence. set_solver.
Qed.

Lemma join_leader_ok id key f :
  flights_ok f → asked f !! id = None → coalesce f !! key = None → flights_ok (join id key f).
Proof.
  intros [H1 H2 H3 H4 H5] Hid Hk. unfold join. rewrite Hk.
  assert (Hl : ∀ k, leading f !! id ≠ Some k) by (intros k [Hl _]%H1; congruence). split; simpl.
  - intros i k. destruct (decide (i = id)) as [->|Hne].
    + rewrite !lookup_insert_eq. intros [= <-]. split; [done|]. rewrite lookup_insert_eq. by eexists.
    + rewrite !lookup_insert_ne by done. intros [Ha Hs]%H1. split; [done|].
      destruct (decide (k = key)) as [->|]; [rewrite lookup_insert_eq; by eexists|by rewrite lookup_insert_ne].
  - intros i i' k. destruct (decide (i = id)) as [->|Hne], (decide (i' = id)) as [->|Hne']; [done| | |];
      rewrite ?lookup_insert_eq, ?lookup_insert_ne by done.
    + intros [= <-] [_ [ws Hws]]%H1. congruence.
    + intros [_ [ws Hws]]%H1 [= <-]. congruence.
    + apply H2.
  - intros k Hs. destruct (decide (k = key)) as [->|Hne]; [exists id; by rewrite lookup_insert_eq|].
    rewrite lookup_insert_ne in Hs by done. destruct (H3 k Hs) as [i Hi]. exists i. rewrite lookup_insert_ne; [done|]. intros <-. by apply (Hl k).
  - intros i k ws'. destruct (decide (k = key)) as [->|Hne]; [rewrite lookup_insert_eq; by intros [= <-] ?%not_elem_of_nil|].
    rewrite lookup_insert_ne by done. intros Hws Hi. assert (Ha : asked f !! i = Some k) by (by eapply H4).
    rewrite lookup_insert_ne; [done|]. intros <-. congruence.
  - intros i k. destruct (decide (i = id)) as [->|Hne]; [rewrite !lookup_insert_eq; intros [= <-]; by left|].
    rewrite !lookup_insert_ne by done. intros [?|[(ws' & Hws & Hi)|?]]%H5; [by left| |by right; right].
    right. left. exists ws'. rewrite lookup_insert_ne; [done|]. intros <-. congruence.
Qed.

Lemma join_ok id key f : flights_ok f → asked f !! id = None → flights_ok (join id key f).
Proof.
  intros Hok Hid. destruct (coalesce f !! key) as [ws|] eqn:Hk; [by eapply join_waiter_ok|by apply join_leader_ok].
Qed.

Lemma deliver_lookup resp ids : ∀ m i,
  deliver ((λ w, (w, resp)) <$> ids) m !! i = if decide (i ∈ ids) then Some resp else m !! i.
Proof.
  induction ids as [|j ids IH]; intros m i; [by rewrite decide_False by apply not_elem_of_nil|].
  cbn [fmap list_fmap]. unfold deliver in *. cbn [foldl fst snd]. rewrite IH.
  destruct (decide (i ∈ ids)); [by rewrite decide_True by by right|]. destruct (decide (i = j)) as [->|].
  - rewrite lookup_insert_eq, decide_True by left. done.
  - rewrite lookup_insert_ne, decide_False by set_solver. done.
Qed.

Lemma finish_channels id key resp f i :
  channels (finish id key resp f) !! i = if decide (i ∈ id :: default [] (coalesce f !! key)) then Some resp else channels f !! i.
Proof. exact (deliver_lookup resp (id :: default [] (coalesce f !! key)) (channels f) i). Qed.

Lemma finish_ok id key resp f : flights_ok f → leading f !! id = Some key → flights_ok (finish id key resp f).
Proof.
  intros [H1 H2 H3 H4 H5] Hid. destruct (H1 _ _ Hid) as [Ha [ws Hws]]. split; simpl.
  - intros i k [Hne Hi]%lookup_delete_Some. destruct (H1 _ _ Hi) as [? ?]. split; [done|].
    rewrite lookup_delete_ne; [done|]. intros <-. apply Hne. by eapply H2.
  - intros i i' k [_ Hi]%lookup_delete_Some [_ Hi']%lookup_delete_Some. by eapply H2.
  - intros k Hs. destruct (decide (k = key)) as [->|Hne]; [rewrite lookup_delete_eq in Hs; by destruct Hs|].
    rewrite lookup_delete_ne in Hs by done. destruct (H3 k Hs) as [i Hi]. exists i. rewrite lookup_delete_ne; [done|]. intros <-. congruence.
  - intros i k ws' [_ Hk]%lookup_delete_Some. by eapply H4.
  - intros i k Hk.
    enough (leading (finish id key resp f) !! i = Some k ∨ (∃ ws', coalesce (finish id key resp f) !! k = Some ws' ∧ i ∈ ws') ∨
      is_Some (channels (finish id key resp f) !! i)) by done.
    rewrite finish_channels, Hws. apply H5 in Hk as [Hl|[(ws' & Hk & Hi)|Hc]].
    + destruct (decide (i = id)) as [->|].
      * right. right. rewrite decide_True by left. by eexists.
      * left. change (delete id (leading f) !! i = Some k). by rewrite lookup_delete_ne.
    + destruct (decide (k = key)) as [->|].
      * right. right. rewrite decide_True; [by eexists|]. right. simpl. congruence.
      * right. left. exists ws'. change (delete key (coalesce f) !! k = Some ws' ∧ i ∈ ws'). by rewrite lookup_delete_ne.
    + right. right. destruct (decide _); [by eexists|done].
Qed.

Lemma flights_reachable f : rtc flight_step no_flights f → flights_ok f.
Proof.
  revert f. apply rtc_ind_r.
  - by split; simpl; [intros ?? []%lookup_empty_Some|intros ??? []%lookup_empty_Some|
      intros ? [? []%lookup_empty_Some]|intros ??? []%lookup_empty_Some|intros ?? []%lookup_empty_Some].
  - intros f f' _ [id key f0 Hid|id key resp f0 Hid] Hok; [by apply join_ok|by apply finish_ok].
Qed.

(** Coalescing loses nobody: every request that joined leads the flight of its
    key, waits on one that has exactly one leader, or has an answer; and when the
    leader comes back, it and everyone waiting for its key get its response, and
    nobody else's channel changes. *)
Theorem coalesce_shares f :
  rtc flight_step no_flights f →
  (∀ id key, asked f !! id = Some key →
     leading f !! id = Some key ∨
     (∃ ws leader, coalesce f !! key = Some ws ∧ id ∈ ws ∧ leading f !! leader = Some key ∧
        ∀ other, leading f !! other = Some key → other = leader) ∨
     is_Some (channels f !! id)) ∧
  (∀ leader key resp id, leading f !! leader = Some key →
     channels (finish leader key resp f) !! id =
       if decide (id = leader ∨ id ∈ default [] (coalesce f !! key)) then Some resp else channels f !! id).
Proof.
  intros [H1 H2 H3 H4 H5]%flights_reachable. split.
  - intros id key [?|[(ws & Hws & Hi)|?]]%H5; [by left| |by right; right]. right. left.
    destruct (H3 key) as [leader Hl]; [by eexists|]. exists ws, leader. split_and!; [done..|]. intros other Ho. by eapply H2.
  - intros leader key resp id Hl. rewrite finish_channels.
    destruct (decide (id ∈ _)) as [Hin|Hin]; rewrite elem_of_cons in Hin; [by rewrite decide_True|by rewrite decide_False].
Qed.

(** * What the key of a flight leaves out *)

Section range.
Context `{HR : HeaderRange}.

(** No header is given twice in different case. *)
Definition distinct_names (h : gmap string string) : Prop :=
  ∀ k1 k2, is_Some (h !! k1) → is_Some (h !! k2) → ToLower k1 = ToLower k2 → k1 = k2.

Lemma headerValue_spec h name :
  distinct_names h →
  (∃ k v, h !! k = Some v ∧ ToLower k = name ∧ headerValue h name = v) ∨
  ((∀ k, is_Some (h !! k) → ToLower k ≠ name) ∧ headerValue h name = "").
Proof.
  intros Hd. unfold headerValue. destruct (List.find _ (header_range h)) as [[k v]|] eqn:E; simpl.
  - left. apply find_some in E as [Hin Hk]. apply bool_decide_eq_true in Hk.
    rewrite <- list_elem_of_In, header_range_perm in Hin. apply elem_of_map_to_list in Hin. by exists k, v.
  - right. split; [|done]. intros k [v Hv] Hk.
    assert (Hin : In (k, v) (header_range h)) by (rewrite <- list_elem_of_In, header_range_perm; by apply elem_of_map_to_list).
    apply (find_none _ _ E) in Hin. apply bool_decide_eq_false in Hin. by apply Hin.
Qed.

(** A header's value does not depend on the value of another header. *)
Lemma headerValue_insert h k v v' name :
  distinct_names (<[k := v]> h) → distinct_names (<[k := v']> h) → ToLower k ≠ name →
  headerValue (<[k := v]> h) name = headerValue (<[k := v']> h) name.
Proof.
  intros Hd Hd' Hk.
  assert (Hsame : ∀ j, ToLower j = name → (<[k := v]> h) !! j = (<[k := v']> h) !! j).
  { intros j Hj. rewrite !lookup_insert_ne by (intros <-; done). done. }
  destruct (headerValue_spec _ name Hd) as [(j & w & Hj & Hn & ->)|[Hnone ->]];
    destruct (headerValue_spec _ name Hd') as [(j' & w' & Hj' & Hn' & ->)|[Hnone' ->]]; try done.
  - rewrite <- Hsame in Hj' by done. assert (j = j') as -> by (eapply Hd; [by eexists|by eexists|congruence]). congruence.
  - exfalso. apply (Hnone' j); [rewrite <- Hsame by done; by eexists|done].
  - exfalso. apply (Hnone j'); [rewrite Hsame by done; by eexists|done].
Qed.

(** Two requests for different byte ranges of one URL that share a flight (GET
    requests with several scripts are coalesced whatever their Range header) get
    the same bytes: the key of a flight leaves the range out. *)
Theorem ranges_share_answers url h v v' resp id id' f :
  distinct_names (<["Range" := v]> h) → distinct_names (<["Range" := v']> h) →
  coalesce f !! coalesceKey url (<["Range" := v]> h) = None → id ≠ id' →
  let key := coalesceKey url (<["Range" := v]> h) in
  let key' := coalesceKey url (<["Range" := v']> h) in
  channels (finish id key resp (join id' key' (join id key f))) !! id' = Some resp.
Proof.
  intros Hd Hd' Hnone Hne key key'. assert (Hk : key' = key).
  { unfold key', key, coalesceKey. cbn [omap list_omap].
    repeat match goal with |- context [headerValue (<["Range" := v']> h) ?n] =>
      rewrite <- (headerValue_insert h "Range" v v' n) by (try done; vm_compute; discriminate) end. done. }
  rewrite Hk. fold key in Hnone.
  assert (Hj : coalesce (join id' key (join id key f)) !! key = Some [id']).
  { unfold join at 2. rewrite Hnone. unfold join.
    change (coalesce (f {{ coalesce ::= <[key := []]>; leading ::= <[id := key]>; asked ::= <[id := key]> }}))
      with (<[key := []]> (coalesce f)). rewrite lookup_insert_eq. simpl. by rewrite lookup_insert_eq. }
  rewrite finish_channels, Hj, decide_True; [done|]. simpl. set_solver.
Qed.
End range.

(** * Witnesses *)

Definition demo_queue : queue := batchSubmit 2 (batchSubmit 1 empty_queue).

Lemma demo_queue_reachable : reachable demo_queue.
Proof.
  eapply rtc_l; [apply (step_submit 1); [done|apply not_elem_of_nil]|].
  eapply rtc_l; [apply (step_submit 2); [done|]|apply rtc_refl]. apply not_elem_of_cons. split; [done|apply not_elem_of_nil].
Qed.

Lemma batch_invariant_witness : queue_ok demo_queue.
Proof. apply (batch_invariant demo_queue); [apply demo_queue_reachable|reflexivity]. Defined.

Lemma batch_progress_witness :
  ∃ q', rtc internal demo_queue q' ∧ submitted q' = [1; 2] ∧ ∀ id, id ∈ [1; 2] → id ∈ [] ∨ is_Some (answers q' !! id).
Proof. apply (batch_progress demo_queue); [apply demo_queue_reachable|reflexivity]. Defined.

Lemma restart_strands_witness : answers (restart demo_queue) !! 1 = None.
Proof.
  apply (restart_strands demo_queue (restart demo_queue) 1); [apply demo_queue_reachable|reflexivity|left|apply rtc_refl|reflexivity].
Defined.

Definition demo_batch : list (nat * string) := [(1, "http://a/"); (2, "http://b/")].
Definition demo_results : jobject := [("q", JArr [JObj [("b", JStr "eA==")]; JNull])].
Definition demo_relay : gasRelay := newGASRelay {{ h2Client := true }}.

Notation demo_flush :=
  (flushBatch ["s1"; "s2"] false Z.of_nat (λ _ _, Some (Some "{}")) (λ _ _, None) (λ _, 1) (λ _, None)
    (λ _, Some demo_results) demo_fmt 1000 "no answer").

Lemma flushBatch_refines_witness :
  let '(out, panicked) := fst (demo_flush demo_batch demo_relay) in delivery [1; 2] out panicked.
Proof.
  apply (flushBatch_refines ["s1"; "s2"] false Z.of_nat (λ _ _, Some (Some "{}")) (λ _ _, None) (λ _, 1) (λ _, None)
    (λ _, Some demo_results) demo_fmt 1000 "no answer" demo_batch). discriminate.
Defined.

Lemma null_item_crashes_witness : snd (fst (demo_flush demo_batch demo_relay)) = true.
Proof.
  apply (null_item_crashes ["s1"; "s2"] false Z.of_nat (λ _ _, Some (Some "{}")) (λ _ _, None) (λ _, 1) (λ _, None)
    (λ _, Some demo_results) demo_fmt 1000 "no answer" demo_batch "{}" demo_results [JObj [("b", JStr "eA==")]; JNull]);
    try reflexivity; [simpl; lia|exists JNull; split; [right; left|reflexivity]|vm_compute; discriminate].
Defined.

Lemma coalesce_shares_witness :
  (∀ id key, asked (join 1 "k" no_flights) !! id = Some key →
     leading (join 1 "k" no_flights) !! id = Some key ∨
     (∃ ws leader, coalesce (join 1 "k" no_flights) !! key = Some ws ∧ id ∈ ws ∧ leading (join 1 "k" no_flights) !! leader = Some key ∧
        ∀ other, leading (join 1 "k" no_flights) !! other = Some key → other = leader) ∨
     is_Some (channels (join 1 "k" no_flights) !! id)) ∧
  (∀ leader key resp id, leading (join 1 "k" no_flights) !! leader = Some key →
     channels (finish leader key resp (join 1 "k" no_flights)) !! id =
       if decide (id = leader ∨ id ∈ default [] (coalesce (join 1 "k" no_flights) !! key)) then Some resp
       else channels (join 1 "k" no_flights) !! id).
Proof. apply (coalesce_shares (join 1 "k" no_flights)). apply rtc_once, flight_join. reflexivity. Defined.

Lemma distinct_one v : distinct_names (<["Range" := v]> ∅).
Proof.
  intros k1 k2 [v1 [[<- _]|[_ H]]%lookup_insert_Some] [v2 [[<- _]|[_ H']]%lookup_insert_Some] _; [done|..]; by rewrite lookup_empty in *.
Qed.

Lemma ranges_share_answers_witness :
  let key := coalesceKey "http://a/" (<["Range" := "bytes=0-9"]> ∅) in
  let key' := coalesceKey "http://a/" (<["Range" := "bytes=10-19"]> ∅) in
  channels (finish 1 key "first ten" (join 2 key' (join 1 key no_flights))) !! 2 = Some "first ten".
Proof.
  apply (ranges_share_answers "http://a/" ∅ "bytes=0-9" "bytes=10-19" "first ten" 1 2 no_flights);
    [apply distinct_one|apply distinct_one|apply lookup_empty|discriminate].
Defined.
