(* ===== verification/GasProxy.v ===== *)
(** The relay's own HTTP front end in [proxy/gas_relay.go]: [handleHTTP],
    [handleCONNECT], [relayHTTPOverTLS] and the per-host certificates of
    [gasMITMManager].

    A client connection is the string of the bytes it sends; a handler gives the list
    of what it does.  [ahead] bytes behind a request's head may already be in the
    reader's buffer, and what is copied to another connection afterwards does not
    contain them.  The relay (GasRelay, GasBatch) is an argument. *)

From coqutil Require Import Datatypes.RecordSetters.
From S2P Require Import Prelude GoStrings GoText GasCache GasHTTP.
Import DoubleBraceUpdate.

Open Scope Z_scope.

(** * Certificates *)

(** [ca] is the authority of the struct, a certificate is the authority that signed
    it and the domain it is for. *)
Record gasMITMManager := mkMITM { ca : nat; cache : gmap string (nat * string) }.

Definition newGASMITMManager (own : nat) : gasMITMManager := mkMITM own ∅.

Definition useCA (external : nat) (m : gasMITMManager) : gasMITMManager := m {{ ca := external; cache := ∅ }}.

(** [sign_ok]: creating the certificate and reading it back succeed. *)
Definition getCert (sign_ok : bool) (domain : string) (m : gasMITMManager) : option (nat * string) * gasMITMManager :=
  match cache m !! domain with
  | Some cert => (Some cert, m)
  | None => if sign_ok then (Some (ca m, domain), m {{ cache ::= <[domain := (ca m, domain)]> }}) else (None, m)
  end.

(** * The handlers *)

Inductive event :=
  | Wrote (s : string)
  | Relayed (method url : string) (headers : gmap string string) (body : string)
  | RawTCP (host : string) (port : Z) (forwarded : string)    (** what the target gets from the client *)
  | TLSServer (cert : nat * string).

Definition is_blank (ln : string) : bool := bool_decide (ln = CRLF) || bool_decide (ln = String LF "").

Definition too_long (total : Z) : bool := 65536 <? total.

Section server.
Context `{HR : HeaderRange}.
Context (relay : string → string → gmap string string → string → string).   (** [relayRequest] *)
Context (parse_url : string → option (string * string)).
Context (ahead : nat).

(** The end shared by the two kinds of requests. *)
Definition answer (method url : string) (headers : gmap string string) (body : string) : list event :=
  let origin := headerValue headers "origin" in
  let acrMethod := headerValue headers "access-control-request-method" in
  let acrHeaders := headerValue headers "access-control-request-headers" in
  if bool_decide (ToUpper method = "OPTIONS") && nonempty acrMethod then
    [Wrote (gasCORSPreflight origin acrMethod acrHeaders)]
  else
    let response := relay method url headers body in
    [Relayed method url headers body; Wrote (if nonempty origin then gasInjectCORS response origin else response)].

(** The loop of [relayHTTPOverTLS]; each round takes a line at least. *)
Fixpoint tls_loop (fuel : nat) (host : string) (port : Z) (s : string) : list event :=
  match fuel with
  | O => []
  | S fuel' =>
      match ReadLine s with
      | None => []
      | Some (line, s) =>
          if is_blank line then tls_loop fuel' host port s
          else
            match read_head is_blank too_long (zlen line) "" s with
            | Head lines rest =>
                let '(method, path) := gasParseRequestLine line in
                let '(body, rest) := gasReadBody rest (line :: lines) in
                answer method (gasNormalizeURL host port path) (gasParseHeaders lines) body ++ tls_loop fuel' host port rest
            | _ => []
            end
      end
  end.

Definition relayHTTPOverTLS (host : string) (port : Z) (s : string) : list event := tls_loop (S (slen s)) host port s.

Definition established : event := Wrote ("HTTP/1.1 200 Connection Established" +:+ CRLF +:+ CRLF).

(** [plaintext] is what the TLS handshake on the connection yields, [None] when it
    fails; a failed handshake has consumed the [hello] the client sent. *)
Definition handleCONNECT (sign_ok : bool) (plaintext : option string) (hello : nat) (target rest : string) (m : gasMITMManager)
    : list event * gasMITMManager :=
  let '(host, port) := gasSplitHostPort target 443 in
  let raw := str_drop ahead rest in
  if gasShouldDirectConnect host then ([established; RawTCP host port raw], m)
  else if port =? 443 then
    match getCert sign_ok host m with
    | (None, m) => ([Wrote ("HTTP/1.1 502 Bad Gateway" +:+ CRLF +:+ CRLF)], m)
    | (Some cert, m) =>
        (established :: TLSServer cert ::
           match plaintext with
           | None => [RawTCP host port (str_drop hello raw)]
           | Some s => relayHTTPOverTLS host port s
           end, m)
    end
  else ([established; RawTCP host port raw], m).

Definition bad_request : event := Wrote ("HTTP/1.1 400 Bad Request" +:+ CRLF +:+ CRLF).

Definition handleHTTP (sign_ok : bool) (plaintext : option string) (hello : nat) (s : string) (m : gasMITMManager)
    : list event * gasMITMManager :=
  match ReadLine s with
  | None => ([bad_request], m)
  | Some (line, s) =>
      match read_head is_blank too_long (zlen line) "" s with
      | HeadEOF => ([bad_request], m)
      | HeadTooLarge => ([Wrote ("HTTP/1.1 413 Request Entity Too Large" +:+ CRLF +:+ CRLF)], m)
      | Head lines rest =>
          match Split (TrimSpace line) " " with
          | word :: urlStr :: _ =>
              let method := ToUpper word in
              if bool_decide (method = "CONNECT") then handleCONNECT sign_ok plaintext hello urlStr rest m
              else
                let urlStr := if HasPrefix urlStr "http://" || HasPrefix urlStr "https://" then urlStr else "http://" +:+ urlStr in
                let host := gasExtractHost parse_url urlStr in
                if gasShouldDirectConnect host then ([RawTCP host 80 (str_drop ahead rest)], m)
                else
                  let '(body, _) := gasReadBody rest (line :: lines) in
                  (answer method urlStr (gasParseHeaders lines) body, m)
          | _ => ([bad_request], m)
          end
      end
  end.
End server.

(** * Reading requests back *)

Record request := mkRequest {
  rq_method : string;
  rq_path : string;
  rq_fields : list (string * string);
  rq_body : string;
}.

Definition request_line (r : request) : string := rq_method r +:+ " " +:+ rq_path r +:+ " HTTP/1.1".

Definition field_line (kv : string * string) : string := fst kv +:+ ": " +:+ snd kv.

Definition all_fields (r : request) : list (string * string) :=
  rq_fields r ++ (if nonempty (rq_body r) then [("Content-Length", Itoa (zlen (rq_body r)))] else []).

(** The text of a request. *)
Definition request_text (r : request) : string :=
  with_eol (request_line r :: (field_line <$> all_fields r)) +:+ CRLF +:+ rq_body r.

(** A text that trimming leaves alone. *)
Definition trimmed (s : string) : Prop := TrimSpace s = s.

Record request_ok (r : request) : Prop := {
  ro_method : plain (rq_method r) ∧ rq_method r ≠ "" ∧ contains_byte " " (rq_method r) = false ∧ contains_byte ":" (rq_method r) = false;
  ro_path : plain (rq_path r) ∧ contains_byte " " (rq_path r) = false;
  ro_line : trimmed (request_line r);
  ro_fields : Forall (λ kv, plain (fst kv) ∧ trimmed (fst kv) ∧ contains_byte ":" (fst kv) = false ∧ ToLower (fst kv) ≠ "content-length" ∧
                       plain (snd kv) ∧ trimmed (snd kv)) (rq_fields r);
  ro_head : zlen (with_eol (request_line r :: (field_line <$> all_fields r))) <= 65534;
  ro_body : zlen (rq_body r) ≤ 100 * 1024 * 1024;
}.

(** The header map of a request. *)
Definition header_map (r : request) : gmap string string :=
  foldl (λ h kv, <[fst kv := snd kv]> h) ∅ (all_fields r).

Lemma TrimSpace_space s : TrimSpace (" " +:+ s) = TrimSpace s.
Proof. done. Qed.

Lemma trim_right_CRLF p s : p CR = true → p LF = true → trim_right_by p (s +:+ CRLF) = trim_right_by p s.
Proof.
  intros Hr Hl. change CRLF with (String CR "" +:+ String LF ""). rewrite <- str_app_assoc. by rewrite !trim_right_space.
Qed.

Lemma TrimEOL_line l : plain l → TrimEOL (l +:+ CRLF) = l.
Proof.
  intros [Hc Hl]. unfold TrimEOL. rewrite trim_right_CRLF by done. apply trim_right_id. intros c Hd.
  unfold CRLF in Hd. rewrite !contains_byte_cons in Hd. apply orb_true_iff in Hd as [->%ceq_true|Hd]; [exact Hc|].
  apply orb_true_iff in Hd as [->%ceq_true|Hd]; [exact Hl|done].
Qed.

Lemma TrimSpace_CRLF s : trimmed s → TrimSpace (s +:+ CRLF) = s.
Proof.
  unfold trimmed, TrimSpace, trim_by. intros Ht. destruct s as [|c s]; [done|].
  destruct (is_space c) eqn:Hc.
  - assert (Hs := slen_trim_right is_space (trim_left_by is_space (String c s))). rewrite Ht in Hs.
    cbn [trim_left_by] in Hs. rewrite Hc in Hs. assert (Hs' := slen_trim_left is_space s). rewrite slen_cons in Hs. lia.
  - rewrite str_app_cons. cbn [trim_left_by] in *. rewrite Hc in *. rewrite <- str_app_cons, trim_right_CRLF by done. exact Ht.
Qed.

Lemma ReadLine_line l rest : plain l → ReadLine (l +:+ CRLF +:+ rest) = Some (l +:+ CRLF, rest).
Proof.
  intros [_ Hl]. unfold ReadLine.
  assert (E : l +:+ CRLF +:+ rest = (l +:+ String CR "") +:+ String LF rest) by (by rewrite str_app_assoc).
  rewrite E, index_byte_app_fresh; [|rewrite contains_byte_app, Hl; done].
  replace (S (slen (l +:+ String CR ""))) with (slen (l +:+ CRLF)) by (rewrite !slen_app; simpl; lia).
  rewrite <- E, <- str_app_assoc, str_take_app, str_drop_app. done.
Qed.

Lemma str_rev_app_app s : ∀ acc, str_rev_app s acc = str_rev_app s "" +:+ acc.
Proof.
  induction s as [|c s IH]; intros acc; [done|]. cbn [str_rev_app]. rewrite IH, (IH (String c "")), str_app_assoc. done.
Qed.

Lemma read_head_line stop over l rest : ∀ total cur,
  contains_byte LF l = false →
  read_head stop over total cur (l +:+ String LF rest) =
    (let line := str_rev_app cur (l +:+ String LF "") in
     let total := total + zlen line in
     if over total then HeadTooLarge else if stop line then Head [line] rest
     else match read_head stop over total "" rest with Head ls rest => Head (line :: ls) rest | h => h end).
Proof.
  induction l as [|c l IH]; intros total cur Hl; [done|]. rewrite contains_byte_cons in Hl. apply orb_false_iff in Hl as [Hc Hl].
  rewrite str_app_cons. cbn [read_head]. destruct (ceq c LF) eqn:E; [apply ceq_true in E as ->; by rewrite ceq_refl in Hc|].
  rewrite IH by done. done.
Qed.

Lemma is_blank_line l : plain l → l ≠ "" → is_blank (l +:+ CRLF) = false.
Proof.
  intros Hp Hn. destruct l as [|c l]; [done|]. apply plain_cons in Hp as (Hc & Hf & _). unfold is_blank. rewrite str_app_cons.
  apply orb_false_iff. split; apply bool_decide_eq_false; [intros [= H _]; by apply Hc|intros [= H _]; by apply Hf].
Qed.

Lemma read_head_lines lines rest : ∀ total,
  head_ok lines → 0 ≤ total → total + zlen (with_eol lines) + 2 ≤ 65536 →
  read_head is_blank too_long total "" (with_eol lines +:+ CRLF +:+ rest) = Head (((λ l, l +:+ CRLF) <$> lines) ++ [CRLF]) rest.
Proof.
  induction lines as [|l lines IH]; intros total Hok H0 Ht.
  - unfold zlen in Ht. simpl in Ht. change (with_eol [] +:+ CRLF +:+ rest) with (String CR "" +:+ String LF rest).
    rewrite read_head_line by done. cbv zeta. change (str_rev_app "" (String CR "" +:+ String LF "")) with CRLF.
    change (zlen CRLF) with 2. unfold too_long. destruct (Z.ltb_spec 65536 (total + 2)); [lia|done].
  - apply list.Forall_cons in Hok as [[Hp Hn] Hok]. rewrite with_eol_cons in Ht |- *.
    assert (Hz : zlen (l +:+ CRLF +:+ with_eol lines) = zlen l + 2 + zlen (with_eol lines)).
    { unfold zlen. rewrite !slen_app. simpl. lia. }
    pose proof (zlen_nonneg (with_eol lines)). pose proof (zlen_nonneg l).
    replace ((l +:+ CRLF +:+ with_eol lines) +:+ CRLF +:+ rest) with ((l +:+ String CR "") +:+ String LF (with_eol lines +:+ CRLF +:+ rest))
      by (by rewrite !str_app_assoc).
    rewrite read_head_line by (rewrite contains_byte_app; destruct Hp as [_ ->]; done). cbv zeta.
    replace (str_rev_app "" ((l +:+ String CR "") +:+ String LF "")) with (l +:+ CRLF) by (cbn [str_rev_app]; by rewrite str_app_assoc).
    assert (Hz' : zlen (l +:+ CRLF) = zlen l + 2) by (unfold zlen; rewrite slen_app; simpl; lia).
    unfold too_long. rewrite Hz'. destruct (Z.ltb_spec 65536 (total + (zlen l + 2))); [lia|].
    rewrite is_blank_line by done. fold too_long. change (λ total0, 65536 <? total0) with too_long.
    rewrite IH; [done|done|lia|lia].
Qed.

(** A header line that reads back as its name and value. *)
Definition field_reads (kv : string * string) : Prop :=
  plain (fst kv) ∧ trimmed (fst kv) ∧ contains_byte ":" (fst kv) = false ∧ plain (snd kv) ∧ trimmed (snd kv).

Lemma field_line_ok kv : field_reads kv → plain (field_line kv) ∧ field_line kv ≠ "".
Proof.
  intros (Hk & _ & _ & Hv & _). unfold field_line. split; [|by destruct (fst kv)]. apply plain_app. split; [done|]. by apply plain_app.
Qed.

Lemma parse_header_line h kv : field_reads kv → parse_header h (field_line kv +:+ CRLF) = <[fst kv := snd kv]> h.
Proof.
  intros Hkv. destruct (field_line_ok kv Hkv) as [Hp Hn]. destruct Hkv as (_ & Hk & Hc & _ & Hv).
  unfold parse_header. rewrite TrimEOL_line by done. unfold nonempty. rewrite bool_decide_false by done. cbn [negb].
  unfold Cut, field_line. change (": " +:+ snd kv) with (String ":" (" " +:+ snd kv)).
  rewrite index_byte_app_fresh by done. rewrite str_take_app.
  replace (str_drop (S (slen (fst kv))) (fst kv +:+ String ":" (" " +:+ snd kv))) with (" " +:+ snd kv).
  - by rewrite TrimSpace_space, Hk, Hv.
  - change (String ":" (" " +:+ snd kv)) with (":" +:+ " " +:+ snd kv). rewrite <- str_app_assoc.
    replace (S (slen (fst kv))) with (slen (fst kv +:+ ":")) by (rewrite slen_app; simpl; lia). by rewrite str_drop_app.
Qed.

Lemma parse_headers_lines kvs : ∀ h, Forall field_reads kvs →
  foldl parse_header h (((λ l, l +:+ CRLF) <$> (field_line <$> kvs)) ++ [CRLF]) = foldl (λ h kv, <[fst kv := snd kv]> h) h kvs.
Proof.
  induction kvs as [|kv kvs IH]; intros h Hok; [done|]. apply list.Forall_cons in Hok as [Hkv Hok].
  cbn [fmap list_fmap app foldl]. rewrite parse_header_line by done. by apply IH.
Qed.

Lemma prefix_space m t name :
  contains_byte ":" m = false → contains_byte " " name = false →
  HasPrefix (ToLower (m +:+ " " +:+ t)) (name +:+ ":") = false.
Proof.
  rewrite ToLower_app. intros Hm. assert (Hm' : contains_byte ":" (ToLower m) = false).
  { rewrite contains_byte_ToLower; [done|]. intros c. by destruct c as [[] [] [] [] [] [] [] []]. }
  revert name. induction (ToLower m) as [|c m' IH]; intros [|d name] Hn; try done.
  - unfold HasPrefix. rewrite str_app_cons, str_app_empty, ToLower_app. rewrite contains_byte_cons in Hn.
    apply orb_false_iff in Hn as [Hd _]. apply prefix_ne. intros E. change (" "%char = d) in E. by rewrite <- E, ceq_refl in Hd.
  - rewrite contains_byte_cons in Hm'. apply orb_false_iff in Hm' as [Hc _]. unfold HasPrefix. rewrite !str_app_cons, str_app_empty.
    apply prefix_ne. intros ->. by rewrite ceq_refl in Hc.
  - unfold HasPrefix in *. rewrite !str_app_cons, is_prefix_cons. rewrite contains_byte_cons in Hm', Hn.
    apply orb_false_iff in Hm' as [_ Hm'], Hn as [_ Hn]. rewrite IH by done. apply andb_false_r.
Qed.

Lemma ToLower_fresh s : (∀ c, is_upper c = true → contains_byte c s = false) → ToLower s = s.
Proof.
  induction s as [|c s IH]; intros H; [done|]. cbn [ToLower]. f_equal.
  - unfold lower_byte. destruct (is_upper c) eqn:Hc; [|done]. apply H in Hc. by rewrite contains_byte_cons, ceq_refl in Hc.
  - apply IH. intros d Hd. apply H in Hd. rewrite contains_byte_cons in Hd. by apply orb_false_iff in Hd as [_ ?].
Qed.

Lemma ToLower_Itoa n : ToLower (Itoa n) = Itoa n.
Proof.
  apply ToLower_fresh. intros c Hc. apply Itoa_fresh; [|by intros ->].
  destruct c as [[] [] [] [] [] [] [] []]; first [done|discriminate Hc].
Qed.

Lemma declared_skip lines rest : ∀ cl,
  Forall (λ l, HasPrefix (ToLower l) "content-length:" = false) lines →
  declared_length cl (lines ++ rest) = declared_length cl rest.
Proof. intros cl H. induction H as [|l lines Hl _ IH]; [done|]. cbn [app declared_length]. by rewrite Hl. Qed.

Lemma declared_line cl n rest :
  0 ≤ n ≤ max_int64 → declared_length cl ((field_line ("Content-Length", Itoa n) +:+ CRLF) :: rest) = declared_length n rest.
Proof.
  intros Hn. cbn [declared_length]. unfold field_line. cbn [fst snd].
  assert (E : ToLower (("Content-Length" +:+ ": " +:+ Itoa n) +:+ CRLF) = "content-length:" +:+ " " +:+ ToLower (Itoa n +:+ CRLF)).
  { rewrite !str_app_assoc. by rewrite !(ToLower_app _ (_ +:+ _)). }
  rewrite E. replace (HasPrefix _ _) with true by (symmetry; apply HasPrefix_spec; by eexists).
  rewrite TrimPrefix_app, TrimSpace_space, ToLower_app. change (ToLower CRLF) with CRLF.
  rewrite ToLower_Itoa, TrimSpace_CRLF by apply TrimSpace_Itoa. rewrite ParseInt_Itoa by done. simpl.
  destruct (Z.ltb_spec n 0); [lia|done].
Qed.

Lemma length_field_reads n : field_reads ("Content-Length", Itoa n).
Proof.
  split_and!; try done; [apply plain_Itoa|apply TrimSpace_Itoa].
Qed.

Lemma all_fields_read r : request_ok r → Forall field_reads (all_fields r).
Proof.
  intros H. unfold all_fields. apply Forall_app. split.
  - eapply list.Forall_impl; [apply (ro_fields r H)|]. intros kv (? & ? & ? & ? & ? & ?). by split_and!.
  - destruct (nonempty (rq_body r)); [|constructor]. apply list.Forall_singleton, length_field_reads.
Qed.

Lemma request_line_ok r : request_ok r → plain (request_line r) ∧ request_line r ≠ "".
Proof.
  intros [(Hm & Hn & _) (Hp & _) _ _ _ _]. unfold request_line. split; [|by destruct (rq_method r)].
  repeat (apply plain_app; split); done.
Qed.

Lemma request_head_ok r : request_ok r → head_ok (field_line <$> all_fields r).
Proof.
  intros H. apply list.Forall_forall. intros l (kv & -> & Hkv)%list_elem_of_fmap. apply field_line_ok.
  pose proof (all_fields_read r H) as Hr. by eapply list.Forall_forall in Hr.
Qed.

(** The lines of a request that say nothing about its length. *)
Lemma silent_lines r :
  request_ok r →
  Forall (λ l, HasPrefix (ToLower l) "content-length:" = false)
    ((request_line r +:+ CRLF) :: ((λ l, l +:+ CRLF) <$> (field_line <$> rq_fields r))).
Proof.
  intros H. constructor.
  - unfold request_line. rewrite !str_app_assoc. apply (prefix_space _ _ "content-length"); [apply H|done].
  - apply list.Forall_forall. intros l (l' & -> & (kv & -> & Hkv)%list_elem_of_fmap)%list_elem_of_fmap.
    pose proof (ro_fields r H) as Hf. rewrite list.Forall_forall in Hf. destruct (Hf kv Hkv) as (_ & _ & Hc & Hne & _).
    unfold field_line. rewrite !str_app_assoc. apply not_true_iff_false. intros Hp.
    by apply (prefix_colon (fst kv) (snd kv +:+ CRLF) "content-length") in Hp.
Qed.

Lemma read_body r rest :
  request_ok r →
  gasReadBody (rq_body r +:+ rest)
    ((request_line r +:+ CRLF) :: ((λ l, l +:+ CRLF) <$> (field_line <$> all_fields r)) ++ [CRLF]) = (rq_body r, rest).
Proof.
  intros H. unfold gasReadBody, all_fields. rewrite !fmap_app, <- app_assoc, app_comm_cons.
  rewrite declared_skip by by apply silent_lines. pose proof (ro_body r H) as Hb.
  destruct (nonempty (rq_body r)) eqn:Hne.
  - pose proof (zlen_nonneg (rq_body r)). cbn [fmap list_fmap app]. rewrite declared_line by (unfold max_int64; lia).
    change (declared_length (zlen (rq_body r)) [CRLF]) with (Some (zlen (rq_body r))).
    cbv iota. rewrite (proj2 (Z.ltb_ge (100 * 1024 * 1024) (zlen (rq_body r))) Hb).
    destruct (Z.eqb_spec (zlen (rq_body r)) 0) as [E|_].
    + destruct (rq_body r); [done|]. unfold zlen in E. rewrite slen_cons in E. lia.
    + destruct (Z.ltb_spec (zlen (rq_body r +:+ rest)) (zlen (rq_body r))); [unfold zlen in *; rewrite slen_app in *; lia|].
      unfold zlen. by rewrite Nat2Z.id, str_take_app, str_drop_app.
  - apply negb_false_iff, bool_decide_eq_true in Hne. by rewrite Hne, str_app_empty.
Qed.

Lemma parse_request_line r : request_ok r → gasParseRequestLine (request_line r +:+ CRLF) = (rq_method r, rq_path r) ∧
  ∃ ws, Split (TrimSpace (request_line r +:+ CRLF)) " " = rq_method r :: rq_path r :: ws.
Proof.
  intros [(_ & _ & Hm & _) (_ & Hp) Ht _ _ _]. unfold gasParseRequestLine. rewrite TrimSpace_CRLF by done. unfold request_line.
  change (" " +:+ rq_path r +:+ " HTTP/1.1") with (String " " (rq_path r +:+ String " " "HTTP/1.1")).
  rewrite Split_app, Split_app by done. split; [done|by eexists].
Qed.

Lemma request_text_split r rest :
  request_text r +:+ rest =
    request_line r +:+ CRLF +:+ (with_eol (field_line <$> all_fields r) +:+ CRLF +:+ (rq_body r +:+ rest)).
Proof. unfold request_text. by rewrite with_eol_cons, !str_app_assoc. Qed.

Lemma read_request_head r rest :
  request_ok r →
  ReadLine (request_text r +:+ rest) =
    Some (request_line r +:+ CRLF, with_eol (field_line <$> all_fields r) +:+ CRLF +:+ (rq_body r +:+ rest)) ∧
  read_head is_blank too_long (zlen (request_line r +:+ CRLF)) "" (with_eol (field_line <$> all_fields r) +:+ CRLF +:+ (rq_body r +:+ rest))
    = Head (((λ l, l +:+ CRLF) <$> (field_line <$> all_fields r)) ++ [CRLF]) (rq_body r +:+ rest).
Proof.
  intros H. destruct (request_line_ok r H) as [Hp _]. split; [by rewrite request_text_split, ReadLine_line|].
  apply read_head_lines; [by apply request_head_ok|apply zlen_nonneg|].
  pose proof (ro_head r H) as Hh. rewrite with_eol_cons in Hh. unfold zlen in *. rewrite !slen_app in Hh. rewrite slen_app. lia.
Qed.

Section served.
Context `{HR : HeaderRange}.
Context (relay : string → string → gmap string string → string → string) (parse_url : string → option (string * string)) (ahead : nat).

Notation serve host port r := (answer relay (rq_method r) (gasNormalizeURL host port (rq_path r)) (header_map r) (rq_body r)).

Lemma tls_request fuel host port r rest :
  request_ok r →
  tls_loop relay (S fuel) host port (request_text r +:+ rest) = serve host port r ++ tls_loop relay fuel host port rest.
Proof.
  intros H. destruct (request_line_ok r H) as [Hp Hn]. destruct (read_request_head r rest H) as [Hl Hh].
  cbn [tls_loop]. rewrite Hl, is_blank_line, Hh by done.
  destruct (parse_request_line r H) as [-> _]. rewrite read_body by done. unfold gasParseHeaders.
  by rewrite parse_headers_lines by by apply all_fields_read.
Qed.

Lemma tls_requests host port rs : ∀ fuel,
  Forall request_ok rs → (length rs < fuel)%nat →
  tls_loop relay fuel host port (foldr (λ r s, request_text r +:+ s) "" rs) = mjoin ((λ r, serve host port r) <$> rs).
Proof.
  induction rs as [|r rs IH]; intros [|fuel] Hok Hf; simpl in Hf; try lia; [done|].
  apply list.Forall_cons in Hok as [Hr Hok]. cbn [foldr]. rewrite tls_request by done. cbn [fmap list_fmap mjoin list_join].
  f_equal. apply IH; [done|lia].
Qed.

Lemma request_text_length r : (1 <= slen (request_text r))%nat.
Proof. unfold request_text. rewrite !slen_app. simpl. lia. Qed.

(** A sequence of requests sent down a TLS tunnel, with any headers and bodies,
    is read back request by request: the relay gets exactly the method, the URL, the
    headers and the body of each, in order, and CORS preflights are answered without
    the relay. *)
Theorem tunnel_reads_requests host port rs :
  Forall request_ok rs →
  relayHTTPOverTLS relay host port (foldr (λ r s, request_text r +:+ s) "" rs) = mjoin ((λ r, serve host port r) <$> rs).
Proof.
  intros Hok. apply tls_requests; [done|]. clear Hok. induction rs as [|r rs IH]; simpl; [lia|].
  pose proof (request_text_length r). rewrite slen_app. simpl in IH. lia.
Qed.

(** A plain HTTP request for a host that bypasses the relay is lost: the handler
    connects to the host, but what it copies there starts behind the request's head,
    and so behind everything the host was to answer. *)
Theorem bypass_loses_request r rest m sign_ok plaintext hello :
  request_ok r → ToUpper (rq_method r) ≠ "CONNECT" → HasPrefix (rq_path r) "http://" = true →
  gasShouldDirectConnect (gasExtractHost parse_url (rq_path r)) = true →
  handleHTTP relay parse_url ahead sign_ok plaintext hello (request_text r +:+ rest) m =
    ([RawTCP (gasExtractHost parse_url (rq_path r)) 80 (str_drop ahead (rq_body r +:+ rest))], m).
Proof.
  intros H Hm Hp Hd. destruct (read_request_head r rest H) as [Hl Hh]. destruct (parse_request_line r H) as [_ [ws Hs]].
  unfold handleHTTP. rewrite Hl, Hh, Hs. rewrite bool_decide_false by done. rewrite Hp. cbn [orb]. by rewrite Hd.
Qed.
End served.

(** * Certificates *)

Inductive mitm_step : gasMITMManager → gasMITMManager → Prop :=
  | mitm_use external m : mitm_step m (useCA external m)
  | mitm_get sign_ok domain m : mitm_step m (snd (getCert sign_ok domain m)).

(** Whatever certificates were requested and whenever the authority was replaced,
    a certificate handed out is for the requested domain and signed by the
    authority of the moment. *)
Theorem getCert_current own m sign_ok domain cert :
  rtc mitm_step (newGASMITMManager own) m → fst (getCert sign_ok domain m) = Some cert → cert = (ca m, domain).
Proof.
  intros Hr. assert (Hok : ∀ d c, cache m !! d = Some c → c = (ca m, d)).
  { revert m Hr. apply (rtc_ind_r (λ m, ∀ d c, cache m !! d = Some c → c = (ca m, d)) (newGASMITMManager own)); [intros d c Hc; by apply (lookup_empty_Some d c) in Hc|].
    intros m m' _ [external m0|ok d0 m0] IH d c; [intros Hc; by apply (lookup_empty_Some d c) in Hc|].
    unfold getCert. destruct (cache m0 !! d0) as [c0|] eqn:E; [apply IH|]. destruct ok; [|apply IH]. simpl.
    intros [[<- <-]|[_ Hc]]%lookup_insert_Some; [done|by apply IH]. }
  unfold getCert. destruct (cache m !! domain) as [c|] eqn:E; [intros [= <-]; by apply Hok|].
  destruct sign_ok; [by intros [= <-]|done].
Qed.

(** * Witnesses *)

Definition demo_relay (method url : string) (headers : gmap string string) (body : string) : string :=
  "HTTP/1.1 200 OK" +:+ CRLF +:+ CRLF +:+ method.

Definition demo_requests : list request :=
  [mkRequest "GET" "/a" [("Host", "x.example"); ("Origin", "https://y.example")] "";
   mkRequest "POST" "/b" [("Host", "x.example")] "hello"].

Definition bypassed : request := mkRequest "GET" "http://mail.google.com/" [("Host", "mail.google.com")] "".

Ltac solve_request_ok := constructor; [split_and!; done|split_and!; done|reflexivity|repeat constructor; done|vm_compute; discriminate|vm_compute; discriminate].

Lemma demo_requests_ok : Forall request_ok demo_requests.
Proof. constructor; [solve_request_ok|]. constructor; [solve_request_ok|constructor]. Qed.

Lemma bypassed_ok : request_ok bypassed.
Proof. solve_request_ok. Qed.

Lemma tunnel_reads_requests_witness :
  relayHTTPOverTLS demo_relay "x.example" 443 (foldr (λ r s, request_text r +:+ s) "" demo_requests) =
    mjoin ((λ r, answer demo_relay (rq_method r) (gasNormalizeURL "x.example" 443 (rq_path r)) (header_map r) (rq_body r)) <$> demo_requests).
Proof. apply (tunnel_reads_requests demo_relay "x.example" 443 demo_requests), demo_requests_ok. Defined.

Lemma bypass_loses_request_witness :
  handleHTTP demo_relay (λ _, Some ("mail.google.com", "/")) 0 true None 0 (request_text bypassed +:+ "") (newGASMITMManager 0) =
    ([RawTCP "mail.google.com" 80 ""], newGASMITMManager 0).
Proof.
  apply (bypass_loses_request demo_relay (λ _, Some ("mail.google.com", "/")) 0 bypassed "");
    [apply bypassed_ok|vm_compute; discriminate|reflexivity|vm_compute; reflexivity].
Defined.

Lemma getCert_current_witness :
  let m := useCA 7 (snd (getCert true "x.example" (newGASMITMManager 0))) in (7%nat, "x.example") = (ca m, "x.example").
Proof.
  apply (getCert_current 0 (useCA 7 (snd (getCert true "x.example" (newGASMITMManager 0)))) true); [|reflexivity].
  eapply rtc_l; [apply mitm_get|]. apply rtc_once, mitm_use.
Defined.
