(* ===== verification/Forward.v ===== *)
(** The ends of a CONNECT that need no upstream TLS, in [proxy/proxy.go]:
    [directConnect], [handleGASConnect], [handleV2RayConnect] and
    [handleGASRelayConnect] with its request loops.

    A connection is what its peer sends on it, a list of bytes; a handler gives the
    list of what it does with its connections.  Dials, the HTTP server's hijack and
    [http.ReadResponse] are an environment; [ahead] bytes behind a response's head
    may already be in the reader that parsed it. *)

From Stdlib Require Import Strings.Byte.
From S2P Require Import Prelude GoStrings GoNet GoBytes GoText Hosts Socks5 GasHTTP GasProxy.

Open Scope Z_scope.

(** * Environment and effects *)

Inductive upstream := Direct | Local.

Record tunnel_env := mkTunnelEnv {
  dial : string → option (list byte);              (** what the peer sends; [None] when the dial fails *)
  up_writes : nat → bool;                          (** the k-th write to the local proxy succeeds *)
  read_response : list byte → option (Z * list byte);   (** [http.ReadResponse]: the status and what follows the head *)
  ahead : nat;
  can_hijack : bool;                               (** the response writer is a [Hijacker] *)
  hijacks : bool;
  writes_ok : bool;                                (** "200 Connection Established" is written *)
  flushes : bool;
  client_buffered : list byte;                     (** in the HTTP server's reader at the hijack *)
  client_rest : list byte;
  up_first : bool;                                 (** of a tunnel's goroutines, the one that writes upstream ends first *)
  late : bool;                                     (** the other one is then still at work *)
}.

Inductive tunnel_event :=
  | TDial (u : upstream) (addr : string) (ok : bool)
  | TWrite (u : upstream) (data : list byte)
  | TError (code : Z)                              (** [http.Error] *)
  | THijack
  | TEstablished
  | TTunnel (u : upstream) (to_upstream to_client : list byte)   (** both goroutines copy until one of them ends *)
  | TLate                                          (** the other reads or writes what was closed, and ends *)
  | TServe (ev : GasProxy.event)                   (** through the relay *)
  | TCloseUp (u : upstream)
  | TPanic                                         (** the deferred closes run, and the HTTP server recovers *)
  | TCloseClient.

(** What is read from the hijacked connection. *)
Definition wrapHijackedConn (buffered rest : list byte) : list byte :=
  match buffered with [] => rest | _ => buffered ++ rest end.

Definition client_bytes (e : tunnel_env) : list byte := wrapHijackedConn (client_buffered e) (client_rest e).

Lemma wrapHijackedConn_app buffered rest : wrapHijackedConn buffered rest = buffered ++ rest.
Proof. by destruct buffered. Qed.

Definition bytes_of (s : string) : list byte := Stdlib.Strings.String.list_byte_of_string s.

Definition last_use (e : tunnel_env) : list tunnel_event := if late e then [TLate] else [].

(** * Direct *)

(** A goroutine closes what it wrote to. *)
Definition copy_direct (e : tunnel_env) (stream : list byte) : list tunnel_event :=
  TTunnel Direct (client_bytes e) stream ::
  (if up_first e then [TCloseUp Direct] ++ last_use e ++ [TCloseClient] else [TCloseClient] ++ last_use e ++ [TCloseUp Direct]).

(** Each failure path closes what is open. *)
Definition directConnect (e : tunnel_env) (targetAuthority : string) : list tunnel_event :=
  let targetAddr := ensureAddrWithPort targetAuthority "443" in
  match dial e targetAddr with
  | None => [TDial Direct targetAddr false; TError 502]
  | Some stream =>
      TDial Direct targetAddr true ::
      if negb (can_hijack e) then [TError 500; TCloseUp Direct]
      else if negb (hijacks e) then [TCloseUp Direct]
      else if negb (writes_ok e) then [THijack; TCloseClient; TCloseUp Direct]
      else if negb (flushes e) then [THijack; TCloseClient; TCloseUp Direct]
      else [THijack; TEstablished] ++ copy_direct e stream
  end.

(** The hijack and the copy loops of the two local proxies; [stream] is read from the
    proxy.  The goroutine that ends first closes both connections, the other may still be
    using them; then the deferred closes run. *)
Definition serve_local (e : tunnel_env) (stream : list byte) : list tunnel_event :=
  if negb (can_hijack e) then [TError 500]
  else if negb (hijacks e) then []
  else
    THijack ::
    (if negb (writes_ok e) then []
     else if negb (flushes e) then []
     else [TEstablished; TTunnel Local (client_bytes e) stream; TCloseClient; TCloseUp Local] ++ last_use e) ++ [TCloseClient].

(** All steps of the hijack succeed. *)
Definition client_ready (e : tunnel_env) : bool := can_hijack e && hijacks e && writes_ok e && flushes e.

Lemma serve_local_ready e stream : client_ready e = true →
  serve_local e stream =
    [THijack; TEstablished; TTunnel Local (client_buffered e ++ client_rest e) stream; TCloseClient; TCloseUp Local] ++ last_use e ++ [TCloseClient].
Proof.
  intros [[[Hc Hh]%andb_prop Hw]%andb_prop Hf]%andb_prop. unfold serve_local, client_bytes. rewrite Hc, Hh, Hw, Hf.
  by rewrite wrapHijackedConn_app.
Qed.

(** * Through the local GAS proxy *)

Definition connect_text (targetAuthority targetHost : string) : string :=
  "CONNECT " +:+ targetAuthority +:+ " HTTP/1.1" +:+ CRLF +:+ "Host: " +:+ targetHost +:+ CRLF +:+ CRLF.

(** The tunnel reads the connection, not the reader that parsed the response. *)
Definition handleGASConnect (e : tunnel_env) (gasAddr targetHost targetAuthority : string) : list tunnel_event :=
  if negb (nonempty gasAddr) then directConnect e targetAuthority
  else
    match dial e gasAddr with
    | None => TDial Local gasAddr false :: directConnect e targetAuthority
    | Some peer =>
        TDial Local gasAddr true ::
        (if negb (up_writes e 0) then [TError 502]
         else
           TWrite Local (bytes_of (connect_text targetAuthority targetHost)) ::
           match read_response e peer with
           | Some (status, rest) => if status =? 200 then serve_local e (drop (ahead e) rest) else [TError 502]
           | None => [TError 502]
           end) ++ [TCloseUp Local]
    end.

(** * Through the V2Ray core *)

Definition GetV2RayPort (v2rayPort : Z) : Z := if v2rayPort =? 0 then 11808 else v2rayPort.

(** The host and port of the SOCKS5 request. *)
Definition v2ray_target (targetHost targetAddr : string) : string * Z :=
  let '(host, port) := default ("", "") (SplitHostPort targetAddr) in
  let portInt := fst (ParseInt port) in
  (if nonempty host then host else targetHost, if portInt =? 0 then 443 else portInt).

(** [byte(port>>8), byte(port)] is [put16]; [None] when the name is too long. *)
Definition v2ray_command (host : string) (port : Z) : option (list byte) :=
  let cmd atyp addr := Some ([x05; x01; x00; atyp] ++ addr ++ put16 port) in
  match ParseIP host with
  | Some ip =>
      match To4 ip with
      | Some ip4 => cmd x01 (byte_of <$> ip4)
      | None => cmd x04 (byte_of <$> ip)
      end
  | None => if 255 <? zlen host then None else cmd x03 (byte_of (zlen host) :: bytes_of host)
  end.

(** [io.ReadFull] on a buffer of [n] bytes. *)
Definition read_full (n : nat) (s : list byte) : option (list byte * list byte) :=
  if (n <=? length s)%nat then Some (take n s, drop n s) else None.

(** The bound address behind the reply; its read errors are ignored. *)
Definition skip_bound (atyp : byte) (s : list byte) : list byte :=
  if bval atyp =? 1 then drop 6 s
  else if bval atyp =? 3 then match s with [] => [] | len :: s => drop (Z.to_nat (bval len) + 2) s end
  else if bval atyp =? 4 then drop 18 s
  else s.

Inductive core_answer := CoreFallback | CoreRejected | CoreConnected (rest : list byte).

(** The writes to the core and how the handshake ends; [core] is what the core sends. *)
Definition v2ray_handshake (writes : nat → bool) (host : string) (port : Z) (core : list byte)
    : list (list byte) * core_answer :=
  let greeting := [x05; x01; x00] in
  if negb (writes 0%nat) then ([], CoreFallback)
  else
    match read_full 2 core with
    | Some ([v; m], core) =>
        if negb (bval v =? 5) || negb (bval m =? 0) then ([greeting], CoreFallback)
        else
          match v2ray_command host port with
          | None => ([greeting], CoreFallback)
          | Some cmd =>
              if negb (writes 1%nat) then ([greeting], CoreFallback)
              else
                ([greeting; cmd],
                 match read_full 4 core with
                 | Some ([_; rep; _; atyp], core) => if negb (bval rep =? 0) then CoreRejected else CoreConnected (skip_bound atyp core)
                 | _ => CoreRejected
                 end)
          end
    | _ => ([greeting], CoreFallback)
    end.

Definition v2ray_addr (v2rayPort : Z) : string := "127.0.0.1:" +:+ Itoa (GetV2RayPort v2rayPort).

Definition handleV2RayConnect (e : tunnel_env) (v2rayPort : Z) (targetAuthority targetHost targetAddr : string)
    : list tunnel_event :=
  let addr := v2ray_addr v2rayPort in
  match dial e addr with
  | None => TDial Local addr false :: directConnect e targetAuthority
  | Some core =>
      let '(host, port) := v2ray_target targetHost targetAddr in
      let '(writes, r) := v2ray_handshake (up_writes e) host port core in
      TDial Local addr true :: (TWrite Local <$> writes) ++
        match r with
        | CoreFallback => directConnect e targetAuthority
        | CoreRejected => [TError 502]
        | CoreConnected rest => serve_local e rest
        end ++ [TCloseUp Local]
  end.

(** * Through the relay, on the proxy's own port *)

Section relay.
Context `{HR : HeaderRange}.
Context (relay : string → string → gmap string string → string → string).   (** [relayRequest] *)

Definition relay_answer (method url : string) (headers : gmap string string) (body : string) : list GasProxy.event :=
  let origin := headerValue headers "origin" in
  let response := relay method url headers body in
  [Relayed method url headers body; Wrote (if nonempty origin then gasInjectCORS response origin else response)].

(** The loops of [relayRawTCPToGAS] and [relayHTTPOverTLSOnRelay]; only the second
    skips blank lines in front of a request. *)
Fixpoint relay_loop (skip_blank : bool) (fuel : nat) (host : string) (port : Z) (s : string) : list GasProxy.event :=
  match fuel with
  | O => []
  | S fuel' =>
      match ReadLine s with
      | None => []
      | Some (line, s) =>
          if skip_blank && is_blank line then relay_loop skip_blank fuel' host port s
          else
            match read_head is_blank (λ _, false) 0 "" s with
            | Head lines rest =>
                let '(method, path) := gasParseRequestLine line in
                let '(body, rest) := gasReadBody rest (line :: lines) in
                relay_answer method (gasNormalizeURL host port path) (gasParseHeaders lines) body
                  ++ relay_loop skip_blank fuel' host port rest
            | _ => []
            end
      end
  end.

Definition relayRawTCPToGAS (host : string) (port : Z) (s : string) : list GasProxy.event :=
  relay_loop false (S (slen s)) host port s.

Definition relayHTTPOverTLSOnRelay (host : string) (port : Z) (s : string) : list GasProxy.event :=
  relay_loop true (S (slen s)) host port s.

(** [plaintext] is what the TLS handshake yields; a failed one has consumed [hello] bytes. *)
Definition handleGASRelayConnect (e : tunnel_env) (gasRelay : bool) (authority : mitm_authority) (plaintext : option string) (hello : nat)
    (targetAuthority : string) : list tunnel_event :=
  if negb gasRelay then directConnect e targetAuthority
  else
    let '(host, port) := gasSplitHostPort targetAuthority 443 in
    if negb (can_hijack e) then [TError 500]
    else if negb (hijacks e) then []
    else if negb (writes_ok e) || negb (flushes e) then [THijack; TCloseClient]
    else
      let raw n := (TServe <$> relayRawTCPToGAS host port (bytes_string (drop n (client_bytes e)))) ++ [TCloseClient] in
      [THijack; TEstablished] ++
      (if port =? 443 then
         match authority with
         | GenNilManager => [TPanic]
         | GenNone | GenNoCA | GenFails => raw 0%nat
         | GenReady =>
             match plaintext with
             | None => raw hello
             | Some s => TServe <$> relayHTTPOverTLSOnRelay host port s
             end
         end
       else raw 0%nat) ++ [TCloseClient].
End relay.

(** * The connections of a run *)

(** What is open, whether the client was hijacked and has its answer, and whether the second
    goroutine of a tunnel may still be at work; a step is [None] when it misuses a connection or
    answers twice. *)
Record conns := mkConns { client_open : bool; direct_open : bool; local_open : bool; hijacked : bool; answered : bool; copying : bool }.

Definition no_conns : conns := mkConns false false false false false false.

Definition is_open (u : upstream) (c : conns) : bool := match u with Direct => direct_open c | Local => local_open c end.

Definition set_open (u : upstream) (b : bool) (c : conns) : conns :=
  match u with
  | Direct => mkConns (client_open c) b (local_open c) (hijacked c) (answered c) (copying c)
  | Local => mkConns (client_open c) (direct_open c) b (hijacked c) (answered c) (copying c)
  end.

Definition conns_step (c : conns) (ev : tunnel_event) : option conns :=
  match ev with
  | TDial u _ ok => if is_open u c then None else Some (set_open u ok c)
  | TWrite u _ => if is_open u c then Some c else None
  | TError _ => if hijacked c || answered c then None else Some (mkConns (client_open c) (direct_open c) (local_open c) false true (copying c))
  | THijack => if hijacked c then None else Some (mkConns true (direct_open c) (local_open c) true (answered c) (copying c))
  | TEstablished =>
      if client_open c && negb (answered c) then Some (mkConns true (direct_open c) (local_open c) (hijacked c) true (copying c)) else None
  | TTunnel u _ _ =>
      if client_open c && is_open u c then Some (mkConns (client_open c) (direct_open c) (local_open c) (hijacked c) (answered c) true) else None
  | TLate => if copying c then Some (mkConns (client_open c) (direct_open c) (local_open c) (hijacked c) (answered c) false) else None
  | TPanic => Some c
  | TServe _ => if client_open c then Some c else None
  | TCloseUp u => Some (set_open u false c)
  | TCloseClient => Some (mkConns false (direct_open c) (local_open c) (hijacked c) (answered c) (copying c))
  end.

Fixpoint conns_run (c : conns) (evs : list tunnel_event) : option conns :=
  match evs with
  | [] => Some c
  | ev :: evs' => match conns_step c ev with Some c' => conns_run c' evs' | None => None end
  end.

(** Every step is allowed, and at the end every connection is closed. *)
Definition settles (evs : list tunnel_event) : Prop :=
  ∃ h a k, conns_run no_conns evs = Some (mkConns false false false h a k).

Lemma conns_run_app a : ∀ c b, conns_run c (a ++ b) = match conns_run c a with Some c' => conns_run c' b | None => None end.
Proof. induction a as [|ev a IH]; intros c b; [done|]. cbn [app conns_run]. by destruct (conns_step c ev). Qed.

Lemma conns_run_serve evs h c d l a k :
  conns_run (mkConns true d l h a k) ((TServe <$> evs) ++ c) = conns_run (mkConns true d l h a k) c.
Proof. induction evs as [|ev evs IH]; [done|]. exact IH. Qed.

Lemma conns_run_writes ws c : local_open c = true → conns_run c (TWrite Local <$> ws) = Some c.
Proof. intros Hl. induction ws as [|w ws IH]; [done|]. cbn [fmap list_fmap conns_run conns_step is_open]. by rewrite Hl. Qed.

Lemma directConnect_run e t l : ∃ h a k, conns_run (mkConns false false l false false false) (directConnect e t) = Some (mkConns false false l h a k).
Proof. unfold directConnect, copy_direct, last_use. destruct (dial e _); [|by eexists _, _, _]. repeat case_match; by eexists _, _, _. Qed.

Lemma serve_local_run e s : ∃ h a k, conns_run (mkConns false false true false false false) (serve_local e s ++ [TCloseUp Local]) = Some (mkConns false false false h a k).
Proof. unfold serve_local, last_use. repeat case_match; by eexists _, _, _. Qed.

Lemma direct_then_close e t :
  ∃ h a k, conns_run (mkConns false false true false false false) (directConnect e t ++ [TCloseUp Local]) = Some (mkConns false false false h a k).
Proof. destruct (directConnect_run e t true) as (h & a & k & H). exists h, a, k. by rewrite conns_run_app, H. Qed.

Lemma gas_settles e g h t : settles (handleGASConnect e g h t).
Proof.
  unfold settles, handleGASConnect. destruct (negb (nonempty g)); [apply directConnect_run|].
  destruct (dial e g) as [peer|]; [|cbn; apply directConnect_run]. cbn [conns_run conns_step is_open local_open no_conns set_open].
  destruct (negb (up_writes e 0)); [by eexists _, _, _|]. cbn [app conns_run conns_step is_open local_open].
  destruct (read_response e peer) as [[st rest]|]; [|by eexists _, _, _]. destruct (st =? 200); [apply serve_local_run|by eexists _, _, _].
Qed.

Lemma v2ray_settles e p t h a : settles (handleV2RayConnect e p t h a).
Proof.
  unfold settles, handleV2RayConnect. destruct (dial e _) as [core|]; [|cbn; apply directConnect_run].
  destruct (v2ray_target h a) as [host port]. destruct (v2ray_handshake _ _ _ _) as [ws r].
  cbn [conns_run conns_step is_open local_open no_conns set_open]. rewrite conns_run_app, conns_run_writes by done.
  destruct r; [apply direct_then_close|by eexists _, _, _|apply serve_local_run].
Qed.

Section theorems.
Context `{HR : HeaderRange}.
Context (relay : string → string → gmap string string → string → string).

Lemma relay_settles e r authority plaintext hello t : settles (handleGASRelayConnect relay e r authority plaintext hello t).
Proof.
  unfold settles, handleGASRelayConnect. destruct (negb r); [apply directConnect_run|].
  destruct (gasSplitHostPort t 443) as [host port]. destruct (negb (can_hijack e)); [by eexists _, _, _|].
  destruct (negb (hijacks e)); [by eexists _, _, _|]. destruct (_ || _); [by eexists _, _, _|].
  cbn [app conns_run conns_step]. cbn [hijacked client_open answered negb andb no_conns].
  repeat case_match; rewrite <- ?app_assoc, ?conns_run_serve; by eexists _, _, _.
Qed.

(** C31: Every run of the four handlers uses only connections it has open, answers the client at
    most once and never through the HTTP server after the hijack, and ends with the client, the
    local proxy and the target closed: whatever is dialled, refused, short or cut off on the
    way, direct fallbacks included, and also when a certificate manager that could not be made
    makes [handleGASRelayConnect] panic.  The one exception is a tunnel's second goroutine: when
    the first has ended and closed, it may read or write a closed connection, once, and that
    ends it. *)
Theorem transports_settle e targetAuthority targetHost targetAddr gasAddr v2rayPort gasRelay authority plaintext hello :
  settles (directConnect e targetAuthority) ∧
  settles (handleGASConnect e gasAddr targetHost targetAuthority) ∧
  settles (handleV2RayConnect e v2rayPort targetAuthority targetHost targetAddr) ∧
  settles (handleGASRelayConnect relay e gasRelay authority plaintext hello targetAuthority).
Proof. split; [apply directConnect_run|]. split; [apply gas_settles|]. split; [apply v2ray_settles|apply relay_settles]. Qed.
End theorems.

(** * The SOCKS5 client and the SOCKS5 server *)

(** The host a SOCKS5 server reads. *)
Definition socks_host (host : string) : string := match ParseIP host with Some ip => IP_String ip | None => host end.

Lemma length_list_byte_of_string s : length (Stdlib.Strings.String.list_byte_of_string s) = Stdlib.Strings.String.length s.
Proof. induction s as [|c s IH]; [done|]. cbn. by f_equal. Qed.

Lemma bval_byte_of_ip ip : ip_bytes ip → bval <$> (byte_of <$> ip) = ip.
Proof.
  induction ip as [|b ip IH]; [done|]. intros [Hb Hip]%list.Forall_cons. cbn [fmap list_fmap]. f_equal; [|by apply IH].
  by rewrite bval_byte_of, Z.mod_small.
Qed.

Lemma To4_range ip ip4 : ip_bytes ip → To4 ip = Some ip4 → length ip4 = 4%nat ∧ ip_bytes ip4 ∧ IP_String ip = IP_String ip4.
Proof.
  intros Hb Ht. assert (H4 : length ip4 = 4%nat ∧ ip_bytes ip4).
  { revert Ht. unfold To4. destruct (Nat.eqb_spec (length ip) 4) as [H4|]; [by intros [= <-]|].
    destruct (Nat.eqb_spec (length ip) 16) as [H16|]; [|done]. cbn [andb]. case_bool_decide; [|done]. intros [= <-].
    rewrite length_drop, H16. split; [done|by apply Forall_drop]. }
  split_and!; [apply H4..|]. unfold IP_String. rewrite Ht. unfold To4. destruct H4 as [-> _]. done.
Qed.

(** The command is the SOCKS5 request for the host. *)
Lemma v2ray_command_encodes host port : 0 ≤ port < 65536 → zlen host ≤ 255 →
  ∃ q, request_wf q ∧ sq_methods q = [x00] ∧ v2ray_command host port = Some ([x05; x01; sq_rsv q] ++ encode_dest (sq_dest q) ++ put16 port) ∧
    dest_host (sq_dest q) = socks_host host ∧ sq_port q = port.
Proof.
  intros Hp Hl. unfold v2ray_command, socks_host. destruct (ParseIP host) as [ip|] eqn:Eip.
  - destruct (ParseIP_range _ _ Eip) as [Hlen Hb]. destruct (To4 ip) as [ip4|] eqn:E4.
    + destruct (To4_range ip ip4 Hb E4) as (H4 & Hb4 & Hs).
      exists (mkSocksRequest [x00] x00 (Dest4 (byte_of <$> ip4)) port). unfold request_wf. cbn. rewrite length_fmap, bval_byte_of_ip by done.
      split_and!; first [done | lia].
    + assert (H16 : length ip = 16%nat) by (destruct Hlen as [H4|]; [|done]; unfold To4 in E4; by rewrite H4 in E4).
      exists (mkSocksRequest [x00] x00 (Dest6 (byte_of <$> ip)) port). unfold request_wf. cbn. rewrite length_fmap, bval_byte_of_ip by done.
      split_and!; first [done | lia].
  - destruct (Z.ltb_spec 255 (zlen host)); [lia|].
    assert (Hb : blen (bytes_of host) = zlen host).
    { unfold blen, zlen, bytes_of, slen. by rewrite length_list_byte_of_string. }
    exists (mkSocksRequest [x00] x00 (DestName (bytes_of host)) port). unfold request_wf. cbn [sq_methods sq_rsv sq_dest sq_port dest_wf encode_dest dest_host].
    rewrite Hb. unfold bytes_of at 2. rewrite Stdlib.Strings.String.string_of_list_byte_of_string. split_and!; first [done | lia].
Qed.

Lemma v2ray_handshake_socks host port : 0 ≤ port < 65536 → zlen host ≤ 255 →
  ∃ greeting cmd,
    (∀ rest, socks_handshake (greeting ++ cmd ++ rest) = ([reply_method; reply x00], Some ((socks_host host, port), rest))) ∧
    ∀ payload, v2ray_handshake (λ _, true) host port (reply_method ++ reply x00 ++ payload) = ([greeting; cmd], CoreConnected payload).
Proof.
  intros Hp Hl. destruct (v2ray_command_encodes host port Hp Hl) as (q & Hq & Hm & Hc & Hh & <-).
  exists [x05; x01; x00], ([x05; x01; sq_rsv q] ++ encode_dest (sq_dest q) ++ put16 (sq_port q)). split.
  - intros rest. rewrite <- Hh, <- (socks_handshake_encodes q rest Hq). unfold encode_request. rewrite Hm, <- !app_assoc. done.
  - intros payload. unfold v2ray_handshake. rewrite Hc. reflexivity.
Qed.

Lemma v2ray_target_joined targetHost host port : GoNet.plain host → host ≠ "" → 0 < port < 65536 →
  v2ray_target targetHost (JoinHostPort host (Itoa port)) = (host, port).
Proof.
  intros Hpl Hne Hp. unfold v2ray_target. rewrite SplitHostPort_JoinHostPort by (first [done|split|idtac]; by apply Itoa_fresh).
  cbn [default from_option id]. rewrite ParseInt_Itoa by (unfold max_int64; lia). cbn [fst]. destruct (Z.eqb_spec port 0); [lia|].
  by rewrite (proj2 (nonempty_true host)).
Qed.

(** C32: Between this proxy and a SOCKS5 server such as its own front end nothing is
    lost.  For every host of at most 255 bytes, name or address, and every port, the
    bytes written to the core are a request the server reads as that host (an address
    in its usual form) and that port, with nothing left over; and when the core answers
    as the server does, the tunnel carries all the client's bytes, those the HTTP
    server had buffered first, and to the client exactly what follows the answer. *)
Theorem v2ray_speaks_socks host port :
  GoNet.plain host → host ≠ "" → zlen host ≤ 255 → 0 < port < 65536 →
  ∃ greeting cmd,
    (∀ rest, socks_handshake (greeting ++ cmd ++ rest) = ([reply_method; reply x00], Some ((socks_host host, port), rest))) ∧
    ∀ e v2rayPort targetAuthority targetHost payload,
      dial e (v2ray_addr v2rayPort) = Some (reply_method ++ reply x00 ++ payload) → up_writes e = (λ _, true) →
      client_ready e = true →
      handleV2RayConnect e v2rayPort targetAuthority targetHost (JoinHostPort host (Itoa port)) =
        [TDial Local (v2ray_addr v2rayPort) true; TWrite Local greeting; TWrite Local cmd; THijack; TEstablished;
         TTunnel Local (client_buffered e ++ client_rest e) payload; TCloseClient; TCloseUp Local] ++ last_use e ++ [TCloseClient; TCloseUp Local].
Proof.
  intros Hpl Hne Hl Hp. destruct (v2ray_handshake_socks host port ltac:(lia) Hl) as (greeting & cmd & Hs & Hh).
  exists greeting, cmd. split; [exact Hs|]. intros e v2rayPort auth targetHost payload Hd Hw He.
  unfold handleV2RayConnect. rewrite Hd, v2ray_target_joined, Hw, Hh, serve_local_ready by done. by rewrite <- !app_assoc.
Qed.

(** * The two layers of the GAS proxy *)

Definition established_text : string := "HTTP/1.1 200 Connection Established" +:+ CRLF +:+ CRLF.

Definition connect_request_of (targetAuthority targetHost : string) : GasProxy.request :=
  GasProxy.mkRequest "CONNECT" targetAuthority [("Host", targetHost)] "".

Lemma connect_text_request auth host : connect_text auth host = request_text (connect_request_of auth host).
Proof.
  unfold connect_text, request_text, request_line, all_fields, field_line. cbn [rq_method rq_path rq_fields rq_body connect_request_of].
  change (nonempty "") with false. cbv iota. rewrite app_nil_r, with_eol_cons. cbn [fmap list_fmap fst snd]. rewrite with_eol_cons.
  by rewrite !str_app_assoc.
Qed.

Lemma bytes_string_of s : bytes_string (bytes_of s) = s.
Proof. apply Stdlib.Strings.String.string_of_list_byte_of_string. Qed.

Section layers.
Context `{HR : HeaderRange}.
Context (relay : string → string → gmap string string → string → string) (parse_url : string → option (string * string)).

(** The CONNECT that the proxy sends to the local GAS proxy is read there as a
    CONNECT for the same target, and once it is answered the tunnel carries every byte
    of the client.  To the client it carries what follows the answer except the bytes
    the proxy had already read with it: they are lost. *)
Theorem two_layers_connect e gasAddr targetHost targetAuthority payload :
  request_ok (connect_request_of targetAuthority targetHost) → gasAddr ≠ "" →
  (∀ rest, read_response e (bytes_of established_text ++ rest) = Some (200, rest)) →
  dial e gasAddr = Some (bytes_of established_text ++ payload) → up_writes e 0 = true → client_ready e = true →
  ∃ request,
    handleGASConnect e gasAddr targetHost targetAuthority =
      [TDial Local gasAddr true; TWrite Local request; THijack; TEstablished;
       TTunnel Local (client_buffered e ++ client_rest e) (drop (ahead e) payload);
       TCloseClient; TCloseUp Local] ++ last_use e ++ [TCloseClient; TCloseUp Local] ∧
    ∀ k sign_ok plaintext hello rest m,
      GasProxy.handleHTTP relay parse_url k sign_ok plaintext hello (bytes_string request +:+ rest) m =
        GasProxy.handleCONNECT relay k sign_ok plaintext hello targetAuthority rest m.
Proof.
  intros Hok Hg Hr Hd Hw Hc. exists (bytes_of (connect_text targetAuthority targetHost)). split.
  - unfold handleGASConnect. rewrite (proj2 (nonempty_true gasAddr) Hg), Hd, Hw. cbn [negb]. rewrite Hr. cbn [Z.eqb Pos.eqb].
    rewrite serve_local_ready by done. cbn [app]. by rewrite <- app_assoc.
  - intros k sign_ok plaintext hello rest m. rewrite bytes_string_of, connect_text_request.
    destruct (read_request_head _ rest Hok) as [Hl Hh]. destruct (parse_request_line _ Hok) as [_ [ws Hs]].
    unfold GasProxy.handleHTTP. rewrite Hl, Hh, Hs. reflexivity.
Qed.

(** ** The request loops of the one-port relay *)

Lemma read_head_unlimited stop over s ls rest : ∀ total cur t',
  read_head stop over total cur s = Head ls rest → read_head stop (λ _, false) t' cur s = Head ls rest.
Proof.
  revert ls. induction s as [|c s IH]; intros ls total cur t'; [done|]. cbn [read_head]. destruct (ceq c LF); [|apply IH].
  cbv zeta. destruct (over _); [done|]. destruct (stop _); [done|].
  destruct (read_head stop over _ "" s) as [| |ls' rest'] eqn:E; [done..|]. intros [= <- ->]. by rewrite (IH _ _ _ _ E).
Qed.

Notation serve host port r := (relay_answer relay (rq_method r) (gasNormalizeURL host port (rq_path r)) (header_map r) (rq_body r)).

Lemma relay_one skip fuel host port r rest :
  request_ok r → relay_loop relay skip (S fuel) host port (request_text r +:+ rest) = serve host port r ++ relay_loop relay skip fuel host port rest.
Proof.
  intros H. destruct (request_line_ok r H) as [Hp Hn]. destruct (read_request_head r rest H) as [Hl Hh].
  cbn [relay_loop]. rewrite Hl, is_blank_line, andb_false_r by done. rewrite (read_head_unlimited _ _ _ _ _ _ _ 0 Hh).
  destruct (parse_request_line r H) as [-> _]. rewrite read_body by done. unfold gasParseHeaders.
  by rewrite parse_headers_lines by by apply all_fields_read.
Qed.

Definition requests_text (rs : list request) : string := foldr (λ r s, request_text r +:+ s) "" rs.

Lemma requests_text_length rs : (length rs <= slen (requests_text rs))%nat.
Proof.
  induction rs as [|r rs IH]; simpl; [lia|]. pose proof (request_text_length r). rewrite slen_app. fold (requests_text rs). lia.
Qed.

Lemma relay_all skip host port rs : ∀ fuel,
  Forall request_ok rs → (length rs < fuel)%nat →
  relay_loop relay skip fuel host port (requests_text rs) = mjoin ((λ r, serve host port r) <$> rs).
Proof.
  induction rs as [|r rs IH]; intros [|fuel] Hok Hf; simpl in Hf; try lia; [done|].
  apply list.Forall_cons in Hok as [Hr Hok]. cbn [requests_text foldr]. rewrite relay_one by done. cbn [fmap list_fmap mjoin list_join].
  f_equal. apply IH; [done|lia].
Qed.

(** On the proxy's own port, every request of a CONNECT tunnel is relayed once and
    answered, in order, with its method, URL, headers and body: those inside TLS for
    port 443, those sent in the clear for any other port. *)
Theorem one_port_serves e hello targetAuthority host port rs :
  Forall request_ok rs → gasSplitHostPort targetAuthority 443 = (host, port) → client_ready e = true →
  (port = 443 →
     handleGASRelayConnect relay e true GenReady (Some (requests_text rs)) hello targetAuthority =
       [THijack; TEstablished] ++ (TServe <$> mjoin ((λ r, serve host port r) <$> rs)) ++ [TCloseClient]) ∧
  (port ≠ 443 → bytes_string (client_buffered e ++ client_rest e) = requests_text rs → ∀ authority plaintext,
     handleGASRelayConnect relay e true authority plaintext hello targetAuthority =
       [THijack; TEstablished] ++ (TServe <$> mjoin ((λ r, serve host port r) <$> rs)) ++ [TCloseClient; TCloseClient]).
Proof.
  intros Hok Ht [[[Hc Hh]%andb_prop Hw]%andb_prop Hf]%andb_prop. pose proof (requests_text_length rs) as Hlen.
  unfold handleGASRelayConnect. rewrite Ht, Hc, Hh, Hw, Hf. cbn [negb orb].
  split; [intros ->|intros Hp Hs authority plaintext; rewrite (proj2 (Z.eqb_neq port 443) Hp)].
  - cbn [Z.eqb Pos.eqb]. unfold relayHTTPOverTLSOnRelay. rewrite relay_all by (done || lia). done.
  - unfold client_bytes. rewrite wrapHijackedConn_app. cbv zeta. rewrite drop_0, Hs. unfold relayRawTCPToGAS.
    rewrite relay_all by (done || lia). by rewrite <- !app_assoc.
Qed.
End layers.

(** A preflight that the relay's own front end answers itself goes to the script on the
    proxy's port: the two loops are not the same. *)
Lemma preflight_relayed `{HR : HeaderRange} relay url headers body :
  headerValue headers "access-control-request-method" ≠ "" →
  (∃ text, GasProxy.answer relay "OPTIONS" url headers body = [Wrote text]) ∧
  ∃ evs, relay_answer relay "OPTIONS" url headers body = Relayed "OPTIONS" url headers body :: evs.
Proof.
  intros Hm. split; [|by eexists]. unfold GasProxy.answer. rewrite (proj2 (nonempty_true _) Hm). by eexists.
Qed.

(** ** Witnesses *)

Definition demo_tunnel (peer : list byte) : tunnel_env :=
  mkTunnelEnv (λ _, Some peer) (λ _, true) (λ l, Some (200, drop (length (bytes_of established_text)) l)) 3 true true true true
    [x16; x03] [x01; x02; x03] true true.

Lemma v2ray_speaks_socks_witness :
  ∃ greeting cmd,
    (∀ rest, socks_handshake (greeting ++ cmd ++ rest) = ([reply_method; reply x00], Some (("2001:db8::1", 8443), rest))) ∧
    handleV2RayConnect (demo_tunnel (reply_method ++ reply x00 ++ [x41; x42])) 0 "x" "x" (JoinHostPort "2001:db8:0:0::1" (Itoa 8443)) =
      [TDial Local "127.0.0.1:11808" true; TWrite Local greeting; TWrite Local cmd; THijack; TEstablished;
       TTunnel Local [x16; x03; x01; x02; x03] [x41; x42]; TCloseClient; TCloseUp Local; TLate; TCloseClient; TCloseUp Local].
Proof.
  destruct (v2ray_speaks_socks "2001:db8:0:0::1" 8443) as (greeting & cmd & Hs & Ht); [done|done|by vm_compute|done|].
  exists greeting, cmd. split; [exact Hs|]. by apply Ht.
Defined.

Lemma two_layers_connect_witness :
  ∃ request,
    handleGASConnect (demo_tunnel (bytes_of established_text ++ bytes_of "220 ready")) "127.0.0.1:8085" "mail.example.com" "mail.example.com:25" =
      [TDial Local "127.0.0.1:8085" true; TWrite Local request; THijack; TEstablished;
       TTunnel Local [x16; x03; x01; x02; x03] (bytes_of " ready"); TCloseClient; TCloseUp Local; TLate; TCloseClient; TCloseUp Local].
Proof.
  destruct (two_layers_connect (λ _ _ _ _, "") (λ _, None) (demo_tunnel (bytes_of established_text ++ bytes_of "220 ready")) "127.0.0.1:8085"
    "mail.example.com" "mail.example.com:25" (bytes_of "220 ready")) as (request & Hr & _);
    [|done|done|done|done|done|by exists request].
  split; try done; vm_compute; try done. by repeat constructor.
Defined.

Lemma one_port_serves_witness :
  handleGASRelayConnect demo_relay (demo_tunnel []) true GenReady (Some (requests_text demo_requests)) 0 "example.com:443" =
    [THijack; TEstablished] ++
    (TServe <$> mjoin ((λ r, relay_answer demo_relay (rq_method r) (gasNormalizeURL "example.com" 443 (rq_path r)) (header_map r) (rq_body r)) <$> demo_requests))
    ++ [TCloseClient].
Proof. apply (one_port_serves demo_relay (demo_tunnel []) 0 "example.com:443" "example.com" 443 demo_requests demo_requests_ok); reflexivity. Defined.
