(* ===== verification/PlainHTTP.v ===== *)
(** Plain HTTP requests in [proxy/proxy.go]: [handleHTTP] with the ways it forwards a
    request, [handleGASRelayHTTP], [handleGASHTTP] and [handleV2RayHTTP].

    [http.Transport]'s round trips, dials and the relay are arguments.  A response is
    what the handler hands to the response writer: its status, the header lines in the
    order they are added, and the body that the writer takes; copying a response to the
    client keeps all three. *)

From S2P Require Import Prelude GoStrings GoNet GoText Types Hosts AutoRouting CFPool Settings Rules Dial GasCache GasHTTP.

Open Scope Z_scope.

(** * Requests and responses *)

Record http_request := mkHTTPRequest {
  q_method : string;
  q_scheme : string;                               (** [URL.Scheme] *)
  q_urlhost : string;                              (** [URL.Host] *)
  q_rest : string;                                 (** path and query of the URL *)
  q_host : string;                                 (** [Host] *)
  q_tls : bool;
  q_header : list (string * list string);          (** each key once *)
  q_body : string;
}.

Record http_response := mkResponse {
  p_status : Z;
  p_header : list (string * string);
  p_body : string;
}.

Inductive http_result :=
  | Responds (r : http_response)
  | Fails (code : Z)                               (** [http.Error] *)
  | Redirects (url : string)                       (** 301 *)
  | Blocks                                         (** a lock of the pool is never released *)
  | Panics.

(** [URL.String] for a URL without user information. *)
Definition url_text (q : http_request) : string :=
  if nonempty (q_scheme q) || nonempty (q_urlhost q) then
    (if nonempty (q_scheme q) then q_scheme q +:+ ":" else "") +:+ "//" +:+ q_urlhost q +:+ q_rest q
  else q_rest q.

(** * Header names *)

(** The bytes of a header name. *)
Definition token_byte (c : ascii) : bool :=
  let n := byte_val c in
  is_digit c || is_upper c || ((97 <=? n) && (n <=? 122))%nat || contains_byte c "!#$%&'*+-.^_`|~".

Fixpoint all_token (s : string) : bool := match s with "" => true | String c s' => token_byte c && all_token s' end.

Definition upper_byte (c : ascii) : ascii :=
  let n := byte_val c in if ((97 <=? n) && (n <=? 122))%nat then ascii_of_nat (n - 32) else c.

Fixpoint canonical_from (upper : bool) (s : string) : string :=
  match s with
  | "" => ""
  | String c s' => String (if upper then upper_byte c else lower_byte c) (canonical_from (ceq c "-") s')
  end.

(** [textproto.CanonicalMIMEHeaderKey] *)
Definition canonical_key (k : string) : string := if all_token k then canonical_from true k else k.

(** [strings.SplitN(s, sep, 2)] for a separator of several bytes. *)
Definition CutSeq (s sep : string) : option (string * string) :=
  match Index s sep with
  | Some i => Some (str_take i s, str_drop (i + slen sep) s)
  | None => None
  end.

(** * handleGASRelayHTTP *)

(** The first value of each header. *)
Definition first_values (header : list (string * list string)) : gmap string string :=
  foldl (λ h kv, match snd kv with v :: _ => <[fst kv := v]> h | [] => h end) ∅ header.

Definition parsed_status (statusLine : string) : Z :=
  match Split statusLine " " with
  | _ :: code :: _ => let '(c, err) := ParseInt code in if err then 200 else c
  | _ => 200
  end.

Definition parsed_headers (lines : list string) : list (string * string) :=
  omap (λ line, (λ kv, (canonical_key (fst kv), snd kv)) <$> CutSeq line ": ") lines.

(** The statuses with which [Write] takes no body. *)
Definition no_body (status : Z) : bool := (status =? 101) || (status =? 204) || (status =? 304).

(** [WriteHeader] panics outside of 100 to 999; an informational status is followed by
    200 when the body, or the end of the handler, comes. *)
Definition write_response (status : Z) (header : list (string * string)) (body : string) : http_result :=
  if (status <? 100) || (999 <? status) then Panics
  else Responds (mkResponse (if (status <? 200) && negb (status =? 101) then 200 else status) header (if no_body status then "" else body)).

(** The response of the relay as it is written to the client. *)
Definition relay_response (response : string) : http_result :=
  match Index response (CRLF +:+ CRLF) with
  | None => Fails 502
  | Some idx =>
      let headerPart := str_take idx response in
      match SplitSeq headerPart CRLF with
      | statusLine :: lines => write_response (parsed_status statusLine) (parsed_headers lines) (str_drop (idx + 4) response)
      | [] => Fails 502
      end
  end.

Section plain.
Context `{HR : HeaderRange}.

(** [relay]: [relayRequest]; [None] for a nil response. *)
Definition handleGASRelayHTTP (relay : string → string → gmap string string → string → option string) (q : http_request) : http_result :=
  let headers := first_values (q_header q) in
  let origin := headerValue headers "origin" in
  match relay (q_method q) (url_text q) headers (q_body q) with
  | None => Fails 502
  | Some response => relay_response (if nonempty origin then gasInjectCORS response origin else response)
  end.

(** * handleGASHTTP *)

(** What happens on the connections to the local GAS proxy. *)
Inductive gas_event := GasDial (k : nat) (ok : bool) | GasSend (k : nat) | GasClose (k : nat).

Record gas_env := mkGasEnv {
  gas_dial : nat → bool;
  gas_send : nat → bool;                           (** [WriteProxy] on the k-th connection *)
  gas_read : nat → option http_response;           (** [ReadResponse] *)
}.

Definition or_fails (code : Z) (r : option http_response) : http_result :=
  match r with Some r => Responds r | None => Fails code end.

(** [answer]: the round trip through the core's HTTP proxy. *)
Definition handleV2RayHTTP (answer : option http_response) : http_result := or_fails 502 answer.

(** [direct]: the round trip of the proxy's own transport. *)
Definition handleGASHTTP (e : gas_env) (direct : option http_response) (gasAddr : string) : list gas_event * http_result :=
  if negb (nonempty gasAddr) then ([], or_fails 502 direct)
  else if negb (gas_dial e 0) then ([GasDial 0 false], or_fails 502 direct)
  else
    let '(evs, r) :=
      if negb (gas_send e 0) then ([], Fails 502)
      else
        match gas_read e 0 with
        | Some resp => ([GasSend 0], Responds resp)
        | None =>
            let '(evs, r) :=
              if negb (gas_dial e 1) then ([GasDial 1 false], Fails 502)
              else
                let '(evs, r) := if negb (gas_send e 1) then ([], Fails 502) else ([GasSend 1], or_fails 502 (gas_read e 1)) in
                (GasDial 1 true :: evs ++ [GasClose 1], r) in
            (GasSend 0 :: GasClose 0 :: evs, r)
        end in
    (GasDial 0 true :: evs ++ [GasClose 0], r).

(** * handleHTTP *)

(** How a request leaves: over the proxy's transport, through the core's HTTP proxy, or
    over a transport that dials the candidates in turn whatever the URL says. *)
Inductive way := OverTransport | OverV2Ray | OverCandidates (candidates : list string).

Section http.
Context `{MR : MapRange} (doh : resolver) (sys : system_dns).
Context (round_trip : way → http_request → option http_response).

(** The clone: no [Proxy-Connection]. *)
Definition cloned (q : http_request) : http_request :=
  mkHTTPRequest (q_method q) (q_scheme q) (q_urlhost q) (q_rest q) (q_host q) (q_tls q)
    (List.filter (λ kv, negb (bool_decide (fst kv = "Proxy-Connection"))) (q_header q)) (q_body q).

(** The clone with its scheme and hosts filled in. *)
Definition completed (q : http_request) : http_request :=
  let scheme := if nonempty (q_scheme q) then q_scheme q else if q_tls q then "https" else "http" in
  let urlhost := if nonempty (q_urlhost q) then q_urlhost q else q_host q in
  let host := if nonempty (q_host q) then q_host q else urlhost in
  mkHTTPRequest (q_method q) scheme urlhost (q_rest q) host (q_tls q) (q_header q) (q_body q).

Definition set_scheme (scheme : string) (q : http_request) : http_request :=
  mkHTTPRequest (q_method q) scheme (q_urlhost q) (q_rest q) (q_host q) (q_tls q) (q_header q) (q_body q).

Definition set_urlhost (host : string) (q : http_request) : http_request :=
  mkHTTPRequest (q_method q) (q_scheme q) host (q_rest q) (q_host q) (q_tls q) (q_header q) (q_body q).

Definition default_port (q : http_request) : string := if EqualFold (q_scheme q) "https" then "443" else "80".

(** The request and the way it leaves under the rule; [None] when the candidates wait
    for the pool. *)
Definition dispatch (pool : option CloudflarePool) (rule : Rule) (q : http_request) : option (http_request * way) :=
  let targetAddr := ensureAddrWithPort (q_urlhost q) (default_port q) in
  candidates ← buildDialCandidates doh sys pool (normalizeHost (q_host q)) targetAddr rule (r_Mode rule);
  if nonempty (r_Upstream rule) then
    Some (match candidates with c :: _ => set_urlhost c q | [] => q end, OverTransport)
  else
    match candidates with
    | c :: _ => Some (q, if bool_decide (c = targetAddr) then OverTransport else OverCandidates (dedupeDialCandidates candidates))
    | [] => Some (q, OverTransport)
    end.

Definition handleHTTP (relay : option (string → string → gmap string string → string → option string)) (gasAddr : string) (e : gas_env)
    (pool : option CloudflarePool) (rule : Rule) (q : http_request) : http_result :=
  let newReq := cloned q in
  match relay with
  | Some relay => handleGASRelayHTTP relay newReq
  | None =>
      if nonempty gasAddr then snd (handleGASHTTP e (round_trip OverTransport newReq) gasAddr)
      else if bool_decide (r_Mode rule = "v2ray") then handleV2RayHTTP (round_trip OverV2Ray newReq)
      else
        let newReq := completed newReq in
        if (bool_decide (r_Mode rule = "mitm") || bool_decide (r_Mode rule = "quic")) && bool_decide (q_scheme newReq = "http") then
          Redirects (url_text (set_scheme "https" newReq))
        else if bool_decide (r_Mode rule = "gas") || bool_decide (r_Mode rule = "direct") then or_fails 502 (round_trip OverTransport newReq)
        else
          match dispatch pool rule newReq with
          | None => Blocks
          | Some (newReq, w) => or_fails 502 (round_trip w newReq)
          end
  end.
End http.
End plain.

(** * The relay's answer on its way to the client *)

Lemma Index_header k text : contains_byte ":" k = false → Index (k +:+ ": " +:+ text) ": " = Some (slen k).
Proof.
  induction k as [|c k IH]; intros Hk; [by apply Index_prefix|]. rewrite contains_byte_cons in Hk. apply orb_false_iff in Hk as [Hc Hk].
  rewrite str_app_cons, Index_cons, IH by (done || (apply prefix_ne; intros ->; by rewrite ceq_refl in Hc)). done.
Qed.

Lemma CutSeq_header k text : contains_byte ":" k = false → CutSeq (k +:+ ": " +:+ text) ": " = Some (k, text).
Proof.
  intros Hk. unfold CutSeq. rewrite Index_header by done. rewrite str_take_app. do 2 f_equal.
  replace (k +:+ ": " +:+ text) with ((k +:+ ": ") +:+ text) by (by rewrite str_app_assoc).
  replace (slen k + slen ": ")%nat with (slen (k +:+ ": ")) by (by rewrite slen_app). by rewrite str_drop_app.
Qed.

Section answer.
Context (fmt_v : jvalue → string).

(** The header lines of an answer, but those the relay drops. *)
Definition answer_headers (headers : jobject) : list (string * string) :=
  mjoin ((λ kv, if bool_decide (ToLower (fst kv) ∈ skipped_headers) then [] else (λ text, (canonical_key (fst kv), text)) <$> shown fmt_v (snd kv))
           <$> headers).

Lemma parsed_headers_app a b : parsed_headers (a ++ b) = parsed_headers a ++ parsed_headers b.
Proof. unfold parsed_headers. apply omap_app. Qed.

Lemma parsed_header_lines kv : contains_byte ":" (fst kv) = false →
  parsed_headers (header_lines fmt_v kv) =
    if bool_decide (ToLower (fst kv) ∈ skipped_headers) then [] else (λ text, (canonical_key (fst kv), text)) <$> shown fmt_v (snd kv).
Proof.
  intros Hk. unfold header_lines. case_bool_decide; [done|]. induction (shown fmt_v (snd kv)) as [|text texts IH]; [done|].
  cbn [fmap list_fmap]. unfold parsed_headers in *. cbn [omap list_omap]. rewrite CutSeq_header by done.
  cbn [fmap option_fmap option_map fst snd]. by rewrite <- IH.
Qed.

Lemma parsed_object_headers headers : Forall (field_ok fmt_v) headers →
  parsed_headers (mjoin (header_lines fmt_v <$> headers)) = answer_headers headers.
Proof.
  induction 1 as [|kv headers (_ & Hk & _) _ IH]; [done|]. unfold answer_headers in *. rewrite !fmap_cons.
  change (mjoin (header_lines fmt_v kv :: ?l)) with (header_lines fmt_v kv ++ mjoin l).
  rewrite parsed_headers_app, parsed_header_lines, IH by done. done.
Qed.

Lemma parsed_status_line status : 0 ≤ status ≤ max_int64 →
  parsed_status ("HTTP/1.1 " +:+ Itoa status +:+ " " +:+ statusText status) = status.
Proof.
  intros Hs. unfold parsed_status. change ("HTTP/1.1 " +:+ Itoa status +:+ " " +:+ statusText status)
    with ("HTTP/1.1" +:+ String " " (Itoa status +:+ String " " (statusText status))).
  rewrite Split_app, Split_app by (done || by apply Itoa_fresh). by rewrite ParseInt_Itoa.
Qed.

Lemma relay_response_lines status headers body : 0 ≤ status ≤ max_int64 → Forall (field_ok fmt_v) headers →
  relay_response (with_eol (response_lines fmt_v status headers body) +:+ CRLF +:+ body) =
    write_response status (answer_headers headers ++ [("Content-Length", Itoa (zlen body))]) body.
Proof.
  intros Hs Hok. destruct (response_lines_ok fmt_v 0 ltac:(done) status headers body Hok) as [Hhead _].
  assert (Hn : response_lines fmt_v status headers body ≠ []) by done.
  unfold relay_response. destruct (Index_head _ body Hhead Hn) as (i & Hi & Hl). rewrite Hi.
  rewrite (head_lines _ body i Hhead Hn Hi). unfold response_lines at 1. rewrite parsed_status_line by done.
  rewrite parsed_headers_app, parsed_object_headers by done. f_equal.
  rewrite str_drop_app_le by lia. replace (i + 4 - slen (with_eol (response_lines fmt_v status headers body)))%nat with 2%nat by lia. done.
Qed.
End answer.

Section relayed.
Context `{HR : HeaderRange}.
Context (fmt_v : jvalue → string) (maxRespBody : Z).

(** C24: A plain HTTP request on the proxy's port gets what the script answered: the
    text the relay makes of the script's JSON comes apart again into its status, the
    object's headers line by line (without those the relay drops) with the length of
    the decoded body, and that body unless the status allows none.  A status the HTTP
    server does not accept ends the handler with a panic. *)
Theorem relay_answer_written relay q data decoded :
  member "e" data = None → object_body data = Some decoded → zlen (bytes_string decoded) ≤ maxRespBody →
  Forall (field_ok fmt_v) (object_headers data) → 0 ≤ gasIntVal (member "s" data) 200 ≤ max_int64 →
  headerValue (first_values (q_header q)) "origin" = "" →
  (∀ method url headers body resp, parseRelayJSON fmt_v maxRespBody data = Ok resp → relay method url headers body = Some resp) →
  let status := gasIntVal (member "s" data) 200 in
  let body := bytes_string decoded in
  handleGASRelayHTTP relay q =
    if (status <? 100) || (999 <? status) then Panics
    else Responds (mkResponse (if (status <? 200) && negb (status =? 101) then 200 else status)
                     (answer_headers fmt_v (object_headers data) ++ [("Content-Length", Itoa (zlen body))])
                     (if no_body status then "" else body)).
Proof.
  intros He Hb Hmax Hok Hs Ho Hrelay. cbv zeta. unfold handleGASRelayHTTP. rewrite Ho.
  erewrite Hrelay; [|unfold parseRelayJSON; rewrite He, Hb, (proj2 (Z.ltb_ge _ _) Hmax); reflexivity].
  change (nonempty "") with false. cbv iota. by rewrite relay_response_lines.
Qed.
End relayed.

(** * Where plain HTTP is dialled *)

Definition to_443 (addr : string) : Prop := HasSuffix addr ":443" = true.

Lemma JoinHostPort_ends h p : ∃ x, JoinHostPort h p = x +:+ ":" +:+ p.
Proof.
  unfold JoinHostPort. destruct (contains_byte colon h); [exists ("[" +:+ h +:+ "]"); by rewrite !str_app_assoc|by exists h].
Qed.

Lemma to_443_joined h : to_443 (JoinHostPort h "443").
Proof. destruct (JoinHostPort_ends h "443") as [x ->]. apply HasSuffix_spec. by exists x. Qed.

Lemma TrimSpace_to_443 s : to_443 s → to_443 (TrimSpace s).
Proof.
  intros [x ->]%HasSuffix_spec. apply HasSuffix_spec. exists (trim_left_by is_space x). unfold TrimSpace, trim_by.
  assert (Hr : ∀ y, trim_right_by is_space (y +:+ ":443") = y +:+ ":443").
  { induction y as [|c y IH]; [done|]. rewrite str_app_cons. cbn [trim_right_by]. rewrite IH. by destruct y. }
  assert (Hl : trim_left_by is_space (x +:+ ":443") = trim_left_by is_space x +:+ ":443").
  { induction x as [|c x IH]; [done|]. rewrite str_app_cons. cbn [trim_left_by]. by destruct (is_space c). }
  by rewrite Hl, Hr.
Qed.

Lemma dedupe_to_443 cs : Forall to_443 cs → Forall to_443 (dedupeDialCandidates cs) ∧ (cs ≠ [] → dedupeDialCandidates cs ≠ []).
Proof.
  intros Hc. split.
  - apply list.Forall_forall. intros a (_ & c & Hin & ->)%dedupeDialCandidates_elem. apply TrimSpace_to_443.
    by eapply list.Forall_forall in Hc.
  - destruct cs as [|c cs]; [done|]. intros _ E. apply list.Forall_cons in Hc as [Hc _]. apply TrimSpace_to_443 in Hc.
    assert (Hin : TrimSpace c ∈ dedupeDialCandidates (c :: cs)).
    { apply dedupeDialCandidates_elem. split; [intros Et; by rewrite Et in Hc|]. exists c. split; [left|done]. }
    rewrite E in Hin. by apply elem_of_nil in Hin.
Qed.

Lemma joined_to_443 {A} (f : A → string) l : Forall to_443 ((λ x, JoinHostPort (f x) "443") <$> l).
Proof. apply list.Forall_forall. intros a (x & -> & _)%list_elem_of_fmap. apply to_443_joined. Qed.

Lemma system_v4_to_443 ips : ∀ seen, Forall to_443 (system_v4 "443" seen ips).
Proof.
  induction ips as [|ip ips IH]; intros seen; [constructor|]. cbn [system_v4]. case_bool_decide; [apply IH|].
  destruct (is_v4 ip); [|apply IH]. apply list.Forall_cons. split; [apply to_443_joined|apply IH].
Qed.

Section dialled.
Context `{MR : MapRange} (doh : resolver) (sys : system_dns).

Lemma resolved_to_443 host mode : Forall to_443 (resolve_or_system doh sys host mode).
Proof.
  unfold resolve_or_system, resolveDomainCandidates, resolveSystemDNS.
  assert (Hsys : Forall to_443 match sys host with None => [] | Some ips => match system_v4 "443" [] ips with [] => system_v6 "443" ips | out => out end end).
  { destruct (sys host) as [ips|]; [|constructor]. pose proof (system_v4_to_443 ips []) as H4.
    destruct (system_v4 "443" [] ips); [|done]. apply joined_to_443. }
  unfold nonempty_or. destruct (_ || _); [done|]. destruct doh as [resolve|]; [|done]. destruct (resolve _) as [ips| |]; [|done..].
  pose proof (proj1 (dedupe_to_443 _ (joined_to_443 IP_String (reorderIPsByDNSMode ips mode)))) as Hd.
  by destruct (dedupeDialCandidates _).
Qed.
End dialled.

Lemma no_upstream host rule : r_Upstream rule = "" → r_Upstreams rule = [] → resolveRuleUpstream host rule = "".
Proof. intros Hu Hus. unfold resolveRuleUpstream. by rewrite Hu, Hus. Qed.

(** The address of a host without a port is on port 80. *)
Lemma port_80 host : contains_byte colon host = false → ¬ to_443 (ensureAddrWithPort host "80").
Proof.
  intros Hc Hs. apply HasSuffix_spec in Hs as [x Hx]. unfold ensureAddrWithPort in Hx. revert Hx.
  destruct (negb (nonempty (TrimSpace host))); [by destruct x|].
  assert (Hne : ∀ h, JoinHostPort h "80" ≠ x +:+ ":443").
  { intros h E. destruct (JoinHostPort_ends h "80") as [y Hy]. rewrite Hy in E. change (":" +:+ "80") with ":80" in E.
    apply (f_equal (λ s, str_drop (slen s - 1) s)) in E. revert E. rewrite !slen_app.
    change (slen ":80") with 3%nat. change (slen ":443") with 4%nat.
    rewrite !str_drop_app_le by lia. replace (slen y + 3 - 1 - slen y)%nat with 2%nat by lia.
    replace (slen x + 4 - 1 - slen x)%nat with 3%nat by lia. done. }
  rewrite SplitHostPort_no_colon by by apply contains_byte_TrimSpace. destruct (_ && _); apply Hne.
Qed.

Section cleartext.
Context `{HR : HeaderRange} `{MR : MapRange} (doh : resolver) (sys : system_dns).
Context (round_trip : way → http_request → option http_response).

Lemma dispatch_443 pool rule q :
  r_Mode rule ∈ ["transparent"; "tls-rf"] → r_Upstream rule = "" → r_Upstreams rule = [] → r_UseCFPool rule = false →
  q_scheme q = "http" → contains_byte colon (q_urlhost q) = false →
  resolve_or_system doh sys (normalizeHost (q_host q)) (r_DNSMode rule) ≠ [] →
  ∃ cs, cs ≠ [] ∧ Forall to_443 cs ∧ dispatch doh sys pool rule q = Some (q, OverCandidates cs).
Proof.
  intros Hm Hu Hus Hp Hsch Hc Hne. pose proof (resolved_to_443 doh sys (normalizeHost (q_host q)) (r_DNSMode rule)) as H443.
  unfold dispatch, default_port. rewrite Hsch. change (EqualFold "http" "https") with false. cbv iota.
  unfold buildDialCandidates. rewrite no_upstream, Hu, Hp by done. change (EqualFold (TrimSpace "") "warp") with false. cbv iota.
  rewrite bool_decide_true by (unfold dialling_modes; set_solver). change (negb (bool_decide (TrimSpace "" = ""))) with false. cbv iota zeta.
  set (cs := resolve_or_system doh sys _ _) in *. destruct (dedupe_to_443 cs H443) as [Hd Hdn].
  exists (dedupeDialCandidates cs). split; [by apply Hdn|]. split; [done|]. unfold nonempty_or.
  destruct cs as [|c cs']; [done|]. apply list.Forall_cons in H443 as [Hc443 _].
  destruct pool; cbn [mbind option_bind nonempty]; change (nonempty "") with false; cbv iota;
    (rewrite bool_decide_false by (intros ->; by apply (port_80 (q_urlhost q)))); done.
Qed.

(** A plain HTTP request under a transparent rule without an upstream goes to the
    TLS port: whenever the host resolves, every address the request is sent to, in
    the clear, ends in port 443, although the URL names port 80. *)
Theorem plain_http_dials_443 e pool rule q :
  r_Mode rule ∈ ["transparent"; "tls-rf"] → r_Upstream rule = "" → r_Upstreams rule = [] → r_UseCFPool rule = false →
  q_scheme q = "http" → q_urlhost q ≠ "" → contains_byte colon (q_urlhost q) = false →
  resolve_or_system doh sys (normalizeHost (q_host (completed (cloned q)))) (r_DNSMode rule) ≠ [] →
  q_scheme (completed (cloned q)) = "http" ∧
  ∃ cs, cs ≠ [] ∧ Forall to_443 cs ∧
    handleHTTP doh sys round_trip None "" e pool rule q = or_fails 502 (round_trip (OverCandidates cs) (completed (cloned q))).
Proof.
  intros Hm Hu Hus Hp Hsch Hh Hc Hne. assert (Hs' : q_scheme (completed (cloned q)) = "http") by (unfold completed, cloned; cbn; by rewrite Hsch).
  split; [done|]. assert (Hc' : contains_byte colon (q_urlhost (completed (cloned q))) = false).
  { unfold completed, cloned. cbn. by rewrite (proj2 (nonempty_true _) Hh). }
  destruct (dispatch_443 pool rule (completed (cloned q)) Hm Hu Hus Hp Hs' Hc' Hne) as (cs & Hcs & H443 & Hd).
  exists cs. split; [done|]. split; [done|]. unfold handleHTTP. change (nonempty "") with false. cbv iota.
  rewrite !elem_of_cons, elem_of_nil in Hm.
  assert (Hmodes : ∀ m, m ≠ "transparent" → m ≠ "tls-rf" → bool_decide (r_Mode rule = m) = false).
  { intros m H1 H2. apply bool_decide_eq_false. naive_solver. }
  rewrite !Hmodes by done. cbn [orb andb]. cbv zeta. by rewrite Hd.
Qed.

(** Under mitm and quic no plain request leaves: the client is sent to https. *)
Lemma mitm_redirects e pool rule q :
  r_Mode rule ∈ ["mitm"; "quic"] → q_scheme q = "http" →
  handleHTTP doh sys round_trip None "" e pool rule q = Redirects (url_text (set_scheme "https" (completed (cloned q)))).
Proof.
  intros Hm Hs. unfold handleHTTP. change (nonempty "") with false. cbv iota. rewrite !elem_of_cons in Hm.
  assert (Hs' : q_scheme (completed (cloned q)) = "http") by (unfold completed, cloned; cbn; by rewrite Hs).
  cbv zeta. rewrite Hs', (bool_decide_true ("http" = "http")) by done. by destruct Hm as [->|[->|[]%elem_of_nil]].
Qed.
End cleartext.

(** A request is sent to the local proxy twice at most, and every connection dialled is
    closed. *)
Lemma gas_http_bounded e direct gasAddr :
  let evs := fst (handleGASHTTP e direct gasAddr) in
  (length (List.filter (λ ev, match ev with GasSend _ => true | _ => false end) evs) <= 2)%nat ∧
  ∀ k, GasDial k true ∈ evs → GasClose k ∈ evs.
Proof.
  unfold handleGASHTTP. repeat (case_match; simplify_eq; cbn [fst app]); (split; [cbn; lia|]); intros k;
    rewrite ?elem_of_cons, ?elem_of_nil; naive_solver.
Qed.

(** ** Witnesses *)

Definition demo_script_relay (answer : jobject) (method url : string) (headers : gmap string string) (body : string) : option string :=
  match parseRelayJSON demo_fmt 1000 answer with Ok resp => Some resp | _ => None end.

Definition demo_http : http_request :=
  mkHTTPRequest "GET" "http" "plain.example.com" "/index.html" "plain.example.com" false [("Proxy-Connection", ["keep-alive"]); ("Accept", ["*/*"])] "".

Lemma relay_answer_written_witness :
  handleGASRelayHTTP (demo_script_relay demo_answer) demo_http =
    Responds (mkResponse 200 [("X-A", "1"); ("X-A", "2"); ("Content-Length", "5")] "hello") ∧
  handleGASRelayHTTP (demo_script_relay (("s", JNum 42) :: demo_answer)) demo_http = Panics.
Proof.
  split.
  - apply (relay_answer_written demo_fmt 1000 (demo_script_relay demo_answer) demo_http demo_answer
      (Stdlib.Strings.String.list_byte_of_string "hello")); [reflexivity|vm_compute; reflexivity|by vm_compute|by repeat constructor|by vm_compute|reflexivity|].
    intros m u h b resp Hr. unfold demo_script_relay. by rewrite Hr.
  - apply (relay_answer_written demo_fmt 1000 (demo_script_relay (("s", JNum 42) :: demo_answer)) demo_http (("s", JNum 42) :: demo_answer)
      (Stdlib.Strings.String.list_byte_of_string "hello")); [reflexivity|vm_compute; reflexivity|by vm_compute|by repeat constructor|by vm_compute|reflexivity|].
    intros m u h b resp Hr. unfold demo_script_relay. by rewrite Hr.
Defined.

Definition demo_sys : system_dns := λ _, Some [[93; 184; 216; 34]].

Definition demo_trip (w : way) (q : http_request) : option http_response :=
  match w with OverCandidates cs => Some (mkResponse 400 [] (Join cs " ")) | _ => None end.

Lemma plain_http_dials_443_witness :
  let sent := handleHTTP None demo_sys demo_trip None "" (mkGasEnv (λ _, false) (λ _, false) (λ _, None)) None (Rule_mode "transparent" false) demo_http in
  sent = Responds (mkResponse 400 [] "93.184.216.34:443") ∧
  ∃ cs, cs ≠ [] ∧ Forall to_443 cs ∧ sent = or_fails 502 (demo_trip (OverCandidates cs) (completed (cloned demo_http))).
Proof.
  split; [vm_compute; reflexivity|].
  refine (proj2 (plain_http_dials_443 None demo_sys demo_trip _ None (Rule_mode "transparent" false) demo_http _ _ _ _ _ _ _ _));
    [left|reflexivity..|discriminate|reflexivity|vm_compute; discriminate].
Defined.
