(* ===== verification/UpstreamTLS.v ===== *)
(** The TLS connection to an upstream in [proxy/proxy.go]: [GetUConn],
    [resolveRuleECHConfig] and [establishUpstreamConn] with its candidates, attempts,
    ECH refresh and fallback.

    The uTLS library, the dialer and the ECH lookups are arguments; dials and
    handshakes may answer differently each time, as a function of what has happened
    before.  A result is [None] when the call never returns: the pool's mutex is not
    released, or an ECH lookup waits for itself. *)

From Stdlib Require Import Strings.Byte.
From coqutil Require Import Datatypes.RecordSetters.
From S2P Require Import Prelude GoStrings GoNet GoBytes Types Hosts AutoRouting CFPool Settings Rules Dial CertVerify Connect Doh.
Import DoubleBraceUpdate.

Open Scope Z_scope.

(** * ECH lookups *)

(** What [FailoverResolver] promises: a lookup changes ECH profiles at most. *)
Record ech_resolver := mkEchResolver {
  resolve_ech : RuleManager → string → result (list byte);
  resolve_ech_safe : RuleManager → string → result (list byte);
  resolve_ech_keeps : ∀ rm domain r rm', resolve_ech rm domain = Some (r, rm') → same_but_profiles rm rm';
  resolve_ech_safe_keeps : ∀ rm domain r rm', resolve_ech_safe rm domain = Some (r, rm') → same_but_profiles rm rm';
}.

Section ech.
Context (save_answer : RuleManager → write_result RulesConfig) (dohResolver : option ech_resolver).

Definition FetchECH (rm : RuleManager) (domain : string) : result (list byte) :=
  match dohResolver with
  | None => Some (Err "no DoH resolver available", rm)
  | Some d => resolve_ech d rm domain
  end.

(** [p.UpdateECHProfileConfig] when the rule names a profile. *)
Definition sync_rule_profile (rule : Rule) (ech : list byte) (rm : RuleManager) : RuleManager :=
  if nonempty (r_ECHProfileID rule) then snd (UpdateECHProfileConfig (r_ECHProfileID rule) ech (save_answer rm) rm) else rm.

Definition resolveRuleECHConfig (rm : RuleManager) (host : string) (rule : Rule) : option (list byte * RuleManager) :=
  if negb (r_ECHEnabled rule) then Some ([], rm)
  else
    match (if nonempty (r_ECHProfileID rule) then default [] (GetBinaryECHConfig (r_ECHProfileID rule) rm) else []) with
    | b :: data => Some (b :: data, rm)
    | [] =>
        if r_ECHAutoUpdate rule then
          let domain := TrimSpace (r_ECHDiscoveryDomain rule) in
          match FetchECH rm (if nonempty domain then domain else host) with
          | None => None
          | Some (Ok (b :: ech), rm') => Some (b :: ech, sync_rule_profile rule (b :: ech) rm')
          | Some (_, rm') => Some ([], rm')
          end
        else Some ([], rm)
    end.
End ech.

(** * GetUConn *)

Inductive hello_id := HelloFirefox_120 | HelloChrome_120.

Definition h1_only (alpn : string) : bool := EqualFold (TrimSpace alpn) "http/1.1".

Definition chooseUTLSClientHelloID (alpn : string) : hello_id := if h1_only alpn then HelloFirefox_120 else HelloChrome_120.

(** An extension of a preset's ClientHello: the protocols offered, or another one. *)
Inductive hello_extension := ALPNExtension (protos : list string) | OtherExtension (id : Z).

(** The first list of protocols is replaced; a preset without one gets one at its end. *)
Fixpoint rewriteUTLSALPN (extensions : list hello_extension) (nextProtos : list string) : list hello_extension :=
  match extensions with
  | [] => [ALPNExtension nextProtos]
  | ALPNExtension _ :: rest => ALPNExtension nextProtos :: rest
  | other :: rest => other :: rewriteUTLSALPN rest nextProtos
  end.

(** The protocols a ClientHello offers. *)
Fixpoint offered (extensions : list hello_extension) : option (list string) :=
  match extensions with
  | [] => None
  | ALPNExtension protos :: _ => Some protos
  | _ :: rest => offered rest
  end.

Definition is_alpn (e : hello_extension) : bool := match e with ALPNExtension _ => true | _ => false end.

(** The preset keeps everything but its protocols, and offers those asked for. *)
Lemma rewriteUTLSALPN_offers extensions nextProtos :
  offered (rewriteUTLSALPN extensions nextProtos) = Some nextProtos ∧
  List.filter (negb ∘ is_alpn) (rewriteUTLSALPN extensions nextProtos) = List.filter (negb ∘ is_alpn) extensions.
Proof. induction extensions as [|[protos|id] rest [IH1 IH2]]; [done|done|]. split; [exact IH1|]. cbn. by f_equal. Qed.

Lemma rewriteUTLSALPN_idem extensions nextProtos :
  rewriteUTLSALPN (rewriteUTLSALPN extensions nextProtos) nextProtos = rewriteUTLSALPN extensions nextProtos.
Proof. induction extensions as [|[protos|id] rest IH]; [done|done|]. cbn. by f_equal. Qed.

(** [utls.Config], and the preset. *)
Record uconfig := mkUConfig {
  uc_ServerName : string;
  uc_InsecureSkipVerify : bool;
  uc_EncryptedClientHelloConfigList : list byte;
  uc_NextProtos : list string;
  uc_VerifyConnection : option (list certificate → option conn_error);
  uc_InsecureServerNameToVerify : string;
  uc_hello : hello_id;
}.

Section uconn.
Context (sha256 : list byte → list byte) (verify_chain : list certificate → option string → option verify_error).
Context (certBypassMap : gset string).

Definition GetUConn (sni verifyName : string) (rule : Rule) (allowInsecure : bool) (alpn : string) (echConfig : list byte) : uconfig :=
  let verifyConn := buildVerifyConnection sha256 verify_chain verifyName (r_CertVerify rule) in
  let skipVerify := allowInsecure || negb (bool_decide (cv_Mode (r_CertVerify rule) = "")) in
  let bypassed := bool_decide (normalizeHost verifyName ∈ certBypassMap) in
  let skipVerify := skipVerify || bypassed in
  let verifyConn := if bypassed then None else verifyConn in
  let ech := match echConfig with [] => false | _ => true end in
  mkUConfig (if nonempty sni then sni else verifyName) (if ech then false else skipVerify) echConfig
    (if h1_only alpn then ["http/1.1"] else ["h2"; "http/1.1"])
    (if ech then None else verifyConn) (if ech then "*" else "") (chooseUTLSClientHelloID alpn).

(** * establishUpstreamConn *)

(** How a server answers a ClientHello. *)
Inductive peer_answer :=
  | Presents (certs : list certificate) (alpn : string)
  | RejectsECH                                     (** [ECHRejectionError] *)
  | Breaks.

Inductive up_event :=
  | UDial (addr : string) (ok : bool)
  | UHello (addr : string) (cfg : uconfig)
  | UReport (ev : conn_event)
  | UClose (addr : string).

Record up_env := mkUpEnv {
  up_dial : list up_event → string → bool;
  up_peer : list up_event → string → uconfig → peer_answer;
}.

Record up_state := mkUpState { up_log : list up_event; up_pool : option CloudflarePool; up_rm : RuleManager }.

Definition record (evs : list up_event) (st : up_state) : up_state := mkUpState (up_log st ++ evs) (up_pool st) (up_rm st).

Definition with_manager (rm : RuleManager) (st : up_state) : up_state := mkUpState (up_log st) (up_pool st) rm.

(** The connection, its configuration, the certificates shown and the protocol. *)
Record up_conn := mkUpConn { uc_addr : string; uc_cfg : uconfig; uc_certs : list certificate; uc_alpn : string }.

Inductive up_error := DialFailed (addr : string) | HandshakeFailed (addr : string).

Inductive attempt_end := Established (c : up_conn) | Retry | NextCandidate (e : up_error).

(** [accepts cfg certs]: uTLS's verdict. *)
Context `{MR : MapRange} (accepts : uconfig → list certificate → bool).
Context (save_answer : RuleManager → write_result RulesConfig) (dohResolver : option ech_resolver) (e : up_env).

Definition report_up (rule : Rule) (ok : bool) (addr : string) (st : up_state) : option up_state :=
  (λ r, mkUpState (up_log st ++ (UReport <$> fst r)) (snd r) (up_rm st)) <$> report ok (r_UseCFPool rule) addr (up_pool st).

(** The refresh after a rejection: the state when a new configuration was found. *)
Definition refresh (host : string) (rule : Rule) (st : up_state) : option (bool * up_state) :=
  match dohResolver with
  | None => Some (false, st)
  | Some d =>
      let domain := r_ECHDiscoveryDomain rule in
      match resolve_ech_safe d (up_rm st) (if nonempty domain then domain else host) with
      | None => None
      | Some (Ok (b :: ech), rm) => Some (true, with_manager (sync_rule_profile save_answer rule (b :: ech) rm) st)
      | Some (_, rm) => Some (false, with_manager rm st)
      end
  end.

(** What is sent to the server. *)
Definition hello (host : string) (rule : Rule) (alpn : string) (ech : list byte) : uconfig :=
  let targetSNI := match ech with [] => chooseUpstreamSNI host rule | _ => host end in
  let allowInsecure := match ech with [] => IsZero (r_CertVerify rule) | _ => false end in
  GetUConn targetSNI host rule allowInsecure alpn ech.

Definition attempt (host : string) (rule : Rule) (alpn : string) (first : bool) (addr : string) (st : up_state)
    : option (attempt_end * up_state) :=
  '(ech, rm) ← resolveRuleECHConfig save_answer dohResolver (up_rm st) host rule;
  let st := with_manager rm st in
  if negb (up_dial e (up_log st) addr) then
    (λ st, (NextCandidate (DialFailed addr), st)) <$> report_up rule false addr (record [UDial addr false] st)
  else
    let cfg := hello host rule alpn ech in
    let st := record [UDial addr true; UHello addr cfg] st in
    let failed st := (λ st, (NextCandidate (HandshakeFailed addr), st)) <$> report_up rule false addr st in
    match up_peer e (up_log st) addr cfg with
    | Presents certs proto =>
        if accepts cfg certs then
          (λ st, (Established (mkUpConn addr cfg certs proto), st)) <$> report_up rule true addr st
        else failed (record [UClose addr] st)
    | RejectsECH =>
        let st := record [UClose addr] st in
        if first && r_ECHEnabled rule then
          '(found, st) ← refresh host rule st;
          if (found : bool) then Some (Retry, st) else failed st
        else failed st
    | Breaks => failed (record [UClose addr] st)
    end.

(** The two attempts on one candidate. *)
Definition try_candidate (host : string) (rule : Rule) (alpn : string) (addr : string) (st : up_state)
    : option (attempt_end * up_state) :=
  '(r, st) ← attempt host rule alpn true addr st;
  match r with
  | Retry => attempt host rule alpn false addr st
  | _ => Some (r, st)
  end.

(** The loop over the candidates; a second [Retry] would leave the inner loop without
    an error. *)
Fixpoint try_candidates (host : string) (rule : Rule) (alpn : string) (addrs : list string) (st : up_state)
    : option ((list up_error + up_conn) * up_state) :=
  match addrs with
  | [] => Some (inl [], st)
  | addr :: addrs =>
      '(r, st) ← try_candidate host rule alpn addr st;
      match r with
      | Established c => Some (inr c, st)
      | Retry => try_candidates host rule alpn addrs st
      | NextCandidate err =>
          '(r, st) ← try_candidates host rule alpn addrs st;
          Some (match r with inl errs => inl (err :: errs) | inr c => inr c end, st)
      end
  end.

Definition ordered (host : string) (candidates : list string) : list string :=
  match candidates with [] => [JoinHostPort host "443"] | _ => candidates end.

Definition fallback_rule (rule : Rule) (mode : string) : Rule :=
  let r := set_Mode rule mode in
  mkRule (r_Domain r) (r_Upstream r) (r_Upstreams r) (r_DNSMode r) (r_Mode r) (r_SniFake r)
    (r_ConnectPolicy r) (r_SniPolicy r) (r_Enabled r) (r_SiteID r) false
    (r_ECHProfileID r) (r_UseCFPool r) (r_ECHDiscoveryDomain r) (r_ECHDoHUpstream r)
    (r_ECHAutoUpdate r) (r_CertVerify r) (r_AutoRouted r) (r_FallbackMode r).

(** The mode a failed rule falls back to. *)
Definition falls_back (rule : Rule) : bool :=
  let fallback := norm (r_FallbackMode rule) in
  (bool_decide (fallback = "tls-rf") || bool_decide (fallback = "quic")) && negb (bool_decide (fallback = r_Mode rule)).

Definition no_candidate_tried : string := "all candidates failed with unknown error".

(** [inl]: the errors of the candidates of the last round. *)
Fixpoint establish_rounds (fuel : nat) (host : string) (rule : Rule) (candidates : list string) (initialALPN : string) (st : up_state)
    : option (outcome (list up_error + up_conn) * up_state) :=
  match fuel with
  | O => Some (Panic, st)
  | S fuel' =>
      '(r, st) ← try_candidates host rule (if nonempty initialALPN then initialALPN else "h2_h1") (ordered host candidates) st;
      match r with
      | inr c => Some (Ok (inr c), st)
      | inl [] => Some (Err no_candidate_tried, st)
      | inl errs =>
          if falls_back rule then establish_rounds fuel' host (fallback_rule rule (norm (r_FallbackMode rule))) candidates initialALPN st
          else Some (Ok (inl errs), st)
      end
  end.

Definition establishUpstreamConn := establish_rounds 2.
End uconn.

(** * What a run does *)

(** How often an address was dialled, and how often it stands in a list. *)
Definition up_dials (a : string) (evs : list up_event) : nat :=
  length (List.filter (λ ev, match ev with UDial addr _ => bool_decide (addr = a) | _ => false end) evs).
Definition occurrences (a : string) (l : list string) : nat := length (List.filter (λ x, bool_decide (x = a)) l).
Definition up_opens (evs : list up_event) : nat := length (List.filter (λ ev, match ev with UDial _ ok => ok | _ => false end) evs).
Definition up_closes (evs : list up_event) : nat := length (List.filter (λ ev, match ev with UClose _ => true | _ => false end) evs).

Lemma up_dials_app x a b : up_dials x (a ++ b) = (up_dials x a + up_dials x b)%nat.
Proof. unfold up_dials. by rewrite List.filter_app, length_app. Qed.

Lemma up_opens_app a b : up_opens (a ++ b) = (up_opens a + up_opens b)%nat.
Proof. unfold up_opens. by rewrite List.filter_app, length_app. Qed.

Lemma up_closes_app a b : up_closes (a ++ b) = (up_closes a + up_closes b)%nat.
Proof. unfold up_closes. by rewrite List.filter_app, length_app. Qed.

Hint Rewrite up_dials_app up_opens_app up_closes_app : up_counts.

Lemma occurrences_cons a x l : occurrences a (x :: l) = (occurrences a [x] + occurrences a l)%nat.
Proof. unfold occurrences. cbn. by case_bool_decide. Qed.

Lemma up_reports_count a (evs : list conn_event) :
  up_dials a (UReport <$> evs) = 0%nat ∧ up_opens (UReport <$> evs) = 0%nat ∧ up_closes (UReport <$> evs) = 0%nat.
Proof. induction evs as [|ev evs IH]; [done|exact IH]. Qed.

Section sync.
Context (save_answer : RuleManager → write_result RulesConfig) (dohResolver : option ech_resolver).

Lemma sync_rule_same rule ech rm : same_but_profiles rm (sync_rule_profile save_answer rule ech rm).
Proof. unfold sync_rule_profile. destruct (nonempty _); [|done]. apply (sync_same save_answer). Qed.

Lemma resolve_rule_same rm host rule ech rm' :
  resolveRuleECHConfig save_answer dohResolver rm host rule = Some (ech, rm') →
  same_but_profiles rm rm' ∧ (ech ≠ [] → r_ECHEnabled rule = true).
Proof.
  unfold resolveRuleECHConfig. destruct (r_ECHEnabled rule); [|by intros [= <- <-]]. cbn [negb].
  destruct (if nonempty _ then _ else _); [|by intros [= <- <-]]. destruct (r_ECHAutoUpdate rule); [|by intros [= <- <-]].
  unfold FetchECH. destruct dohResolver as [d|]; [|by intros [= <- <-]].
  destruct (resolve_ech d rm _) as [[r rm1]|] eqn:E; [|done]. apply resolve_ech_keeps in E.
  destruct r as [[|b l]|e|]; intros [= <- <-]; (split; [|done]); [done| |done|done].
  etrans; [exact E|apply sync_rule_same].
Qed.
End sync.

Section runs.
Context (sha256 : list byte → list byte) (verify_chain : list certificate → option string → option verify_error).
Context (certBypassMap : gset string) `{MR : MapRange} (accepts : uconfig → list certificate → bool).
Context (save_answer : RuleManager → write_result RulesConfig) (dohResolver : option ech_resolver) (e : up_env).

Notation hello := (hello sha256 verify_chain certBypassMap).
Notation attempt := (attempt sha256 verify_chain certBypassMap accepts save_answer dohResolver e).
Notation try_candidate := (try_candidate sha256 verify_chain certBypassMap accepts save_answer dohResolver e).
Notation try_candidates := (try_candidates sha256 verify_chain certBypassMap accepts save_answer dohResolver e).
Notation establish_rounds := (establish_rounds sha256 verify_chain certBypassMap accepts save_answer dohResolver e).
Notation establishUpstreamConn := (establishUpstreamConn sha256 verify_chain certBypassMap accepts save_answer dohResolver e).

(** A part of the run: it dials each address at most [k] times for each time it stands in the
    list, leaves [open] connections open, and the manager keeps everything but its
    profiles. *)
Definition run (st st' : up_state) (k : nat) (l : list string) (open : nat) : Prop :=
  ∃ evs, up_log st' = up_log st ++ evs ∧ (∀ a, (up_dials a evs <= k * occurrences a l)%nat) ∧ up_opens evs = (up_closes evs + open)%nat ∧
    same_but_profiles (up_rm st) (up_rm st').

Lemma run_app st st1 st2 k1 k2 l1 l2 k l o1 o2 :
  run st st1 k1 l1 o1 → run st1 st2 k2 l2 o2 →
  (∀ a, (k1 * occurrences a l1 + k2 * occurrences a l2 <= k * occurrences a l)%nat) → run st st2 k l (o1 + o2).
Proof.
  intros (e1 & H1 & D1 & O1 & M1) (e2 & H2 & D2 & O2 & M2) Hk. exists (e1 ++ e2). rewrite H2, H1, app_assoc.
  split; [done|]. split; [|autorewrite with up_counts; split; [lia|by etrans]].
  intros a. autorewrite with up_counts. specialize (D1 a). specialize (D2 a). specialize (Hk a). lia.
Qed.

(** A part that dials nothing. *)
Lemma run_quiet st st1 st2 k l o : run st st1 k l o → run st1 st2 0 [] 0 → run st st2 k l o.
Proof. intros H1 H2. rewrite <- (Nat.add_0_r o). eapply run_app; [exact H1|exact H2|]. cbn. lia. Qed.

Lemma quiet_run st st1 st2 k l o : run st st1 0 [] 0 → run st1 st2 k l o → run st st2 k l o.
Proof. intros H1 H2. rewrite <- (Nat.add_0_l o). eapply run_app; [exact H1|exact H2|]. cbn. lia. Qed.

Lemma run_mono st st' k l k' l' o : run st st' k l o → (∀ a, (k * occurrences a l <= k' * occurrences a l')%nat) → run st st' k' l' o.
Proof. intros H Hk. rewrite <- (Nat.add_0_r o). eapply (run_app _ st' _ k 0 l []); [done|exists []; rewrite app_nil_r; by split_and!|cbn; intros a; specialize (Hk a); lia]. Qed.

Lemma run_manager st rm : same_but_profiles (up_rm st) rm → run st (with_manager rm st) 0 [] 0.
Proof. intros H. exists []. by rewrite app_nil_r. Qed.

Lemma run_record st evs k l o :
  (∀ a, (up_dials a evs <= k * occurrences a l)%nat) → up_opens evs = (up_closes evs + o)%nat → run st (record evs st) k l o.
Proof. intros Hd Ho. by exists evs. Qed.

Lemma run_report rule ok addr st st' : report_up rule ok addr st = Some st' → run st st' 0 [] 0.
Proof.
  unfold report_up. intros ([evs p] & _ & ->)%fmap_Some. destruct (up_reports_count "" evs) as (_ & Ho & Hc).
  exists (UReport <$> evs). rewrite Ho, Hc. split_and!; try done. intros a. cbn [fst]. by rewrite (proj1 (up_reports_count a evs)).
Qed.

Lemma run_refresh host rule st r st' : refresh save_answer dohResolver host rule st = Some (r, st') → run st st' 0 [] 0.
Proof.
  unfold refresh. destruct dohResolver as [d|]; [|intros [= _ <-]; by exists []; rewrite app_nil_r].
  destruct (resolve_ech_safe d _ _) as [[a rm]|] eqn:E; [|done]. apply resolve_ech_safe_keeps in E.
  destruct a as [[|b l]|err|]; intros [= _ <-]; apply run_manager; try done. etrans; [exact E|apply sync_rule_same].
Qed.

(** The connection of a run over these candidates. *)
Definition connected (host : string) (rule : Rule) (alpn : string) (addrs : list string) (c : up_conn) : Prop :=
  uc_addr c ∈ addrs ∧ accepts (uc_cfg c) (uc_certs c) = true ∧
  ∃ ech, uc_cfg c = hello host rule alpn ech ∧ (ech ≠ [] → r_ECHEnabled rule = true).

Lemma run_failed rule addr st st0 k l st' r :
  run st st0 k l 0 →
  (λ st, (NextCandidate (HandshakeFailed addr), st)) <$> report_up rule false addr st0 = Some (r, st') →
  run st st' k l 0 ∧ r = NextCandidate (HandshakeFailed addr).
Proof.
  intros Hr (st1 & Hst & [= -> ->])%fmap_Some. apply run_report in Hst. split; [|done]. by eapply run_quiet.
Qed.

Lemma attempt_runs host rule alpn first addr st r st' :
  attempt host rule alpn first addr st = Some (r, st') →
  match r with
  | Established c => run st st' 1 [addr] 1 ∧ connected host rule alpn [addr] c
  | Retry => run st st' 1 [addr] 0 ∧ first = true
  | NextCandidate _ => run st st' 1 [addr] 0
  end.
Proof.
  unfold UpstreamTLS.attempt. destruct (resolveRuleECHConfig _ _ _ _ _) as [[ech rm]|] eqn:Ee; [|done]. cbn [mbind option_bind].
  apply resolve_rule_same in Ee as [Hrm Hech]. apply run_manager in Hrm. set (st0 := with_manager rm st) in *.
  assert (Hrun : ∀ evs o, (∀ a, (up_dials a evs <= 1 * occurrences a [addr])%nat) → up_opens evs = (up_closes evs + o)%nat → run st (record evs st0) 1 [addr] o).
  { intros evs o Hd Ho. eapply quiet_run; [exact Hrm|by apply run_record]. }
  assert (Hone : ∀ ok rest a, (∀ b, up_dials b rest = 0%nat) → (up_dials a (UDial addr ok :: rest) <= 1 * occurrences a [addr])%nat).
  { intros ok rest a H0. specialize (H0 a). unfold up_dials, occurrences in *. cbn. case_bool_decide; cbn; lia. }
  destruct (up_dial e _ addr); cbn [negb].
  2: { intros (st1 & Hst & [= -> ->])%fmap_Some. apply run_report in Hst. eapply run_quiet; [|exact Hst]. apply Hrun; [intros a; by apply Hone|done]. }
  set (cfg := hello host rule alpn ech). set (st2 := record _ st0).
  assert (Hclosed : run st (record [UClose addr] st2) 1 [addr] 0).
  { unfold st2, record. cbn [up_log up_pool up_rm]. rewrite <- app_assoc. apply (Hrun ([_; _] ++ [_])); [intros a; by apply Hone|done]. }
  assert (Hfail := λ st' r, run_failed rule addr st _ 1 [addr] st' r Hclosed).
  destruct (up_peer e _ addr cfg) as [certs proto| |].
  - destruct (accepts cfg certs) eqn:Ha; [|intros H; apply Hfail in H as [? ->]; done].
    intros (st1 & Hst & [= -> ->])%fmap_Some. apply run_report in Hst. split.
    + eapply run_quiet; [|exact Hst]. apply Hrun; [intros a; by apply Hone|done].
    + split; [set_solver|]. split; [done|]. by exists ech.
  - destruct (first && r_ECHEnabled rule) eqn:Hf; [|intros H; apply Hfail in H as [? ->]; done].
    apply andb_prop in Hf as [-> _]. destruct (refresh _ _ host rule _) as [[found st3]|] eqn:Er; [|done]. cbn [mbind option_bind].
    apply run_refresh in Er. assert (H3 : run st st3 1 [addr] 0) by (by eapply run_quiet).
    destruct found; [by intros [= <- <-]|]. intros H. by apply (run_failed rule addr st _ 1 [addr]) in H as [? ->].
  - intros H; apply Hfail in H as [? ->]; done.
Qed.

Lemma try_candidate_runs host rule alpn addr st r st' :
  try_candidate host rule alpn addr st = Some (r, st') →
  match r with
  | Established c => run st st' 2 [addr] 1 ∧ connected host rule alpn [addr] c
  | Retry => False
  | NextCandidate _ => run st st' 2 [addr] 0
  end.
Proof.
  unfold UpstreamTLS.try_candidate. destruct (attempt host rule alpn true addr st) as [[r1 st1]|] eqn:E1; [|done]. cbn [mbind option_bind].
  apply attempt_runs in E1. destruct r1 as [c| |err].
  - intros [= <- <-]. destruct E1 as [Hr Hc]. split; [|done]. eapply run_mono; [done|intros a; lia].
  - intros E2. apply attempt_runs in E2. destruct E1 as [E1 _].
    destruct r as [c| |err]; [destruct E2 as [E2 Hc]; split; [|done]|by destruct E2|]; (eapply (run_app _ st1 _ 1 1 _ _ _ _ 0); [exact E1|exact E2|intros a; lia]).
  - intros [= <- <-]. eapply run_mono; [done|intros a; lia].
Qed.

Lemma connected_mono host rule alpn l l' c : l ⊆ l' → connected host rule alpn l c → connected host rule alpn l' c.
Proof. intros Hl (Hin & H). split; [by apply Hl|done]. Qed.

Lemma try_candidates_runs host rule alpn addrs : ∀ st r st',
  try_candidates host rule alpn addrs st = Some (r, st') →
  match r with
  | inr c => run st st' 2 addrs 1 ∧ connected host rule alpn addrs c
  | inl errs => run st st' 2 addrs 0 ∧ length errs = length addrs
  end.
Proof.
  induction addrs as [|addr addrs IH]; intros st r st'; cbn [UpstreamTLS.try_candidates].
  { intros [= <- <-]. split; [|done]. exists []. rewrite app_nil_r. by split_and!. }
  destruct (try_candidate host rule alpn addr st) as [[r1 st1]|] eqn:E1; [|done]. cbn [mbind option_bind].
  apply try_candidate_runs in E1. destruct r1 as [c| |err]; [|done|].
  - intros [= <- <-]. destruct E1 as [Hr Hc]. split; [eapply run_mono; [done|intros a; rewrite (occurrences_cons a addr addrs); lia]|].
    eapply connected_mono; [|done]. set_solver.
  - destruct (try_candidates host rule alpn addrs st1) as [[r2 st2]|] eqn:E2; [|done]. cbn [mbind option_bind].
    apply IH in E2. intros [= <- <-]. destruct r2 as [errs|c]; destruct E2 as [Hr Hc].
    + split; [eapply (run_app _ st1 _ 2 2 _ _ _ _ 0); [exact E1|exact Hr|intros a; rewrite (occurrences_cons a addr addrs); lia]|cbn; lia].
    + split; [eapply (run_app _ st1 _ 2 2 _ _ _ _ 0); [exact E1|exact Hr|intros a; rewrite (occurrences_cons a addr addrs); lia]|]. eapply connected_mono; [|done]. set_solver.
Qed.

Lemma fallback_once rule : falls_back (fallback_rule rule (norm (r_FallbackMode rule))) = false.
Proof. unfold falls_back. cbn [fallback_rule r_FallbackMode r_Mode set_Mode]. by rewrite (bool_decide_true (norm (r_FallbackMode rule) = norm (r_FallbackMode rule))), andb_false_r. Qed.

Lemma ordered_nonempty host candidates : ordered host candidates ≠ [].
Proof. by destruct candidates. Qed.

(** The rule of the last round. *)
Definition last_rule (rule rule' : Rule) : Prop :=
  rule' = rule ∨ falls_back rule = true ∧ rule' = fallback_rule rule (norm (r_FallbackMode rule)).

Notation alpn_of initialALPN := (if nonempty initialALPN then initialALPN else "h2_h1").

(** Either a connection, the only one left open, or an error for every candidate and
    nothing left open. *)
Definition settled (host : string) (rule : Rule) (candidates : list string) (alpn : string) (st st' : up_state) (k : nat)
    (r : outcome (list up_error + up_conn)) : Prop :=
  (∃ c rule', r = Ok (inr c) ∧ run st st' k (ordered host candidates) 1 ∧ last_rule rule rule' ∧ connected host rule' (alpn_of alpn) (ordered host candidates) c) ∨
  (∃ errs, r = Ok (inl errs) ∧ run st st' k (ordered host candidates) 0 ∧ length errs = length (ordered host candidates)).

(** One round. *)
Lemma establish_round n host rule candidates alpn st r st' :
  establish_rounds (S n) host rule candidates alpn st = Some (r, st') →
  settled host rule candidates alpn st st' 2 r ∨
  falls_back rule = true ∧ ∃ st1, run st st1 2 (ordered host candidates) 0 ∧
    establish_rounds n host (fallback_rule rule (norm (r_FallbackMode rule))) candidates alpn st1 = Some (r, st').
Proof.
  cbn [UpstreamTLS.establish_rounds]. destruct (try_candidates _ _ _ _ st) as [[[errs|c] st1]|] eqn:E; [..|done]; cbn [mbind option_bind].
  - apply try_candidates_runs in E as [Hr Hl]. destruct errs as [|err errs].
    { pose proof (ordered_nonempty host candidates). by destruct (ordered host candidates). }
    destruct (falls_back rule); [intros H; right; split; [done|]; by exists st1|].
    intros [= <- <-]. left. right. by exists (err :: errs).
  - apply try_candidates_runs in E as [Hr Hc]. intros [= <- <-]. left. left. exists c, rule. split_and!; [done|done|by left|done].
Qed.

(** Fuel 2 is enough: a rule falls back once at most. *)
Lemma establish_fuel n host rule candidates alpn st :
  establish_rounds (S (S n)) host rule candidates alpn st = establishUpstreamConn host rule candidates alpn st.
Proof.
  unfold UpstreamTLS.establishUpstreamConn. cbn [UpstreamTLS.establish_rounds].
  destruct (try_candidates _ _ _ _ st) as [[[[|err errs]|c] st1]|]; [done| |done..]. cbn [mbind option_bind].
  destruct (falls_back rule); [|done]. destruct (try_candidates _ _ _ _ st1) as [[[[|err' errs']|c] st2]|]; [done| |done..].
  cbn [mbind option_bind]. by rewrite fallback_once.
Qed.

Lemma establish_settles n host rule candidates alpn st r st' :
  establish_rounds (S (S n)) host rule candidates alpn st = Some (r, st') →
  settled host rule candidates alpn st st' 4 r.
Proof.
  intros [H|(Hf & st1 & H1 & H2)]%establish_round.
  - destruct H as [(c & rule' & -> & Hr & H)|(errs & -> & Hr & H)]; (apply (run_mono _ _ _ _ 4 (ordered host candidates)) in Hr; [|intros a; lia]).
    + left. by exists c, rule'.
    + right. by exists errs.
  - apply establish_round in H2 as [H2|[Hf2 _]]; [|by rewrite fallback_once in Hf2].
    destruct H2 as [(c & rule' & -> & Hr & Hl & H)|(errs & -> & Hr & H)]; pose proof (run_app _ _ _ _ _ _ _ 4 (ordered host candidates) _ _ H1 Hr ltac:(intros a; lia)) as Hr'.
    + left. exists c, rule'. split_and!; [done|done| |done]. destruct Hl as [->|[Hl _]]; [by right|by rewrite fallback_once in Hl].
    + right. exists errs. by split_and!.
Qed.

(** C19: Connecting to an upstream falls back once at most, however often it may call
    itself, and dials no address more than four times for each time it is a candidate, and
    nothing else.  When it returns, it returns a
    connection of one of the candidates, which uTLS accepted and which is the only one
    left open, or one error for each candidate and no open connection; it never panics,
    never ends without having tried, and the rules, groups, upstreams and settings are
    what they were. *)
Theorem upstream_settles n host rule candidates alpn st r st' :
  establish_rounds (S (S n)) host rule candidates alpn st = Some (r, st') →
  settled host rule candidates alpn st st' 4 r.
Proof. apply establish_settles. Qed.

(** * What uTLS is asked to verify *)

(** What [crypto/tls] documents, and uTLS adds for the name ["*"]: unless told to skip it
    the client verifies the chain for the server's name, then it asks the callback. *)
Definition tls_policy : Prop := ∀ cfg certs,
  accepts cfg certs = true ↔
    (uc_InsecureSkipVerify cfg = false →
       verify_chain certs (if bool_decide (uc_InsecureServerNameToVerify cfg = "*") then None else Some (uc_ServerName cfg)) = None) ∧
    (∀ verify, uc_VerifyConnection cfg = Some verify → verify certs = None).

Lemma hello_accepts host rule alpn ech certs :
  tls_policy →
  accepts (hello host rule alpn ech) certs = true ↔
    match ech with
    | _ :: _ => verify_chain certs None = None
    | [] =>
        normalizeHost host ∈ certBypassMap ∨ IsZero (r_CertVerify rule) = true ∨
        (cv_Mode (r_CertVerify rule) = "" →
           verify_chain certs (Some (let sni := chooseUpstreamSNI host rule in if nonempty sni then sni else host)) = None) ∧
        match buildVerifyConnection sha256 verify_chain host (r_CertVerify rule) with
        | Some verify => verify certs = None
        | None => True
        end
    end.
Proof.
  intros Hp. unfold tls_policy in Hp. rewrite Hp. unfold UpstreamTLS.hello, GetUConn. destruct ech as [|b ech]; cbn [uc_InsecureSkipVerify uc_VerifyConnection uc_InsecureServerNameToVerify uc_ServerName].
  2: { split; [intros [H _]; by apply H|intros H; split; [intros _; exact H|by intros]]. }
  change (bool_decide ("" = "*")) with false. cbv iota zeta.
  destruct (decide (normalizeHost host ∈ certBypassMap)) as [Hb|Hb].
  { rewrite (bool_decide_true (normalizeHost host ∈ certBypassMap)), !orb_true_r by done. split; [by left|by intros _]. }
  rewrite (bool_decide_false (normalizeHost host ∈ certBypassMap)), !orb_false_r by done.
  destruct (IsZero (r_CertVerify rule)) eqn:Hz; cbn [orb].
  - split; [by right; left|]. intros _. split; [done|]. unfold buildVerifyConnection, normalizeCertVerifyConfig.
    unfold IsZero in Hz. destruct (r_CertVerify rule) as [m ns sf sp au]. cbn in Hz |- *.
    do 4 apply andb_prop in Hz as [Hz ?]. destruct ns, sf, sp; try done. by rewrite Hz.
  - split.
    + intros [Hc Hv]. right. right. split; [intros Hm; apply Hc; by rewrite bool_decide_true|]. destruct (buildVerifyConnection _ _ _ _); [by apply Hv|done].
    + intros [?|[?|[Hc Hv]]]; [done..|]. split; [intros Hm; apply Hc; by apply negb_false_iff, bool_decide_eq_true in Hm|]. intros verify Hb'. by rewrite Hb' in Hv.
Qed.

(** C9: What it takes to be accepted as an upstream.  With an ECH configuration: a
    trusted chain, for whatever name, whatever the rule's verification settings and
    the bypass list say.  Without: nothing at all for a bypassed host and for a rule
    without verification settings; otherwise the rule's own callback, and a chain for
    the name sent when the settings name no mode. *)
Theorem upstream_accepts_iff host rule alpn ech certs :
  tls_policy →
  accepts (hello host rule alpn ech) certs = true ↔
    match ech with
    | _ :: _ => verify_chain certs None = None
    | [] =>
        normalizeHost host ∈ certBypassMap ∨ IsZero (r_CertVerify rule) = true ∨
        (cv_Mode (r_CertVerify rule) = "" →
           verify_chain certs (Some (let sni := chooseUpstreamSNI host rule in if nonempty sni then sni else host)) = None) ∧
        match buildVerifyConnection sha256 verify_chain host (r_CertVerify rule) with
        | Some verify => verify certs = None
        | None => True
        end
    end.
Proof. exact (hello_accepts host rule alpn ech certs). Qed.

(** ** The refresh after a rejection *)

(** What a lookup finds after a rejection is what the second attempt sends, provided the
    rule has a profile to keep it in. *)
Lemma refresh_used d host rule st b ech rm :
  dohResolver = Some d → r_ECHEnabled rule = true → r_ECHProfileID rule ≠ "" →
  resolve_ech_safe d (up_rm st) (if nonempty (r_ECHDiscoveryDomain rule) then r_ECHDiscoveryDomain rule else host) = Some (Ok (b :: ech), rm) →
  is_Some (List.find (has_epID (r_ECHProfileID rule)) (echProfiles rm)) →
  ∃ st', refresh save_answer dohResolver host rule st = Some (true, st') ∧
    resolveRuleECHConfig save_answer dohResolver (up_rm st') host rule = Some (b :: ech, up_rm st').
Proof.
  intros Hd He Hid Hr Hp. unfold refresh. rewrite Hd, Hr. eexists. split; [reflexivity|].
  unfold resolveRuleECHConfig, sync_rule_profile. rewrite He, (proj2 (nonempty_true _) Hid). cbn [negb with_manager up_rm].
  destruct (UpdateECHProfileConfig _ _ _ rm) as [r rm'] eqn:E. cbn [snd].
  by rewrite (ECHConfig_roundtrip _ (b :: ech) _ _ _ _ Hid ltac:(done) Hp E).
Qed.

(** The policy "none" sends the host: an empty name is replaced by the one to verify. *)
Lemma policy_none_sends_host host rule alpn :
  norm (r_SniPolicy rule) = "none" → uc_ServerName (hello host rule alpn []) = host.
Proof.
  intros Hn. unfold UpstreamTLS.hello, GetUConn. cbn [uc_ServerName].
  assert (chooseUpstreamSNI host rule = "") as ->; [|done]. unfold chooseUpstreamSNI. by rewrite Hn.
Qed.

(** ** The fallback against an attacker *)

Lemma report_off ok rule addr st : r_UseCFPool rule = false → report_up rule ok addr st = Some (record [] st).
Proof. intros H. unfold report_up, report, record. rewrite H. by destruct (up_pool st). Qed.

Section attacker.
Context (certs : list certificate) (proto : string).
(** An attacker on the path lets every connection through, breaks each handshake that
    carries an ECH configuration, and answers the others with certificates of its own. *)
Context (dials_ok : ∀ log addr, up_dial e log addr = true).
Context (breaks_ech : ∀ log addr cfg,
  up_peer e log addr cfg = match uc_EncryptedClientHelloConfigList cfg with [] => Presents certs proto | _ => Breaks end).
Context (policy : tls_policy).

Lemma broken_attempt host rule alpn first addr st b data :
  r_ECHEnabled rule = true → r_UseCFPool rule = false → r_ECHProfileID rule ≠ "" →
  GetBinaryECHConfig (r_ECHProfileID rule) (up_rm st) = Some (b :: data) →
  ∃ st', attempt host rule alpn first addr st = Some (NextCandidate (HandshakeFailed addr), st') ∧ up_rm st' = up_rm st.
Proof.
  intros He Hp Hid Hd. unfold UpstreamTLS.attempt, resolveRuleECHConfig. rewrite He, (proj2 (nonempty_true _) Hid), Hd.
  cbn [negb default from_option id mbind option_bind]. rewrite dials_ok. cbn [negb]. rewrite breaks_ech.
  cbn [UpstreamTLS.hello GetUConn uc_EncryptedClientHelloConfigList]. rewrite report_off by done. by eexists.
Qed.

Lemma broken_round host rule alpn addrs b data : ∀ st,
  r_ECHEnabled rule = true → r_UseCFPool rule = false → r_ECHProfileID rule ≠ "" →
  GetBinaryECHConfig (r_ECHProfileID rule) (up_rm st) = Some (b :: data) →
  ∃ st', try_candidates host rule alpn addrs st = Some (inl (HandshakeFailed <$> addrs), st').
Proof.
  induction addrs as [|addr addrs IH]; intros st He Hp Hid Hd; [by eexists|]. cbn [UpstreamTLS.try_candidates UpstreamTLS.try_candidate].
  destruct (broken_attempt host rule alpn true addr st b data) as (st1 & H1 & Hrm); [done..|]. unfold UpstreamTLS.try_candidate. rewrite H1.
  cbn [mbind option_bind]. rewrite <- Hrm in Hd. destruct (IH st1) as (st2 & ->); [done..|]. by eexists.
Qed.

(** C8: The fallback gives up what ECH was chosen for.  A rule with an ECH profile, a
    secure fallback and no verification settings of its own is connected to the
    attacker, whatever certificates it shows, none included: the last round sends the
    name in the clear and verifies nothing.  Without the fallback the attacker only
    makes the connection fail. *)
Theorem ech_downgrade host rule candidates alpn st b data :
  r_ECHEnabled rule = true → r_ECHProfileID rule ≠ "" → GetBinaryECHConfig (r_ECHProfileID rule) (up_rm st) = Some (b :: data) →
  IsZero (r_CertVerify rule) = true → r_UseCFPool rule = false →
  if falls_back rule then
    ∃ addr cfg st', establishUpstreamConn host rule candidates alpn st = Some (Ok (inr (mkUpConn addr cfg certs proto)), st') ∧
      uc_EncryptedClientHelloConfigList cfg = [] ∧
      uc_ServerName cfg = (let sni := chooseUpstreamSNI host rule in if nonempty sni then sni else host)
  else ∃ st', establishUpstreamConn host rule candidates alpn st = Some (Ok (inl (HandshakeFailed <$> ordered host candidates)), st').
Proof.
  intros He Hid Hd Hz Hp. unfold UpstreamTLS.establishUpstreamConn. cbn [UpstreamTLS.establish_rounds].
  destruct (broken_round host rule (alpn_of alpn) (ordered host candidates) b data st) as (st1 & ->); [done..|]. cbn [mbind option_bind].
  destruct (ordered host candidates) as [|addr addrs] eqn:Eo; [by destruct (ordered_nonempty host candidates)|]. cbn [fmap list_fmap].
  destruct (falls_back rule); [|by eexists]. set (rule' := fallback_rule rule _).
  cbn [UpstreamTLS.try_candidates]. unfold UpstreamTLS.try_candidate, UpstreamTLS.attempt, resolveRuleECHConfig.
  cbn [r_ECHEnabled rule' fallback_rule negb mbind option_bind]. rewrite dials_ok. cbn [negb].
  rewrite breaks_ech. change (uc_EncryptedClientHelloConfigList (hello host rule' (alpn_of alpn) [])) with (@nil byte). cbv iota.
  rewrite (proj2 (hello_accepts host rule' (alpn_of alpn) [] certs policy)) by (right; left; exact Hz).
  rewrite report_off by done. cbn [fmap option_fmap option_map mbind option_bind].
  do 3 eexists. split; [reflexivity|]. done.
Qed.
End attacker.
End runs.

(** * The resolver behind the interface *)

Section doh.
Context (parse_url : string → option (string * string)) (Fqdn : string → string) (dial_ok : string → bool).
Context (over_tls : DNSNode → list byte → question → http_result) (over_quic : DNSNode → list string → list byte → question → http_result).
Context (arrivals : list DNSNode → list DNSNode) (sys : system_dns) (schedule : string → list bool)
  (save_answer : RuleManager → write_result RulesConfig).
Context (arrivals_perm : ∀ l, arrivals l ≡ₚ l).

Notation exch fuel := (exchange parse_url Fqdn dial_ok over_tls over_quic arrivals sys schedule save_answer fuel).

Lemma ResolveECH_keeps fuel rm domain r rm' : ResolveECH Fqdn (exch fuel) rm domain = Some (r, rm') → same_but_profiles rm rm'.
Proof.
  unfold ResolveECH. destruct (exch fuel rm _) as [[[l|err|] rm1]|] eqn:E; [|by intros [= _ <-]; eapply exchange_keeps..|done].
  eapply exchange_keeps in E; [|done]. cbn [rbind]. by destruct (ech_of_answers l); intros [= _ <-].
Qed.

(** [p.dohResolver], with exchanges [fuel] deep. *)
Definition doh_resolver (fuel : nat) : ech_resolver :=
  mkEchResolver (ResolveECH Fqdn (exch fuel)) (ResolveECHSafe parse_url Fqdn dial_ok over_tls over_quic sys schedule save_answer (exch fuel))
    (ResolveECH_keeps fuel) (λ rm domain r rm', safe_keeps parse_url Fqdn dial_ok over_tls over_quic sys schedule save_answer (exch fuel) rm domain r rm' (exchange_keeps parse_url Fqdn dial_ok over_tls over_quic arrivals sys schedule save_answer arrivals_perm fuel)).

(** The rule that [getNodeClient] makes of a node, with the URL's host. *)
Definition node_rule (host : string) (node : DNSNode) : Rule :=
  mkRule "" "" [] "" "" (if nonempty (dn_SNI node) then dn_SNI node else host) ""
    (if nonempty (dn_SNI node) then "fake" else "upstream") false "" (dn_ECHEnabled node) (dn_ECHProfileID node) false "" ""
    (dn_ECHAutoUpdate node) (dn_CertVerify node) false "".

(** The lookups that a node's client makes are those of its rule. *)
Lemma node_lookup_agrees fuel rm host node :
  Doh.resolveRuleECHConfig Fqdn save_answer (exch fuel) rm host node =
  resolveRuleECHConfig save_answer (Some (doh_resolver fuel)) rm host (node_rule host node).
Proof.
  unfold Doh.resolveRuleECHConfig, resolveRuleECHConfig, FetchECH, sync_rule_profile, sync_profile. cbn.
  destruct (dn_ECHEnabled node); [|done]. cbn. destruct (if nonempty _ then _ else _) as [|b l] eqn:E; [|done].
  destruct (dn_ECHAutoUpdate node); [|done]. done.
Qed.

(** So are the addresses of a QUIC node those that [newQUICRoundTripper] builds for its rule. *)
Lemma node_candidates_agree `{MR : MapRange} doh pool host node :
  buildDialCandidates doh sys pool host (JoinHostPort host "443") (node_rule host node) "quic" =
  Some (nonempty_or (resolve_or_system doh sys host "") [JoinHostPort host "443"]).
Proof.
  unfold buildDialCandidates. change (TrimSpace (r_Upstream (node_rule host node))) with "". change (r_UseCFPool (node_rule host node)) with false.
  change (r_DNSMode (node_rule host node)) with "". change (resolveRuleUpstream host (node_rule host node)) with "".
  cbn. by destruct pool.
Qed.
End doh.

Section node.
Context (sha256 : list byte → list byte) (verify_chain : list certificate → option string → option verify_error).
Context (certBypassMap : gset string) (accepts : uconfig → list certificate → bool) (policy : tls_policy verify_chain accepts).

(** The ClientHello of a node's client. *)
Definition node_hello (host : string) (node : DNSNode) (ech : list byte) : uconfig :=
  let rule := node_rule host node in
  let verifyName := if nonempty (r_SniFake rule) then r_SniFake rule else host in
  GetUConn sha256 verify_chain certBypassMap (r_SniFake rule) verifyName rule (cv_AllowUnknownAuthority (dn_CertVerify node)) "http/1.1" ech.

(** Unlike an upstream, a resolver without settings is verified, for the name it is
    asked for. *)
Lemma node_verified host node certs :
  host ≠ "" → dn_CertVerify node = CertVerify_zero → normalizeHost (r_SniFake (node_rule host node)) ∉ certBypassMap →
  accepts (node_hello host node []) certs = true ↔ verify_chain certs (Some (r_SniFake (node_rule host node))) = None.
Proof.
  intros Hh Hz Hb. unfold tls_policy in policy. rewrite policy.
  assert (Hs : nonempty (r_SniFake (node_rule host node)) = true).
  { apply nonempty_true. cbn. destruct (nonempty (dn_SNI node)) eqn:E; [by apply nonempty_true|done]. }
  unfold node_hello, GetUConn. rewrite Hs. cbn [uc_InsecureSkipVerify uc_VerifyConnection uc_InsecureServerNameToVerify uc_ServerName].
  rewrite (bool_decide_false (normalizeHost (r_SniFake (node_rule host node)) ∈ certBypassMap)) by done. change (r_CertVerify (node_rule host node)) with (dn_CertVerify node). rewrite Hz.
  change (bool_decide ("" = "*")) with false. cbv iota. split; [intros [H _]; by apply H|intros H; split; [done|]].
  by intros verify.
Qed.

(** Allowing an unknown authority without a mode allows everything. *)
Lemma node_unverified host node certs :
  cv_Mode (dn_CertVerify node) = "" → cv_Names (dn_CertVerify node) = [] → cv_Suffixes (dn_CertVerify node) = [] →
  cv_SPKISHA256 (dn_CertVerify node) = [] → cv_AllowUnknownAuthority (dn_CertVerify node) = true →
  accepts (node_hello host node []) certs = true.
Proof.
  intros Hm Hn Hs Hp Hu. unfold tls_policy in policy. rewrite policy. unfold node_hello, GetUConn.
  cbn [uc_InsecureSkipVerify uc_VerifyConnection]. rewrite Hu. split; [done|].
  change (r_CertVerify (node_rule host node)) with (dn_CertVerify node). unfold buildVerifyConnection, normalizeCertVerifyConfig.
  destruct (dn_CertVerify node) as [m ns sf sp u]. cbn in *. subst. cbn. by destruct (bool_decide (_ ∈ _)).
Qed.
End node.

(** ** Witnesses *)

(** The documented policy, as a function. *)
Definition policy_accepts (verify_chain : list certificate → option string → option verify_error) (cfg : uconfig) (certs : list certificate) : bool :=
  (uc_InsecureSkipVerify cfg
   || negb (bool_decide (is_Some (verify_chain certs (if bool_decide (uc_InsecureServerNameToVerify cfg = "*") then None else Some (uc_ServerName cfg))))))
  && match uc_VerifyConnection cfg with Some verify => negb (bool_decide (is_Some (verify certs))) | None => true end.

Lemma not_some_None {A} (o : option A) : negb (bool_decide (is_Some o)) = true ↔ o = None.
Proof. by destruct o. Qed.

Lemma policy_accepts_ok verify_chain : tls_policy verify_chain (policy_accepts verify_chain).
Proof.
  intros cfg certs. unfold policy_accepts. rewrite andb_true_iff, orb_true_iff.
  destruct (uc_InsecureSkipVerify cfg), (uc_VerifyConnection cfg) as [verify|]; rewrite ?not_some_None; naive_solver.
Qed.

(** A chain is trusted when its leaf names the host. *)
Definition demo_chain (certs : list certificate) (name : option string) : option verify_error :=
  match certs, name with
  | [], _ => Some (OtherVerifyError "no certificate")
  | leaf :: _, Some n => if bool_decide (CommonName leaf = n) then None else Some (OtherVerifyError "name")
  | _, None => None
  end.

Definition demo_cert (name : string) : certificate := mkCert name [] [].

Definition ech_rule (fallback : string) : Rule :=
  mkRule "" "" [] "" "mitm" "" "" "" true "" true "p" false "" "" false CertVerify_zero false fallback.

Definition ech_manager : RuleManager := demo_rm {{ echProfiles := [mkECHProfile "p" "P" "AAEC" "" "" true] }}.

Definition ech_start : up_state := mkUpState [] None ech_manager.

Definition no_save (rm : RuleManager) : write_result RulesConfig := Written.

(** The first address refuses; the second breaks ECH. *)
Definition demo_upstream : up_env :=
  mkUpEnv (λ _ addr, negb (bool_decide (addr = "192.0.2.1:443")))
    (λ _ _ cfg, match uc_EncryptedClientHelloConfigList cfg with [] => Presents [demo_cert "example.com"] "h2" | _ => RejectsECH end).

Definition attacker_env : up_env :=
  mkUpEnv (λ _ _, true) (λ _ _ cfg, match uc_EncryptedClientHelloConfigList cfg with [] => Presents [] "h2" | _ => Breaks end).

Lemma upstream_settles_witness :
  ∃ r st', establish_rounds (λ _, []) demo_chain ∅ (policy_accepts demo_chain) no_save None demo_upstream 5 "example.com" (ech_rule "tls-rf")
      ["192.0.2.1:443"; "192.0.2.2:443"] "" ech_start = Some (r, st') ∧ up_dials "192.0.2.2:443" (up_log st') = 2%nat ∧
    settled (λ _, []) demo_chain ∅ (policy_accepts demo_chain) "example.com" (ech_rule "tls-rf") ["192.0.2.1:443"; "192.0.2.2:443"] "" ech_start st' 4 r.
Proof.
  eexists _, _. split; [vm_compute; reflexivity|]. split; [reflexivity|].
  apply (upstream_settles (λ _, []) demo_chain ∅ (policy_accepts demo_chain) no_save None demo_upstream 3 "example.com" (ech_rule "tls-rf")
    ["192.0.2.1:443"; "192.0.2.2:443"] "" ech_start). vm_compute. reflexivity.
Defined.

Lemma upstream_accepts_iff_witness :
  policy_accepts demo_chain (hello (λ _, []) demo_chain ∅ "example.com" (ech_rule "") "h2_h1" [x01]) [demo_cert "other.com"] = true ∧
  policy_accepts demo_chain (hello (λ _, []) demo_chain ∅ "example.com" (ech_rule "") "h2_h1" []) [] = true.
Proof.
  split; apply (upstream_accepts_iff (λ _, []) demo_chain ∅ (policy_accepts demo_chain)); [apply policy_accepts_ok|reflexivity|apply policy_accepts_ok|].
  right. left. reflexivity.
Defined.

Lemma ech_downgrade_witness :
  ∃ addr cfg st', establishUpstreamConn (λ _, []) demo_chain ∅ (policy_accepts demo_chain) no_save None attacker_env "example.com" (ech_rule "tls-rf")
      ["192.0.2.1:443"] "" ech_start = Some (Ok (inr (mkUpConn addr cfg [] "h2")), st') ∧
    uc_EncryptedClientHelloConfigList cfg = [] ∧ uc_ServerName cfg = "example.com".
Proof.
  apply (ech_downgrade (λ _, []) demo_chain ∅ (policy_accepts demo_chain) no_save None attacker_env [] "h2" (λ _ _, eq_refl) (λ _ _ _, eq_refl)
    (policy_accepts_ok demo_chain) "example.com" (ech_rule "tls-rf") ["192.0.2.1:443"] "" ech_start x00 [x01; x02]);
    [reflexivity|discriminate|vm_compute; reflexivity|reflexivity|reflexivity].
Defined.
