(* ===== verification/MITM.v ===== *)
(** The transports of [proxy/proxy.go] that end the client's TLS: [handleMITM],
    [handleServerMITM] and [handleQUICMITM], with the certificates they show
    ([generateCert], [makeMITMTLSConfig]) and the headers they drop
    ([removeHopByHopHeaders]).

    The client's TLS handshake, HTTP/3 and what an upstream answers are arguments, as is when a
    connection breaks; what the transports do to their connections is part of a run.  The
    certificate authority is an abstract value.  Headers are maps from canonical names,
    as [net/http] keeps them. *)

From Stdlib Require Import Strings.Byte.
From S2P Require Import Prelude GoStrings GoNet GoBytes GoText Types Hosts AutoRouting CFPool Settings Rules Dial CertVerify Connect Doh PlainHTTP UpstreamTLS.

Open Scope Z_scope.

(** * Headers *)

Notation header := (gmap string (list string)).

Definition hopByHopHeaders : list string :=
  ["Proxy-Connection"; "Keep-Alive"; "Proxy-Authenticate"; "Proxy-Authorization"; "Te"; "Trailer"; "Transfer-Encoding"].

Definition ascii_space (c : ascii) : bool := contains_byte c (" " +:+ String (ascii_of_nat 9) CRLF).

(** [textproto.TrimString]. *)
Definition TrimString (s : string) : string := trim_by ascii_space s.

(** [Header.Del] and [Header.Get]: the first value. *)
Definition header_del (name : string) (h : header) : header := delete (canonical_key name) h.

Definition header_get (name : string) (h : header) : string :=
  match h !! canonical_key name with Some (v :: _) => v | _ => "" end.

Definition del_named (f : string) (h : header) : header :=
  let name := TrimString f in
  if nonempty name && negb (EqualFold name "Upgrade") then header_del name h else h.

Definition removeHopByHopHeaders (h : header) : header :=
  let c := header_get "Connection" h in
  let h := if nonempty c then foldl (λ h f, del_named f h) h (Split c ",") else h in
  let h := foldl (λ h name, header_del name h) h hopByHopHeaders in
  header_del "Connection" h.

(** Copying with [Header.Add]: a name without values is not copied. *)
Definition copy_header (h : header) : header := filter (λ kv, kv.2 ≠ []) h.

(** * The certificates shown to clients *)

Record leaf (CA : Type) := mkLeaf { leaf_host : string; leaf_issuer : CA; leaf_notBefore : Z; leaf_notAfter : Z }.
Arguments mkLeaf {CA}.
Arguments leaf_host {CA}.
Arguments leaf_issuer {CA}.
Arguments leaf_notBefore {CA}.
Arguments leaf_notAfter {CA}.

(** [p.certCache], by host. *)
Notation cert_cache CA := (gmap string (leaf CA)).

Section certs.
Context {CA : Type}.

(** 24 hours, in seconds. *)
Definition leaf_lifetime : Z := 24 * 3600.

(** [made]: the key and the certificate could be made.  Without an authority, signing
    dereferences a nil key. *)
Definition generateCert (host : string) (ca : option CA) (now : Z) (made : bool) (cache : cert_cache CA) : outcome (leaf CA) * cert_cache CA :=
  let host := normalizeHost host in
  match cache !! host, ca with
  | Some cert, _ => (Ok cert, cache)
  | None, None => (Panic, cache)
  | None, Some ca =>
      if made then let cert := mkLeaf host ca now (now + leaf_lifetime) in (Ok cert, <[host := cert]> cache)
      else (Err "generate", cache)
  end.

(** [GetCertificate] of [makeMITMTLSConfig]. *)
Definition GetCertificate (connectHost clientSNI : string) (ca : option CA) (now : Z) (made : bool) (cache : cert_cache CA)
    : outcome (leaf CA) * cert_cache CA :=
  let connectHost := normalizeHost connectHost in
  let clientSNI := normalizeHost clientSNI in
  generateCert (if nonempty clientSNI then clientSNI else connectHost) ca now made cache.

Definition ClearCertCache (_ : cert_cache CA) : cert_cache CA := ∅.

(** What happens to the cache: handshakes under the authority of the time, and the
    reload of the authority. *)
Inductive cert_op := Handshake (connectHost clientSNI : string) (ca : option CA) (now : Z) (made : bool) | ClearCache.

Definition cert_step (cache : cert_cache CA) (op : cert_op) : cert_cache CA :=
  match op with
  | Handshake connectHost clientSNI ca now made => snd (GetCertificate connectHost clientSNI ca now made cache)
  | ClearCache => ClearCertCache cache
  end.

Definition is_clear (op : cert_op) : bool := match op with ClearCache => true | _ => false end.

(** [p.certGenerator]: nil, an interface that holds a nil manager, or a manager with its
    authority. *)
Inductive generator := NoGenerator | NilManager | Manager (ca : option CA).
End certs.

Arguments cert_op : clear implicits.
Arguments generator : clear implicits.

(** * handleMITM *)

Definition nextProtosForNegotiatedALPN (alpn : string) : list string :=
  if EqualFold (TrimSpace alpn) "h2" then ["h2"] else ["http/1.1"].

(** [negotiateALPN] of [crypto/tls]: the first protocol of the server that the client
    offers; a client of HTTP/1.1 and a server of HTTP/2 only go on without a protocol. *)
Definition negotiateALPN (server client : list string) : option string :=
  match server, client with
  | [], _ | _, [] => Some ""
  | _, _ =>
      match List.filter (λ s, bool_decide (s ∈ client)) server with
      | s :: _ => Some s
      | [] => if bool_decide ("h2" ∈ server) && bool_decide ("http/1.1" ∈ client) then Some "" else None
      end
  end.

(** The client's side of the handshake: the name and the protocols it offers, and
    whether it likes the certificate. *)
Record mitm_client (CA : Type) := mkMitmClient { mc_sni : string; mc_protos : list string; mc_accepts : leaf CA → bool }.
Arguments mkMitmClient {CA}.
Arguments mc_sni {CA}.
Arguments mc_protos {CA}.
Arguments mc_accepts {CA}.

(** The handshake with the client: the protocol agreed on. *)
Definition client_handshake {CA} (client : mitm_client CA) (host : string) (nextProtos : list string) (ca : option CA) (now : Z) (made : bool)
    (cache : cert_cache CA) : outcome string * cert_cache CA :=
  match negotiateALPN nextProtos (mc_protos client) with
  | None => (Err "no application protocol", cache)
  | Some proto =>
      let '(cert, cache') := GetCertificate host (mc_sni client) ca now made cache in
      (match cert with
       | Ok cert => if mc_accepts client cert then Ok proto else Err "handshake"
       | Err err => Err err
       | Panic => Panic
       end, cache')
  end.

(** ** Requests inside the client's TLS *)

(** [w_path] and [w_query] are [EscapedPath] and [RawQuery]. *)
Record web_request := mkWebRequest { w_method : string; w_path : string; w_query : string; w_header : header; w_body : string }.

Record web_response := mkWebResponse { v_status : Z; v_header : header; v_body : string }.

(** A request as it leaves. *)
Record out_request := mkOutRequest { o_method : string; o_url : string; o_host : string; o_header : header; o_body : string }.

Inductive web_reply := Reply (r : web_response) | ReplyError (code : Z).

Definition url_path (p : string) : string := if negb (nonempty p) || negb (HasPrefix p "/") then "/" +:+ TrimPrefix p "/" else p.

Definition with_query (url query : string) : string := if nonempty query then url +:+ "?" +:+ query else url.

Definition worker_url (serverHost serverAuth host : string) (q : web_request) : string :=
  with_query ("https://" +:+ serverHost +:+ "/" +:+ serverAuth +:+ "/" +:+ host +:+ url_path (w_path q)) (w_query q).

Definition worker_request (serverHost serverAuth host : string) (q : web_request) : out_request :=
  mkOutRequest (w_method q) (worker_url serverHost serverAuth host q) serverHost (removeHopByHopHeaders (copy_header (w_header q))) (w_body q).

Definition quic_request (host : string) (q : web_request) : out_request :=
  mkOutRequest (w_method q) (with_query ("https://" +:+ host +:+ url_path (w_path q)) (w_query q)) host
    (removeHopByHopHeaders (copy_header (w_header q))) (w_body q).

(** The answer as the client gets it. *)
Definition returned (r : web_response) : web_response :=
  mkWebResponse (v_status r) (copy_header (removeHopByHopHeaders (v_header r))) (v_body r).

(** [valid]: [http.NewRequest] accepts the method and the URL.  [answers]: what comes
    back for the k-th request. *)
Definition forward (valid : out_request → bool) (answers : nat → out_request → option web_response) (k : nat) (o : out_request) : web_reply :=
  if negb (valid o) then ReplyError 500
  else match answers k o with Some r => Reply (returned r) | None => ReplyError 502 end.

(** * The handlers *)

Inductive mitm_event :=
  | MUpstream (evs : list up_event)
  | MTunnel (client upstream : string)             (** the two protocols *)
  | MSend (k : nat)                                (** the transport writes the k-th request to the upstream connection *)
  | MUpstreamGone                                  (** it closes that connection, which broke *)
  | MQuicDial (addr : string) (ok : bool)
  | MQuicSend (k : nat) (addr : string)
  | MQuicGone                                      (** the QUIC connection is lost *)
  | MQuicClose                                     (** [quicTransport.Close()] *)
  | MReply (r : web_reply)
  | MPanic                                         (** not recovered by the handler *)
  | MCloseClient
  | MCloseUpstream.

Section sessions.
Context (valid : out_request → bool) (breaks : nat → bool) (make : web_request → out_request).

(** The requests of a client over the one upstream connection of the server mode; [breaks k]
    when it is gone after the k-th.  The HTTP/2 connection then fails by itself, while the
    transport of HTTP/1 dials, and the dialer hands it the same connection again. *)
Fixpoint server_session (h2 : bool) (answers : nat → out_request → option web_response) (alive : bool) (k : nat) (qs : list web_request) : list mitm_event :=
  match qs with
  | [] => []
  | q :: qs =>
      let o := make q in
      if negb (valid o) then MReply (forward valid answers k o) :: server_session h2 answers alive (S k) qs
      else if alive then
        MSend k :: MReply (forward valid answers k o) ::
          (if breaks k then [MUpstreamGone] else []) ++ server_session h2 answers (negb (breaks k)) (S k) qs
      else (if h2 then [] else [MSend k]) ++ MReply (forward valid (λ _ _, None) k o) :: server_session h2 answers false (S k) qs
  end.

(** [Dial] of the HTTP/3 transport: the first candidate that answers. *)
Fixpoint quic_dial (ok : string → bool) (candidates : list string) : list mitm_event * option string :=
  match candidates with
  | [] => ([], None)
  | c :: candidates =>
      if ok c then ([MQuicDial c true], Some c)
      else let '(evs, r) := quic_dial ok candidates in (MQuicDial c false :: evs, r)
  end.

(** The transport keeps its connection for the requests that follow and dials when it has
    none. *)
Fixpoint quic_session (dials : nat → string → bool) (answers : nat → string → out_request → option web_response) (candidates : list string)
    (conn : option string) (k : nat) (qs : list web_request) : list mitm_event :=
  match qs with
  | [] => []
  | q :: qs =>
      let o := make q in
      if negb (valid o) then MReply (ReplyError 500) :: quic_session dials answers candidates conn (S k) qs
      else
        let '(evs, conn) := match conn with Some addr => ([], Some addr) | None => quic_dial (dials k) candidates end in
        evs ++
          match conn with
          | None => MReply (ReplyError 502) :: quic_session dials answers candidates None (S k) qs
          | Some addr =>
              MQuicSend k addr :: MReply (forward valid (λ k o, answers k addr o) k o) ::
                (if breaks k then [MQuicGone] else []) ++
                quic_session dials answers candidates (if breaks k then None else Some addr) (S k) qs
          end
  end.
End sessions.

(** The addresses in the order they are tried: the one already found good first. *)
Definition mitm_order (dialCandidates : list string) (initialDialAddr : string) : list string :=
  (if nonempty (TrimSpace initialDialAddr) then [initialDialAddr] else []) ++
  List.filter (λ c, nonempty (TrimSpace c) && negb (bool_decide (c = initialDialAddr))) dialCandidates.

(** The addresses of the server mode; [None] when the pool never answers. *)
Fixpoint unseen (seen addrs : list string) : list string :=
  match addrs with
  | [] => []
  | a :: addrs => if bool_decide (a ∈ seen) then unseen seen addrs else a :: unseen (a :: seen) addrs
  end.

(** The HTTP/3 client's TLS configuration. *)
Record quic_config := mkQuicConfig {
  qc_ServerName : string;
  qc_InsecureSkipVerify : bool;
  qc_EncryptedClientHelloConfigList : list byte;
  qc_VerifyConnection : option (list certificate → option conn_error);
}.

Section mitm.
Context {CA : Type}.
Context (sha256 : list byte → list byte) (verify_chain : list certificate → option string → option verify_error).
Context (certBypassMap : gset string) `{MR : MapRange} (accepts : uconfig → list certificate → bool).
Context (save_answer : RuleManager → write_result RulesConfig) (dohResolver : option ech_resolver) (e : up_env).

Notation establishUpstreamConn := (establishUpstreamConn sha256 verify_chain certBypassMap accepts save_answer dohResolver e).

(** The result is [None] when the upstream is neither reached nor given up.  A panic is
    recovered and closes the client. *)
Definition handleMITM (client : mitm_client CA) (host : string) (rule : Rule) (dialCandidates : list string) (initialDialAddr : string)
    (certGenerator : generator CA) (now : Z) (made : bool) (cache : cert_cache CA) (st : up_state)
    : option (list mitm_event * cert_cache CA * up_state) :=
  match certGenerator with
  | Manager (Some ca) =>
      '(r, st') ← establishUpstreamConn host rule (mitm_order dialCandidates initialDialAddr) "" st;
      let up := MUpstream (drop (length (up_log st)) (up_log st')) in
      match r with
      | Ok (inr c) =>
          let '(proto, cache') := client_handshake client host (nextProtosForNegotiatedALPN (uc_alpn c)) (Some ca) now made cache in
          Some (up :: match proto with
                      | Ok proto => [MTunnel proto (uc_alpn c); MCloseUpstream; MCloseClient; MCloseUpstream]
                      | Err _ => [MCloseClient; MCloseUpstream; MCloseUpstream]
                      | Panic => [MCloseUpstream; MCloseClient]
                      end, cache', st')
      | _ => Some ([up; MCloseClient], cache, st')
      end
  | _ => Some ([MCloseClient], cache, st)
  end.

(** ** Server mode *)

Definition server_candidates (rule : Rule) (serverHost : string) (pool : option CloudflarePool) : option (list string) :=
  ips ← match pool with
        | Some p => if r_UseCFPool rule then GetTopIPs 5 p else Some []
        | None => Some []
        end;
  Some (unseen [] (((λ ip, JoinHostPort ip "443") <$> ips) ++ [JoinHostPort serverHost "443"])).

(** The requests that the client sends are [qs]; [wraps]: the HTTP/2 preface could be written.
    [Serve] returns when the server has closed the client's connection. *)
Definition handleServerMITM (client : mitm_client CA) (host : string) (rule : Rule) (serverHost serverAuth : string)
    (certGenerator : generator CA) (now : Z) (made : bool) (valid : out_request → bool) (answers : nat → out_request → option web_response)
    (breaks : nat → bool) (wraps : bool) (qs : list web_request) (cache : cert_cache CA) (st : up_state)
    : option (list mitm_event * cert_cache CA * up_state) :=
  match certGenerator with
  | NoGenerator => Some ([MCloseClient], cache, st)
  | NilManager => Some ([MCloseClient; MPanic], cache, st)
  | Manager ca =>
      let '(proto, cache) := client_handshake client host ["http/1.1"] ca now made cache in
      match proto with
      | Err _ => Some ([MCloseClient], cache, st)
      | Panic => Some ([MCloseClient; MPanic], cache, st)
      | Ok _ =>
          if negb (nonempty serverHost) then Some ([MCloseClient], cache, st)
          else
            candidates ← server_candidates rule serverHost (up_pool st);
            '(r, st') ← establishUpstreamConn serverHost rule candidates "" st;
            let up := MUpstream (drop (length (up_log st)) (up_log st')) in
            Some (match r with
                  | Ok (inr c) =>
                      let h2 := bool_decide (uc_alpn c = "h2") in
                      up :: (if h2 && negb wraps then []
                             else server_session valid breaks (worker_request serverHost serverAuth host) h2 answers true 0 qs ++ [MCloseClient])
                        ++ [MCloseUpstream; MCloseClient]
                  | _ => [up; MCloseClient]
                  end, cache, st')
      end
  end.

(** ** QUIC mode *)

(** The configuration with the manager after the ECH lookup; [None] when the lookup never ends. *)
Definition newQUICConfig (host : string) (rule : Rule) (rm : RuleManager) : option (quic_config * RuleManager) :=
  let sniHost := let sni := chooseUpstreamSNI host rule in if nonempty sni then sni else host in
  '(ech, rm) ← (if r_ECHEnabled rule then resolveRuleECHConfig save_answer dohResolver rm host rule else Some ([], rm));
  let verifyConn := buildVerifyConnection sha256 verify_chain host (r_CertVerify rule) in
  Some (match ech with
        | [] => mkQuicConfig sniHost true [] verifyConn
        | _ => mkQuicConfig host false ech None
        end, rm).

Context (doh : resolver) (sys : system_dns).

Definition quic_candidates (host : string) (rule : Rule) (pool : option CloudflarePool) : option (list string) :=
  let targetAddr := JoinHostPort host "443" in
  candidates ← buildDialCandidates doh sys pool host targetAddr rule "quic";
  Some (match candidates with [] => [targetAddr] | _ => candidates end).

(** [quic_dials k cfg addr]: a dial for the k-th request; [answers k addr o]: what comes back
    over a connection to the address. *)
Definition handleQUICMITM (client : mitm_client CA) (host : string) (rule : Rule) (certGenerator : generator CA) (now : Z) (made : bool)
    (valid : out_request → bool) (quic_dials : nat → quic_config → string → bool) (answers : nat → string → out_request → option web_response)
    (breaks : nat → bool) (qs : list web_request) (cache : cert_cache CA) (st : up_state) : option (list mitm_event * cert_cache CA * up_state) :=
  match certGenerator with
  | NoGenerator => Some ([MCloseClient], cache, st)
  | NilManager => Some ([MCloseClient; MPanic], cache, st)
  | Manager ca =>
      let '(proto, cache) := client_handshake client host ["http/1.1"] ca now made cache in
      match proto with
      | Err _ => Some ([MCloseClient], cache, st)
      | Panic => Some ([MCloseClient; MPanic], cache, st)
      | Ok _ =>
          candidates ← quic_candidates host rule (up_pool st);
          '(cfg, rm) ← newQUICConfig host rule (up_rm st);
          Some (quic_session valid breaks (quic_request host) (λ k, quic_dials k cfg) answers candidates None 0 qs
                  ++ [MCloseClient; MQuicClose; MCloseClient], cache, with_manager rm st)
      end
  end.
End mitm.

(** * What is dropped from the headers *)

(** The names that the first value of Connection lists, but Upgrade. *)
Definition connection_names (h : header) : list string :=
  omap (λ f, let name := TrimString f in if nonempty name && negb (EqualFold name "Upgrade") then Some (canonical_key name) else None)
    (Split (header_get "Connection" h) ",").

Definition hop_by_hop (h : header) (k : string) : bool :=
  bool_decide (k ∈ connection_names h) || bool_decide (k ∈ "Connection" :: hopByHopHeaders).

Lemma lookup_deleted (n k : string) (l : list string) (h : header) :
  (if bool_decide (k ∈ l) then None else delete n h !! k) = if bool_decide (k ∈ n :: l) then None else h !! k.
Proof.
  destruct (decide (k ∈ l)) as [Hl|Hl]; [by rewrite !bool_decide_true by (done || by right)|]. rewrite (bool_decide_false (k ∈ l)) by done.
  destruct (decide (k = n)) as [->|Hk]; [by rewrite bool_decide_true, lookup_delete_eq by left|].
  rewrite bool_decide_false by (rewrite elem_of_cons; tauto). by rewrite lookup_delete_ne.
Qed.

Lemma del_named_lookup fs k : ∀ h,
  foldl (λ h f, del_named f h) h fs !! k =
    if bool_decide (k ∈ omap (λ f, let name := TrimString f in if nonempty name && negb (EqualFold name "Upgrade") then Some (canonical_key name) else None) fs)
    then None else h !! k.
Proof.
  induction fs as [|f fs IH]; intros h; [done|]. cbn [foldl omap list_omap]. rewrite IH. unfold del_named at 1, header_del.
  cbv zeta. destruct (_ && _); [|done]. apply lookup_deleted.
Qed.

Lemma header_del_all names k : ∀ h : header,
  foldl (λ h name, header_del name h) h names !! k = if bool_decide (k ∈ canonical_key <$> names) then None else h !! k.
Proof.
  induction names as [|n names IH]; intros h; [done|]. cbn [foldl fmap list_fmap]. rewrite IH. apply lookup_deleted.
Qed.

(** What [removeHopByHopHeaders] leaves of a header: everything but the fixed
    hop-by-hop names, Connection itself, and the names that the first Connection line
    lists; Upgrade survives a mention there, but the Connection line that goes with it
    does not. *)
Theorem hop_by_hop_removed h k :
  removeHopByHopHeaders h !! k = if hop_by_hop h k then None else h !! k.
Proof.
  unfold removeHopByHopHeaders, hop_by_hop, header_del at 1. change (canonical_key "Connection") with "Connection".
  destruct (decide (k = "Connection")) as [->|Hk]; [by rewrite lookup_delete_eq, orb_true_r|]. rewrite lookup_delete_ne by done.
  rewrite header_del_all. change (canonical_key <$> hopByHopHeaders) with hopByHopHeaders.
  assert (bool_decide (k ∈ "Connection" :: hopByHopHeaders) = bool_decide (k ∈ hopByHopHeaders)) as ->.
  { apply bool_decide_ext. rewrite elem_of_cons. tauto. }
  destruct (bool_decide (k ∈ hopByHopHeaders)); [by rewrite orb_true_r|]. rewrite orb_false_r. unfold connection_names.
  destruct (nonempty (header_get "Connection" h)) eqn:E; [apply del_named_lookup|].
  apply nonempty_false in E. by rewrite E.
Qed.


(** * The certificates *)

Section cert_lemmas.
Context {CA : Type}.
Implicit Types (cache : cert_cache CA).

(** Every cached certificate is for the host it is filed under. *)
Definition cache_wf (cache : cert_cache CA) : Prop :=
  ∀ host c, cache !! host = Some c → leaf_host c = host ∧ leaf_notAfter c = leaf_notBefore c + leaf_lifetime.

Lemma insert_wf host (c : leaf CA) cache :
  leaf_host c = host → leaf_notAfter c = leaf_notBefore c + leaf_lifetime → cache_wf cache → cache_wf (<[host := c]> cache).
Proof.
  intros Hh Hl W host' c'. destruct (decide (host' = host)) as [->|Hne]; [rewrite lookup_insert_eq; by intros [= <-]|].
  rewrite lookup_insert_ne by done. apply W.
Qed.

Lemma generateCert_cases host ca now made cache r cache' :
  generateCert host ca now made cache = (r, cache') →
  (cache' = cache ∧ ∀ c, r = Ok c → cache !! normalizeHost host = Some c) ∨
  (cache !! normalizeHost host = None ∧ ∃ ca', ca = Some ca' ∧
     let c := mkLeaf (normalizeHost host) ca' now (now + leaf_lifetime) in r = Ok c ∧ cache' = <[normalizeHost host := c]> cache).
Proof.
  unfold generateCert. destruct (cache !! normalizeHost host) as [c|] eqn:E; [intros [= <- <-]; left; split; [done|by intros ? [= ->]]|].
  destruct ca as [ca|]; [|by intros [= <- <-]; left]. destruct made; intros [= <- <-]; [right; split; [done|]; by eexists|by left].
Qed.

Lemma cert_step_wf cache op : cache_wf cache → cache_wf (cert_step cache op).
Proof.
  intros W. destruct op as [h sni ca now made|]; [|by intros ??]. cbn [cert_step]. unfold GetCertificate.
  destruct (generateCert _ ca now made cache) as [r cache'] eqn:E. cbn [snd].
  apply generateCert_cases in E as [[-> _]|(_ & ca' & _ & _ & ->)]; [done|by apply insert_wf].
Qed.

Lemma cert_run_wf ops : ∀ cache, cache_wf cache → cache_wf (foldl cert_step cache ops).
Proof. induction ops as [|op ops IH]; intros cache W; [done|]. apply IH. by apply cert_step_wf. Qed.

(** Entries are only dropped by clearing the cache. *)
Lemma cert_step_keeps cache op host c : is_clear op = false → cache !! host = Some c → cert_step cache op !! host = Some c.
Proof.
  destruct op as [h sni ca now made|]; [intros _ Hc|done]. cbn [cert_step]. unfold GetCertificate.
  destruct (generateCert _ ca now made cache) as [r cache'] eqn:E. cbn [snd].
  apply generateCert_cases in E as [[-> _]|(Hn & ca' & _ & _ & ->)]; [done|]. rewrite lookup_insert_ne; [done|]. intros <-. congruence.
Qed.

Lemma cert_run_keeps ops host c : ∀ cache, forallb (λ op, negb (is_clear op)) ops = true → cache !! host = Some c → foldl cert_step cache ops !! host = Some c.
Proof.
  induction ops as [|op ops IH]; intros cache Hops Hc; [done|]. cbn [forallb] in Hops. apply andb_prop in Hops as [Hop Hops].
  apply IH; [done|]. apply cert_step_keeps; [by apply negb_true_iff|done].
Qed.

(** The host a certificate is asked for. *)
Definition cert_host (connectHost clientSNI : string) : string :=
  normalizeHost (if nonempty (normalizeHost clientSNI) then normalizeHost clientSNI else normalizeHost connectHost).

(** A client is shown a certificate for the name it asks for, or the host it
    connects to, valid for a day from when it was made.  But it is made only once:
    whatever happens short of clearing the cache, every later client gets the same
    certificate, expired though it may be and whatever authority is in force. *)
Theorem certificates_never_renewed (ops ops' : list (cert_op CA)) connectHost clientSNI ca now made c cache' :
  GetCertificate connectHost clientSNI ca now made (foldl cert_step ∅ ops) = (Ok c, cache') →
  forallb (λ op, negb (is_clear op)) ops' = true →
  leaf_host c = cert_host connectHost clientSNI ∧ leaf_notAfter c = leaf_notBefore c + leaf_lifetime ∧
  ∀ connectHost' clientSNI' ca' now' made', cert_host connectHost' clientSNI' = cert_host connectHost clientSNI →
    GetCertificate connectHost' clientSNI' ca' now' made' (foldl cert_step cache' ops') = (Ok c, foldl cert_step cache' ops').
Proof.
  intros Hget Hops. assert (W : cache_wf (foldl cert_step ∅ ops)) by (apply cert_run_wf; intros ?? [=]).
  unfold GetCertificate in Hget. fold (cert_host connectHost clientSNI) in Hget.
  assert (Hc : cache' !! cert_host connectHost clientSNI = Some c ∧ cache_wf cache').
  { apply generateCert_cases in Hget as [[-> Hc]|(_ & ca' & _ & [= ->] & ->)]; [split; [by apply Hc|done]|].
    split; [by rewrite lookup_insert_eq|by apply insert_wf]. }
  destruct Hc as [Hc W']. destruct (W' _ _ Hc) as [Hh Hd]. split; [done|]. split; [done|]. intros connectHost' clientSNI' ca' now' made' He.
  unfold GetCertificate, generateCert. fold (cert_host connectHost' clientSNI'). rewrite He.
  by rewrite (cert_run_keeps _ _ c _ Hops Hc).
Qed.
End cert_lemmas.

(** * The connections of a run *)

(** Whether the client is open, how many upstream connections are and which QUIC
    connection is, and how often a transport wrote to a closed upstream connection. *)
Record mitm_conns := mkConns { mc_client : bool; mc_up : nat; mc_quic : option string; mc_stale : nat }.

(** [None] when anything else uses what is not open, or two QUIC connections are. *)
Definition mitm_step (s : mitm_conns) (ev : mitm_event) : option mitm_conns :=
  let '(mkConns client up quic stale) := s in
  match ev with
  | MUpstream evs => Some (mkConns client (up + up_opens evs - up_closes evs)%nat quic stale)
  | MTunnel _ _ => if client && negb (up =? 0)%nat then Some s else None
  | MSend _ => Some (if (up =? 0)%nat then mkConns client up quic (S stale) else s)
  | MUpstreamGone => if (up =? 0)%nat then None else Some (mkConns client (pred up) quic stale)
  | MQuicDial addr ok => match quic with None => Some (if ok : bool then mkConns client up (Some addr) stale else s) | Some _ => None end
  | MQuicSend _ addr => if bool_decide (quic = Some addr) then Some s else None
  | MQuicGone => match quic with Some _ => Some (mkConns client up None stale) | None => None end
  | MQuicClose => Some (mkConns client up None stale)
  | MReply _ => if client then Some s else None
  | MPanic => Some s
  | MCloseClient => Some (mkConns false up quic stale)
  | MCloseUpstream => Some (mkConns client (pred up) quic stale)
  end.

Fixpoint mitm_run (s : mitm_conns) (evs : list mitm_event) : option mitm_conns :=
  match evs with
  | [] => Some s
  | ev :: evs => s' ← mitm_step s ev; mitm_run s' evs
  end.

Definition mitm_start : mitm_conns := mkConns true 0 None 0.

(** Everything is closed at the end and nothing is used after it was closed, but for [stale]
    requests written to a closed upstream connection. *)
Definition mitm_settled (stale : nat) (evs : list mitm_event) : Prop := mitm_run mitm_start evs = Some (mkConns false 0 None stale).

(** A request written to a closed upstream connection is answered with an error. *)
Definition stale_fails (s0 : mitm_conns) (evs : list mitm_event) : Prop :=
  ∀ before k after s, evs = before ++ MSend k :: after → mitm_run s0 before = Some s → mc_up s = 0%nat →
    ∃ after', after = MReply (ReplyError 502) :: after'.

Lemma mitm_run_app evs evs' : ∀ s, mitm_run s (evs ++ evs') = (s' ← mitm_run s evs; mitm_run s' evs').
Proof. induction evs as [|ev evs IH]; intros s; [done|]. cbn [app mitm_run]. destruct (mitm_step s ev); [apply IH|done]. Qed.

Lemma stale_fails_cons s ev s' evs :
  mitm_step s ev = Some s' → (∀ k, ev = MSend k → mc_up s = 0%nat → ∃ after, evs = MReply (ReplyError 502) :: after) →
  stale_fails s' evs → stale_fails s (ev :: evs).
Proof.
  intros Hs Hev Hf before k after s0 He Hr Hu. destruct before as [|ev0 before]; injection He as -> ->.
  - injection Hr as ->. by apply (Hev k).
  - cbn [mitm_run] in Hr. rewrite Hs in Hr. by eapply Hf.
Qed.

Lemma stale_fails_quiet s evs : Forall (λ ev, match ev with MSend _ => False | _ => True end) evs → stale_fails s evs.
Proof. intros H before k after s0 -> _ _. apply Forall_app in H as [_ H]. by apply list.Forall_cons in H as [[] _]. Qed.

(** ** Protocols *)

Lemma negotiate_one s client : client ≠ [] →
  negotiateALPN [s] client =
    if bool_decide (s ∈ client) then Some s else if bool_decide (s = "h2") && bool_decide ("http/1.1" ∈ client) then Some "" else None.
Proof.
  intros Hc. destruct client as [|c client]; [done|]. unfold negotiateALPN. cbn [List.filter].
  destruct (decide (s ∈ c :: client)) as [Hs|Hs]; [by rewrite bool_decide_true|]. rewrite (bool_decide_false (s ∈ _)) by done.
  destruct (decide (s = "h2")) as [->|Hne]; [by rewrite (bool_decide_true ("h2" ∈ ["h2"])), (bool_decide_true ("h2" = "h2")) by (done || by left)|].
  rewrite (bool_decide_false ("h2" ∈ [s])), (bool_decide_false (s = "h2")) by (rewrite ?list_elem_of_singleton; congruence). done.
Qed.

Section handlers.
Context {CA : Type}.
Context (sha256 : list byte → list byte) (verify_chain : list certificate → option string → option verify_error).
Context (certBypassMap : gset string) `{MR : MapRange} (accepts : uconfig → list certificate → bool).
Context (save_answer : RuleManager → write_result RulesConfig) (dohResolver : option ech_resolver) (e : up_env).
Context (doh : resolver) (sys : system_dns).

Notation establishUpstreamConn := (establishUpstreamConn sha256 verify_chain certBypassMap accepts save_answer dohResolver e).
Notation handleMITM := (@handleMITM CA sha256 verify_chain certBypassMap MR accepts save_answer dohResolver e).
Notation handleServerMITM := (@handleServerMITM CA sha256 verify_chain certBypassMap MR accepts save_answer dohResolver e).
Notation handleQUICMITM := (@handleQUICMITM CA sha256 verify_chain MR save_answer dohResolver doh sys).

Lemma upstream_part host rule cs st r st' :
  establishUpstreamConn host rule cs "" st = Some (r, st') →
  let evs := drop (length (up_log st)) (up_log st') in
  (∃ c, r = Ok (inr c) ∧ up_opens evs = (up_closes evs + 1)%nat) ∨ (∃ errs, r = Ok (inl errs) ∧ up_opens evs = up_closes evs).
Proof.
  intros H. apply (establish_settles _ _ _ _ _ _ _ 0) in H. cbv zeta.
  assert (Hdrop : ∀ k l o, run st st' k l o → up_opens (drop (length (up_log st)) (up_log st')) = (up_closes (drop (length (up_log st)) (up_log st')) + o)%nat).
  { intros k l o (evs & Hl & _ & Ho & _). by rewrite Hl, drop_app_length. }
  destruct H as [(c & rule' & -> & Hr & _)|(errs & -> & Hr & _)]; apply Hdrop in Hr.
  - left. by exists c.
  - right. exists errs. split; [done|lia].
Qed.

Lemma settled_established evs rest stale : up_opens evs = (up_closes evs + 1)%nat →
  mitm_settled stale (MUpstream evs :: rest) ↔ mitm_run (mkConns true 1 None 0) rest = Some (mkConns false 0 None stale).
Proof. intros H. unfold mitm_settled. cbn [mitm_run mitm_step mitm_start mbind option_bind]. by replace (0 + up_opens evs - up_closes evs)%nat with 1%nat by lia. Qed.

Lemma settled_failed evs : up_opens evs = up_closes evs → mitm_settled 0 [MUpstream evs; MCloseClient].
Proof. intros H. unfold mitm_settled. cbn [mitm_run mitm_step mitm_start mbind option_bind]. by replace (0 + up_opens evs - up_closes evs)%nat with 0%nat by lia. Qed.

Lemma handleMITM_settles client host rule cs addr g now made cache st evs cache' st' :
  handleMITM client host rule cs addr g now made cache st = Some (evs, cache', st') → mitm_settled 0 evs ∧ MPanic ∉ evs.
Proof.
  unfold MITM.handleMITM. destruct g as [| |[ca|]]; try (intros [= <- _ _]; by split; [|set_solver]).
  destruct (establishUpstreamConn _ _ _ _ st) as [[r st1]|] eqn:E; [|done]. cbn [mbind option_bind].
  apply upstream_part in E as [(c & -> & Ho)|(errs & -> & Ho)].
  - destruct (client_handshake _ _ _ _ _ _ _) as [[proto|err|] cache1]; intros [= <- _ _];
      (split; [by apply (settled_established _ _ 0)|set_solver]).
  - intros [= <- _ _]. split; [by apply settled_failed|set_solver].
Qed.

(** A session leaves the client open; a broken connection is closed once, and only the
    HTTP/1 transport writes to it afterwards. *)
Lemma server_session_runs valid breaks make h2 answers qs : ∀ (alive : bool) k stale,
  ∃ n up, mitm_run (mkConns true (if alive then 1 else 0)%nat None stale) (server_session valid breaks make h2 answers alive k qs) =
      Some (mkConns true up None (stale + n)%nat) ∧
    (up <= 1)%nat ∧ (alive = true → (∀ k, breaks k = false) → n = 0%nat) ∧
    (∀ rest, Forall (λ ev, match ev with MSend _ => False | _ => True end) rest →
       stale_fails (mkConns true (if alive then 1 else 0)%nat None stale) (server_session valid breaks make h2 answers alive k qs ++ rest)).
Proof.
  induction qs as [|q qs IH]; intros alive k stale.
  { exists 0%nat, (if alive then 1 else 0)%nat. rewrite Nat.add_0_r. split; [done|]. split; [destruct alive; lia|]. split; [done|]. intros rest. apply stale_fails_quiet. }
  cbn [server_session]. destruct (valid (make q)) eqn:Hv; cbn [negb].
  2: { destruct (IH alive (S k) stale) as (n & up & Hr & Hup & Hn & Hf). exists n, up. split_and!; try done.
       intros rest Hrest. cbn [app]. eapply stale_fails_cons; [reflexivity|done|by apply Hf]. }
  destruct alive; [destruct (breaks k) eqn:Hb; cbn [negb app]|].
  - destruct (IH false (S k) stale) as (n & up & Hr & Hup & Hn & Hf). exists n, up. split; [exact Hr|]. split; [done|].
    split; [intros _ H; by rewrite H in Hb|]. intros rest Hrest. do 3 (eapply stale_fails_cons; [reflexivity|done|]). by apply Hf.
  - destruct (IH true (S k) stale) as (n & up & Hr & Hup & Hn & Hf). exists n, up. split; [exact Hr|]. split; [done|].
    split; [done|]. intros rest Hrest. do 2 (eapply stale_fails_cons; [reflexivity|done|]). by apply Hf.
  - assert (H502 : forward valid (λ _ _, None) k (make q) = ReplyError 502) by (unfold forward; by rewrite Hv). rewrite H502. destruct h2.
    + destruct (IH false (S k) stale) as (n & up & Hr & Hup & Hn & Hf). exists n, up. split; [exact Hr|]. split; [done|].
      split; [done|]. intros rest Hrest. cbn [app]. eapply stale_fails_cons; [reflexivity|done|by apply Hf].
    + destruct (IH false (S k) (S stale)) as (n & up & Hr & Hup & Hn & Hf). exists (S n), up. rewrite Nat.add_succ_r. split; [exact Hr|]. split; [done|].
      split; [done|]. intros rest Hrest. cbn [app]. eapply stale_fails_cons; [reflexivity|by eexists|]. eapply stale_fails_cons; [reflexivity|done|by apply Hf].
Qed.

Lemma handleServerMITM_settles client host rule sh auth g now made valid answers breaks wraps qs cache st evs cache' st' :
  handleServerMITM client host rule sh auth g now made valid answers breaks wraps qs cache st = Some (evs, cache', st') →
  ∃ stale, mitm_settled stale evs ∧ ((∀ k, breaks k = false) → stale = 0%nat) ∧ stale_fails mitm_start evs.
Proof.
  unfold MITM.handleServerMITM. assert (Hquiet : ∀ evs, mitm_settled 0 evs → Forall (λ ev, match ev with MSend _ => False | _ => True end) evs →
    ∃ stale, mitm_settled stale evs ∧ ((∀ k, breaks k = false) → stale = 0%nat) ∧ stale_fails mitm_start evs).
  { intros evs0 Hs Hq. exists 0%nat. split; [done|]. split; [done|]. by apply stale_fails_quiet. }
  destruct g as [| |ca]; [intros [= <- _ _]; apply Hquiet; [done|by repeat constructor]..|].
  destruct (client_handshake _ _ _ _ _ _ _) as [[proto|err|] cache1]; [|intros [= <- _ _]; apply Hquiet; [done|by repeat constructor]..].
  destruct (nonempty sh); [|intros [= <- _ _]; apply Hquiet; [done|by repeat constructor]]. cbn [negb].
  destruct (server_candidates rule sh _) as [candidates|]; [|done]. cbn [mbind option_bind].
  destruct (establishUpstreamConn _ _ _ _ st) as [[r st1]|] eqn:E; [|done]. cbn [mbind option_bind].
  apply upstream_part in E as [(c & -> & Ho)|(errs & -> & Ho)]; intros [= <- _ _]; [|apply Hquiet; [by apply settled_failed|by repeat constructor]].
  destruct (_ && _); [apply Hquiet; [by apply settled_established|by repeat constructor]|].
  destruct (server_session_runs valid breaks (worker_request sh auth host) (bool_decide (uc_alpn c = "h2")) answers qs true 0 0) as (n & up & Hr & Hup & Hn & Hf).
  exists n. split; [|split; [by apply Hn|]].
  - apply settled_established; [done|]. rewrite <- app_assoc, mitm_run_app, Hr. cbn. f_equal. f_equal. lia.
  - eapply stale_fails_cons; [reflexivity|done|]. rewrite <- app_assoc. cbn [mitm_start].
    replace (0 + up_opens (drop (length (up_log st)) (up_log st1)) - up_closes (drop (length (up_log st)) (up_log st1)))%nat with 1%nat by lia.
    apply Hf. by repeat constructor.
Qed.

Lemma quic_dial_runs ok stale : ∀ candidates,
  mitm_run (mkConns true 0 None stale) (fst (quic_dial ok candidates)) = Some (mkConns true 0 (snd (quic_dial ok candidates)) stale).
Proof.
  induction candidates as [|c candidates IH]; [done|]. cbn [quic_dial]. destruct (ok c); [done|].
  destruct (quic_dial ok candidates) as [evs r]. exact IH.
Qed.

Lemma quic_session_runs valid breaks make dials answers candidates qs : ∀ conn k,
  ∃ conn', mitm_run (mkConns true 0 conn 0) (quic_session valid breaks make dials answers candidates conn k qs) = Some (mkConns true 0 conn' 0).
Proof.
  induction qs as [|q qs IH]; intros conn k; [by exists conn|]. cbn [quic_session].
  destruct (valid (make q)); cbn [negb]; [|apply IH].
  set (r := match conn with Some addr => ([], Some addr) | None => quic_dial (dials k) candidates end).
  assert (Hr : mitm_run (mkConns true 0 conn 0) (fst r) = Some (mkConns true 0 (snd r) 0)) by (unfold r; destruct conn; [done|apply quic_dial_runs]).
  destruct r as [evs [addr|]]; cbn [fst snd] in Hr; rewrite mitm_run_app, Hr; cbn [mbind option_bind]; [|apply IH].
  cbn [mitm_run mitm_step mbind option_bind]. rewrite bool_decide_true by done. cbn [mbind option_bind].
  destruct (breaks k); cbn [app]; apply IH.
Qed.

Lemma handleQUICMITM_settles client host rule g now made valid dials answers breaks qs cache st evs cache' st' :
  handleQUICMITM client host rule g now made valid dials answers breaks qs cache st = Some (evs, cache', st') → mitm_settled 0 evs.
Proof.
  unfold MITM.handleQUICMITM. destruct g as [| |ca]; [by intros [= <- _ _]..|].
  destruct (client_handshake _ _ _ _ _ _ _) as [[proto|err|] cache1]; [|by intros [= <- _ _]..].
  destruct (quic_candidates _ _ _ _ _) as [candidates|]; [|done]. cbn [mbind option_bind].
  destruct (newQUICConfig _ _ _ _ _ _ _) as [[cfg rm]|]; [|done]. cbn [mbind option_bind]. intros [= <- _ _].
  destruct (quic_session_runs valid breaks (quic_request host) (λ k, dials k cfg) answers candidates qs None 0) as [conn Hr].
  unfold mitm_settled, mitm_start. by rewrite mitm_run_app, Hr.
Qed.

(** C22: The three interceptions settle their connections: however a handler ends, the
    client is closed, so are every upstream and every QUIC connection opened on the way, and
    [handleMITM] lets no panic out.  Nothing is used after it is closed, with one exception:
    in the server mode, when the upstream connection breaks, HTTP/1's transport closes it and
    later requests are written to it again; each of them is answered 502, and there are none
    as long as it does not break.  (The copying inside [handleMITM]'s tunnel is
    [Tunnel]'s.) *)
Theorem interceptions_settle client host rule g now made valid breaks qs cache st evs cache' st' :
  (∀ cs addr, handleMITM client host rule cs addr g now made cache st = Some (evs, cache', st') → mitm_settled 0 evs ∧ MPanic ∉ evs) ∧
  (∀ sh auth answers wraps,
     handleServerMITM client host rule sh auth g now made valid answers breaks wraps qs cache st = Some (evs, cache', st') →
     ∃ stale, mitm_settled stale evs ∧ ((∀ k, breaks k = false) → stale = 0%nat) ∧ stale_fails mitm_start evs) ∧
  (∀ dials answers,
     handleQUICMITM client host rule g now made valid dials answers breaks qs cache st = Some (evs, cache', st') → mitm_settled 0 evs).
Proof.
  split; [|split].
  - intros cs addr. apply handleMITM_settles.
  - intros sh auth answers wraps. apply handleServerMITM_settles.
  - intros dials answers. apply handleQUICMITM_settles.
Qed.

Lemma client_handshake_proto (client : mitm_client CA) host protos ca now made cache proto cache' :
  client_handshake client host protos ca now made cache = (Ok proto, cache') → negotiateALPN protos (mc_protos client) = Some proto.
Proof.
  unfold client_handshake. destruct (negotiateALPN _ _) as [p|]; [|done]. destruct (GetCertificate _ _ _ _ _ _) as [[c|err|] cache1]; [|done..].
  destruct (mc_accepts client c); by intros [= <- _].
Qed.

(** The two ends of an interception tunnel and their protocols.  A client that
    offers HTTP/2 gets what the upstream speaks.  A client that offers HTTP/1.1 only,
    or nothing, is joined with an HTTP/2 upstream all the same, although the upstream
    was offered both. *)
Theorem tunnel_protocols client host rule cs addr g now made cache st evs cache' st' p u :
  handleMITM client host rule cs addr g now made cache st = Some (evs, cache', st') → MTunnel p u ∈ evs →
  (EqualFold (TrimSpace u) "h2" = true → p = if bool_decide ("h2" ∈ mc_protos client) then "h2" else "") ∧
  (EqualFold (TrimSpace u) "h2" = false → p = if bool_decide ("http/1.1" ∈ mc_protos client) then "http/1.1" else "").
Proof.
  unfold MITM.handleMITM. destruct g as [| |[ca|]]; try (intros [= <- _ _]; set_solver).
  destruct (establishUpstreamConn _ _ _ _ st) as [[[[errs|c]|err|] st1]|]; try done; cbn [mbind option_bind]; try (intros [= <- _ _]; set_solver).
  destruct (client_handshake _ _ _ _ _ _ _) as [[proto|err|] cache1] eqn:Eh; intros [= <- _ _] Hin; try set_solver.
  assert (p = proto ∧ u = uc_alpn c) as [-> ->] by set_solver. clear Hin. apply client_handshake_proto in Eh. unfold nextProtosForNegotiatedALPN in Eh.
  destruct (decide (mc_protos client = [])) as [Hn|Hn].
  { rewrite Hn in *. destruct (EqualFold _ _); cbn in Eh; injection Eh as <-; by split. }
  destruct (EqualFold _ _); split; intros Hu; try discriminate Hu; rewrite negotiate_one in Eh by done.
  - destruct (bool_decide ("h2" ∈ _)); [by injection Eh as <-|]. destruct (_ && _); [by injection Eh as <-|done].
  - destruct (bool_decide ("http/1.1" ∈ _)); [by injection Eh as <-|]. done.
Qed.
End handlers.

(** * Sessions of the server mode *)

Section session.
Context (valid : out_request → bool) (answers : nat → out_request → option web_response) (breaks : nat → bool) (make : web_request → out_request).
Context (h2 : bool).

Definition replies (evs : list mitm_event) : list web_reply := omap (λ ev, match ev with MReply r => Some r | _ => None end) evs.

Notation session alive k qs := (replies (server_session valid breaks make h2 answers alive k qs)).

Lemma session_cons alive k q qs :
  session alive k (q :: qs) =
    forward valid (if alive then answers else λ _ _, None) k (make q) :: session (alive && negb (valid (make q) && breaks k)) (S k) qs.
Proof.
  cbn [server_session]. unfold forward. destruct (valid (make q)), alive; cbn [negb andb]; try done.
  - destruct (breaks k); done.
  - destruct h2; done.
Qed.

(** The upstream connection is there for the k-th request: none before it broke it. *)
Fixpoint alive_from (k : nat) (qs : list web_request) (n : nat) : bool :=
  match qs, n with
  | q :: qs, S n => negb (valid (make q) && breaks k) && alive_from (S k) qs n
  | _, _ => true
  end.

Lemma server_session_lookup qs : ∀ alive k n,
  session alive k qs !! n = (λ q, forward valid (if alive && alive_from k qs n then answers else λ _ _, None) (k + n) (make q)) <$> qs !! n.
Proof.
  induction qs as [|q qs IH]; intros alive k n; [done|]. rewrite session_cons. destruct n as [|n]; cbn [lookup list_lookup fmap option_fmap option_map].
  - by rewrite andb_true_r, Nat.add_0_r.
  - rewrite IH. cbn [alive_from]. by rewrite andb_assoc, Nat.add_succ_r.
Qed.

Lemma alive_from_mono qs : ∀ k n m, (n <= m)%nat → alive_from k qs n = false → alive_from k qs m = false.
Proof.
  induction qs as [|q qs IH]; intros k n m Hle; [done|]. destruct n as [|n]; [done|]. destruct m as [|m]; [lia|]. cbn [alive_from].
  destruct (negb _); [|done]. apply IH. lia.
Qed.

Lemma alive_after_break qs : ∀ k n q, qs !! n = Some q → valid (make q) = true → breaks (k + n)%nat = true → alive_from k qs (S n) = false.
Proof.
  induction qs as [|q' qs IH]; intros k n q; [done|]. destruct n as [|n]; cbn [lookup list_lookup alive_from].
  - intros [= ->] Hv Hb. rewrite Nat.add_0_r in Hb. by rewrite Hv, Hb.
  - intros Hq Hv Hb. rewrite (IH (S k) n q Hq Hv); [by rewrite andb_false_r|]. by rewrite <- Nat.add_succ_comm in Hb.
Qed.

(** The server mode answers every request once, in order, the k-th with what the
    worker answered to its k-th request.  But once the upstream connection is gone,
    the client's connection stays and every later request is answered 502: the dialer
    hands the dead connection out again. *)
Theorem server_mode_dies qs :
  length (session true 0 qs) = length qs ∧
  (∀ n q, qs !! n = Some q → (∀ i, (i < n)%nat → breaks i = false) → session true 0 qs !! n = Some (forward valid answers n (make q))) ∧
  (∀ n q m q', qs !! n = Some q → valid (make q) = true → breaks n = true → (n < m)%nat → qs !! m = Some q' → valid (make q') = true →
     session true 0 qs !! m = Some (ReplyError 502)).
Proof.
  split; [|split].
  - generalize true, 0%nat. induction qs as [|q qs IH]; intros alive k; [done|]. rewrite session_cons. cbn [length]. by rewrite IH.
  - intros n q Hq Hb. rewrite server_session_lookup, Hq. cbn. f_equal. enough (∀ k, (∀ i, (i < n)%nat → breaks (k + i)%nat = false) → alive_from k qs n = true) as -> by done.
    clear Hq Hb q. revert n. induction qs as [|q qs IH]; intros n k Hb; [done|]. destruct n as [|n]; [done|]. cbn [alive_from].
    rewrite <- (Nat.add_0_r k) at 1. rewrite Hb, andb_false_r by lia. cbn. apply IH. intros i Hi. rewrite Nat.add_succ_comm. apply Hb. lia.
  - intros n q m q' Hq Hv Hb Hm Hq' Hv'. rewrite server_session_lookup, Hq'. cbn [fmap option_fmap option_map andb].
    rewrite (alive_from_mono qs 0 (S n) m Hm (alive_after_break qs 0 n q Hq Hv Hb)). unfold forward. by rewrite Hv'.
Qed.
End session.

(** ** The addresses of the server mode *)

Lemma unseen_spec addrs : ∀ seen,
  NoDup (unseen seen addrs) ∧ ∀ a, a ∈ unseen seen addrs ↔ a ∈ addrs ∧ a ∉ seen.
Proof.
  induction addrs as [|x addrs IH]; intros seen; [split; [constructor|set_solver]|]. cbn [unseen]. case_bool_decide as Hx.
  - destruct (IH seen) as [Hn Hi]. split; [done|]. intros a. rewrite Hi. set_solver.
  - destruct (IH (x :: seen)) as [Hn Hi]. split.
    + apply list.NoDup_cons. split; [|done]. rewrite Hi. set_solver.
    + intros a. rewrite elem_of_cons, Hi. destruct (decide (a = x)); set_solver.
Qed.

(** The server itself is always among the addresses, and none is tried twice. *)
Lemma server_candidates_spec rule serverHost pool cs :
  server_candidates rule serverHost pool = Some cs → NoDup cs ∧ JoinHostPort serverHost "443" ∈ cs.
Proof.
  unfold server_candidates. destruct (match pool with Some _ => _ | None => _ end) as [ips|]; [|done]. intros [= <-].
  destruct (unseen_spec (((λ ip, JoinHostPort ip "443") <$> ips) ++ [JoinHostPort serverHost "443"]) []) as [Hn Hi].
  split; [done|]. apply Hi. set_solver.
Qed.

(** ** What HTTP/3 servers are asked to show *)

(** [crypto/tls] as documented. *)
Definition quic_policy (verify_chain : list certificate → option string → option verify_error) (accepts : quic_config → list certificate → bool) : Prop :=
  ∀ cfg certs, accepts cfg certs = true ↔
    (qc_InsecureSkipVerify cfg = false → verify_chain certs (Some (qc_ServerName cfg)) = None) ∧
    (∀ verify, qc_VerifyConnection cfg = Some verify → verify certs = None).

Lemma quic_accepts_iff sha256 verify_chain save_answer dohResolver accepts host rule rm cfg rm' certs :
  quic_policy verify_chain accepts → newQUICConfig sha256 verify_chain save_answer dohResolver host rule rm = Some (cfg, rm') →
  accepts cfg certs = true ↔
    match qc_EncryptedClientHelloConfigList cfg with
    | _ :: _ => verify_chain certs (Some host) = None
    | [] => match buildVerifyConnection sha256 verify_chain host (r_CertVerify rule) with Some verify => verify certs = None | None => True end
    end.
Proof.
  intros Hp. unfold quic_policy in Hp. rewrite Hp. unfold newQUICConfig. destruct (if r_ECHEnabled rule then _ else _) as [[ech rm1]|]; [|done].
  cbn [mbind option_bind]. intros [= <- _]. destruct ech as [|b ech]; cbn.
  - destruct (buildVerifyConnection _ _ _ _) as [verify|]; naive_solver.
  - naive_solver.
Qed.

(** A request to switch protocols keeps Upgrade and loses the Connection it needs. *)
Lemma upgrade_without_connection h ups :
  h !! "Connection" = Some ["Upgrade"] → h !! "Upgrade" = Some ups →
  removeHopByHopHeaders h !! "Upgrade" = Some ups ∧ removeHopByHopHeaders h !! "Connection" = None.
Proof.
  intros Hc Hu. assert (Hn : connection_names h = []).
  { unfold connection_names, header_get. change (canonical_key "Connection") with "Connection". by rewrite Hc. }
  split.
  - unfold removeHopByHopHeaders. change (header_get "Connection" h) with (header_get "Connection" h).
    unfold header_get. change (canonical_key "Connection") with "Connection". rewrite Hc. change (nonempty "Upgrade") with true. cbv iota zeta.
    unfold header_del at 1. rewrite lookup_delete_ne by done. rewrite header_del_all. by rewrite bool_decide_false by (vm_compute; set_solver).
  - unfold removeHopByHopHeaders, header_del at 1. apply lookup_delete_eq.
Qed.

(** ** Witnesses *)

Definition day : Z := 24 * 3600.

Lemma certificates_never_renewed_witness :
  let '(cert, cache) := GetCertificate "10.0.0.1" "Example.com" (Some "first CA") 0 true ∅ in
  match cert with
  | Ok c => leaf_host c = "example.com" ∧ leaf_notAfter c < 3 * day ∧ leaf_issuer c = "first CA" ∧
      GetCertificate "example.com" "" (Some "second CA") (3 * day) true cache = (Ok c, cache)
  | _ => False
  end.
Proof.
  split; [reflexivity|]. split; [reflexivity|]. split; [reflexivity|].
  refine (proj2 (proj2 (certificates_never_renewed [] [] "10.0.0.1" "Example.com" (Some "first CA") 0 true _ _ _ _)) "example.com" "" (Some "second CA") (3 * day) true _);
    reflexivity.
Defined.

Definition demo_client (protos : list string) : mitm_client string := mkMitmClient "example.com" protos (λ _, true).

Definition plain_rule : Rule := Rule_mode "mitm" false.

Notation demo_mitm client := (handleMITM (λ _, []) demo_chain ∅ (policy_accepts demo_chain) no_save None demo_upstream client "example.com" plain_rule
  ["192.0.2.1:443"; "192.0.2.2:443"] "192.0.2.2:443" (Manager (Some "CA")) 0 true ∅ ech_start).

Lemma interceptions_settle_witness :
  ∃ evs cache' st', demo_mitm (demo_client ["h2"; "http/1.1"]) = Some (evs, cache', st') ∧ mitm_settled 0 evs ∧ MPanic ∉ evs.
Proof.
  eexists _, _, _. split; [vm_compute; reflexivity|].
  refine (proj1 (interceptions_settle (λ _, []) demo_chain ∅ (policy_accepts demo_chain) no_save None demo_upstream None (λ _, None) (demo_client ["h2"; "http/1.1"]) "example.com" plain_rule
    (Manager (Some "CA")) 0 true (λ _, true) (λ _, false) [] ∅ ech_start _ _ _) ["192.0.2.1:443"; "192.0.2.2:443"] "192.0.2.2:443" _). vm_compute. reflexivity.
Defined.

Lemma tunnel_protocols_witness :
  ∃ evs cache' st', demo_mitm (demo_client ["http/1.1"]) = Some (evs, cache', st') ∧ MTunnel "" "h2" ∈ evs ∧ "" = (if bool_decide ("h2" ∈ ["http/1.1"]) then "h2" else "").
Proof.
  eexists _, _, _. split; [vm_compute; reflexivity|]. split; [right; left|].
  refine (proj1 (tunnel_protocols (λ _, []) demo_chain ∅ (policy_accepts demo_chain) no_save None demo_upstream (demo_client ["http/1.1"]) "example.com" plain_rule
    ["192.0.2.1:443"; "192.0.2.2:443"] "192.0.2.2:443" (Manager (Some "CA")) 0 true ∅ ech_start _ _ _ "" "h2" _ _) _);
    [vm_compute; reflexivity|right; left|reflexivity].
Defined.

Lemma server_mode_dies_witness :
  let get path := mkWebRequest "GET" path "" ∅ "" in
  let worker := worker_request "worker.example" "key" "example.com" in
  let page := mkWebResponse 200 ∅ "hello" in
  let evs := server_session (λ _, true) (λ k, (k =? 1)%nat) worker false (λ _ _, Some page) true 0 [get "/"; get "/a"; get "/b"] in
  o_url (worker (get "/a")) = "https://worker.example/key/example.com/a" ∧ replies evs !! 2%nat = Some (ReplyError 502).
Proof.
  split; [reflexivity|].
  refine (proj2 (proj2 (server_mode_dies (λ _, true) (λ _ _, Some (mkWebResponse 200 ∅ "hello")) (λ k, (k =? 1)%nat)
    (worker_request "worker.example" "key" "example.com") false _)) 1%nat _ 2%nat _ _ _ _ _ _ _); try reflexivity. lia.
Defined.
