(* ===== verification/CertManager.v ===== *)
(** [cert/cert.go] and [cert/installer.go]: the certificate authority with its two
    files, and its installation into the platform's trust stores.

    A file is what [pem.Decode] and the parsers of [crypto/x509] make of it; a key is
    named by its public key.  Keys, file system calls and external commands answer as
    an environment says.  [filepath.Join] is an argument. *)

From coqutil Require Import Datatypes.RecordSetters.
From S2P Require Import Prelude GoStrings GoText GoURL AutoRouting.
Import DoubleBraceUpdate.

Open Scope Z_scope.

(** * The authority and its files *)

Record ca_cert := mkCaCert { cc_key : Z; cc_CommonName : string; cc_NotAfter : Z }.

(** A file: no PEM block, a block that is neither, a certificate, a key. *)
Inductive pem_file := NotPEM | OtherBlock | CertBlock (c : ca_cert) | KeyBlock (k : Z).

Notation disk := (gmap string pem_file).

Record CAInstallStatus := mkStatus { Installed : bool; Platform : string; CertPath : string; InstallHelp : string }.

Record CertManager := mkCertManager {
  caCert : option ca_cert;
  caKey : option Z;
  caPath : string;
  keyPath : string;
  lastStatus : CAInstallStatus;
  lastCheck : option Z;                            (** [None]: the zero time *)
}.

Definition NewCertManager (caPath keyPath : string) : CertManager :=
  mkCertManager None None caPath keyPath (mkStatus false "" "" "") None.

(** How the system answers during one operation; paths that exist may still not be
    readable, and a write may stop after the file was truncated. *)
Record cert_env := mkCertEnv {
  ce_now : Z;
  ce_new_key : option Z;                           (** [rsa.GenerateKey] *)
  ce_signs : bool;                                 (** [CreateCertificate] and [ParseCertificate] *)
  ce_readable : string → bool;
  ce_creates : string → bool;
  ce_writes : string → bool;
  ce_removes : string → bool;
  ce_mkdir : bool;
}.

(** [os.Create] and what is written. *)
Definition write_pem (e : cert_env) (path : string) (content : pem_file) (d : disk) : outcome unit * disk :=
  if negb (ce_creates e path) then (Err "create", d)
  else if ce_writes e path then (Ok tt, <[path := content]> d)
  else (Err "write", <[path := NotPEM]> d).

Definition saveCA (e : cert_env) (c : ca_cert) (k : Z) (cm : CertManager) (d : disk) : outcome unit * disk :=
  match write_pem e (caPath cm) (CertBlock c) d with
  | (Ok _, d) => write_pem e (keyPath cm) (KeyBlock k) d
  | r => r
  end.

(** Ten years, in seconds. *)
Definition ca_lifetime : Z := 10 * 365 * 24 * 3600.

Definition generateCAUnlocked (e : cert_env) (cm : CertManager) (d : disk) : outcome unit * CertManager * disk :=
  match ce_new_key e with
  | None => (Err "failed to generate CA private key", cm, d)
  | Some k =>
      if negb (ce_signs e) then (Err "failed to create CA certificate", cm, d)
      else
        let c := mkCaCert k "NovaProxy CA" (ce_now e + ca_lifetime) in
        let cm := cm {{ caCert := Some c; caKey := Some k }} in
        let '(r, d) := saveCA e c k cm d in (r, cm, d)
  end.

Definition GenerateCA := generateCAUnlocked.

Definition LoadCA (e : cert_env) (cm : CertManager) (d : disk) : outcome unit * CertManager * disk :=
  match d !! caPath cm with
  | None => generateCAUnlocked e cm d
  | Some ca_file =>
      if negb (ce_readable e (caPath cm)) then (Err "read", cm, d)
      else
        match ca_file with
        | NotPEM => (Err "failed to decode CA certificate PEM", cm, d)
        | CertBlock c =>
            match d !! keyPath cm with
            | None => (Err "read", cm, d)
            | Some key_file =>
                if negb (ce_readable e (keyPath cm)) then (Err "read", cm, d)
                else
                  match key_file with
                  | NotPEM => (Err "failed to decode CA key PEM", cm, d)
                  | KeyBlock k => (Ok tt, cm {{ caCert := Some c; caKey := Some k }}, d)
                  | _ => (Err "parse", cm, d)
                  end
            end
        | _ => (Err "parse", cm, d)
        end
  end.

Definition getCertCN (e : cert_env) (path : string) (d : disk) : string :=
  match d !! path with
  | Some (CertBlock c) => if ce_readable e path then cc_CommonName c else ""
  | _ => ""
  end.

Definition fileExists (d : disk) (path : string) : bool := bool_decide (is_Some (d !! path)).

(** The error is only printed. *)
Definition copyFile (e : cert_env) (src dst : string) (d : disk) : disk :=
  match d !! src with
  | Some content => if ce_readable e src then snd (write_pem e dst content d) else d
  | None => d
  end.

Definition remove (e : cert_env) (path : string) (d : disk) : disk := if ce_removes e path then delete path d else d.

Section init.
Context (join : string → string → string).

(** The two authorities to choose from. *)
Definition should_copy (e : cert_env) (ca key fallback_ca : string) (d : disk) : bool :=
  if negb (fileExists d ca) || negb (fileExists d key) then true
  else
    let fallbackCN := getCertCN e fallback_ca d in
    let targetCN := getCertCN e ca d in
    nonempty fallbackCN && nonempty targetCN && negb (bool_decide (fallbackCN = targetCN)) && Contains (ToLower fallbackCN) "mhr-gas".

Definition copy_fallback (e : cert_env) (certDir fallbackCADir : string) (d : disk) : disk :=
  let ca := join certDir "ca.crt" in
  let key := join certDir "ca.key" in
  if nonempty fallbackCADir then
    let fallback_ca := join fallbackCADir "ca.crt" in
    let fallback_key := join fallbackCADir "ca.key" in
    if fileExists d fallback_ca && fileExists d fallback_key && should_copy e ca key fallback_ca d
    then copyFile e fallback_key key (copyFile e fallback_ca ca d)
    else d
  else d.

(** [e'] is the environment of the second generation, after the files were removed. *)
Definition InitCertManagerWithFallback (e e' : cert_env) (certDir fallbackCADir : string) (d : disk) : outcome CertManager * disk :=
  if negb (ce_mkdir e) then (Err "failed to create cert dir", d)
  else
    let d := copy_fallback e certDir fallbackCADir d in
    let cm := NewCertManager (join certDir "ca.crt") (join certDir "ca.key") in
    match LoadCA e cm d with
    | (Ok _, cm, d) => (Ok cm, d)
    | (_, cm, d) =>
        match GenerateCA e' cm (remove e (keyPath cm) (remove e (caPath cm) d)) with
        | (Ok _, cm, d) => (Ok cm, d)
        | (_, _, d) => (Err "load existing CA failed; regenerate failed", d)
        end
    end.

Definition InitCertManager (e e' : cert_env) (certDir : string) (d : disk) := InitCertManagerWithFallback e e' certDir "" d.
End init.

Definition GetCACertPEM (cm : CertManager) : option ca_cert := caCert cm.

Definition ExportCert (cm : CertManager) : outcome ca_cert :=
  match caCert cm with Some c => Ok c | None => Err "no CA certificate available" end.

(** * Trust stores *)

Record InstalledCert := mkInstalledCert {
  ic_Subject : string;
  ic_Thumbprint : string;
  ic_NotAfter : string;
  ic_StoreName : string;
  ic_StoreLocation : string;
  ic_Token : string;
}.

Definition invalidateInstallStatusCache (cm : CertManager) : CertManager := cm {{ lastCheck := None }}.

(** [strings.SplitN(s, "|", 3)] when it gives three parts. *)
Definition split_token (s : string) : option (string * string * string) :=
  match Cut s "|" with
  | Some (a, s) => match Cut s "|" with Some (b, c) => Some (a, b, c) | None => None end
  | None => None
  end.

Definition token_of (location store thumbprint : string) : string := location +:+ "|" +:+ store +:+ "|" +:+ thumbprint.

(** [certutil]'s arguments, and whether it runs elevated. *)
Definition uninstall_command (thumbprint : string) : list string * bool :=
  let '(location, store, thumb) := default ("CurrentUser", "Root", thumbprint) (split_token thumbprint) in
  ((if EqualFold location "CurrentUser" then ["-user"] else []) ++ ["-delstore"; store; thumb], EqualFold location "LocalMachine").

Definition UninstallCertificate (run : bool → list string → bool) (thumbprint : string) (cm : CertManager) : outcome unit * CertManager :=
  if negb (nonempty thumbprint) then (Err "thumbprint is empty", cm)
  else
    let '(args, elevated) := uninstall_command thumbprint in
    if run elevated args then (Ok tt, invalidateInstallStatusCache cm) else (Err "certutil", cm).

(** [output]: what the enumeration prints; [unmarshal_all] and [unmarshal_one] are
    [json.Unmarshal] into a list and into one entry. *)
Definition GetInstalledCertificates (unmarshal_all : string → option (list InstalledCert)) (unmarshal_one : string → option InstalledCert)
    (output : option string) : outcome (list InstalledCert) :=
  match output with
  | None => Err "failed to enumerate certificate stores"
  | Some output =>
      let text := TrimSpace output in
      if negb (nonempty text) then Ok []
      else if HasPrefix text "[" then match unmarshal_all output with Some certs => Ok certs | None => Err "failed to parse installed certificates" end
      else match unmarshal_one output with Some c => Ok [c] | None => Err "failed to parse installed certificate" end
  end.

(** [bufio.Scanner]: the lines before one that does not fit its buffer. *)
Fixpoint fitting (lines : list string) : list string :=
  match lines with
  | [] => []
  | l :: lines => if 65535 <? Z.of_nat (slen l) then [] else l :: fitting lines
  end.

Definition scanned (output : string) : list string := (λ l, TrimSuffix l cr) <$> fitting (drop_last_empty (Split output lf)).

(** The blocks of [certutil]'s listing: each starts with a line of equal signs. *)
Fixpoint cert_blocks (current : list string) (lines : list string) : list (list string) :=
  match lines with
  | [] => match current with [] => [] | _ => [current] end
  | l :: lines =>
      let line := TrimSpace l in
      if Contains line "====" then match current with [] => [] | _ => [current] end ++ cert_blocks [line] lines
      else match current with [] => cert_blocks [] lines | _ => cert_blocks (current ++ [line]) lines end
  end.

Definition hex_byte (c : ascii) : bool :=
  let n := byte_val c in is_digit c || ((65 <=? n) && (n <=? 70))%nat || ((97 <=? n) && (n <=? 102))%nat.

Fixpoint hex_prefix (n : nat) (s : string) : bool :=
  match n, s with
  | O, _ => true
  | S n, String c s => hex_byte c && hex_prefix n s
  | _, _ => false
  end.

(** The leftmost match of [(?i)[A-F0-9]{40}]. *)
Fixpoint find_thumbprint (s : string) : string :=
  match s with
  | "" => ""
  | String _ s' => if hex_prefix 40 s then str_take 40 s else find_thumbprint s'
  end.

(** What follows the first colon, if something does. *)
Definition after_colon (line : string) : option string :=
  match Cut line ":" with
  | Some (_, v) => if nonempty v then Some (TrimSpace v) else None
  | None => None
  end.

(** The first line for which [f] gives a value that is not empty. *)
Fixpoint first_value (f : string → string) (block : list string) : string :=
  match block with
  | [] => ""
  | line :: block => let v := f line in if nonempty v then v else first_value f block
  end.

Definition block_cert (storeLocation storeName : string) (block : list string) : option InstalledCert :=
  if negb (Contains (ToLower (Join block (String lf ""))) "novaproxy") then None
  else
    let subject := first_value (λ l, if Contains (ToLower l) "novaproxy" then default "" (after_colon l) else "") block in
    let notAfter := first_value (λ l, if Contains (ToLower l) "notafter:" then default "" (after_colon l) else "") block in
    let thumbprint := first_value (λ l, ToUpper (find_thumbprint l)) block in
    if negb (nonempty thumbprint) then None
    else Some (mkInstalledCert (if nonempty subject then subject else "NovaProxy CA") thumbprint notAfter storeName storeLocation
                 (token_of storeLocation storeName thumbprint)).

Definition parseCertutilStoreOutput (output storeLocation storeName : string) : list InstalledCert :=
  omap (block_cert storeLocation storeName) (cert_blocks [] (scanned output)).

(** What installing answers: the certificates found, each command, the platform's
    installer, and the commands of the fallback on Windows. *)
Record install_env := mkInstallEnv {
  ie_installed : outcome (list InstalledCert);
  ie_run : bool → list string → bool;
  ie_trust : string → bool;                        (** [InstallCATrust] on the certificate's path *)
  ie_user_store : bool;
}.

Definition uninstall_all (run : bool → list string → bool) (certs : outcome (list InstalledCert)) (cm : CertManager) : CertManager :=
  match certs with
  | Ok certs => foldl (λ cm c, snd (UninstallCertificate run (ic_Token c) cm)) cm certs
  | _ => cm
  end.

Definition InstallCA (goos : string) (ie : install_env) (e : cert_env) (cm : CertManager) (d : disk) : outcome unit * CertManager * disk :=
  let '(r, cm, d) := match caCert cm, caKey cm with Some _, Some _ => (Ok tt, cm, d) | _, _ => LoadCA e cm d end in
  match r with
  | Ok _ =>
      if negb (nonempty (caPath cm)) then (Err "CA certificate path is empty", cm, d)
      else
        let cm := uninstall_all (ie_run ie) (ie_installed ie) cm in
        if ie_trust ie (caPath cm) then (Ok tt, invalidateInstallStatusCache cm, d)
        else if bool_decide (goos = "windows") then
          if ie_user_store ie then (Ok tt, invalidateInstallStatusCache cm, d)
          else (Err "failed to install CA certificate to CurrentUser", cm, d)
        else (Err "failed to install CA certificate", cm, d)
  | Err err => (Err err, cm, d)
  | Panic => (Panic, cm, d)
  end.

Definition RegenerateCA (goos : string) (ie : install_env) (e : cert_env) (cm : CertManager) (d : disk) : outcome unit * CertManager * disk :=
  let cm := uninstall_all (ie_run ie) (ie_installed ie) cm in
  match generateCAUnlocked e cm d with
  | (Ok _, cm, d) => InstallCA goos ie e cm d
  | r => r
  end.

(** ** The status and its cache *)

Definition install_help (goos : string) : string :=
  if bool_decide (goos = "windows") then "Install in Windows Trusted Root store via Settings > Security or run InstallCA"
  else if bool_decide (goos = "darwin") then "Install in macOS Keychain via Keychain Access or run InstallCA"
  else if bool_decide (goos = "linux") then "Install via system CA trust store (update-ca-certificates) or run InstallCA"
  else "Manually install the CA certificate in your system trust store".

(** Five minutes, in seconds. *)
Definition status_ttl : Z := 5 * 60.

Definition status_fresh (now : Z) (cm : CertManager) : bool :=
  match lastCheck cm with Some t => now - t <? status_ttl | None => false end.

(** [trusted]: [IsCATrusted]; [powershell]: what the script prints about the
    certificate. *)
Definition GetCAInstallStatus (goos : string) (trusted : string → bool) (powershell : ca_cert → string) (e : cert_env) (cm : CertManager) (d : disk)
    : CAInstallStatus * CertManager * disk :=
  if status_fresh (ce_now e) cm then (lastStatus cm, cm, d)
  else
    let status installed := mkStatus installed goos (caPath cm) (install_help goos) in
    let '(r, cm, d) := match caCert cm with Some _ => (Ok tt, cm, d) | None => LoadCA e cm d end in
    match r, caCert cm with
    | Ok _, Some ca =>
        let installed := trusted (caPath cm) || bool_decide (goos = "windows") && Contains (ToUpper (powershell ca)) "FOUND" in
        (status installed, cm {{ lastStatus := status installed; lastCheck := Some (ce_now e) }}, d)
    | _, _ => (status false, cm, d)
    end.

(** ** The platforms *)

Definition DefaultCertName : string := "NovaProxy GAS".

(** [run]: a command and whether its failure is looked at; the commands run, in order. *)
Definition commands := list (list string).

(** The first of some commands that succeeds. *)
Fixpoint first_success (run : list string → bool) (cmds : commands) : commands * bool :=
  match cmds with
  | [] => ([], false)
  | cmd :: cmds => if run cmd then ([cmd], true) else let '(done, ok) := first_success run cmds in (cmd :: done, ok)
  end.

Definition installCAWindows (run : list string → bool) (certPath : string) : commands * bool :=
  let '(user, userOk) := first_success run
    [["certutil"; "-addstore"; "-user"; "Root"; certPath];
     ["powershell"; "-NoProfile"; "-Command"; "Import-Certificate -FilePath '" +:+ certPath +:+ "' -CertStoreLocation Cert:\CurrentUser\Root"]] in
  let machine := ["certutil"; "-addstore"; "Root"; certPath] in
  (user ++ [machine], userOk || run machine).

Definition uninstallCAWindows (run : list string → bool) (thumb certName : string) : commands * bool :=
  let target := if nonempty thumb then thumb else certName in
  first_success run [["certutil"; "-delstore"; "-user"; "Root"; target]; ["certutil"; "-delstore"; "Root"; target]].

(** [store]: what the listing of the user's root store prints. *)
Definition isTrustedCAWindows (store : option string) (thumb : string) : bool :=
  match store with
  | None => false
  | Some out => nonempty thumb && Contains (ToUpper out) thumb
  end.

Definition system_keychain : string := "/Library/Keychains/System.keychain".

Definition installCAMacOS (run : list string → bool) (login certPath : string) : commands * bool :=
  first_success run
    [["security"; "add-trusted-cert"; "-d"; "-r"; "trustRoot"; "-k"; login; certPath];
     ["sudo"; "security"; "add-trusted-cert"; "-d"; "-r"; "trustRoot"; "-k"; system_keychain; certPath]].

Definition uninstallCAMacOS (run : list string → bool) (login certName : string) : commands * bool :=
  first_success run
    [["security"; "delete-certificate"; "-c"; certName; login]; ["sudo"; "security"; "delete-certificate"; "-c"; certName; system_keychain]].

(** [found]: what the search of the keychains prints for a name. *)
Definition isTrustedCAMacOS (found : string → option string) (certName : string) : bool :=
  match found certName with Some out => nonempty (TrimSpace out) | None => false end.

(** Linux: the store's file and its refresh, by distribution. *)
Definition detectLinuxDistro (exists_ : string → bool) : string :=
  if exists_ "/etc/debian_version" || exists_ "/etc/ubuntu" then "debian"
  else if exists_ "/etc/redhat-release" || exists_ "/etc/fedora-release" then "rhel"
  else if exists_ "/etc/arch-release" then "arch"
  else "unknown".

Definition cert_file (certName : string) : string := ReplaceAll certName " " "_" +:+ ".crt".

Definition linux_store (distro certName : string) : option (string * list string) :=
  if bool_decide (distro = "debian") then Some ("/usr/local/share/ca-certificates/" +:+ cert_file certName, ["update-ca-certificates"])
  else if bool_decide (distro = "rhel") then Some ("/etc/pki/ca-trust/source/anchors/" +:+ cert_file certName, ["update-ca-trust"; "extract"])
  else if bool_decide (distro = "arch") then Some ("/etc/ca-certificates/trust-source/anchors/" +:+ cert_file certName, ["trust"; "extract-compat"])
  else None.

(** The copy decides; the refresh may fail. *)
Definition installCALinux (exists_ : string → bool) (run : list string → bool) (certPath certName : string) : commands * bool :=
  match linux_store (detectLinuxDistro exists_) certName with
  | Some (dest, refresh) => let copy := ["cp"; certPath; dest] in if run copy then ([copy; refresh], true) else ([copy], false)
  | None => ([], false)
  end.

(** The removals of files come as commands too. *)
Definition uninstallCALinux (exists_ : string → bool) (certName : string) : commands * bool :=
  match linux_store (detectLinuxDistro exists_) certName with
  | Some (dest, refresh) => ([["remove"; dest]; refresh], true)
  | None => ([], false)
  end.

Definition isTrustedCALinux (exists_ : string → bool) (certName : string) : bool :=
  existsb (λ dir, exists_ (dir +:+ cert_file certName))
    ["/usr/local/share/ca-certificates/"; "/etc/pki/ca-trust/source/anchors/"; "/etc/ca-certificates/trust-source/anchors/"].

(** Firefox: one database per profile. *)
Definition firefox_db (exists_ : string → bool) (join : string → string → string) (profile : string) : string :=
  if exists_ (join profile "cert9.db") then "sql:" +:+ profile else "dbm:" +:+ profile.

Definition installCAFirefox (has_certutil : bool) (exists_ : string → bool) (join : string → string → string) (profiles : list string)
    (certPath certName : string) : commands :=
  if negb has_certutil then []
  else mjoin ((λ p, let db := firefox_db exists_ join p in
                    [["certutil"; "-D"; "-n"; certName; "-d"; db]; ["certutil"; "-A"; "-n"; certName; "-t"; "CT,,"; "-i"; certPath; "-d"; db]]) <$> profiles).

Definition uninstallCAFirefox (has_certutil : bool) (exists_ : string → bool) (join : string → string → string) (profiles : list string)
    (certName : string) : commands :=
  if negb has_certutil then []
  else (λ p, ["certutil"; "-D"; "-n"; certName; "-d"; firefox_db exists_ join p]) <$> profiles.

Definition InstallCATrust (goos : string) (exists_ : string → bool) (run : list string → bool) (login : string) (has_certutil : bool)
    (join : string → string → string) (profiles : list string) (certPath certName : string) : commands * bool :=
  if negb (exists_ certPath) then ([], false)
  else
    let with_firefox r := (fst r ++ installCAFirefox has_certutil exists_ join profiles certPath certName, snd r : bool) in
    if bool_decide (goos = "windows") then with_firefox (installCAWindows run certPath)
    else if bool_decide (goos = "darwin") then with_firefox (installCAMacOS run login certPath)
    else if bool_decide (goos = "linux") then with_firefox (installCALinux exists_ run certPath certName)
    else ([], false).

Definition UninstallCATrust (goos : string) (exists_ : string → bool) (run : list string → bool) (login : string) (has_certutil : bool)
    (join : string → string → string) (profiles : list string) (thumb certName : string) : commands * bool :=
  let with_firefox r := (fst r ++ uninstallCAFirefox has_certutil exists_ join profiles certName, snd r : bool) in
  if bool_decide (goos = "windows") then with_firefox (uninstallCAWindows run thumb certName)
  else if bool_decide (goos = "darwin") then with_firefox (uninstallCAMacOS run login certName)
  else if bool_decide (goos = "linux") then with_firefox (uninstallCALinux exists_ certName)
  else ([], false).

Definition IsCATrusted (goos : string) (exists_ : string → bool) (store : option string) (found : string → option string) (thumb certName : string) : bool :=
  if bool_decide (goos = "windows") then isTrustedCAWindows store thumb
  else if bool_decide (goos = "darwin") then isTrustedCAMacOS found certName
  else if bool_decide (goos = "linux") then isTrustedCALinux exists_ certName
  else false.

(** * The authority and its restarts *)

(** The certificate and the key of the files belong together. *)
Definition matching (ca key : string) (d : disk) : Prop :=
  ∀ c k, d !! ca = Some (CertBlock c) → d !! key = Some (KeyBlock k) → cc_key c = k.

(** Nothing fails. *)
Record no_failures (e : cert_env) : Prop := {
  he_key : is_Some (ce_new_key e);
  he_signs : ce_signs e = true;
  he_readable : ∀ p, ce_readable e p = true;
  he_creates : ∀ p, ce_creates e p = true;
  he_writes : ∀ p, ce_writes e p = true;
  he_removes : ∀ p, ce_removes e p = true;
  he_mkdir : ce_mkdir e = true;
}.

(** The manager's authority is on disk and its key belongs to it. *)
Definition has_authority (c : ca_cert) (k : Z) (ca key : string) (cm : CertManager) (d : disk) : Prop :=
  caCert cm = Some c ∧ caKey cm = Some k ∧ cc_key c = k ∧ caPath cm = ca ∧ keyPath cm = key ∧
  d !! ca = Some (CertBlock c) ∧ d !! key = Some (KeyBlock k).

Lemma write_pem_healthy e path content d : no_failures e → write_pem e path content d = (Ok tt, <[path := content]> d).
Proof. intros H. unfold write_pem. by rewrite he_creates, he_writes. Qed.

Lemma authority_caPath c k cm : caPath (cm {{ caCert := c; caKey := k }}) = caPath cm.
Proof. reflexivity. Qed.

Lemma authority_keyPath c k cm : keyPath (cm {{ caCert := c; caKey := k }}) = keyPath cm.
Proof. reflexivity. Qed.

(** The pair that is made in an environment. *)
Definition fresh_ca (e : cert_env) (c : ca_cert) (k : Z) : Prop := ce_new_key e = Some k ∧ c = mkCaCert k "NovaProxy CA" (ce_now e + ca_lifetime).

Lemma generate_fresh e ca key d cm : no_failures e → ca ≠ key → caPath cm = ca → keyPath cm = key →
  ∃ c k cm' d', generateCAUnlocked e cm d = (Ok tt, cm', d') ∧ has_authority c k ca key cm' d' ∧ fresh_ca e c k.
Proof.
  intros H Hne Hca Hkey. unfold generateCAUnlocked, saveCA, fresh_ca. destruct (he_key e H) as [k ->]. rewrite he_signs by done. cbn [negb].
  rewrite authority_caPath, authority_keyPath, Hca, Hkey, write_pem_healthy by done. cbv iota. rewrite write_pem_healthy by done.
  eexists _, k, _, _. split; [reflexivity|]. unfold has_authority. cbn. rewrite lookup_insert_ne by done. rewrite !lookup_insert_eq. by split_and!.
Qed.

Lemma generate_healthy e ca key d cm : no_failures e → ca ≠ key → caPath cm = ca → keyPath cm = key →
  ∃ c k cm' d', generateCAUnlocked e cm d = (Ok tt, cm', d') ∧ has_authority c k ca key cm' d'.
Proof. intros H Hne Hca Hkey. destruct (generate_fresh e ca key d cm H Hne Hca Hkey) as (c & k & cm' & d' & ? & ? & _). by exists c, k, cm', d'. Qed.

Lemma load_healthy e ca key d cm : no_failures e → ca ≠ key → caPath cm = ca → keyPath cm = key → matching ca key d →
  ∃ r cm' d', LoadCA e cm d = (r, cm', d') ∧ caPath cm' = ca ∧ keyPath cm' = key ∧
    (r = Ok tt → ∃ c k, has_authority c k ca key cm' d').
Proof.
  intros H Hne Hca Hkey Hm. unfold LoadCA. rewrite Hca. destruct (d !! ca) as [f|] eqn:Ef.
  2: { destruct (generate_healthy e ca key d cm H Hne Hca Hkey) as (c & k & cm' & d' & -> & Ha). eexists _, _, _. split; [reflexivity|].
       destruct Ha as (?&?&?&?&?&?). split_and!; [done..|]. intros _. by exists c, k. }
  rewrite !he_readable by done. cbn [negb]. destruct f as [| |c|k0]; try (eexists _, cm, d; by split_and!).
  rewrite Hkey. destruct (d !! key) as [[| |c0|k]|] eqn:Ek; rewrite ?he_readable by done; cbn [negb]; try (eexists _, cm, d; by split_and!).
  eexists _, _, _. split; [reflexivity|]. cbn. split_and!; [done..|]. intros _. exists c, k. split_and!; try done. by apply Hm.
Qed.

(** The copy of the fallback keeps both pairs matching. *)
Lemma copy_fallback_matching join e certDir fallback d :
  no_failures e →
  NoDup [join certDir "ca.crt"; join certDir "ca.key"; join fallback "ca.crt"; join fallback "ca.key"] →
  matching (join certDir "ca.crt") (join certDir "ca.key") d → matching (join fallback "ca.crt") (join fallback "ca.key") d →
  matching (join certDir "ca.crt") (join certDir "ca.key") (copy_fallback join e certDir fallback d).
Proof.
  intros H Hnd Hm Hf. unfold copy_fallback. destruct (nonempty fallback); [|done].
  destruct (fileExists d (join fallback "ca.crt") && fileExists d (join fallback "ca.key") && _) eqn:E; [|done].
  apply andb_prop in E as [[Hc%bool_decide_eq_true Hk%bool_decide_eq_true]%andb_prop _]. destruct Hc as [fc Hc], Hk as [fk Hk].
  rewrite !list.NoDup_cons, !elem_of_cons in Hnd. unfold copyFile at 2. rewrite Hc, he_readable, write_pem_healthy by done. cbn [snd].
  unfold copyFile. rewrite lookup_insert_ne by naive_solver. rewrite Hk, he_readable, write_pem_healthy by done. cbn [snd].
  intros c k. rewrite lookup_insert_ne by naive_solver. rewrite !lookup_insert_eq. intros [= ->] [= ->]. by apply Hf.
Qed.

Lemma init_healthy join e e' certDir fallback d :
  no_failures e → no_failures e' → join certDir "ca.crt" ≠ join certDir "ca.key" →
  matching (join certDir "ca.crt") (join certDir "ca.key") (copy_fallback join e certDir fallback d) →
  ∃ c k cm d', InitCertManagerWithFallback join e e' certDir fallback d = (Ok cm, d') ∧
    has_authority c k (join certDir "ca.crt") (join certDir "ca.key") cm d'.
Proof.
  intros H H' Hne Hm. unfold InitCertManagerWithFallback. rewrite he_mkdir by done. cbn [negb].
  destruct (load_healthy e _ _ _ (NewCertManager (join certDir "ca.crt") (join certDir "ca.key")) H Hne eq_refl eq_refl Hm) as (r & cm & d1 & -> & Hca & Hkey & Hr).
  assert (Hgen : ∃ c k cm' d', match GenerateCA e' cm (remove e (keyPath cm) (remove e (caPath cm) d1)) with
      | (Ok _, cm, d) => (Ok cm, d) | (_, _, d) => (Err "load existing CA failed; regenerate failed", d) end = (Ok cm', d') ∧
      has_authority c k (join certDir "ca.crt") (join certDir "ca.key") cm' d').
  { destruct (generate_healthy e' _ _ (remove e (keyPath cm) (remove e (caPath cm) d1)) cm H' Hne Hca Hkey) as (c & k & cm' & d' & Hg & Ha).
    unfold GenerateCA. rewrite Hg. by exists c, k, cm', d'. }
  destruct r as [[]|err|]; [|exact Hgen..]. destruct (Hr eq_refl) as (c & k & Ha). by exists c, k, cm, d1.
Qed.

(** With a fallback directory, which no caller gives: when the pairs of both directories
    match, if they are there, so does the one the start comes to. *)
Lemma fallback_authority join e1 e1' e2 e2' certDir fallback d :
  no_failures e1 → no_failures e1' → no_failures e2 →
  NoDup [join certDir "ca.crt"; join certDir "ca.key"; join fallback "ca.crt"; join fallback "ca.key"] →
  matching (join certDir "ca.crt") (join certDir "ca.key") d → matching (join fallback "ca.crt") (join fallback "ca.key") d →
  ∃ c k cm d', InitCertManagerWithFallback join e1 e1' certDir fallback d = (Ok cm, d') ∧
    has_authority c k (join certDir "ca.crt") (join certDir "ca.key") cm d' ∧
    ∃ cm', InitCertManager join e2 e2' certDir d' = (Ok cm', d') ∧ has_authority c k (join certDir "ca.crt") (join certDir "ca.key") cm' d'.
Proof.
  intros H1 H1' H2 Hnd Hm Hf. assert (Hne : join certDir "ca.crt" ≠ join certDir "ca.key") by (rewrite !list.NoDup_cons, !elem_of_cons in Hnd; naive_solver).
  destruct (init_healthy join e1 e1' certDir fallback d H1 H1' Hne) as (c & k & cm & d' & Hi & Ha); [by apply copy_fallback_matching|].
  exists c, k, cm, d'. split; [done|]. split; [done|]. destruct Ha as (_ & _ & Hk & _ & _ & Hca & Hkey).
  unfold InitCertManager, InitCertManagerWithFallback. rewrite he_mkdir by done. cbn [negb]. unfold copy_fallback. change (nonempty "") with false. cbv iota zeta.
  unfold LoadCA. change (caPath (NewCertManager _ _)) with (join certDir "ca.crt"). change (keyPath (NewCertManager _ _)) with (join certDir "ca.key"). rewrite Hca, Hkey, !he_readable by done. cbn [negb].
  eexists. split; [reflexivity|]. by split_and!.
Qed.

(** The pair that the files hold. *)
Definition stored (ca key : string) (d : disk) : option (ca_cert * Z) :=
  match d !! ca, d !! key with Some (CertBlock c), Some (KeyBlock k) => Some (c, k) | _, _ => None end.

Lemma load_stored e ca key d c k :
  no_failures e → stored ca key d = Some (c, k) →
  LoadCA e (NewCertManager ca key) d = (Ok tt, (NewCertManager ca key) {{ caCert := Some c; caKey := Some k }}, d).
Proof.
  intros H Hs. unfold LoadCA, stored in *. change (caPath (NewCertManager _ _)) with ca. change (keyPath (NewCertManager _ _)) with key.
  destruct (d !! ca) as [[]|]; try done. destruct (d !! key) as [[]|]; try done. injection Hs as -> ->. by rewrite !he_readable.
Qed.

Lemma init_stored join e e' certDir d c k :
  no_failures e → stored (join certDir "ca.crt") (join certDir "ca.key") d = Some (c, k) →
  InitCertManager join e e' certDir d =
    (Ok ((NewCertManager (join certDir "ca.crt") (join certDir "ca.key")) {{ caCert := Some c; caKey := Some k }}), d).
Proof.
  intros H Hs. unfold InitCertManager, InitCertManagerWithFallback. rewrite he_mkdir by done. cbn [negb]. unfold copy_fallback. change (nonempty "") with false. cbv iota zeta.
  by rewrite (load_stored e _ _ d c k).
Qed.

Lemma has_authority_stored c k ca key cm d : has_authority c k ca key cm d → stored ca key d = Some (c, k).
Proof. intros (_ & _ & _ & _ & _ & Hc & Hk). unfold stored. by rewrite Hc, Hk. Qed.

Lemma stored_None_matching ca key d : stored ca key d = None → matching ca key d.
Proof. intros H c k Hc Hk. unfold stored in H. by rewrite Hc, Hk in H. Qed.

(** A file of the authority is missing or is not what it should be: the pair that the
    start makes is new. *)
Lemma init_unstored join e e' certDir d :
  no_failures e → no_failures e' → join certDir "ca.crt" ≠ join certDir "ca.key" →
  stored (join certDir "ca.crt") (join certDir "ca.key") d = None →
  ∃ c k cm d', InitCertManager join e e' certDir d = (Ok cm, d') ∧
    has_authority c k (join certDir "ca.crt") (join certDir "ca.key") cm d' ∧ (fresh_ca e c k ∨ fresh_ca e' c k).
Proof.
  intros H H' Hne Hs. unfold InitCertManager, InitCertManagerWithFallback. rewrite he_mkdir by done. cbn [negb]. unfold copy_fallback. change (nonempty "") with false. cbv iota zeta.
  set (ca := join certDir "ca.crt") in *. set (key := join certDir "ca.key") in *.
  assert (Hgen : ∃ c k cm' d', match GenerateCA e' (NewCertManager ca key) (remove e key (remove e ca d)) with
      | (Ok _, cm, d) => (Ok cm, d) | (_, _, d) => (Err "load existing CA failed; regenerate failed", d) end = (Ok cm', d') ∧
      has_authority c k ca key cm' d' ∧ (fresh_ca e c k ∨ fresh_ca e' c k)).
  { destruct (generate_fresh e' ca key (remove e key (remove e ca d)) (NewCertManager ca key) H' Hne eq_refl eq_refl) as (c & k & cm & d' & Hg & ? & ?).
    unfold GenerateCA. rewrite Hg. exists c, k, cm, d'. auto. }
  unfold LoadCA. change (caPath (NewCertManager _ _)) with ca. change (keyPath (NewCertManager _ _)) with key.
  unfold stored in Hs. destruct (d !! ca) as [f |] eqn:Hf.
  - rewrite !he_readable by done. cbn [negb]. destruct f; try exact Hgen. destruct (d !! key) as [[] |]; try exact Hgen. done.
  - destruct (generate_fresh e ca key d (NewCertManager ca key) H Hne eq_refl eq_refl) as (c & k & cm & d' & -> & ? & ?). exists c, k, cm, d'. auto.
Qed.

(** ** Histories of the program's files *)

Inductive cert_op :=
  | OpStart (e e' : cert_env)                      (** the program, or its core, starts *)
  | OpRegenerate (goos : string) (ie : install_env) (e : cert_env)
  | OpInstall (goos : string) (ie : install_env) (e : cert_env)
  | OpStatus (goos : string) (trusted : string → bool) (powershell : ca_cert → string) (e : cert_env).

Definition healthy_op (op : cert_op) : Prop :=
  match op with OpStart e e' => no_failures e ∧ no_failures e' | OpRegenerate _ _ e | OpInstall _ _ e | OpStatus _ _ _ e => no_failures e end.

Definition is_start (op : cert_op) : bool := match op with OpStart _ _ => true | _ => false end.

(** The manager of the program, once there is one, and the files. *)
Definition cert_step (join : string → string → string) (certDir : string) (s : option CertManager * disk) (op : cert_op) : option CertManager * disk :=
  match op, s with
  | OpStart e e', (_, d) => match InitCertManager join e e' certDir d with (Ok cm, d) => (Some cm, d) | (_, d) => (None, d) end
  | OpRegenerate goos ie e, (Some cm, d) => let '(_, cm, d) := RegenerateCA goos ie e cm d in (Some cm, d)
  | OpInstall goos ie e, (Some cm, d) => let '(_, cm, d) := InstallCA goos ie e cm d in (Some cm, d)
  | OpStatus goos trusted powershell e, (Some cm, d) => let '(_, cm, d) := GetCAInstallStatus goos trusted powershell e cm d in (Some cm, d)
  | _, (None, d) => (None, d)
  end.

Definition cert_run join certDir := foldl (cert_step join certDir).

Lemma uninstall_all_keeps run certs cm c k ca key d : has_authority c k ca key cm d → has_authority c k ca key (uninstall_all run certs cm) d.
Proof.
  destruct certs as [certs | |]; [| done..]. cbn. revert cm. induction certs as [| ic certs IH]; intros cm H; [done |]. cbn [foldl].
  apply IH. unfold UninstallCertificate. destruct (negb _); [done |]. destruct (uninstall_command _) as [args el]. by destruct (run el args).
Qed.

Lemma InstallCA_keeps goos ie e cm c k ca key d :
  has_authority c k ca key cm d →
  ∃ r cm', InstallCA goos ie e cm d = (r, cm', d) ∧ has_authority c k ca key cm' d.
Proof.
  intros H. pose proof H as (Hc & Hk & _). unfold InstallCA. rewrite Hc, Hk. destruct (negb _); [by eexists _, _ |].
  pose proof (uninstall_all_keeps (ie_run ie) (ie_installed ie) cm c k ca key d H) as Hu. destruct (ie_trust ie _); [by eexists _, _ |].
  case_bool_decide; [| by eexists _, _]. by destruct (ie_user_store ie); eexists _, _.
Qed.

Lemma RegenerateCA_fresh goos ie e cm c0 k0 ca key d :
  no_failures e → ca ≠ key → has_authority c0 k0 ca key cm d →
  ∃ r cm' d' c k, RegenerateCA goos ie e cm d = (r, cm', d') ∧ has_authority c k ca key cm' d' ∧ fresh_ca e c k.
Proof.
  intros H Hne Ha. destruct (uninstall_all_keeps (ie_run ie) (ie_installed ie) cm c0 k0 ca key d Ha) as (_ & _ & _ & Hp & Hp' & _).
  unfold RegenerateCA. destruct (generate_fresh e ca key d _ H Hne Hp Hp') as (c & k & cm1 & d1 & -> & Ha1 & Hf).
  destruct (InstallCA_keeps goos ie e cm1 c k ca key d1 Ha1) as (r & cm2 & -> & Ha2). by exists r, cm2, d1, c, k.
Qed.

Lemma GetCAInstallStatus_keeps goos trusted powershell e cm c k ca key d :
  has_authority c k ca key cm d →
  ∃ st cm', GetCAInstallStatus goos trusted powershell e cm d = (st, cm', d) ∧ has_authority c k ca key cm' d.
Proof.
  intros H. pose proof H as (Hc & _). unfold GetCAInstallStatus. destruct (status_fresh _ _); [by eexists _, _ |].
  rewrite Hc. rewrite Hc. eexists _, _. split; [reflexivity |]. exact H.
Qed.

(** The environments of an operation. *)
Definition op_envs (op : cert_op) : list cert_env :=
  match op with OpStart e e' => [e; e'] | OpRegenerate _ _ e | OpInstall _ _ e | OpStatus _ _ _ e => [e] end.

(** Before the first start there is no manager and the files are as they were; then the
    files hold a pair made in one of the environments, and the manager has it. *)
Definition authority_ok (ca key : string) (d0 : disk) (envs : list cert_env) (s : option CertManager * disk) : Prop :=
  match s with
  | (None, d) => d = d0
  | (Some cm, d) => ∃ c k e, has_authority c k ca key cm d ∧ e ∈ envs ∧ fresh_ca e c k
  end.

Lemma start_ok join e e' certDir d0 envs s :
  no_failures e → no_failures e' → join certDir "ca.crt" ≠ join certDir "ca.key" →
  stored (join certDir "ca.crt") (join certDir "ca.key") d0 = None →
  authority_ok (join certDir "ca.crt") (join certDir "ca.key") d0 envs s →
  ∃ cm d', InitCertManager join e e' certDir s.2 = (Ok cm, d') ∧
    authority_ok (join certDir "ca.crt") (join certDir "ca.key") d0 (envs ++ [e; e']) (Some cm, d').
Proof.
  intros H H' Hne H0. destruct s as [[cm |] d]; cbn [authority_ok snd].
  - intros (c & k & e0 & Ha & He & Hf). eexists _, d. split; [by apply init_stored, (has_authority_stored c k _ _ cm) |].
    exists c, k, e0. split; [| split; [apply elem_of_app; by left | done]]. destruct Ha as (_ & _ & ? & _ & _ & ? & ?). by split_and!.
  - intros ->. destruct (init_unstored join e e' certDir d0 H H' Hne H0) as (c & k & cm & d' & Hi & Ha & Hf). exists cm, d'. split; [done |].
    destruct Hf; [exists c, k, e | exists c, k, e']; (split; [done |]; split; [apply elem_of_app; right; rewrite !elem_of_cons; auto | done]).
Qed.

Lemma cert_step_ok join certDir d0 envs s op :
  join certDir "ca.crt" ≠ join certDir "ca.key" → stored (join certDir "ca.crt") (join certDir "ca.key") d0 = None → healthy_op op →
  authority_ok (join certDir "ca.crt") (join certDir "ca.key") d0 envs s →
  authority_ok (join certDir "ca.crt") (join certDir "ca.key") d0 (envs ++ op_envs op) (cert_step join certDir s op) ∧
    (is_Some s.1 ∨ is_start op = true → is_Some (cert_step join certDir s op).1).
Proof.
  intros Hne H0 Hop Hs. destruct op as [e e' | goos ie e | goos ie e | goos trusted powershell e]; cbn [op_envs healthy_op] in *.
  { destruct (start_ok join e e' certDir d0 envs s) as (cm & d' & Hi & Ha); try tauto. destruct s as [m d]. cbn [snd] in Hi. cbn [cert_step]. rewrite Hi. split; [done |]. by eexists. }
  all: destruct s as [[cm |] d]; [| split; [done | by intros [[? ?] | ?]]]; cbn [cert_step is_start fst]; destruct Hs as (c & k & e0 & Ha & He & Hf).
  - destruct (RegenerateCA_fresh goos ie e cm c k _ _ d Hop Hne Ha) as (r & cm' & d' & c' & k' & -> & Ha' & Hf'). split; [| by eexists].
    exists c', k', e. split; [done |]. split; [apply elem_of_app; right; left | done].
  - destruct (InstallCA_keeps goos ie e cm c k _ _ d Ha) as (r & cm' & -> & Ha'). split; [| by eexists].
    exists c, k, e0. split; [done |]. split; [apply elem_of_app; by left | done].
  - destruct (GetCAInstallStatus_keeps goos trusted powershell e cm c k _ _ d Ha) as (st & cm' & -> & Ha'). split; [| by eexists].
    exists c, k, e0. split; [done |]. split; [apply elem_of_app; by left | done].
Qed.

Lemma cert_run_ok join certDir d0 ops envs s :
  join certDir "ca.crt" ≠ join certDir "ca.key" → stored (join certDir "ca.crt") (join certDir "ca.key") d0 = None → Forall healthy_op ops →
  authority_ok (join certDir "ca.crt") (join certDir "ca.key") d0 envs s →
  authority_ok (join certDir "ca.crt") (join certDir "ca.key") d0 (envs ++ (ops ≫= op_envs)) (cert_run join certDir s ops) ∧
    (is_Some s.1 ∨ existsb is_start ops = true → is_Some (cert_run join certDir s ops).1).
Proof.
  intros Hne H0 Hops. induction Hops as [| op ops Hop Hops IH] in envs, s |- *; intros Hs.
  { cbn. rewrite app_nil_r. split; [done |]. by intros [? | ?]. }
  destruct (cert_step_ok join certDir d0 envs s op Hne H0 Hop Hs) as [Hs1 Hm1]. destruct (IH _ _ Hs1) as [Hs2 Hm2].
  cbn [existsb]. rewrite bind_cons, app_assoc. split; [exact Hs2 |]. intros H. apply Hm2.
  destruct (existsb is_start ops); [by right | left; apply Hm1]. rewrite orb_false_r in H. done.
Qed.

(** C37: where the two files hold no authority at first - they are missing, or not both are a
    certificate and a key - and nothing fails, whatever sequence of starts, regenerations,
    installations and status requests follows, once the program was started its certificate
    and key belong together, in memory and on disk, they are a pair that one of these
    operations made, and a further start loads the same pair and leaves the files alone.
    (A pair that the files did hold at first is loaded as it is, belonging together or not:
    [init_stored].) *)
Theorem authority_survives_restart join certDir d ops e e' :
  let ca := join certDir "ca.crt" in
  let key := join certDir "ca.key" in
  ca ≠ key → stored ca key d = None → Forall healthy_op ops → existsb is_start ops = true → no_failures e →
  ∃ cm d' c k, cert_run join certDir (None, d) ops = (Some cm, d') ∧ has_authority c k ca key cm d' ∧
    (∃ e0, e0 ∈ ops ≫= op_envs ∧ fresh_ca e0 c k) ∧
    ∃ cm', InitCertManager join e e' certDir d' = (Ok cm', d') ∧ has_authority c k ca key cm' d'.
Proof.
  intros ca key Hne H0 Hops Hstart He. destruct (cert_run_ok join certDir d ops [] (None, d) Hne H0 Hops eq_refl) as [Hok Hm].
  destruct (cert_run join certDir (None, d) ops) as [m d']. destruct Hm as [cm Hm]; [by right |]. cbn [fst] in Hm. subst m.
  destruct Hok as (c & k & e0 & Ha & He0 & Hf). exists cm, d', c, k. split; [done |]. split; [done |]. split; [by exists e0 |].
  eexists. split; [by apply init_stored, (has_authority_stored c k _ _ cm) |]. destruct Ha as (_ & _ & ? & _ & _ & ? & ?). by split_and!.
Qed.

(** C38: A regeneration that fails half way leaves a broken authority behind.  When the
    certificate's file is written and the key's cannot be created, the call reports the
    error and nothing is installed; but the next start, on a no_failures disk, accepts the
    new certificate with the old key without an error. *)
Theorem interrupted_regeneration join goos ie e e2 e2' certDir cm c0 k0 k d :
  let ca := join certDir "ca.crt" in
  let key := join certDir "ca.key" in
  ca ≠ key → has_authority c0 k0 ca key cm d → ce_new_key e = Some k → k ≠ k0 → ce_signs e = true →
  ce_creates e ca = true → ce_writes e ca = true → ce_creates e key = false → no_failures e2 →
  ∃ cm1 d1, RegenerateCA goos ie e cm d = (Err "create", cm1, d1) ∧
    ∃ cm2 c, InitCertManager join e2 e2' certDir d1 = (Ok cm2, d1) ∧ caCert cm2 = Some c ∧ caKey cm2 = Some k0 ∧ cc_key c = k.
Proof.
  intros ca key Hne (Hc0 & Hk0 & _ & Hca & Hkey & Hdca & Hdkey) Hk Hkne Hs Hc Hw Hck H2. subst ca key.
  assert (Hpaths : ∀ certs cm, caPath (uninstall_all (ie_run ie) certs cm) = caPath cm ∧ keyPath (uninstall_all (ie_run ie) certs cm) = keyPath cm).
  { intros [certs|err|] cm'; [|done..]. cbn. revert cm'. induction certs as [|ic certs IH]; intros cm'; [done|]. cbn [foldl].
    destruct (IH (snd (UninstallCertificate (ie_run ie) (ic_Token ic) cm'))) as [-> ->]. unfold UninstallCertificate.
    destruct (negb _); [done|]. destruct (uninstall_command _) as [args el]. by destruct (ie_run ie el args). }
  destruct (Hpaths (ie_installed ie) cm) as [Hp1 Hp2]. unfold RegenerateCA, generateCAUnlocked. rewrite Hk, Hs. cbn [negb].
  unfold saveCA. rewrite authority_caPath, authority_keyPath, Hp1, Hp2, Hca, Hkey. unfold write_pem at 1. rewrite Hc, Hw. cbn [negb].
  unfold write_pem. rewrite Hck. cbn [negb]. eexists _, _. split; [reflexivity|].
  unfold InitCertManager, InitCertManagerWithFallback. rewrite he_mkdir by done. cbn [negb]. unfold copy_fallback. change (nonempty "") with false. cbv iota zeta.
  unfold LoadCA. change (caPath (NewCertManager _ _)) with (join certDir "ca.crt"). change (keyPath (NewCertManager _ _)) with (join certDir "ca.key"). rewrite lookup_insert_eq, lookup_insert_ne, Hdkey, !he_readable by done. cbn [negb].
  eexists _, _. by split_and!.
Qed.

(** ** The tokens of installed certificates *)

Lemma split_token_of location store thumbprint :
  contains_byte "|" location = false → contains_byte "|" store = false →
  split_token (token_of location store thumbprint) = Some (location, store, thumbprint).
Proof.
  intros Hl Hs. unfold split_token, token_of. change ("|" +:+ store +:+ "|" +:+ thumbprint) with (String "|" (store +:+ String "|" thumbprint)).
  rewrite Cut_app by done. by rewrite Cut_app.
Qed.

(** Uninstalling by token deletes the certificate from the store it was found in, with
    elevation exactly for the machine's stores. *)
Lemma uninstall_by_token location store thumbprint :
  location ∈ ["CurrentUser"; "LocalMachine"] → contains_byte "|" store = false →
  uninstall_command (token_of location store thumbprint) =
    ((if bool_decide (location = "CurrentUser") then ["-user"] else []) ++ ["-delstore"; store; thumbprint], bool_decide (location = "LocalMachine")).
Proof.
  intros Hl Hs. rewrite !elem_of_cons, elem_of_nil in Hl. unfold uninstall_command.
  destruct Hl as [->|[->|[]]]; rewrite split_token_of by done; reflexivity.
Qed.

Lemma slen_ToUpper s : slen (ToUpper s) = slen s.
Proof. induction s as [|c s IH]; [done|]. cbn [ToUpper]. exact (f_equal S IH). Qed.

(** Every entry read from a listing has a thumbprint of 40 digits, and its token names it
    and its store. *)
Lemma parsed_entry output location store c :
  c ∈ parseCertutilStoreOutput output location store →
  slen (ic_Thumbprint c) = 40%nat ∧ ic_Token c = token_of (ic_StoreLocation c) (ic_StoreName c) (ic_Thumbprint c) ∧ nonempty (ic_Subject c) = true.
Proof.
  unfold parseCertutilStoreOutput. intros (block & _ & Hb)%list_elem_of_omap. unfold block_cert in Hb.
  destruct (negb (Contains _ _)); [done|]. destruct (nonempty (first_value (λ l, ToUpper _) block)) eqn:Et; [|done]. cbn [negb] in Hb. injection Hb as <-. cbn.
  split_and!; [|done|match goal with |- nonempty (if nonempty ?v then _ else _) = _ => by destruct (nonempty v) eqn:? end].
  assert (Hlen : ∀ s, slen (find_thumbprint s) = 40%nat ∨ find_thumbprint s = "").
  { induction s as [|ch s IH]; [by right|]. cbn [find_thumbprint]. destruct (hex_prefix 40 _) eqn:Eh; [left|exact IH].
    assert (Hp : ∀ n t, hex_prefix n t = true → slen (str_take n t) = n).
    { induction n as [|n IHn]; intros [|d t]; try done. cbn. intros [_ H]%andb_prop. by rewrite IHn. }
    by apply Hp. }
  clear -Hlen Et. induction block as [|l block IH]; [done|]. cbn [first_value] in *.
  destruct (nonempty (ToUpper (find_thumbprint l))) eqn:E; [|by apply IH]. rewrite slen_ToUpper.
  destruct (Hlen l) as [->|Hl]; [done|]. by rewrite Hl in E.
Qed.

(** ** The status cache *)

(** For five minutes the cached answer stands, whatever happened to the certificate. *)
Lemma status_cached goos trusted powershell e cm d :
  status_fresh (ce_now e) cm = true → GetCAInstallStatus goos trusted powershell e cm d = (lastStatus cm, cm, d).
Proof. intros H. unfold GetCAInstallStatus. by rewrite H. Qed.

(** A regenerated authority that could not be installed is still reported as the old one
    was: the cache is only dropped by a removal or an installation that succeeds. *)
Lemma regenerate_keeps_status ie e cm d r cm' d' :
  ie_installed ie = Err "failed to enumerate certificate stores" → (∀ p, ie_trust ie p = false) →
  RegenerateCA "linux" ie e cm d = (r, cm', d') → r ≠ Ok tt ∧ lastCheck cm' = lastCheck cm ∧ lastStatus cm' = lastStatus cm.
Proof.
  intros Hi Ht. unfold RegenerateCA. rewrite Hi. cbn [uninstall_all].
  destruct (generateCAUnlocked e cm d) as [[r1 cm1] d1] eqn:Eg.
  assert (Hg : lastCheck cm1 = lastCheck cm ∧ lastStatus cm1 = lastStatus cm ∧ (r1 = Ok tt → is_Some (caCert cm1) ∧ is_Some (caKey cm1))).
  { revert Eg. unfold generateCAUnlocked. destruct (ce_new_key e); [|by intros [= <- <- <-]]. destruct (negb _); [by intros [= <- <- <-]|].
    destruct (saveCA _ _ _ _ _) as [rs ds]. intros [= <- <- <-]. split_and!; [done..|]. intros _. by split; eexists. }
  destruct Hg as (Hc & Hs & Hok). destruct r1 as [[]|err|]; [|by intros [= <- <- <-]..].
  destruct (Hok eq_refl) as [[c Hcert] [k Hkey]]. unfold InstallCA. rewrite Hcert, Hkey, Hi, Ht. cbn [uninstall_all].
  change (bool_decide ("linux" = "windows")) with false. destruct (negb _); by intros [= <- <- <-].
Qed.

(** ** Witnesses *)

Definition demo_join (dir name : string) : string := dir +:+ "/" +:+ name.

Definition good_env (key : Z) : cert_env := mkCertEnv 0 (Some key) true (λ _, true) (λ _, true) (λ _, true) (λ _, true) true.

Lemma good_env_healthy key : no_failures (good_env key).
Proof. split; [by eexists|done..]. Qed.

(** The key's file cannot be created. *)
Definition no_key_env (key : Z) : cert_env :=
  mkCertEnv 0 (Some key) true (λ _, true) (λ p, negb (bool_decide (p = "certs/ca.key"))) (λ _, true) (λ _, true) true.

Definition fallback_disk : disk :=
  {["certs/ca.crt" := CertBlock (mkCaCert 1 "NovaProxy CA" 0); "certs/ca.key" := KeyBlock 1;
    "mhr/ca.crt" := CertBlock (mkCaCert 2 "mhr-gas root" 0); "mhr/ca.key" := KeyBlock 2]}.

Definition quiet_install : install_env := mkInstallEnv (Err "failed to enumerate certificate stores") (λ _ _, false) (λ _, true) false.

Definition old_manager : CertManager := mkCertManager (Some (mkCaCert 1 "NovaProxy CA" 0)) (Some 1) "certs/ca.crt" "certs/ca.key" (mkStatus false "" "" "") None.

(** The program starts on a disk where the certificate's file is garbage, the authority is
    regenerated, the core starts. *)
Definition garbage_disk : disk := {["certs/ca.crt" := NotPEM; "certs/ca.key" := KeyBlock 1]}.

Definition demo_history : list cert_op :=
  [OpStart (good_env 7) (good_env 8); OpRegenerate "linux" quiet_install (good_env 9); OpStart (good_env 10) (good_env 11)].

Lemma authority_survives_restart_witness :
  ∃ cm d' c k, cert_run demo_join "certs" (None, garbage_disk) demo_history = (Some cm, d') ∧
    caKey cm = Some 9 ∧ has_authority c k "certs/ca.crt" "certs/ca.key" cm d' ∧
    ∃ cm', InitCertManager demo_join (good_env 12) (good_env 12) "certs" d' = (Ok cm', d') ∧ has_authority c k "certs/ca.crt" "certs/ca.key" cm' d'.
Proof.
  destruct (authority_survives_restart demo_join "certs" garbage_disk demo_history (good_env 12) (good_env 12))
    as (cm & d' & c & k & Hr & Ha & _ & Hi); [discriminate | reflexivity | repeat constructor; apply good_env_healthy | reflexivity | apply good_env_healthy |].
  exists cm, d', c, k. split; [done |]. split; [| by split].
  assert (Hcm : fst (cert_run demo_join "certs" (None, garbage_disk) demo_history) = Some cm) by (by rewrite Hr). vm_compute in Hcm. by injection Hcm as <-.
Defined.

Lemma interrupted_regeneration_witness :
  ∃ cm1 d1, RegenerateCA "linux" quiet_install (no_key_env 5) old_manager fallback_disk = (Err "create", cm1, d1) ∧
    ∃ cm2 c, InitCertManager demo_join (good_env 9) (good_env 9) "certs" d1 = (Ok cm2, d1) ∧ caCert cm2 = Some c ∧ caKey cm2 = Some 1 ∧ cc_key c = 5.
Proof.
  apply (interrupted_regeneration demo_join "linux" quiet_install (no_key_env 5) (good_env 9) (good_env 9) "certs" old_manager (mkCaCert 1 "NovaProxy CA" 0) 1 5 fallback_disk);
    [discriminate|by split_and!|reflexivity|discriminate|reflexivity..|apply good_env_healthy].
Defined.
