(* ===== verification/PortManager.v ===== *)
(** [proxy/port_manager.go]: finding a port to listen on, and the processes in its way.

    The tables of connections and processes, opening and killing processes and probing a
    port are answers of the system, given anew for each attempt at a port; the connection
    table is decoded from its bytes. *)

From coqutil Require Import Word.LittleEndianList.
From Stdlib Require Import Strings.Byte.
From S2P Require Import Prelude GoStrings.

Open Scope Z_scope.

(** * The connection table *)

Record tcp_row := mkRow { DwState : Z; DwLocalAddr : Z; DwLocalPort : Z; DwRemoteAddr : Z; DwRemotePort : Z; DwOwningPid : Z }.

(** [binary.LittleEndian.Uint32(buf[offset:])]; [None] is a panic. *)
Definition le32 (buf : list byte) (offset : nat) : option Z :=
  let word := take 4 (drop offset buf) in
  if (length word =? 4)%nat then Some (le_combine word) else None.

Definition row_at (buf : list byte) (i : nat) : option tcp_row :=
  let offset := (4 + i * 24)%nat in
  state ← le32 buf offset; laddr ← le32 buf (offset + 4); lport ← le32 buf (offset + 8);
  raddr ← le32 buf (offset + 12); rport ← le32 buf (offset + 16); pid ← le32 buf (offset + 20);
  Some (mkRow state laddr lport raddr rport pid).

(** The rows of the buffer that the system filled. *)
Definition pmGetTcpTable (buf : list byte) : option (list tcp_row) :=
  n ← le32 buf 0;
  mapM (row_at buf) (seq 0 (Z.to_nat n)).

(** [uint16(n)<<8 | uint16(n>>8)]. *)
Definition pmPortFromInt (n : Z) : Z := Z.lor (Z.shiftl (n mod 2 ^ 16) 8 mod 2 ^ 16) (Z.shiftr n 8 mod 2 ^ 16).

(** * Processes *)

Record pm_env := mkPmEnv {
  windows : bool;
  now : Z;
  processes : gmap Z string;                       (** the processes that run, by id *)
  opens : Z → bool;                                (** a process may be asked for its name *)
  snapshot : bool;
  table : option (list tcp_row);
  listens : Z → bool;                              (** the port can be listened on *)
  parents : gmap Z Z;                              (** the process that started each *)
  taskkill : Z → list Z * bool;                    (** the processes that [taskkill /F /T] ends, and whether it succeeds *)
}.

(** [x] is the process [pid] or was started by it or by a process that it started, and so on. *)
Definition descends (e : pm_env) (pid x : Z) : Prop := rtc (λ p c, parents e !! c = Some p) pid x.

(** The documented effect of [taskkill /T]: it ends the process and the tree below it, nothing
    else; when it fails it may have ended part of the tree. *)
Definition kills_trees (e : pm_env) : Prop := ∀ pid x, x ∈ (taskkill e pid).1 → descends e pid x.

(** [pmProcNameCache] and [pmLastProcEnum]. *)
Record pm_state := mkPmState { names : gmap Z string; last_enum : Z }.

Definition pmGetProcessName (e : pm_env) (pid : Z) (st : pm_state) : string * pm_state :=
  match names st !! pid with
  | Some name => (name, st)
  | None =>
      if negb (opens e pid) then ("", st)
      else
        let name := ToLower (default "" (processes e !! pid)) in
        if nonempty name then (name, mkPmState (<[pid := name]> (names st)) (last_enum st)) else ("", st)
  end.

(** New processes are added, those that ended dropped; an id in use again keeps its
    name. *)
Definition pmEnumerateProcesses (e : pm_env) (st : pm_state) : pm_state :=
  if snapshot e then
    mkPmState (filter (λ kv, is_Some (processes e !! kv.1)) (names st ∪ (ToLower <$> processes e))) (last_enum st)
  else st.

Definition row_owner (port : Z) (row : tcp_row) : option Z :=
  if (bool_decide (pmPortFromInt (DwLocalPort row) = port) || bool_decide (pmPortFromInt (DwRemotePort row) = port)) && (0 <? DwOwningPid row)
  then Some (DwOwningPid row) else None.

(** The result 0 is no process. *)
Definition FindProcessByPort (e : pm_env) (port : Z) (st : pm_state) : outcome Z * pm_state :=
  if negb (windows e) then (Err "only supported on windows", st)
  else
    let st := if 15 <? now e - last_enum st then mkPmState (names (pmEnumerateProcesses e st)) (now e) else st in
    (match table e with
     | None => Err "table"
     | Some rows => Ok (default 0 (head (omap (row_owner (port mod 2 ^ 16)) rows)))
     end, st).

Definition GetProcessNameByPID (e : pm_env) (pid : Z) (st : pm_state) : outcome string * pm_state :=
  if negb (windows e) then (Err "only supported on windows", st)
  else
    let '(name, st) := pmGetProcessName e pid st in
    if nonempty name then (Ok name, st)
    else
      let st := pmEnumerateProcesses e st in
      match names st !! pid with
      | Some name => (if nonempty name then Ok name else Err "process not found", st)
      | None => (Err "process not found", st)
      end.

(** The processes that were ended, and whether there was no error. *)
Definition KillProcessByPID (e : pm_env) (pid : Z) : list Z * bool := if windows e then taskkill e pid else ([], false).

Definition is_self (selfNames : list string) (name : string) : bool :=
  existsb (λ self, EqualFold name self || EqualFold name (self +:+ ".exe")) selfNames.

(** * EnsurePortAvailable *)

Inductive pm_event := Probe (port : Z) (ok : bool) | Kill (pid : Z) (ended : list Z) (ok : bool).

(** The processes that the event says were ended. *)
Definition ended_by (ev : pm_event) : list Z := match ev with Kill _ ended _ => ended | Probe _ _ => [] end.

Definition maxAttempts : nat := 10.

(** One port: whether to stop there. *)
Definition try_port (e : pm_env) (selfNames : list string) (port : Z) (st : pm_state) : list pm_event * bool * pm_state :=
  let '(pid, st) := FindProcessByPort e port st in
  match pid with
  | Ok pid =>
      if pid =? 0 then ([Probe port (listens e port)], listens e port, st)
      else
        let '(name, st) := GetProcessNameByPID e pid st in
        let name := match name with Ok name => name | _ => "" end in
        if is_self selfNames name then
          let '(ended, ok) := KillProcessByPID e pid in ([Kill pid ended ok], ok, st)
        else ([], false, st)
  | _ => ([Probe port (listens e port)], listens e port, st)
  end.

(** [e port]: the system as the attempt at the port finds it. *)
Fixpoint ensure_from (n : nat) (e : Z → pm_env) (selfNames : list string) (port : Z) (st : pm_state) : list pm_event * option Z * pm_state :=
  match n with
  | O => ([], None, st)
  | S n =>
      let '(evs, ok, st) := try_port (e port) selfNames port st in
      if ok then (evs, Some port, st)
      else let '(evs', r, st) := ensure_from n e selfNames (port + 1) st in (evs ++ evs', r, st)
  end.

(** The port, which is the first one again when there is an error. *)
Definition EnsurePortAvailable (e : Z → pm_env) (startPort : Z) (selfNames : list string) (st : pm_state) : list pm_event * (Z * bool) * pm_state :=
  let '(evs, r, st) := ensure_from maxAttempts e selfNames startPort st in
  (evs, match r with Some port => (port, true) | None => (startPort, false) end, st).

(** * Decoding *)

Definition encode_row (r : tcp_row) : list byte :=
  le_split 4 (DwState r) ++ le_split 4 (DwLocalAddr r) ++ le_split 4 (DwLocalPort r) ++
  le_split 4 (DwRemoteAddr r) ++ le_split 4 (DwRemotePort r) ++ le_split 4 (DwOwningPid r).

Definition encode_table (rows : list tcp_row) : list byte := le_split 4 (Z.of_nat (length rows)) ++ mjoin (encode_row <$> rows).

Definition word_ok (z : Z) : Prop := 0 ≤ z < 2 ^ 32.

Definition row_ok (r : tcp_row) : Prop :=
  word_ok (DwState r) ∧ word_ok (DwLocalAddr r) ∧ word_ok (DwLocalPort r) ∧ word_ok (DwRemoteAddr r) ∧ word_ok (DwRemotePort r) ∧ word_ok (DwOwningPid r).

Lemma le32_app pre l n k : n = (length pre + k)%nat → le32 (pre ++ l) n = le32 l k.
Proof. intros ->. unfold le32. by rewrite drop_app_add. Qed.

Lemma le32_split z b : word_ok z → le32 (le_split 4 z ++ b) 0 = Some z.
Proof.
  intros Hz. unfold le32. rewrite drop_0, take_app_le by by rewrite length_le_split.
  rewrite firstn_all2 by by rewrite length_le_split. rewrite length_le_split. cbn [Nat.eqb]. f_equal.
  rewrite le_combine_split. by apply Z.mod_small.
Qed.

Lemma le32_next z l k : le32 (le_split 4 z ++ l) (4 + k) = le32 l k.
Proof. apply le32_app. by rewrite length_le_split. Qed.

Lemma length_encode_row r : length (encode_row r) = 24%nat.
Proof. unfold encode_row. by rewrite !length_app, !length_le_split. Qed.

Lemma row_at_encoded pre r post i : row_ok r → length pre = (4 + i * 24)%nat → row_at (pre ++ encode_row r ++ post) i = Some r.
Proof.
  destruct r as [a b c d e f]. intros (Ha & Hb & Hc & Hd & He & Hf) Hl. unfold row_at, encode_row.
  cbn [DwState DwLocalAddr DwLocalPort DwRemoteAddr DwRemotePort DwOwningPid] in *. rewrite <- !app_assoc, <- Hl. clear Hl.
  rewrite (le32_app pre _ (length pre) 0), (le32_app pre _ (length pre + 4) (4 + 0)), (le32_app pre _ (length pre + 8) (4 + (4 + 0))),
    (le32_app pre _ (length pre + 12) (4 + (4 + (4 + 0)))), (le32_app pre _ (length pre + 16) (4 + (4 + (4 + (4 + 0))))),
    (le32_app pre _ (length pre + 20) (4 + (4 + (4 + (4 + (4 + 0)))))) by lia.
  by rewrite !le32_next, !le32_split.
Qed.

Lemma rows_encoded rows pre post k :
  Forall row_ok rows → length pre = (4 + k * 24)%nat →
  mapM (row_at (pre ++ mjoin (encode_row <$> rows) ++ post)) (seq k (length rows)) = Some rows.
Proof.
  intros H. revert pre k. induction H as [| r rows Hr H IH]; intros pre k Hl; [done |].
  cbn [length seq mapM]. cbn [fmap list_fmap mjoin list_join]. rewrite <- app_assoc, row_at_encoded by done. cbn [mbind option_bind].
  rewrite (app_assoc pre), IH; [done |]. rewrite length_app, length_encode_row. lia.
Qed.

Lemma port_swap a b : 0 ≤ a < 256 → 0 ≤ b < 256 → pmPortFromInt (a + 256 * b) = 256 * a + b.
Proof.
  intros Ha Hb. unfold pmPortFromInt. rewrite Z.shiftl_mul_pow2, Z.shiftr_div_pow2 by done. change (2 ^ 8) with 256.
  rewrite (Z.mul_comm 256 b), Z.div_add, (Z.div_small a), Z.add_0_l by lia.
  rewrite (Z.mod_small (a + b * 256)), (Z.mod_small b) by lia.
  replace ((a + b * 256) * 256) with (a * 256 + b * 2 ^ 16) by lia. rewrite Z.mod_add, Z.mod_small by lia.
  assert (Hl : Z.land (a * 256) b = 0).
  { apply Z.bits_inj'. intros i Hi. rewrite Z.bits_0, Z.land_spec. change 256 with (2 ^ 8). destruct (Z.ltb_spec i 8).
    - by rewrite Z.mul_pow2_bits_low.
    - rewrite <- (Z.mod_small b (2 ^ 8)), Z.mod_pow2_bits_high, andb_false_r by lia. done. }
  pose proof (Z.add_lor_land (a * 256) b). lia.
Qed.

(** A port as Windows stores it: its bytes in network order in the low half of a word,
    the high half being anything. *)
Definition stored_port (high port : Z) : Z := high * 2 ^ 16 + (port mod 256) * 256 + port / 256.

Lemma stored_port_read port : 0 ≤ port < 2 ^ 16 → pmPortFromInt (stored_port 0 port) = port.
Proof.
  intros H. unfold stored_port. rewrite Z.mul_0_l, Z.add_0_l, Z.add_comm, Z.mul_comm.
  pose proof (Z.mod_pos_bound port 256). pose proof (Z.div_mod port 256).
  rewrite port_swap; [lia | split; [apply Z.div_pos; lia | apply Z.div_lt_upper_bound; lia] | lia].
Qed.

(** The high half is to be ignored, but its low byte is mixed into the port. *)
Example high_half_leaks : pmPortFromInt (stored_port 0 80) = 80 ∧ pmPortFromInt (stored_port 1 80) = 336 ∧ pmPortFromInt (stored_port 256 80) = 80.
Proof. by vm_compute. Qed.

Lemma le32_short buf n : (length buf < n + 4)%nat → le32 buf n = None.
Proof. intros H. unfold le32. rewrite length_take, length_drop. by replace (_ =? 4)%nat with false by (symmetry; apply Nat.eqb_neq; lia). Qed.

Lemma length_rows rows : length (mjoin (encode_row <$> rows)) = (length rows * 24)%nat.
Proof.
  induction rows as [| r rows IH]; [done |]. change (mjoin (encode_row <$> r :: rows)) with (encode_row r ++ mjoin (encode_row <$> rows)).
  rewrite length_app, length_encode_row, IH. cbn [length]. lia.
Qed.

Lemma row_at_short buf i : (length buf < 4 + i * 24 + 24)%nat → row_at buf i = None.
Proof.
  intros H. unfold row_at. rewrite (le32_short _ (4 + i * 24 + 20)) by lia.
  by repeat (destruct (le32 buf _); cbn [mbind option_bind]).
Qed.

(** The rows that the system wrote into the buffer are read back, whatever follows
    them; a buffer too short for the rows it announces is a panic. *)
Theorem table_decodes rows rest :
  Forall row_ok rows → Z.of_nat (length rows) < 2 ^ 32 →
  pmGetTcpTable (encode_table rows ++ rest) = Some rows ∧
  (∀ cut, (cut < length (encode_table rows))%nat → pmGetTcpTable (take cut (encode_table rows)) = None).
Proof.
  intros H Hn. assert (Hw : word_ok (Z.of_nat (length rows))) by (unfold word_ok; lia). split.
  - unfold pmGetTcpTable, encode_table. rewrite <- app_assoc, le32_split by done. cbn [mbind option_bind].
    rewrite Nat2Z.id. apply rows_encoded; [done | by rewrite length_le_split].
  - intros cut Hc. unfold pmGetTcpTable. destruct (decide (cut < 4)%nat) as [Hs | Hs].
    { rewrite le32_short; [done | rewrite length_take; lia]. }
    unfold encode_table in *. rewrite take_app_ge by (rewrite length_le_split; lia). rewrite le32_split by done. cbn [mbind option_bind]. rewrite Nat2Z.id.
    rewrite length_app, length_le_split, length_rows in Hc. destruct rows as [| r rows]; cbn [length] in *; [lia |].
    apply mapM_None_2, Exists_exists. exists (length rows). split; [apply in_seq; lia |].
    apply row_at_short. rewrite length_app, length_take, length_le_split. lia.
Qed.

Lemma table_decodes_witness : pmGetTcpTable (encode_table [mkRow 2 16777343 20480 0 0 77] ++ [x00]) = Some [mkRow 2 16777343 20480 0 0 77].
Proof.
  refine (proj1 (table_decodes [mkRow 2 16777343 20480 0 0 77] [x00] _ _)); [| done].
  repeat constructor; done.
Defined.

(** * What an attempt comes to *)

(** The process that the table gives for a port, that of the first row whose owner is known
    and that listens there or is connected to that port of another machine. *)
Definition owned (port : Z) (row : tcp_row) : Prop :=
  0 < DwOwningPid row ∧ (pmPortFromInt (DwLocalPort row) = port mod 2 ^ 16 ∨ pmPortFromInt (DwRemotePort row) = port mod 2 ^ 16).

Definition holder (e : pm_env) (port pid : Z) : Prop :=
  windows e = true ∧
  ∃ before row after, table e = Some (before ++ row :: after) ∧ DwOwningPid row = pid ∧ owned port row ∧ Forall (λ r, ¬ owned port r) before.

Definition no_holder (e : pm_env) (port : Z) : Prop :=
  windows e = false ∨ table e = None ∨ ∃ rows, table e = Some rows ∧ Forall (λ r, ¬ owned port r) rows.

Lemma row_owner_Some port row pid : row_owner (port mod 2 ^ 16) row = Some pid ↔ owned port row ∧ DwOwningPid row = pid.
Proof.
  unfold row_owner, owned. repeat case_bool_decide; cbn [andb orb]; destruct (Z.ltb_spec 0 (DwOwningPid row)); split;
    try (intros [= <-]; auto); intros [[??] <-]; (done || lia || tauto).
Qed.

Lemma row_owner_None port row : row_owner (port mod 2 ^ 16) row = None → ¬ owned port row.
Proof. intros H Ho. by rewrite (proj2 (row_owner_Some port row _) (conj Ho eq_refl)) in H. Qed.

Lemma owners_split port rows :
  match omap (row_owner (port mod 2 ^ 16)) rows with
  | [] => Forall (λ r, ¬ owned port r) rows
  | pid :: _ => ∃ before row after, rows = before ++ row :: after ∧ DwOwningPid row = pid ∧ owned port row ∧ Forall (λ r, ¬ owned port r) before
  end.
Proof.
  induction rows as [| r rows IH]; [by constructor |]. cbn [omap list_omap]. destruct (row_owner (port mod 2 ^ 16) r) as [pid |] eqn:Ho.
  - apply row_owner_Some in Ho as [Ho Hp]. exists [], r, rows. repeat split; try done; apply Ho.
  - apply row_owner_None in Ho. destruct (omap _ rows) as [| pid l]; [by constructor |].
    destruct IH as (before & row & after & -> & Hp & Hr & Hb). exists (r :: before), row, after. repeat split; try done; [apply Hr..| by constructor].
Qed.

Lemma FindProcess_holder e port st pid st' :
  FindProcessByPort e port st = (pid, st') →
  match pid with Ok pid => pid = 0 ∧ no_holder e port ∨ pid ≠ 0 ∧ holder e port pid | _ => no_holder e port end.
Proof.
  unfold FindProcessByPort, no_holder, holder. intros H. destruct (windows e); cbn [negb] in H; simplify_eq; [| by left].
  destruct (table e) as [rows |]; [| by right; left]. pose proof (owners_split port rows) as Ho.
  destruct (omap _ rows) as [| x l]; cbn [head default from_option id].
  - left. eauto 6.
  - right. destruct Ho as (before & row & after & -> & Hp & Hr & Hb). split; [destruct Hr; lia | eauto 10].
Qed.

(** A name is the cache's for the process at the beginning, or the lower-cased name of a
    process that had the id at one of the attempts so far. *)
Definition named (st : pm_state) (es : list pm_env) (pid : Z) (name : string) : Prop :=
  names st !! pid = Some name ∨ ∃ e real, e ∈ es ∧ processes e !! pid = Some real ∧ name = ToLower real.

Lemma named_step st es st' e pid name :
  (∀ p n, names st' !! p = Some n → named st es p n) → named st' [e] pid name → named st (es ++ [e]) pid name.
Proof.
  intros H [Hn | (e' & real & He & Hp)]; [destruct (H _ _ Hn) as [? | (e' & real & He & Hp)]; [by left |] |];
    right; exists e', real; (split; [apply elem_of_app; tauto | done]).
Qed.

Lemma enumerate_named e st pid name : names (pmEnumerateProcesses e st) !! pid = Some name → named st [e] pid name.
Proof.
  unfold pmEnumerateProcesses. destruct (snapshot e); [| by left]. cbn [names]. intros (H & _)%map_lookup_filter_Some.
  apply lookup_union_Some_raw in H as [? | [_ H]]; [by left |]. rewrite lookup_fmap in H. destruct (processes e !! pid) as [real |] eqn:Hp; simplify_eq/=.
  right. exists e, real. repeat split; [apply list_elem_of_singleton | ..]; done.
Qed.

Lemma pmGetProcessName_named e pid st name st' p n :
  pmGetProcessName e pid st = (name, st') → (nonempty name = true → named st [e] pid name) ∧ (names st' !! p = Some n → named st [e] p n).
Proof.
  unfold pmGetProcessName. intros H. destruct (names st !! pid) as [x |] eqn:Hx; [simplify_eq; split; by left |].
  destruct (opens e pid); cbn [negb] in H; [| simplify_eq; split; [done | by left]].
  destruct (nonempty (ToLower _)) eqn:Hn; simplify_eq; [| split; [done | by left]].
  assert (Hpid : named st [e] pid (ToLower (default "" (processes e !! pid)))).
  { destruct (processes e !! pid) as [real |] eqn:Hp; cbn in Hn |- *; [| done]. right. exists e, real. repeat split; [apply list_elem_of_singleton | ..]; done. }
  split; [done |]. cbn [names]. intros [[<- <-] | [_ ?]]%lookup_insert_Some; [done | by left].
Qed.

Lemma named_via e st st' pid name : (∀ p n, names st' !! p = Some n → named st [e] p n) → named st' [e] pid name → named st [e] pid name.
Proof. intros H [Hn | Hr]; [by apply H | by right]. Qed.

Lemma GetProcessName_named e pid st name st' :
  GetProcessNameByPID e pid st = (name, st') →
  (∀ n, name = Ok n → named st [e] pid n) ∧ (∀ p n, names st' !! p = Some n → named st [e] p n).
Proof.
  unfold GetProcessNameByPID. intros H. destruct (windows e); cbn [negb] in H; [| simplify_eq; split; [done | by left]].
  destruct (pmGetProcessName e pid st) as [x st1] eqn:Hg.
  assert (Hst : ∀ p n, names st1 !! p = Some n → named st [e] p n) by (intros p n; by apply (pmGetProcessName_named _ _ _ _ _ p n Hg)).
  destruct (nonempty x) eqn:Hx. { simplify_eq. split; [| done]. intros n [= <-]. by apply (pmGetProcessName_named _ _ _ _ _ 0 "" Hg). }
  assert (He : ∀ p n, names (pmEnumerateProcesses e st1) !! p = Some n → named st [e] p n).
  { intros p n Hn. apply (named_via e st st1); [done |]. by apply enumerate_named. }
  destruct (names (pmEnumerateProcesses e st1) !! pid) as [y |] eqn:Hy; [destruct (nonempty y) |]; simplify_eq; (split; [| done]); intros n Hn; simplify_eq; by apply He.
Qed.

Lemma FindProcess_named e port st pid st' p n : FindProcessByPort e port st = (pid, st') → names st' !! p = Some n → named st [e] p n.
Proof.
  unfold FindProcessByPort. intros H. destruct (negb (windows e)); simplify_eq; [by left |].
  case_match; [| by left]. cbn [names]. apply enumerate_named.
Qed.

(** What happens at one port, [known] giving the names that a process may go by: nobody holds
    it and it is probed; its holder goes by a name of the program and [taskkill] is run on it;
    or its holder does not, and nothing happens. *)
Definition attempt_ok (e : pm_env) (known : Z → string → Prop) (selfNames : list string) (port : Z) (evs : list pm_event) (ok : bool) : Prop :=
  no_holder e port ∧ evs = [Probe port ok] ∧ ok = listens e port ∨
  ∃ pid, holder e port pid ∧
    ((∃ name ended, known pid name ∧ is_self selfNames name = true ∧ taskkill e pid = (ended, ok) ∧ evs = [Kill pid ended ok]) ∨
     (∃ name, (known pid name ∨ name = "") ∧ is_self selfNames name = false ∧ evs = [] ∧ ok = false)).

Lemma try_port_ok e selfNames port st :
  is_self selfNames "" = false →
  attempt_ok e (named st [e]) selfNames port (try_port e selfNames port st).1.1 (try_port e selfNames port st).1.2 ∧
  (∀ p n, names (try_port e selfNames port st).2 !! p = Some n → named st [e] p n).
Proof.
  intros Hs. unfold try_port. destruct (FindProcessByPort e port st) as [pid st1] eqn:Hf.
  pose proof (FindProcess_holder _ _ _ _ _ Hf) as Hh. assert (H1 : ∀ p n, names st1 !! p = Some n → named st [e] p n) by (intros p n; by apply (FindProcess_named _ _ _ _ _ _ _ Hf)).
  destruct pid as [pid | |]; [| split; [by left | done]..]. destruct (Z.eqb_spec pid 0) as [-> | Hp]; [split; [left | done]; by destruct Hh as [[_ ?] | [? _]] |].
  destruct Hh as [[? _] | [_ Hh]]; [done |]. destruct (GetProcessNameByPID e pid st1) as [name st2] eqn:Hn.
  destruct (GetProcessName_named _ _ _ _ _ Hn) as [Hk H2].
  assert (H3 : ∀ p n, names st2 !! p = Some n → named st [e] p n) by (intros p n ?; apply (named_via e st st1); auto).
  cbv beta iota zeta. unfold KillProcessByPID. rewrite (proj1 Hh).
  destruct (is_self selfNames (match name with Ok name => name | _ => "" end)) eqn:Hself.
  - destruct name as [name | |]; [| congruence..]. destruct (taskkill e pid) as [ended ok] eqn:Ht. split; [| done]. right. exists pid. split; [done |]. left.
    exists name, ended. split_and!; try done. apply (named_via e st st1); auto.
  - split; [| done]. right. exists pid. split; [done |]. right. eexists. split; [| done].
    destruct name as [name | |]; [left; apply (named_via e st st1); auto | by right..].
Qed.

(** The attempts at the ports from [port] on; only the last may succeed. *)
Definition attempts_ok (e : Z → pm_env) st selfNames (port : Z) (tries : list (list pm_event)) (ok : bool) : Prop :=
  ∀ i t, tries !! i = Some t →
    attempt_ok (e (port + Z.of_nat i)) (named st ((λ j, e (port + Z.of_nat j)) <$> seq 0 (S i))) selfNames (port + Z.of_nat i) t
      (ok && bool_decide (S i = length tries)).

Lemma attempt_mono e (known known' : Z → string → Prop) selfNames port evs ok :
  (∀ p n, known p n → known' p n) → attempt_ok e known selfNames port evs ok → attempt_ok e known' selfNames port evs ok.
Proof.
  intros H [? | (pid & Hh & [(name & ended & Hk & ?) | (name & Hk & ?)])]; [by left | right..]; exists pid; (split; [done |]).
  - left. exists name, ended. auto.
  - right. exists name. split; [destruct Hk; auto | done].
Qed.

Lemma attempts_cons (e : Z → pm_env) st st' selfNames port t tries ok :
  tries ≠ [] → (∀ p n, names st' !! p = Some n → named st [e port] p n) →
  attempt_ok (e port) (named st [e port]) selfNames port t false →
  attempts_ok e st' selfNames (port + 1) tries ok → attempts_ok e st selfNames port (t :: tries) ok.
Proof.
  intros Hn Hst Ht H [| i] t' Hi; cbn [lookup list_lookup] in Hi.
  - simplify_eq. cbn [seq fmap list_fmap]. rewrite Z.add_0_r. replace (ok && _) with false; [done |].
    destruct tries; [done |]. by destruct ok.
  - specialize (H i t' Hi). replace (port + Z.of_nat (S i)) with (port + 1 + Z.of_nat i) by lia. cbn [length].
    replace (bool_decide (S (S i) = S (length tries))) with (bool_decide (S i = length tries)) by (apply bool_decide_ext; lia).
    revert H. apply attempt_mono. intros p n [Hp | (e' & real & He & Hp)].
    + destruct (Hst _ _ Hp) as [? | (e' & real & ->%list_elem_of_singleton & ?)]; [by left |].
      right. exists (e port), real. split; [| done]. cbn [seq fmap list_fmap]. rewrite Z.add_0_r. left.
    + right. exists e', real. split; [| done]. apply list_elem_of_fmap in He as (j & -> & Hj). apply list_elem_of_fmap. exists (S j).
      split; [f_equal; lia |]. apply elem_of_seq in Hj. apply elem_of_seq. lia.
Qed.

Lemma ensure_from_S n e selfNames port st :
  ensure_from (S n) e selfNames port st =
    let '(evs, ok, st) := try_port (e port) selfNames port st in
    if ok then (evs, Some port, st) else let '(evs', r, st) := ensure_from n e selfNames (port + 1) st in (evs ++ evs', r, st).
Proof. done. Qed.

Lemma ensure_from_ok n e selfNames port st :
  is_self selfNames "" = false →
  ∃ tries, (ensure_from n e selfNames port st).1.1 = mjoin tries ∧
    attempts_ok e st selfNames port tries (bool_decide (is_Some (ensure_from n e selfNames port st).1.2)) ∧
    match (ensure_from n e selfNames port st).1.2 with
    | Some p => p = port + Z.of_nat (length tries) - 1 ∧ (1 ≤ length tries ≤ n)%nat
    | None => length tries = n
    end.
Proof.
  intros Hs. induction n as [| n IH] in port, st |- *; [by exists [] |]. cbn [ensure_from].
  destruct (try_port_ok (e port) selfNames port st Hs) as [Ht Hst]. destruct (try_port (e port) selfNames port st) as [[evs ok] st1]. cbn [fst snd] in Ht, Hst.
  destruct ok.
  - exists [evs]. cbn. rewrite app_nil_r. split_and!; [done | | lia..]. intros [| i] t Hi; [| done]. simplify_eq/=. by rewrite Z.add_0_r.
  - destruct (IH (port + 1) st1) as (tries & He & Ha & Hr). destruct (ensure_from n e selfNames (port + 1) st1) as [[evs' r] st2]. cbn [fst snd] in *.
    exists (evs :: tries). cbn [mjoin list_join length]. split_and!; [by rewrite He | | destruct r; lia].
    destruct (decide (tries = [])) as [-> | Hne]; [| by eapply attempts_cons].
    intros [| i] t Hi; [| done]. simplify_eq/=. rewrite Z.add_0_r. destruct r; [cbn in Hr; lia | done].
Qed.

Lemma attempts_end e st selfNames port tries ok x :
  (∀ p, kills_trees (e p)) → attempts_ok e st selfNames port tries ok → x ∈ mjoin tries ≫= ended_by →
  ∃ i pid name, (i < length tries)%nat ∧ holder (e (port + Z.of_nat i)) (port + Z.of_nat i) pid ∧
    named st ((λ j, e (port + Z.of_nat j)) <$> seq 0 (S i)) pid name ∧ is_self selfNames name = true ∧ descends (e (port + Z.of_nat i)) pid x.
Proof.
  intros Hk H Hx. apply list_elem_of_bind in Hx as (ev & Hx & Hev). apply list_elem_of_join in Hev as (t & Hev & Ht).
  apply list_elem_of_lookup in Ht as [i Hi]. pose proof (lookup_lt_Some _ _ _ Hi).
  destruct (H i t Hi) as [(_ & -> & _) | (pid & Hh & [(name & ended & Hn & Hs & Hkill & ->) | (? & _ & _ & -> & _)])]; [| | by apply not_elem_of_nil in Hev].
  - apply list_elem_of_singleton in Hev as ->. by apply not_elem_of_nil in Hx.
  - apply list_elem_of_singleton in Hev as ->. exists i, pid, name. repeat split; try done; try apply Hh. apply Hk. by rewrite Hkill.
Qed.


(** A machine where [nova-proxy.exe], which started the process 78, is connected to the port
    8080 of another one. *)
Definition client_of_8080 : pm_env :=
  mkPmEnv true 100 {[77 := "Nova-Proxy.exe"; 78 := "xray.exe"]} (λ _, true) true
    (Some [mkRow 5 16777343 (stored_port 0 50000) 134744072 (stored_port 0 8080) 77]) (λ _, true) {[78 := 77]}
    (λ pid, (if bool_decide (pid = 77) then [77; 78] else [], true)).

Lemma client_of_8080_trees : kills_trees client_of_8080.
Proof.
  intros pid x. cbn. case_bool_decide; cbn; [subst | by intros ?%not_elem_of_nil]. intros [-> | [-> | ?%not_elem_of_nil]%elem_of_cons]%elem_of_cons; [by apply rtc_refl | by apply rtc_once | done].
Qed.


(** * Names *)

(** A name learnt for an id is the one given for ever, while some process has the id:
    a new process of the id is ended for its predecessor's name. *)
Lemma pid_name_kept e pid st name : windows e = true → names st !! pid = Some name → nonempty name = true → GetProcessNameByPID e pid st = (Ok name, st).
Proof. intros Hw H Hn. unfold GetProcessNameByPID, pmGetProcessName. rewrite Hw, H. cbn. by rewrite Hn. Qed.

Lemma enumerate_keeps e pid st name :
  names st !! pid = Some name → is_Some (processes e !! pid) → names (pmEnumerateProcesses e st) !! pid = Some name.
Proof.
  intros H Hp. unfold pmEnumerateProcesses. destruct (snapshot e); [| done]. cbn.
  apply map_lookup_filter_Some_2; [| done]. by apply lookup_union_Some_l.
Qed.

(** A name of no process is not given, once the processes were read. *)
Lemma enumerate_forgets e pid st : snapshot e = true → processes e !! pid = None → names (pmEnumerateProcesses e st) !! pid = None.
Proof.
  intros Hs H. unfold pmEnumerateProcesses. rewrite Hs. cbn. apply map_lookup_filter_None_2. right. intros name _ Hx. cbn in Hx. rewrite H in Hx. by destruct Hx.
Qed.
