(* ===== verification/V2RayConfig.v ===== *)
(** [proxy/v2ray_config.go]: the configuration of a V2Ray server and the parsers of
    share links.

    [json.Unmarshal] into a map and [fmt]'s [%v] are arguments; the texts of wrapped
    errors are left out of the messages. *)

From coqutil Require Import Datatypes.RecordSetters.
From Stdlib Require Import Strings.Byte.
From S2P Require Import Prelude GoStrings GoNet GoBytes Base64 GoText GoURL.
Import DoubleBraceUpdate.

Open Scope Z_scope.

(** * Data *)

Record V2RayConfig := mkV2Ray {
  ID : string;
  Name : string;
  Protocol : string;
  Server : string;
  SPort : string;          (** [Port] *)
  Link : string;
  RawJSON : string;
  IsJSON : bool;
  IsSub : bool;
  SubURL : string;
  UUID : string;
  Encryption : string;
  Security : string;
  SPassword : string;      (** [Password] *)
  Method : string;
  Type_ : string;          (** [Type] *)
  SHost : string;          (** [Host] *)
  SPath : string;          (** [Path] *)
  TLS : string;
  Flow : string;
  Sni : string;
  Alpn : string;
  Fingerprint : string;
  PublicKey : string;
  ShortID : string;
  UpMbps : string;
  DownMbps : string;
  Insecure : string;
  ObfsType : string;
  Group : string;
}.

Definition zeroConfig : V2RayConfig :=
  mkV2Ray "" "" "" "" "" "" "" false false "" "" "" "" "" "" "" "" "" "" "" "" "" "" "" "" "" "" "" "" "".

Record V2RayConfigStore := mkStore {
  Configs : list V2RayConfig;
  SelectedID : string;
  CoreRunning : bool;
  CorePort : Z;
  CoreActive : bool;
}.

Definition DefaultConfigStore : V2RayConfigStore := mkStore [] "" false 11808 false.

(** * Helpers *)

Definition new_config (protocol link : string) : V2RayConfig := zeroConfig {{ Protocol := protocol; Link := link }}.

Definition address (cfg : V2RayConfig) : string := Server cfg +:+ ":" +:+ SPort cfg.

Definition name_or_address (cfg : V2RayConfig) : V2RayConfig :=
  if nonempty (Name cfg) then cfg else cfg {{ Name := address cfg }}.

(** What precedes the fragment, and the name in it. *)
Definition split_fragment (rest : string) : string * string :=
  match Cut rest "#" with
  | Some (front, frag) => (front, default "" (QueryUnescape frag))
  | None => (rest, "")
  end.

(** [None] for an error. *)
Definition netSplitHostPort (hostport : string) : option (string * string) :=
  let hostport := TrimSpace hostport in
  if negb (nonempty hostport) then None
  else if contains_byte lbrack hostport then
    match index_byte rbrack hostport with
    | None => None
    | Some e =>
        Some (str_take (S e) hostport, match str_drop (S e) hostport with String c port => if ceq c colon then port else "" | "" => "" end)
    end
  else
    match last_index_byte colon hostport with
    | None => Some (hostport, "")
    | Some i => Some (str_take i hostport, str_drop (S i) hostport)
    end.

(** [cfg.Server] and [cfg.Port] when the host and port can be split. *)
Definition set_host_port (hp : option (string * string)) (cfg : V2RayConfig) : V2RayConfig :=
  match hp with Some (host, port) => cfg {{ Server := host; SPort := port }} | None => cfg end.

Definition decode_any (decoders : list (string → option (list byte))) (s : string) : option string :=
  bytes_string <$> head (omap (λ d, d s) decoders).

(** * Parsers of the share links *)

Section parsers.
Context (Unmarshal : string → option jobject).
Context (fmt_v : jvalue → string).

(** [v, ok := data[k].(string)] *)
Definition text_member (k : string) (data : jobject) : option string :=
  match member k data with Some (JStr v) => Some v | _ => None end.

Definition text_or (def : string) (k : string) (data : jobject) : string := default def (text_member k data).

Definition port_member (data : jobject) : string := default "" (fmt_v <$> member "port" data).

Definition vmess_config (link decoded : string) (data : jobject) : V2RayConfig :=
  (new_config "vmess" link) {{
    IsJSON := true; RawJSON := decoded;
    Name := text_or "" "ps" data; Server := text_or "" "add" data; SPort := port_member data;
    UUID := text_or "" "id" data; Encryption := text_or "" "aid" data;
    Security := text_or (text_or "" "security" data) "scy" data;
    Type_ := text_or "" "net" data; SHost := text_or "" "host" data; SPath := text_or "" "path" data;
    TLS := text_or "" "tls" data; Sni := text_or "" "sni" data; Alpn := text_or "" "alpn" data;
    Fingerprint := text_or "" "fp" data; Group := text_or "" "group" data }}.

Definition parseVMess (link : string) : outcome V2RayConfig :=
  match decode_any [DecodeString; RawDecodeString; RawURLDecodeString] (TrimPrefix link "vmess://") with
  | None => Err "failed to decode vmess config"
  | Some decoded =>
      match Unmarshal decoded with
      | None => Err "failed to parse vmess JSON"
      | Some data => Ok (name_or_address (vmess_config link decoded data))
      end
  end.

(** The fields taken from the URL by [parseVLESS] and [parseTrojan]. *)
Definition url_config (protocol link : string) (u : URL) : V2RayConfig :=
  (new_config protocol link) {{ Server := Hostname u; SPort := Port u; Name := Fragment u }}.

Definition parseVLESS (link : string) : outcome V2RayConfig :=
  match Parse link with
  | None => Err "failed to parse vless link"
  | Some u =>
      let q := query_get (ParseQuery (RawQuery u)) in
      Ok (name_or_address ((url_config "vless" link u) {{
        UUID := Userinfo_String (User u);
        Encryption := q "encryption"; Security := q "security"; Type_ := q "type"; SHost := q "host"; SPath := q "path";
        TLS := q "tls"; Flow := q "flow"; Sni := q "sni"; Alpn := q "alpn"; Fingerprint := q "fp";
        PublicKey := q "pbk"; ShortID := q "sid"; Group := q "group" }}))
  end.

(** [trojan://password@server:port] when the URL does not parse. *)
Definition trojan_by_hand (link : string) : outcome V2RayConfig :=
  match Cut (TrimPrefix link "trojan://") "@" with
  | None => Err "failed to parse trojan link"
  | Some (pw, hostPort) =>
      let '(hostPort, name) := cut hostPort "#" in
      match netSplitHostPort hostPort with
      | None => Err "failed to parse trojan host:port"
      | Some (host, port) =>
          Ok (name_or_address ((new_config "trojan" link) {{ SPassword := pw; Server := host; SPort := port; Name := name }}))
      end
  end.

Definition parseTrojan (link : string) : outcome V2RayConfig :=
  match Parse link with
  | None => trojan_by_hand link
  | Some u =>
      let q := query_get (ParseQuery (RawQuery u)) in
      Ok (name_or_address ((url_config "trojan" link u) {{
        SPassword := Userinfo_String (User u);
        Security := q "security"; Type_ := q "type"; SHost := q "host"; SPath := q "path"; TLS := q "tls";
        Sni := q "sni"; Alpn := q "alpn"; Fingerprint := q "fp"; Group := q "group" }}))
  end.

(** The method and password in front of the ['@'], decoded, with what follows it. *)
Definition ss_userinfo (rest : string) : option (string * string * string) :=
  '(b64, hostPort) ← Cut rest "@";
  methodPass ← decode_any [URLDecodeString; RawURLDecodeString; DecodeString; RawDecodeString] b64;
  '(method, pw) ← Cut methodPass ":";
  Some (method, pw, hostPort).

Definition parseShadowsocks (link : string) : outcome V2RayConfig :=
  let '(rest, name) := split_fragment (TrimPrefix link "ss://") in
  match ss_userinfo rest with
  | Some (method, pw, hostPort) =>
      Ok (name_or_address (set_host_port (netSplitHostPort hostPort)
        ((new_config "shadowsocks" link) {{ Method := method; SPassword := pw; Name := name }})))
  | None =>
      match Parse link with
      | None => Err "failed to parse shadowsocks link"
      | Some u =>
          Ok (name_or_address ((url_config "shadowsocks" link u) {{ Method := Username (User u); SPassword := Password (User u) }}))
      end
  end.

(** The user and password are skipped. *)
Definition without_userinfo (rest : string) : string := match Cut rest "@" with Some (_, r) => r | None => rest end.

Definition host_port_config (protocol link rest : string) : V2RayConfig :=
  let '(rest, name) := split_fragment rest in
  name_or_address (set_host_port (netSplitHostPort (without_userinfo rest)) ((new_config protocol link) {{ Name := name }})).

Definition parseSocks (link : string) : outcome V2RayConfig :=
  let rest := if HasPrefix link "socks5://" then TrimPrefix link "socks5://" else TrimPrefix link "socks://" in
  Ok (host_port_config "socks" link rest).

Definition parseHTTP (link : string) : outcome V2RayConfig :=
  Ok (host_port_config "http" link (TrimPrefix (TrimPrefix link "https://") "http://")).

(** The settings of a hysteria2 link's query. *)
Definition hy2_query (queryStr : string) (cfg : V2RayConfig) : V2RayConfig :=
  if negb (nonempty queryStr) then cfg
  else
    let q := query_get (ParseQuery queryStr) in
    cfg {{
      Sni := if nonempty (q "sni") then q "sni" else q "peer";
      SHost := q "host"; Insecure := q "insecure"; UpMbps := q "up"; DownMbps := q "down"; Alpn := q "alpn";
      ObfsType := if nonempty (q "obfs") then q "obfs" else ObfsType cfg }}.

Definition sni_or_server (cfg : V2RayConfig) : V2RayConfig := if nonempty (Sni cfg) then cfg else cfg {{ Sni := Server cfg }}.

Definition parseHysteria2 (link : string) : outcome V2RayConfig :=
  let rest := if HasPrefix link "hysteria2://" then TrimPrefix link "hysteria2://" else TrimPrefix link "hy2://" in
  let '(rest, name) := split_fragment rest in
  let '(pw, rest) := match Cut rest "@" with Some (pw, r) => (pw, r) | None => ("", rest) end in
  let '(hostPort, queryStr) := cut rest "?" in
  Ok (sni_or_server (name_or_address (hy2_query queryStr (set_host_port (netSplitHostPort hostPort)
    ((new_config "hysteria2" link) {{ Type_ := "udp"; TLS := "tls"; Name := name; SPassword := pw }}))))).

(** The second attempt of [parseSS2022], when the URL has no host. *)
Definition ss2022_by_hand (rest : string) (cfg : V2RayConfig) : V2RayConfig :=
  let '(rest, name) := split_fragment rest in
  let cfg :=
    match Cut rest "@" with
    | None => cfg
    | Some (userinfo, hostPort) =>
        let cfg := match Cut userinfo ":" with Some (m, pw) => cfg {{ Method := m; SPassword := pw }} | None => cfg end in
        let '(host, port) := default ("", "") (netSplitHostPort hostPort) in
        cfg {{ Server := host; SPort := port }}
    end in
  cfg {{ Name := name }}.

Definition parseSS2022 (link : string) : outcome V2RayConfig :=
  match Parse link with
  | None => Err "failed to parse ss2022 link"
  | Some u =>
      let q := query_get (ParseQuery (RawQuery u)) in
      let or_query v key := if nonempty v then v else q key in
      let cfg := (new_config "shadowsocks2022" link) {{
        Method := or_query (Username (User u)) "method"; SPassword := or_query (Password (User u)) "password";
        Server := Hostname u; SPort := Port u;
        Name := default "" (QueryUnescape (Fragment u)) }} in
      let cfg := name_or_address cfg in
      Ok (name_or_address (if nonempty (Server cfg) then cfg else ss2022_by_hand (TrimPrefix link "ss2022://") cfg))
  end.

Definition ParseV2RayLink (link : string) : outcome V2RayConfig :=
  let link := TrimSpace link in
  if HasPrefix link "vmess://" then parseVMess link
  else if HasPrefix link "vless://" then parseVLESS link
  else if HasPrefix link "trojan://" then parseTrojan link
  else if HasPrefix link "ss://" then parseShadowsocks link
  else if HasPrefix link "socks://" || HasPrefix link "socks5://" then parseSocks link
  else if (HasPrefix link "http://" || HasPrefix link "https://") && contains_byte "@" link then parseHTTP link
  else if HasPrefix link "hy2://" || HasPrefix link "hysteria2://" then parseHysteria2 link
  else if HasPrefix link "ss2022://" then parseSS2022 link
  else Err ("unsupported link format: " +:+ str_take 20 link).

Definition ParseJSONConfig (jsonStr : string) : outcome V2RayConfig :=
  match Unmarshal jsonStr with
  | None => Err "invalid JSON config"
  | Some data =>
      Ok (zeroConfig {{
        Link := jsonStr; IsJSON := true; RawJSON := jsonStr;
        Protocol := text_or "" "protocol" data; Name := text_or "" "name" data; Server := text_or "" "server" data;
        SPort := port_member data }})
  end.

End parsers.

(** * Share links and what comes back

    Producers of links percent-encode the user, the query values and the name. *)

Definition vless_query (c : V2RayConfig) : list (string * string) :=
  [("encryption", Encryption c); ("security", Security c); ("type", Type_ c); ("host", SHost c); ("path", SPath c);
   ("tls", TLS c); ("flow", Flow c); ("sni", Sni c); ("alpn", Alpn c); ("fp", Fingerprint c); ("pbk", PublicKey c);
   ("sid", ShortID c); ("group", Group c)].

Definition trojan_query (c : V2RayConfig) : list (string * string) :=
  [("security", Security c); ("type", Type_ c); ("host", SHost c); ("path", SPath c); ("tls", TLS c); ("sni", Sni c);
   ("alpn", Alpn c); ("fp", Fingerprint c); ("group", Group c)].

Definition vless_link (c : V2RayConfig) : string := link_text "vless" (UUID c) (Server c) (SPort c) (vless_query c) (Name c).

Definition trojan_link (c : V2RayConfig) : string := link_text "trojan" (SPassword c) (Server c) (SPort c) (trojan_query c) (Name c).

Definition ss_secret (c : V2RayConfig) : string :=
  URLEncodeToString (Stdlib.Strings.String.list_byte_of_string (Method c +:+ ":" +:+ SPassword c)).

Definition ss_link (c : V2RayConfig) : string :=
  "ss://" +:+ ss_secret c +:+ "@" +:+ host_port (Server c) (SPort c) +:+ "#" +:+ quote (Name c).

(** A configuration with the fields a VLESS link carries. *)
Definition vless_fields (c : V2RayConfig) : V2RayConfig :=
  mkV2Ray "" (Name c) "vless" (Server c) (SPort c) (vless_link c) "" false false "" (UUID c) (Encryption c) (Security c) "" ""
    (Type_ c) (SHost c) (SPath c) (TLS c) (Flow c) (Sni c) (Alpn c) (Fingerprint c) (PublicKey c) (ShortID c) "" "" "" "" (Group c).

(** The password comes back as the URL writes it. *)
Definition trojan_fields (c : V2RayConfig) : V2RayConfig :=
  mkV2Ray "" (Name c) "trojan" (Server c) (SPort c) (trojan_link c) "" false false "" "" "" (Security c)
    (escape encodeUserPassword (SPassword c)) "" (Type_ c) (SHost c) (SPath c) (TLS c) "" (Sni c) (Alpn c) (Fingerprint c)
    "" "" "" "" "" "" (Group c).

Definition ss_fields (c : V2RayConfig) : V2RayConfig :=
  mkV2Ray "" (Name c) "shadowsocks" (Server c) (SPort c) (ss_link c) "" false false "" "" "" "" (SPassword c) (Method c)
    "" "" "" "" "" "" "" "" "" "" "" "" "" "" "".

(** A server named by ASCII letters, digits and [-._~], a numeric port and a name. *)
Definition shareable (c : V2RayConfig) : Prop :=
  all_bytes unreserved (Server c) = true ∧ all_bytes is_digit (SPort c) = true ∧ Name c ≠ "".

Lemma vless_ok c : shareable c → link_ok "vless" (Server c) (SPort c) (vless_query c).
Proof. intros (? & ? & _). split; [done|done|done|]. by repeat constructor. Qed.

Lemma trojan_ok c : shareable c → link_ok "trojan" (Server c) (SPort c) (trojan_query c).
Proof. intros (? & ? & _). split; [done|done|done|]. by repeat constructor. Qed.

Lemma vless_trim c : shareable c → TrimSpace (vless_link c) = vless_link c.
Proof. intros ok. exact (TrimSpace_link _ (UUID c) _ _ _ (vless_ok c ok) (Name c)). Qed.

Lemma vless_parse c : shareable c → Parse (vless_link c) =
  Some (mkURL "vless" (Some (mkUserinfo (UUID c) None)) (host_port (Server c) (SPort c)) (query_text (vless_query c)) (Name c)).
Proof. intros ok. exact (Parse_link _ (UUID c) _ _ _ (vless_ok c ok) (Name c)). Qed.

Lemma trojan_trim c : shareable c → TrimSpace (trojan_link c) = trojan_link c.
Proof. intros ok. exact (TrimSpace_link _ (SPassword c) _ _ _ (trojan_ok c ok) (Name c)). Qed.

Lemma trojan_parse c : shareable c → Parse (trojan_link c) =
  Some (mkURL "trojan" (Some (mkUserinfo (SPassword c) None)) (host_port (Server c) (SPort c)) (query_text (trojan_query c)) (Name c)).
Proof. intros ok. exact (Parse_link _ (SPassword c) _ _ _ (trojan_ok c ok) (Name c)). Qed.

Lemma name_kept c : nonempty (Name c) = true → name_or_address c = c.
Proof. unfold name_or_address. by intros ->. Qed.

Lemma named c : shareable c → nonempty (Name c) = true.
Proof. intros (_ & _ & Hn). by destruct (Name c). Qed.

Section roundtrip.
Context (Unmarshal : string → option jobject) (fmt_v : jvalue → string).
Context (c : V2RayConfig) (ok : shareable c).

Notation parse_link := (ParseV2RayLink Unmarshal fmt_v).

Lemma vless_parsed : all_bytes unreserved (UUID c) = true → parse_link (vless_link c) = Ok (vless_fields c).
Proof.
  intros Hu. unfold ParseV2RayLink. rewrite (vless_trim c ok).
  change (HasPrefix (vless_link c) "vmess://") with false. change (HasPrefix (vless_link c) "vless://") with true. cbv iota.
  unfold parseVLESS. rewrite (vless_parse c ok).
  cbn [RawQuery]. unfold query_get. rewrite ParseQuery_text by by apply vless_ok.
  rewrite name_kept; [|exact (named c ok)]. unfold url_config, Hostname, Port. cbn [Host User Fragment Userinfo_String username password].
  rewrite (split_host_port _ _ _ _ (vless_ok c ok)), escape_unreserved, str_app_nil_r by done. reflexivity.
Qed.

Lemma trojan_parsed : parse_link (trojan_link c) = Ok (trojan_fields c).
Proof.
  unfold ParseV2RayLink. rewrite (trojan_trim c ok).
  change (HasPrefix (trojan_link c) "vmess://") with false. change (HasPrefix (trojan_link c) "vless://") with false.
  change (HasPrefix (trojan_link c) "trojan://") with true. cbv iota.
  unfold parseTrojan. rewrite (trojan_parse c ok).
  cbn [RawQuery]. unfold query_get. rewrite ParseQuery_text by by apply trojan_ok.
  rewrite name_kept; [|exact (named c ok)]. unfold url_config, Hostname, Port. cbn [Host User Fragment Userinfo_String username password].
  rewrite (split_host_port _ _ _ _ (trojan_ok c ok)), str_app_nil_r. reflexivity.
Qed.

Lemma ss_secret_bytes : all_bytes (λ ch, unreserved ch || ceq ch pad) (ss_secret c) = true.
Proof. apply URLEncode_bytes. Qed.

Lemma ss_link_bytes : all_bytes (λ ch, link_byte ch || ceq ch "#") (ss_link c) = true.
Proof.
  destruct ok as (Hh & Hp & _). unfold ss_link, host_port. rewrite !all_bytes_app, quote_bytes; [|done|every_byte]. cbn [all_bytes].
  rewrite (all_bytes_impl (λ ch, unreserved ch || ceq ch pad) _ (ss_secret c)), (all_bytes_impl unreserved _ (Server c)),
    (all_bytes_impl is_digit _ (SPort c)); [done|every_byte|done|every_byte|done|every_byte|apply ss_secret_bytes].
Qed.

Lemma split_plain_port : netSplitHostPort (host_port (Server c) (SPort c)) = Some (Server c, SPort c).
Proof.
  destruct ok as (Hh & Hp & _). unfold netSplitHostPort.
  assert (Hb : all_bytes (λ ch, unreserved ch || ceq ch ":") (host_port (Server c) (SPort c)) = true).
  { apply (host_port_bytes "vless" _ _ _ (vless_ok c ok)); [done|by intros ch ->]. }
  rewrite TrimSpace_fresh by (intros ch Hs; apply (all_bytes_fresh (λ ch, unreserved ch || ceq ch ":")); [revert ch Hs; every_byte|exact Hb]).
  replace (nonempty _) with true by (unfold host_port; by destruct (Server c)). cbn [negb].
  rewrite (all_bytes_fresh _ lbrack _ eq_refl Hb). unfold host_port. change (":" +:+ SPort c) with (String colon (SPort c)).
  rewrite last_index_byte_app by by apply (all_bytes_fresh is_digit). by rewrite str_take_app, str_drop_app_S.
Qed.

Lemma ss_front_fresh : contains_byte "#" (ss_secret c +:+ "@" +:+ host_port (Server c) (SPort c)) = false.
Proof.
  assert (Hb : all_bytes (λ ch, unreserved ch || ceq ch ":") (host_port (Server c) (SPort c)) = true).
  { apply (host_port_bytes "vless" _ _ _ (vless_ok c ok)); [done|by intros ch ->]. }
  rewrite !contains_byte_app, (all_bytes_fresh _ "#" _ eq_refl ss_secret_bytes). by rewrite (all_bytes_fresh _ "#" _ eq_refl Hb).
Qed.

Lemma ss_parsed : contains_byte ":" (Method c) = false → parse_link (ss_link c) = Ok (ss_fields c).
Proof.
  intros Hm. unfold ParseV2RayLink. replace (TrimSpace (ss_link c)) with (ss_link c).
  2: { symmetry. apply TrimSpace_fresh. intros ch Hs. apply (all_bytes_fresh (λ ch, link_byte ch || ceq ch "#")); [|apply ss_link_bytes].
       revert ch Hs. every_byte. }
  change (HasPrefix (ss_link c) "vmess://") with false. change (HasPrefix (ss_link c) "vless://") with false.
  change (HasPrefix (ss_link c) "trojan://") with false. change (HasPrefix (ss_link c) "ss://") with true. cbv iota.
  unfold parseShadowsocks. change (TrimPrefix (ss_link c) "ss://")
    with (TrimPrefix ("ss://" +:+ ss_secret c +:+ "@" +:+ host_port (Server c) (SPort c) +:+ "#" +:+ quote (Name c)) "ss://").
  rewrite TrimPrefix_app. set (front := ss_secret c +:+ "@" +:+ host_port (Server c) (SPort c)).
  replace (ss_secret c +:+ _) with (front +:+ String "#" (quote (Name c))) by (unfold front; by rewrite !str_app_assoc).
  unfold split_fragment. rewrite Cut_app by apply ss_front_fresh. unfold QueryUnescape. rewrite unescape_quote by done.
  cbn [default]. unfold ss_userinfo, front. change ("@" +:+ ?t) with (String "@" t).
  rewrite Cut_app by (apply (all_bytes_fresh (λ ch, unreserved ch || ceq ch pad)); [done|apply ss_secret_bytes]).
  cbn [mbind option_bind]. unfold decode_any, ss_secret. cbn [omap list_omap]. rewrite URLDecode_Encode. cbn [head fmap option_fmap option_map].
  unfold bytes_string. rewrite Stdlib.Strings.String.string_of_list_byte_of_string. change (":" +:+ SPassword c) with (String ":" (SPassword c)).
  cbn [mbind option_bind]. rewrite Cut_app by done. cbn [mbind option_bind]. rewrite split_plain_port. unfold set_host_port.
  rewrite name_kept; [reflexivity|exact (named c ok)].
Qed.

(** C12: Share links round trip.  A VLESS link gives back every field it carries; a
    Trojan link gives back every field but the password, which stays as the URL
    writes it, percent-encoded; a Shadowsocks link gives back method, password,
    server, port and name.  Values and names are arbitrary byte strings. *)
Theorem share_links_roundtrip :
  (all_bytes unreserved (UUID c) = true → parse_link (vless_link c) = Ok (vless_fields c)) ∧
  parse_link (trojan_link c) = Ok (trojan_fields c) ∧
  (contains_byte ":" (Method c) = false → parse_link (ss_link c) = Ok (ss_fields c)).
Proof. split; [apply vless_parsed|]. split; [apply trojan_parsed|apply ss_parsed]. Qed.
End roundtrip.

(** ** Witnesses *)

Definition demo_server : V2RayConfig :=
  zeroConfig {{ Name := "Berlin #1 (100%)"; Server := "vpn.example.com"; SPort := "443"; UUID := "a1b2-c3"; Encryption := "none";
    Security := "tls"; Type_ := "ws"; SPath := "/ray?ed=2048&x"; Sni := "vpn.example.com"; SPassword := "p@ss:word"; Method := "aes-256-gcm" }}.

Lemma demo_shareable : shareable demo_server.
Proof. split; [reflexivity|]. split; [reflexivity|discriminate]. Qed.

Lemma share_links_roundtrip_witness :
  vless_link demo_server = "vless://a1b2-c3@vpn.example.com:443?encryption=none&security=tls&type=ws&host=&path=%2Fray%3Fed%3D2048%26x&tls=&flow=&sni=vpn.example.com&alpn=&fp=&pbk=&sid=&group=#Berlin%20%231%20%28100%25%29" ∧
  ParseV2RayLink (λ _, None) (λ _, "") (vless_link demo_server) = Ok (vless_fields demo_server) ∧
  ParseV2RayLink (λ _, None) (λ _, "") (trojan_link demo_server) = Ok (trojan_fields demo_server) ∧
  SPassword (trojan_fields demo_server) = "p%40ss%3Aword" ∧
  ParseV2RayLink (λ _, None) (λ _, "") (ss_link demo_server) = Ok (ss_fields demo_server).
Proof.
  destruct (share_links_roundtrip (λ _, None) (λ _, "") demo_server demo_shareable) as (Hv & Ht & Hs).
  split; [vm_compute; reflexivity|]. split; [apply Hv; reflexivity|]. split; [exact Ht|].
  split; [vm_compute; reflexivity|apply Hs; reflexivity].
Defined.
