(* ===== verification/V2RayManager.v ===== *)
(** [V2RayManager] of [proxy/v2ray_manager.go]: the stored configurations, the core's
    life cycle, settings, subscriptions, pings and connection tests.

    Every method holds the mutex while it runs and is one step, except where it calls
    another method that locks: [held] says that the mutex was taken by a call that can
    never go on, and an operation that needs it answers [None].  The core library (the
    JSON loader, [core.New], [Start] and [Close]), HTTP, dials and the clock are
    arguments; log lines are left out. *)

From coqutil Require Import Datatypes.RecordSetters.
From Stdlib Require Import Strings.Byte.
From S2P Require Import Prelude GoStrings GoNet Base64 GoText GoURL Settings V2RayConfig V2RayCore.
Import DoubleBraceUpdate.

Open Scope Z_scope.

(** * State *)

Record V2RaySettings := mkV2RaySettings {
  s_CorePort : Z;
  s_CoreHTTPPort : Z;
  s_SocksPort : Z;
  s_HTTPPort : Z;
  s_SelectedID : string;
  s_AutoConnect : bool;
  s_RoutingMode : string;
  s_DNSLeak : bool;
  s_Fragment : bool;
  s_IPv6 : bool;
  s_ProxyAll : bool;
  s_DOH : bool;
  s_DOHURL : string;
  s_SNIOverride : string;
}.

Definition default_v2ray_settings : V2RaySettings :=
  mkV2RaySettings 11808 11809 11808 11809 "" false "rule" false false false false false "" "".

Record V2RayManager := mkManager {
  store : V2RayConfigStore;
  settings : V2RaySettings;
  corePort : Z;
  coreInstance : option nat;
  held : bool;                                (** the mutex is locked for ever *)
  storeFile : file V2RayConfigStore;
  settingsFile : file V2RaySettings;
}.

Definition set_store (m : V2RayManager) (st : V2RayConfigStore) : V2RayManager := m {{ store := st }}.

(** * Construction and files *)

Definition loadSettings (m : V2RayManager) : V2RayManager :=
  match settingsFile m with
  | Doc s => m {{ settings := s; corePort := if s_CorePort s =? 0 then corePort m else s_CorePort s }}
  | _ => m
  end.

(** A store that does not decode leaves the defaults. *)
Definition NewV2RayManager (sf : file V2RayConfigStore) (setf : file V2RaySettings) : V2RayManager :=
  let st := match sf with Doc st => st | _ => DefaultConfigStore end in
  loadSettings (mkManager st default_v2ray_settings (if CorePort st =? 0 then 11808 else CorePort st) None false sf setf).

Definition save (w : write_result V2RayConfigStore) (m : V2RayManager) : outcome unit * V2RayManager :=
  let '(r, f) := write_file w (store m) in (r, m {{ storeFile := f }}).

Definition saveSettingsToFile (w : write_result V2RaySettings) (m : V2RayManager) : outcome unit * V2RayManager :=
  let '(r, f) := write_file w (settings m) in (r, m {{ settingsFile := f }}).

(** * Operations that hold the mutex *)

Definition locking {A} (body : V2RayManager → A * V2RayManager) (m : V2RayManager) : option A * V2RayManager :=
  if held m then (None, m) else let '(a, m') := body m in (Some a, m').

Definition SaveSettings (w : write_result V2RaySettings) (s : V2RaySettings) : V2RayManager → option (outcome unit) * V2RayManager :=
  locking (λ m, saveSettingsToFile w (m {{ settings := s; corePort := if s_CorePort s =? 0 then corePort m else s_CorePort s }})).

Definition has_id (id : string) (c : V2RayConfig) : bool := bool_decide (ID c = id).

Definition getSelectedConfigLocked (st : V2RayConfigStore) : option V2RayConfig :=
  if nonempty (SelectedID st) then List.find (has_id (SelectedID st)) (Configs st) else None.

Definition GetSelectedConfig : V2RayManager → option (option V2RayConfig) * V2RayManager :=
  locking (λ m, (getSelectedConfigLocked (store m), m)).

Definition GetConfigs : V2RayManager → option (list V2RayConfig) * V2RayManager := locking (λ m, (Configs (store m), m)).

Definition set_core_running (w : write_result V2RayConfigStore) (running : bool) (m : V2RayManager) : unit * V2RayManager :=
  (tt, snd (save w (set_store m ((store m) {{ CoreRunning := running }})))).

Definition SetCoreRunning (w : write_result V2RayConfigStore) (running : bool) : V2RayManager → option unit * V2RayManager :=
  locking (set_core_running w running).

Definition SetCoreActive (w : write_result V2RayConfigStore) (active : bool) : V2RayManager → option unit * V2RayManager :=
  locking (λ m, (tt, snd (save w (set_store m ((store m) {{ CoreActive := active }}))))).

Definition IsCoreRunning : V2RayManager → option bool * V2RayManager := locking (λ m, (CoreRunning (store m), m)).

Definition IsCoreProcessRunning : V2RayManager → option bool * V2RayManager := locking (λ m, (bool_decide (is_Some (coreInstance m)), m)).

Definition SetCorePort (w : write_result V2RayConfigStore) (port : Z) : V2RayManager → option (outcome unit) * V2RayManager :=
  locking (λ m, save w ((set_store m ((store m) {{ CorePort := port }})) {{ corePort := port }})).

Definition DeleteConfig (w : write_result V2RayConfigStore) (id : string) : V2RayManager → option (outcome unit) * V2RayManager :=
  locking (λ m,
    if existsb (has_id id) (Configs (store m)) then
      let st := (store m) {{ Configs ::= remove_first (has_id id) }} in
      save w (set_store m (if bool_decide (SelectedID st = id) then st {{ SelectedID := "" }} else st))
    else (Err "config not found", m)).

Definition SelectConfig (w : write_result V2RayConfigStore) (id : string) : V2RayManager → option (outcome unit) * V2RayManager :=
  locking (λ m,
    if existsb (has_id id) (Configs (store m)) then save w (set_store m ((store m) {{ SelectedID := id }}))
    else (Err "config not found", m)).

(** The two updates of a configuration in place. *)
Definition update_config (w : write_result V2RayConfigStore) (id : string) (f : V2RayConfig → V2RayConfig) (m : V2RayManager)
  : outcome unit * V2RayManager :=
  if existsb (has_id id) (Configs (store m)) then
    save w (set_store m ((store m) {{ Configs ::= update_first (has_id id) f }}))
  else (Err ("config not found: " +:+ id), m).

Definition UpdateConfig (w : write_result V2RayConfigStore) (id : string) (cfg : V2RayConfig)
  : V2RayManager → option (outcome unit) * V2RayManager :=
  locking (update_config w id (λ _, cfg {{ ID := id }})).

Definition set_field (field value : string) (c : V2RayConfig) : V2RayConfig :=
  let named f := bool_decide (field = f) in
  if named "name" then c {{ Name := value }} else if named "server" then c {{ Server := value }}
  else if named "port" then c {{ SPort := value }} else if named "uuid" then c {{ UUID := value }}
  else if named "password" then c {{ SPassword := value }} else if named "method" then c {{ Method := value }}
  else if named "encryption" then c {{ Encryption := value }} else if named "security" then c {{ Security := value }}
  else if named "transport" then c {{ Type_ := value }} else if named "host" then c {{ SHost := value }}
  else if named "path" then c {{ SPath := value }} else if named "tls" then c {{ TLS := value }}
  else if named "flow" then c {{ Flow := value }} else if named "sni" then c {{ Sni := value }}
  else if named "alpn" then c {{ Alpn := value }} else if named "fingerprint" then c {{ Fingerprint := value }}
  else if named "public_key" then c {{ PublicKey := value }} else if named "short_id" then c {{ ShortID := value }}
  else if named "group" then c {{ Group := value }} else if named "up_mbps" then c {{ UpMbps := value }}
  else if named "down_mbps" then c {{ DownMbps := value }} else if named "insecure" then c {{ Insecure := value }}
  else if named "obfs_type" then c {{ ObfsType := value }} else c.

Definition UpdateConfigField (w : write_result V2RayConfigStore) (id field value : string)
  : V2RayManager → option (outcome unit) * V2RayManager :=
  locking (update_config w id (set_field field value)).

Definition ClearConfigs (w : write_result V2RayConfigStore) : V2RayManager → option (outcome unit) * V2RayManager :=
  locking (λ m, save w (set_store m ((store m) {{ Configs := []; SelectedID := "" }}))).

(** * Adding configurations *)

Section links.
Context (Unmarshal : string → option jobject) (fmt_v : jvalue → string).

Definition link_prefixes : list string :=
  ["vmess://"; "vless://"; "trojan://"; "ss://"; "ss2022://"; "hy2://"; "hysteria2://"; "socks://"; "socks5://"].

Definition parseAndAdd (link : string) : outcome V2RayConfig :=
  let link := TrimSpace link in
  if negb (nonempty link) then Err "empty link"
  else if existsb (HasPrefix link) link_prefixes then ParseV2RayLink Unmarshal fmt_v link
  else if HasPrefix link "http://" || HasPrefix link "https://" then ParseV2RayLink Unmarshal fmt_v link
  else if HasPrefix link "{" || HasPrefix link "[" then ParseJSONConfig Unmarshal fmt_v link
  else Err "unknown config format".

(** [%x] of a clock reading. *)
Fixpoint hex_digits (fuel : nat) (n : Z) (acc : string) : string :=
  match fuel with
  | O => acc
  | S fuel' =>
      let acc' := String (ascii_of_nat (Z.to_nat (let d := n mod 16 in if d <? 10 then 48 + d else 87 + d))) acc in
      if n <? 16 then acc' else hex_digits fuel' (n / 16) acc'
  end.

(** Sixteen digits hold every 64-bit reading. *)
Definition clock_id (now : Z) : string := hex_digits 16 now "".

(** The lines that are not blank. *)
Definition link_lines (text : string) : list string :=
  List.filter nonempty (TrimSpace <$> Split text LF).

(** The configurations added by the lines, in order; the k-th reads the clock at [now k]. *)
Fixpoint added_from (mark : V2RayConfig → V2RayConfig) (now : nat → Z) (k : nat) (lines : list string) : list V2RayConfig :=
  match lines with
  | [] => []
  | l :: lines' =>
      match parseAndAdd l with
      | Ok cfg => mark (cfg {{ ID := clock_id (now k) }}) :: added_from mark now (S k) lines'
      | _ => added_from mark now k lines'
      end
  end.

(** What is reported for the lines that do not parse. *)
Definition failures (lines : list string) : list string :=
  omap (λ l, match parseAndAdd l with Err e => Some ("failed: " +:+ str_take 50 l +:+ " - " +:+ e) | _ => None end) lines.

Definition append_configs (added : list V2RayConfig) (m : V2RayManager) : V2RayManager :=
  set_store m ((store m) {{ Configs ::= λ l, l ++ added }}).

(** A failed save is only logged. *)
Definition AddConfig (w : write_result V2RayConfigStore) (now : nat → Z) (text : string)
  : V2RayManager → option (outcome V2RayConfig) * V2RayManager :=
  locking (λ m,
    let lines := link_lines text in
    let added := added_from id now 0 lines in
    let m' := snd (save w (append_configs added m)) in
    (match list.last added, failures lines with
     | Some cfg, _ => Ok cfg
     | None, [] => Err "no valid configs found"
     | None, fs => Err (Join fs "; ")
     end, m')).

(** ** Subscriptions *)

Definition from_sub (subURL : string) (c : V2RayConfig) : V2RayConfig := c {{ IsSub := true; SubURL := subURL }}.

Definition sub_decoders : list (string → option (list byte)) := [DecodeString; RawDecodeString; RawURLDecodeString].

(** The shared part of [AddConfigsFromSub] and [AddSubWithInfo]; [fetch] is the body of
    the answer, whatever its status. *)
Definition add_subscription (w : write_result V2RayConfigStore) (now : nat → Z) (subURL : string) (fetch : outcome string)
    (m : V2RayManager) : outcome (list V2RayConfig) * V2RayManager :=
  match fetch with
  | Err e => (Err e, m)
  | Panic => (Panic, m)
  | Ok body =>
      match decode_any sub_decoders (TrimSpace body) with
      | None => (Err "failed to decode subscription data", m)
      | Some decoded =>
          let added := added_from (from_sub subURL) now 0 (link_lines decoded) in
          (Ok added, snd (save w (append_configs added m)))
      end
  end.

Definition AddConfigsFromSub (w : write_result V2RayConfigStore) (now : nat → Z) (subURL : string) (fetch : outcome string)
  : V2RayManager → option (outcome Z) * V2RayManager :=
  locking (λ m,
    let '(r, m') := add_subscription w now subURL fetch m in
    (match r with Ok added => Ok (Z.of_nat (length added)) | Err e => Err e | Panic => Panic end, m')).

Record SubInfo := mkSubInfo {
  i_URL : string;
  i_Upload : Z;
  i_Download : Z;
  i_Total : Z;
  i_Expire : Z;
  i_ExpireStr : string;
  i_SubURL : string;
}.

(** One setting of the header; [format_time] is [time.Unix(_, 0).Format]. *)
Definition sub_info_part (format_time : Z → string) (info : SubInfo) (part : string) : SubInfo :=
  match Cut (TrimSpace part) "=" with
  | None => info
  | Some (k, v) =>
      let k := TrimSpace k in
      let n := fst (ParseInt (TrimSpace v)) in
      if bool_decide (k = "upload") then info {{ i_Upload := n }}
      else if bool_decide (k = "download") then info {{ i_Download := n }}
      else if bool_decide (k = "total") then info {{ i_Total := n }}
      else if bool_decide (k = "expire") then info {{ i_Expire := n; i_ExpireStr := format_time n }}
      else info
  end.

(** The argument is the [Subscription-Userinfo] header. *)
Definition ParseSubInfoFromHeaders (format_time : Z → string) (userinfo : string) : option SubInfo :=
  if nonempty userinfo then Some (fold_left (sub_info_part format_time) (Split userinfo ";") (mkSubInfo "" 0 0 0 0 "" ""))
  else None.

Definition AddSubWithInfo (w : write_result V2RayConfigStore) (now : nat → Z) (format_time : Z → string) (subURL : string)
    (fetch : outcome (string * string)) : V2RayManager → option (outcome (list V2RayConfig * option SubInfo)) * V2RayManager :=
  locking (λ m,
    let '(r, m') := add_subscription w now subURL (match fetch with Ok (_, body) => Ok body | Err e => Err e | Panic => Panic end) m in
    let info := match fetch with
      | Ok (header, _) => (λ i, i {{ i_URL := subURL; i_SubURL := subURL }}) <$> ParseSubInfoFromHeaders format_time header
      | _ => None end in
    (match r with Ok added => Ok (added, info) | Err e => Err e | Panic => Panic end, m')).

(** The subscriptions of the stored configurations; the map's order is not fixed. *)
Definition GetSubInfo : V2RayManager → option (list string) * V2RayManager :=
  locking (λ m, (dedup (omap (λ c, if IsSub c && nonempty (SubURL c) then Some (SubURL c) else None) (Configs (store m))), m)).

(** Only [ParseV2RayLink]: a JSON line of a subscription is skipped. *)
Definition ParseSubscriptionLinks (subURL rawData : string) : outcome (list V2RayConfig) :=
  match decode_any sub_decoders (TrimSpace rawData) with
  | None => Err "illegal base64 data"
  | Some decoded =>
      Ok (omap (λ l, match ParseV2RayLink Unmarshal fmt_v l with Ok cfg => Some (from_sub subURL cfg) | _ => None end) (link_lines decoded))
  end.

End links.

(** * The core *)

(** [launch]: the core library's loading, creation and start of an instance. *)
Definition StartCore (w : write_result V2RayConfigStore) (launch : jvalue → outcome nat) (m : V2RayManager)
  : option (outcome unit) * V2RayManager :=
  if held m then (None, m)
  else
    match getSelectedConfigLocked (store m) with
    | None => (Some (Err "no config selected"), m)
    | Some cfg =>
        let port := corePort m in
        let m := m {{ coreInstance := None }} in
        match GenerateCoreJSON (corePort m) cfg with
        | Ok config =>
            match launch config with
            | Ok id => (Some (Ok tt), snd (set_core_running w true (m {{ coreInstance := Some id; corePort := port }})))
            | Err e => (Some (Err e), m)
            | Panic => (Some Panic, m)
            end
        | Err e => (Some (Err ("generate config: " +:+ e)), m)
        | Panic => (Some Panic, m)
        end
    end.

(** [SetCoreRunning] locks the mutex that [StopCore] holds: that call never returns,
    and the deferred unlock is never reached. *)
Definition StopCore (w : write_result V2RayConfigStore) (close : nat → outcome unit) (m : V2RayManager)
  : option (outcome unit) * V2RayManager :=
  if held m then (None, m)
  else
    let m := m {{ held := true }} in
    let stopped m := let '(r, m) := SetCoreRunning w false m in
      match r with Some _ => (Some (Ok tt), m {{ held := false }}) | None => (None, m) end in
    match coreInstance m with
    | None => stopped m
    | Some id =>
        match close id with
        | Err e => (Some (Err ("stop v2ray instance: " +:+ e)), m {{ held := false }})
        | _ => stopped (m {{ coreInstance := None }})
        end
    end.

(** * Pings and tests *)

Definition ping_address (cfg : V2RayConfig) : string :=
  if nonempty (SPort cfg) then JoinHostPort (Server cfg) (SPort cfg) else Server cfg.

(** [dial]: the latency of a TCP connection to an address within a timeout in
    milliseconds. *)
Definition PingConfig (dial : string → Z → outcome Z) (routingMode : string) (cfg : V2RayConfig) : outcome Z :=
  if negb (nonempty (Server cfg)) then Err "no server address"
  else dial (ping_address cfg) (if bool_decide (routingMode = "test") then 30000 else 10000).

Definition ping_timeout (timeoutMs : Z) : Z :=
  let t := if timeoutMs <? 0 then 0 else timeoutMs in
  let t := if 10000 <? t then 10000 else t in
  if t =? 0 then 10000 else t.

Definition PingConfigWithTimeout (dial : string → Z → outcome Z) (timeoutMs : Z) (cfg : V2RayConfig) : outcome Z :=
  if negb (nonempty (Server cfg)) then Err "no server address" else dial (ping_address cfg) (ping_timeout timeoutMs).

Record V2RayPingResult := mkPingResult { r_ID : string; r_Name : string; r_Latency : Z; r_OK : bool; r_Error : string }.

Definition ping_result (c : V2RayConfig) (r : outcome Z) : V2RayPingResult :=
  match r with
  | Ok latency => mkPingResult (ID c) (Name c) latency true ""
  | Err e => mkPingResult (ID c) (Name c) 0 false e
  | Panic => mkPingResult (ID c) (Name c) 0 false ""
  end.

(** The pings run at the same time; [arrival] is the order in which they end. *)
Definition PingAllConfigs (dial : string → Z → outcome Z) (arrival : list V2RayConfig → list V2RayConfig) (m : V2RayManager)
  : option (list V2RayPingResult) * V2RayManager :=
  let '(configs, m) := GetConfigs m in
  ((λ cs, (λ c, ping_result c (PingConfig dial (s_RoutingMode (settings m)) c)) <$> arrival cs) <$> configs, m).

(** A test moves the core port away for its duration. *)
Definition test_port (now : Z) : Z := 21000 + now mod 1000.

Definition set_core_port (port : Z) : V2RayManager → option unit * V2RayManager := locking (λ m, (tt, m {{ corePort := port }})).

(** The port to put back is read before the mutex is taken. *)
Definition test_begin (now : Z) (m : V2RayManager) : option Z * V2RayManager :=
  let originalPort := corePort m in
  let '(r, m) := set_core_port (test_port now) m in ((λ _, originalPort) <$> r, m).

Definition test_end (originalPort : Z) : V2RayManager → option unit * V2RayManager := set_core_port originalPort.

(** A test: an instance of its own on the test port, [probe] through it, and the port
    put back on every path. *)
Definition with_test_port {A} (now : Z) (launch : jvalue → outcome nat) (probe : outcome A) (cfg : V2RayConfig) (m : V2RayManager)
  : option (outcome A) * V2RayManager :=
  match test_begin now m with
  | (None, m) => (None, m)
  | (Some originalPort, m) =>
      let r :=
        match GenerateCoreJSON (corePort m) cfg with
        | Ok config => match launch config with Ok _ => probe | Err e => Err e | Panic => Panic end
        | Err e => Err ("generate config: " +:+ e)
        | Panic => Panic
        end in
      let '(done, m) := test_end originalPort m in ((λ _, r) <$> done, m)
  end.

Definition test_urls : list string :=
  ["https://www.google.com/generate_204"; "https://www.gstatic.com/generate_204"; "https://cloudflare.com/cdn-cgi/trace"].

(** The average latency in milliseconds and the number of successes; latencies are in
    nanoseconds. *)
Definition test_average (get : string → option Z) : outcome (Z * nat) :=
  let latencies := omap get test_urls in
  match latencies with
  | [] => Err "all test requests failed"
  | _ => Ok (foldr Z.add 0 latencies / Z.of_nat (length latencies) / 1000000, length latencies)
  end.

Definition TestConfigReal (now : Z) (launch : jvalue → outcome nat) (get : string → option Z) (cfg : V2RayConfig)
  : V2RayManager → option (outcome (Z * nat)) * V2RayManager :=
  with_test_port now launch (test_average get) cfg.

(** [download]: the bytes read until the end or an error; the rate is left out. *)
Definition SpeedTestConfig (now : Z) (launch : jvalue → outcome nat) (download : outcome Z) (cfg : V2RayConfig)
  : V2RayManager → option (outcome Z) * V2RayManager :=
  with_test_port now launch download cfg.

(** [%.0f] of [n / d]: rounded, ties to even. *)
Definition rounded (n d : Z) : Z :=
  let q := n / d in let r := n mod d in
  if (d <? 2 * r) || ((2 * r =? d) && Z.odd q) then q + 1 else q.

Definition formatBytes (b : Z) : string :=
  if b <? 1024 then Itoa b +:+ " B"
  else if b <? 1024 * 1024 then Itoa (rounded b 1024) +:+ " KB"
  else if b <? 1024 * 1024 * 1024 then Itoa (rounded b (1024 * 1024)) +:+ " MB"
  else let t := rounded (10 * b) (1024 * 1024 * 1024) in Itoa (t / 10) +:+ "." +:+ Itoa (t mod 10) +:+ " GB".

(** * All operations *)

Inductive operation :=
  | OpSaveSettings (w : write_result V2RaySettings) (s : V2RaySettings)
  | OpSetCorePort (w : write_result V2RayConfigStore) (port : Z)
  | OpSetCoreRunning (w : write_result V2RayConfigStore) (running : bool)
  | OpSetCoreActive (w : write_result V2RayConfigStore) (active : bool)
  | OpDelete (w : write_result V2RayConfigStore) (id : string)
  | OpSelect (w : write_result V2RayConfigStore) (id : string)
  | OpUpdate (w : write_result V2RayConfigStore) (id : string) (cfg : V2RayConfig)
  | OpUpdateField (w : write_result V2RayConfigStore) (id field value : string)
  | OpClear (w : write_result V2RayConfigStore)
  | OpAdd (w : write_result V2RayConfigStore) (now : nat → Z) (text : string)
  | OpSubscribe (w : write_result V2RayConfigStore) (now : nat → Z) (subURL : string) (fetch : outcome string)
  | OpStart (w : write_result V2RayConfigStore) (launch : jvalue → outcome nat)
  | OpStop (w : write_result V2RayConfigStore) (close : nat → outcome unit)
  | OpTestBegin (now : Z)
  | OpTestEnd (originalPort : Z)
  | OpRead.

Section operations.
Context (Unmarshal : string → option jobject) (fmt_v : jvalue → string).

(** Whether the operation returns (and reports success), and the state after it. *)
Definition run_op (o : operation) (m : V2RayManager) : option bool * V2RayManager :=
  let result {A} (r : option (outcome A) * V2RayManager) : option bool * V2RayManager := (is_ok <$> fst r, snd r) in
  let always {A} (r : option A * V2RayManager) : option bool * V2RayManager := ((λ _, true) <$> fst r, snd r) in
  match o with
  | OpSaveSettings w s => result (SaveSettings w s m)
  | OpSetCorePort w port => result (SetCorePort w port m)
  | OpSetCoreRunning w b => always (SetCoreRunning w b m)
  | OpSetCoreActive w b => always (SetCoreActive w b m)
  | OpDelete w id => result (DeleteConfig w id m)
  | OpSelect w id => result (SelectConfig w id m)
  | OpUpdate w id cfg => result (UpdateConfig w id cfg m)
  | OpUpdateField w id f v => result (UpdateConfigField w id f v m)
  | OpClear w => result (ClearConfigs w m)
  | OpAdd w now text => result (AddConfig Unmarshal fmt_v w now text m)
  | OpSubscribe w now url fetch => result (AddConfigsFromSub Unmarshal fmt_v w now url fetch m)
  | OpStart w launch => result (StartCore w launch m)
  | OpStop w close => result (StopCore w close m)
  | OpTestBegin now => always (test_begin now m)
  | OpTestEnd port => always (test_end port m)
  | OpRead => always (GetConfigs m)
  end.

Definition run_ops (ops : list operation) (m : V2RayManager) : V2RayManager := fold_left (λ m o, snd (run_op o m)) ops m.

(** Every selection names a stored configuration. *)
Definition selection_ok (st : V2RayConfigStore) : Prop :=
  SelectedID st = "" ∨ existsb (has_id (SelectedID st)) (Configs st) = true.

(** * Theorems *)

(** [save] keeps everything but the file. *)
Lemma save_keeps w m : store (snd (save w m)) = store m ∧ corePort (snd (save w m)) = corePort m ∧
  settingsFile (snd (save w m)) = settingsFile m ∧ held (snd (save w m)) = held m ∧
  (is_ok (fst (save w m)) = true → storeFile (snd (save w m)) = Doc (store m)).
Proof. unfold save. by destruct w. Qed.

Lemma save_store w m : store (snd (save w m)) = store m.
Proof. apply save_keeps. Qed.

Lemma locking_held {A} (body : V2RayManager → A * V2RayManager) m : held m = true → locking body m = (None, m).
Proof. unfold locking. by intros ->. Qed.

Lemma locking_free {A} (body : V2RayManager → A * V2RayManager) m :
  held m = false → locking body m = (Some (fst (body m)), snd (body m)).
Proof. unfold locking. intros ->. by destruct (body m). Qed.

(** Nothing returns while the mutex is held for ever. *)
Lemma blocked_op o m : held m = true → run_op o m = (None, m).
Proof.
  intros Hh. destruct o; cbn [run_op];
    unfold SaveSettings, SetCorePort, SetCoreRunning, SetCoreActive, DeleteConfig, SelectConfig, UpdateConfig, UpdateConfigField,
      ClearConfigs, AddConfig, AddConfigsFromSub, test_begin, test_end, set_core_port, GetConfigs, StartCore, StopCore;
    rewrite ?locking_held by done; rewrite ?Hh; done.
Qed.

Lemma blocked_ops ops m : held m = true → run_ops ops m = m.
Proof. intros Hh. unfold run_ops. induction ops as [|o ops IH]; [done|]. cbn [fold_left]. by rewrite blocked_op. Qed.

(** When [StopCore] returns, it is because closing the instance failed. *)
Lemma StopCore_cases w close m : held m = false →
  match coreInstance m with Some id => match close id with Err e => StopCore w close m = (Some (Err ("stop v2ray instance: " +:+ e)), m)
    | _ => StopCore w close m = (None, m {{ held := true; coreInstance := None }}) end
  | None => StopCore w close m = (None, m {{ held := true; coreInstance := None }}) end.
Proof.
  intros Hh. unfold StopCore. rewrite Hh. destruct m as [st se cp inst h sf stf]. cbn in Hh. subst h.
  destruct inst as [id|]; [|done]. cbn. by destruct (close id).
Qed.

(** C40: [StopCore] never returns: it calls [SetCoreRunning], which waits for the mutex
    [StopCore] itself holds.  From then on every operation of the manager waits for
    ever.  The only way out is an error from closing the instance. *)
Theorem StopCore_blocks w close m :
  held m = false → (∀ id, coreInstance m = Some id → is_ok (close id) = true) →
  fst (StopCore w close m) = None ∧
  ∀ ops o, let m' := run_ops ops (snd (StopCore w close m)) in
    fst (run_op o m') = None ∧ CoreRunning (store m') = CoreRunning (store m).
Proof.
  intros Hh Hc. pose proof (StopCore_cases w close m Hh) as Hs.
  assert (Hs' : StopCore w close m = (None, m {{ held := true; coreInstance := None }})).
  { destruct (coreInstance m) as [id|]; [|done]. specialize (Hc id eq_refl). by destruct (close id). }
  rewrite Hs'. split; [done|]. intros ops o. cbv zeta. cbn [snd]. rewrite blocked_ops by done. by rewrite blocked_op.
Qed.

Lemma existsb_update_first id id' f l : (∀ c, ID c = id → ID (f c) = id) →
  existsb (has_id id') (update_first (has_id id) f l) = existsb (has_id id') l.
Proof.
  intros Hf. induction l as [|c l IH]; [done|]. cbn [update_first existsb]. destruct (has_id id c) eqn:E; cbn [existsb]; [|by rewrite IH].
  f_equal. apply bool_decide_eq_true in E. unfold has_id. by rewrite Hf, E.
Qed.

Lemma ID_set_field field value c : ID (set_field field value c) = ID c.
Proof. unfold set_field. by repeat case_bool_decide. Qed.

Lemma selection_update w id f m : (∀ c, ID c = id → ID (f c) = id) → selection_ok (store m) →
  selection_ok (store (snd (update_config w id f m))).
Proof.
  intros Hf Hok. unfold update_config. destruct (existsb _ _); [|done]. rewrite save_store.
  destruct Hok as [Hs|Hs]; [by left|right]. cbn. by rewrite existsb_update_first.
Qed.

Lemma existsb_remove_other id id' l : id' ≠ id → existsb (has_id id') (remove_first (has_id id) l) = existsb (has_id id') l.
Proof.
  intros Hne. induction l as [|c l IH]; [done|]. cbn [remove_first existsb]. destruct (has_id id c) eqn:E; cbn [existsb]; [|by rewrite IH].
  apply bool_decide_eq_true in E. unfold has_id at 2. rewrite bool_decide_eq_false_2; [done|congruence].
Qed.

Lemma selection_append added m : selection_ok (store m) → selection_ok (store (append_configs added m)).
Proof. intros [Hs|Hs]; [by left|right]. change (existsb (has_id (SelectedID (store m))) (Configs (store m) ++ added) = true).
  by rewrite existsb_app, Hs. Qed.

Lemma selection_start w launch m : selection_ok (store m) → selection_ok (store (snd (StartCore w launch m))).
Proof.
  intros Hok. unfold StartCore. destruct (held m); [done|]. destruct (getSelectedConfigLocked (store m)); [|done]. cbv zeta.
  destruct (GenerateCoreJSON _ _); [|done..]. destruct (launch _); [|done..]. unfold set_core_running. cbn [snd]. by rewrite save_store.
Qed.

Lemma selection_step o m : selection_ok (store m) → selection_ok (store (snd (run_op o m))).
Proof.
  intros Hok. destruct (held m) eqn:Hh; [by rewrite blocked_op|]. destruct o; cbn [run_op snd].
  - unfold SaveSettings. rewrite locking_free by done. unfold saveSettingsToFile. by destruct w.
  - unfold SetCorePort. rewrite locking_free by done. cbn [snd]. by rewrite save_store.
  - unfold SetCoreRunning. rewrite locking_free by done. unfold set_core_running. cbn [snd]. by rewrite save_store.
  - unfold SetCoreActive. rewrite locking_free by done. cbn [snd]. by rewrite save_store.
  - unfold DeleteConfig. rewrite locking_free by done. cbn [snd]. destruct (existsb _ _); [|done]. cbn [snd]. rewrite save_store.
    cbn [SelectedID]. case_bool_decide as Hs; [by left|]. destruct Hok as [Hok|Hok]; [by left|right]. cbn in *. by rewrite existsb_remove_other.
  - unfold SelectConfig. rewrite locking_free by done. cbn [snd]. destruct (existsb _ _) eqn:E; [|done]. cbn [snd]. rewrite save_store. by right.
  - unfold UpdateConfig. rewrite locking_free by done. cbn [snd]. by apply selection_update.
  - unfold UpdateConfigField. rewrite locking_free by done. cbn [snd]. apply selection_update; [|done]. intros c <-. apply ID_set_field.
  - unfold ClearConfigs. rewrite locking_free by done. cbn [snd]. rewrite save_store. by left.
  - unfold AddConfig. rewrite locking_free by done. cbn [snd]. rewrite save_store. by apply selection_append.
  - unfold AddConfigsFromSub. rewrite locking_free by done. cbn [snd]. unfold add_subscription. destruct fetch; [|done..].
    destruct (decode_any _ _); [|done]. cbn [snd]. rewrite save_store. by apply selection_append.
  - by apply selection_start.
  - pose proof (StopCore_cases w close m Hh) as Hc. destruct (coreInstance m) as [id|]; [destruct (close id)|]; by rewrite Hc.
  - unfold test_begin, set_core_port. rewrite locking_free by done. done.
  - unfold test_end, set_core_port. rewrite locking_free by done. done.
  - unfold GetConfigs. by rewrite locking_free.
Qed.

Lemma selection_run ops m : selection_ok (store m) → selection_ok (store (run_ops ops m)).
Proof.
  unfold run_ops. revert m. induction ops as [|o ops IH]; intros m Hok; [done|]. cbn [fold_left]. by apply IH, selection_step.
Qed.

Lemma not_selected st : selection_ok st → getSelectedConfigLocked st = None → SelectedID st = "".
Proof.
  intros [?|Hex]; [done|]. unfold getSelectedConfigLocked. destruct (nonempty (SelectedID st)) eqn:En.
  - intros Hf. apply existsb_exists in Hex as (c & Hin & Hid). apply (find_none _ _ Hf) in Hin. congruence.
  - intros _. by destruct (SelectedID st).
Qed.

(** In every state reached from a file whose selection is valid, the selection is
    empty or names a stored configuration: it survives additions, edits of any field,
    subscriptions and deletions, and the core fails to start for want of a selection
    exactly when it is empty. *)
Theorem selection_valid sf setf ops w launch :
  (∀ st, sf = Doc st → selection_ok st) → (∀ config, launch config ≠ Err "no config selected") →
  let m := run_ops ops (NewV2RayManager sf setf) in
  selection_ok (store m) ∧
  (held m = false →
    (fst (StartCore w launch m) = Some (Err "no config selected") ↔ SelectedID (store m) = "") ∧
    (SelectedID (store m) ≠ "" → ∃ c, fst (GetSelectedConfig m) = Some (Some c) ∧ ID c = SelectedID (store m) ∧ c ∈ Configs (store m))).
Proof.
  intros Hsf Hlaunch. cbv zeta. set (m := run_ops _ _). assert (Hok : selection_ok (store m)).
  { apply selection_run. unfold NewV2RayManager, loadSettings. destruct sf as [|st| |]; (destruct setf; [..|]; cbn; try (by left); by apply Hsf). }
  split; [done|]. intros Hh. split.
  - unfold StartCore. rewrite Hh. destruct (getSelectedConfigLocked (store m)) as [cfg|] eqn:Eg.
    + split; [|unfold getSelectedConfigLocked in Eg; intros Hs; by rewrite Hs in Eg]. cbv zeta.
      unfold GenerateCoreJSON. destruct (outbound_settings cfg); [|done]. destruct (launch _) as [?|e|] eqn:El; [done| |done].
      intros [= ->]. by destruct (Hlaunch _ El).
    + split; [intros _|done]. by apply not_selected.
  - intros Hne. unfold GetSelectedConfig. rewrite locking_free by done. cbn [fst].
    destruct Hok as [?|Hex]; [done|]. unfold getSelectedConfigLocked. replace (nonempty _) with true by (by destruct (SelectedID (store m))).
    apply existsb_exists in Hex as (c & Hin & Hid). destruct (List.find _ _) as [c'|] eqn:Ef.
    + apply find_some in Ef as [Hin' Hid']. exists c'. apply bool_decide_eq_true in Hid'. by rewrite list_elem_of_In.
    + apply (find_none _ _ Ef) in Hin. congruence.
Qed.
End operations.

(** ** Restarts, tests and pings *)

(** The program started again on the files the manager left. *)
Definition reopen (m : V2RayManager) : V2RayManager := NewV2RayManager (storeFile m) (settingsFile m).

(** Every edit that reports success is found again after a restart. *)
Lemma reopen_store m : storeFile m = Doc (store m) → store (reopen m) = store m.
Proof. intros Hf. unfold reopen, NewV2RayManager, loadSettings. rewrite Hf. by destruct (settingsFile m). Qed.

Lemma edit_saved Unmarshal fmt_v o m :
  match o with
  | OpSetCorePort _ _ | OpDelete _ _ | OpSelect _ _ | OpUpdate _ _ _ | OpUpdateField _ _ _ _ | OpClear _ => True
  | _ => False
  end →
  fst (run_op Unmarshal fmt_v o m) = Some true →
  store (reopen (snd (run_op Unmarshal fmt_v o m))) = store (snd (run_op Unmarshal fmt_v o m)).
Proof.
  intros Ho Hr. apply reopen_store. destruct (held m) eqn:Hh; [by rewrite blocked_op in Hr|]. revert Hr.
  destruct o; try done; cbn [run_op];
    unfold SetCorePort, DeleteConfig, SelectConfig, UpdateConfig, UpdateConfigField, ClearConfigs, update_config;
    rewrite locking_free by done; cbn [fst snd]; try (destruct (existsb _ _); [|done]);
    intros [= Hr]; rewrite save_store; by apply save_keeps.
Qed.

(** The stored core port is overruled by the one in the settings file. *)
Lemma SetCorePort_lost port s m :
  held m = false → settingsFile m = Doc s → s_CorePort s ≠ 0 →
  let m' := snd (SetCorePort Written port m) in
  corePort m' = port ∧ corePort (reopen m') = s_CorePort s.
Proof.
  intros Hh Hs Hp. destruct m. cbn in Hh, Hs. subst. split; [done|].
  unfold reopen, NewV2RayManager, loadSettings. cbn. by destruct (Z.eqb_spec (s_CorePort s) 0).
Qed.

(** A started core is written down as running, and still is when the program starts
    again with no core. *)
Lemma core_running_stale launch m :
  fst (StartCore Written launch m) = Some (Ok tt) →
  let m' := reopen (snd (StartCore Written launch m)) in
  CoreRunning (store m') = true ∧ coreInstance m' = None.
Proof.
  unfold StartCore. destruct (held m); [done|]. destruct (getSelectedConfigLocked (store m)) as [cfg|]; [|done]. cbv zeta.
  destruct (GenerateCoreJSON _ _) as [config|e|]; [|done..]. destruct (launch config) as [id|e|]; [|done..]. intros _. cbn [snd].
  destruct m. unfold reopen, NewV2RayManager, loadSettings. cbn. by case_match.
Qed.

(** Of two tests that overlap, the one that ends last puts back the other's test port. *)
Lemma overlapping_tests_lose_port m t1 t2 : held m = false →
  let '(p1, m1) := test_begin t1 m in
  let '(p2, m2) := test_begin t2 m1 in
  p1 = Some (corePort m) ∧ p2 = Some (test_port t1) ∧
  corePort (snd (test_end (test_port t1) (snd (test_end (corePort m) m2)))) = test_port t1.
Proof. intros Hh. destruct m. cbn in Hh. by subst. Qed.

(** The brackets that [netSplitHostPort] keeps are doubled in the address that is pinged. *)
Lemma ping_v6_bracketed :
  ∃ cfg, ParseV2RayLink (λ _, None) (λ _, "") "socks5://[2001:db8::1]:1080" = Ok cfg ∧
    ping_address cfg = "[[2001:db8::1]]:1080" ∧ SplitHostPort (ping_address cfg) = None.
Proof. eexists. split; [vm_compute; reflexivity|]. split; vm_compute; reflexivity. Qed.

(** ** Witnesses *)

Definition demo_manager : V2RayManager :=
  NewV2RayManager (Doc (mkStore [demo_server {{ ID := "1a"; Protocol := "vless" }}] "1a" true 11808 false)) Absent.

Lemma StopCore_blocks_witness :
  fst (StopCore Written (λ _, Ok tt) demo_manager) = None ∧
  fst (run_op (λ _, None) (λ _, "") OpRead (snd (StopCore Written (λ _, Ok tt) demo_manager))) = None ∧
  CoreRunning (store (snd (StopCore Written (λ _, Ok tt) demo_manager))) = true.
Proof.
  destruct (StopCore_blocks (λ _, None) (λ _, "") Written (λ _, Ok tt) demo_manager eq_refl ltac:(done)) as [Hs Hr].
  split; [exact Hs|]. split; [apply (Hr [] OpRead)|]. exact (proj2 (Hr [] OpRead)).
Defined.

Definition demo_manager_ops : list operation :=
  [OpAdd Written (λ k, 1700000000 + Z.of_nat k) (vless_link demo_server +:+ String LF demo_ss2022);
   OpSelect Written "6553f101"; OpUpdateField Written "6553f101" "port" "8388"; OpDelete Written "6553f100"].

Lemma selection_valid_witness :
  let m := run_ops (λ _, None) (λ _, "") demo_manager_ops (NewV2RayManager Absent Absent) in
  SelectedID (store m) = "6553f101" ∧ (∃ c, fst (GetSelectedConfig m) = Some (Some c) ∧ Protocol c = "shadowsocks2022").
Proof.
  cbv zeta. split; [vm_compute; reflexivity|].
  destruct (selection_valid (λ _, None) (λ _, "") Absent Absent demo_manager_ops Written (λ _, Ok 0%nat) ltac:(done) ltac:(done))
    as (_ & Hsel). destruct Hsel as [_ Hsel]; [vm_compute; reflexivity|].
  destruct Hsel as (c & Hc & _ & _); [vm_compute; discriminate|]. exists c. split; [exact Hc|]. revert Hc. vm_compute. by intros [= <-].
Defined.
