(* ===== verification/GasManager.v ===== *)
(** [GASManager] of [proxy/gas.go], with [proxy/gas_lan.go]: configuration, start and
    stop of the relay, its statistics, the scan for Google addresses, and the rotation
    of front domains.

    [Start] works in two halves: a critical section that marks the manager as running,
    and the rest, which creates the relay without the mutex.  Each is one event, like
    the other methods; a start that is between its halves is [pending].  Relays are
    numbered in the order they are created.  File writes, probes, lookups and the
    certificate parsers are arguments; the connection tests with their dials and the
    speed test are left out. *)

From coqutil Require Import Datatypes.RecordSetters.
From S2P Require Import Prelude GoStrings GoNet GoText GasCache GasHTTP GasPool Settings.
Import DoubleBraceUpdate.

Open Scope Z_scope.

(** * Configuration *)

Record GASConfig := mkGASConfig {
  c_ScriptID : string;
  c_ScriptIDs : list string;
  c_AuthKey : string;
  c_GoogleIP : string;
  c_FrontDomain : string;
  c_FrontDomains : list string;
  c_ListenPort : Z;
  c_ListenHost : string;
  c_LANSharing : bool;
  c_VerifySSL : bool;
  c_LogLevel : string;
  c_RelayTimeout : Z;
  c_TLSConnectTimeout : Z;
  c_MaxResponseBody : Z;
  c_Enabled : bool;
  c_Running : bool;
  c_LastGoogleIP : string;
  c_ConnectionLatency : Z;
  c_RequestCount : Z;
  c_BandwidthBytes : Z;
  c_CacheHits : Z;
  c_CacheMisses : Z;
  c_CurrentScriptID : string;
  c_ExcludeGoogleServices : bool;
  c_SNIRewrite : bool;
  c_TraceMode : bool;
  c_LanIPs : list string;
  c_AutoFailoverEnabled : bool;
  c_FailoverThreshold : Z;
  c_FailoverInterval : Z;
  c_RotateFrontDomain : bool;
  c_RotateInterval : Z;
  c_ProxyAppsEnabled : bool;
  c_ProxyAppList : list string;
  c_Health : string;
  c_RelayFailures : Z;
}.

Definition default_gas_config : GASConfig :=
  mkGASConfig "changeme" [] "changeme" "216.239.38.120" "www.google.com"
    ["www.google.com"; "mail.google.com"; "accounts.google.com"; "gstatic.com"] 8085 "127.0.0.1" false true "INFO" 25 15 209715200
    false false "" 0 0 0 0 0 "" false false false [] true 3 60 false 300 false [] "" 0.

(** * The relay a start creates *)

(** The fields of the relay that [newGASRelay] takes from the configuration;
    timeouts are in seconds. *)
Record relay_setup := mkSetup {
  connectHost : string;
  sniHost : string;
  sniHosts : list string;
  setupScripts : list string;
  authKey : string;
  verifySSL : bool;
  relayTO : Z;
  tlsTO : Z;
  maxBody : Z;
}.

Definition relay_setup_of (cfg : GASConfig) : relay_setup :=
  mkSetup (c_GoogleIP cfg) (c_FrontDomain cfg) (buildGASSNIPool (c_FrontDomain cfg) (c_FrontDomains cfg))
    (match c_ScriptIDs cfg with [] => if nonempty (c_ScriptID cfg) then [c_ScriptID cfg] else [] | ids => ids end)
    (c_AuthKey cfg) (c_VerifySSL cfg)
    (if c_RelayTimeout cfg <=? 0 then 25 else c_RelayTimeout cfg)
    (if c_TLSConnectTimeout cfg <=? 0 then 15 else c_TLSConnectTimeout cfg)
    (if 0 <? c_MaxResponseBody cfg then c_MaxResponseBody cfg else 200 * 1024 * 1024).

(** What [collectStats] reads from the relay. *)
Record relay_stats := mkStats {
  t_reqCount : Z;
  t_bwBytes : Z;
  t_cacheHits : Z;
  t_cacheMisses : Z;
  t_lastLatency : Z;      (** nanoseconds *)
  t_relayFail : Z;
  t_lastRelayOK : bool;
}.

(** * The manager *)

(** A start between its halves: its save failed, or it goes on with a configuration. *)
Inductive pending_start := PendingFail (msg : string) | PendingGo (cfg : GASConfig).

Record GASManager := mkGAS {
  config : GASConfig;
  configFile : file GASConfig;
  relay : option nat;
  relays : list relay_setup;          (** every relay created so far *)
  closed : gset nat;                  (** the relays that were closed *)
  pending : list pending_start;
  serving : bool;                     (** [proxyServer] is not nil *)
  failoverStop : bool;
  rotateStop : bool;
  certGen : bool;
  standaloneProxy : bool;
}.

Definition NewGASManager (f : file GASConfig) : GASManager :=
  mkGAS default_gas_config f None [] ∅ [] false false false false false.

Definition set_config (m : GASManager) (cfg : GASConfig) : GASManager := m {{ config := cfg }}.

Definition saveConfigLocked (w : write_result GASConfig) (m : GASManager) : outcome unit * GASManager :=
  let '(r, f) := write_file w (config m) in (r, m {{ configFile := f }}).

(** A missing file is written with the current configuration. *)
Definition LoadConfig (w : write_result GASConfig) (m : GASManager) : outcome unit * GASManager :=
  match configFile m with
  | Absent => saveConfigLocked w m
  | Doc cfg => (Ok tt, set_config m (cfg {{ c_Running := c_Running (config m) }}))
  | Garbage => (Err "parse error", m)
  | Unreadable => (Err "read error", m)
  end.

Definition SaveConfig (w : write_result GASConfig) (m : GASManager) : outcome unit * GASManager := saveConfigLocked w m.

Definition UpdateConfig (w : write_result GASConfig) (cfg : GASConfig) (m : GASManager) : outcome unit * GASManager :=
  saveConfigLocked w (set_config m (cfg {{ c_Running := c_Running (config m) }})).

Definition SetStandaloneProxy (enabled : bool) (m : GASManager) : GASManager := m {{ standaloneProxy := enabled }}.

Definition SetProxyApps (w : write_result GASConfig) (apps : list string) (m : GASManager) : GASManager :=
  snd (saveConfigLocked w (set_config m ((config m) {{ c_ProxyAppList := apps }}))).

Definition IsAppProxied (cfg : GASConfig) (appName : string) : bool :=
  if negb (c_ProxyAppsEnabled cfg) || bool_decide (c_ProxyAppList cfg = []) then true
  else existsb (λ name, EqualFold name appName) (c_ProxyAppList cfg).

(** ** Start and stop *)

(** The checks of [Start]: the script identifiers, or the error. *)
Definition start_check (cfg : GASConfig) : outcome (list string) :=
  let unset s := negb (nonempty s) || bool_decide (s = "changeme") in
  if unset (c_AuthKey cfg) then Err "auth_key is not set"
  else if negb (nonempty (c_GoogleIP cfg)) then Err "google_ip is not set"
  else if negb (nonempty (c_FrontDomain cfg)) then Err "front_domain is not set"
  else
    match c_ScriptIDs cfg with
    | [] => if unset (c_ScriptID cfg) then Err "script_id is not set" else Ok [c_ScriptID cfg]
    | ids => Ok ids
    end.

Definition started_config (ids : list string) (cfg : GASConfig) : GASConfig :=
  cfg {{ c_Running := true; c_LastGoogleIP := c_GoogleIP cfg; c_RequestCount := 0; c_BandwidthBytes := 0; c_CacheHits := 0;
         c_CacheMisses := 0; c_ConnectionLatency := 0;
         c_CurrentScriptID := match ids with id :: _ => id | [] => c_CurrentScriptID cfg end }}.

(** The first critical section; [None] while the start has not returned. *)
Definition Start_begin (w : write_result GASConfig) (m : GASManager) : option (outcome unit) * GASManager :=
  if c_Running (config m) then (Some (Ok tt), m)
  else
    match start_check (config m) with
    | Ok ids =>
        let '(r, m) := saveConfigLocked w (set_config m (started_config ids (config m))) in
        (None, m {{ pending ::= cons match r with Err e => PendingFail e | _ => PendingGo (config m) end }})
    | Err e => (Some (Err e), m)
    | Panic => (Some Panic, m)
    end.

Definition not_running (m : GASManager) : GASManager := set_config m ((config m) {{ c_Running := false }}).

Definition close_relay (m : GASManager) : GASManager :=
  match relay m with Some id => m {{ closed ::= union {[id]} }} | None => m end.

Definition create_relay (ca : bool) (cfg : GASConfig) (m : GASManager) : GASManager :=
  m {{ relay := Some (length (relays m)); relays ::= λ l, l ++ [relay_setup_of cfg];
       certGen := certGen m || ca; serving := standaloneProxy m }}.

(** The failover and the rotation loop, when they are configured. *)
Definition start_tickers (m : GASManager) : GASManager :=
  let m := if c_AutoFailoverEnabled (config m) then m {{ failoverStop := true }} else m in
  if c_RotateFrontDomain (config m) && negb (bool_decide (c_FrontDomains (config m) = [])) then m {{ rotateStop := true }} else m.

Definition start_failed (m : GASManager) : GASManager := (close_relay (not_running m)) {{ relay := None; serving := false }}.

(** The rest of [Start].  [ready]: in standalone mode the proxy server started, failed,
    or did not become ready in time; [ca]: a certificate authority was found on disk. *)
Definition Start_rest (ready : outcome unit) (ca : bool) (cfg : GASConfig) (m : GASManager) : outcome unit * GASManager :=
  let m := create_relay ca cfg m in
  match (if standaloneProxy m then ready else Ok tt) with
  | Ok _ => (Ok tt, start_tickers m)
  | Err e => (Err ("gas proxy start failed: " +:+ e), start_failed m)
  | Panic => (Panic, start_failed m)
  end.

(** The second half of the start that began at position [k] of the pending ones. *)
Definition Start_finish (k : nat) (ready : outcome unit) (ca : bool) (m : GASManager) : GASManager :=
  match pending m !! k with
  | None => m
  | Some (PendingFail _) => (not_running m) {{ pending ::= delete k }}
  | Some (PendingGo cfg) => snd (Start_rest ready ca cfg (m {{ pending ::= delete k }}))
  end.

Definition Stop (w : write_result GASConfig) (m : GASManager) : outcome unit * GASManager :=
  if negb (c_Running (config m)) then (Ok tt, m)
  else
    let '(r, m) := saveConfigLocked w (set_config m ((config m) {{ c_Running := false; c_Health := "red" }})) in
    (r, (close_relay m) {{ relay := None; serving := false; failoverStop := false; rotateStop := false }}).

(** ** Statistics *)

Definition health (s : relay_stats) : string :=
  if t_lastRelayOK s && (t_relayFail s =? 0) then if t_lastLatency s ÷ 1000000 <? 800 then "green" else "yellow"
  else if t_relayFail s <? 3 then "yellow" else "red".

Definition collectStats (stats : nat → relay_stats) (m : GASManager) : GASManager :=
  match relay m with
  | Some id =>
      if negb (c_Running (config m)) then set_config m ((config m) {{ c_Health := "red" }})
      else
        let s := stats id in
        set_config m ((config m) {{
          c_RequestCount := t_reqCount s; c_BandwidthBytes := t_bwBytes s; c_CacheHits := t_cacheHits s; c_CacheMisses := t_cacheMisses s;
          c_ConnectionLatency := if 0 <? t_lastLatency s then t_lastLatency s ÷ 1000000 else c_ConnectionLatency (config m);
          c_LastGoogleIP := default "" (connectHost <$> relays m !! id); c_RelayFailures := t_relayFail s; c_Health := health s }})
  | None => set_config m ((config m) {{ c_Health := "red" }})
  end.

(** ** Addresses of Google *)

Record GoogleIPResult := mkIPResult { g_IP : string; g_Latency : Z; g_Domain : string }.

(** The inner loop of [sortResults]: the element at [i] changes places with every later
    one that is faster; what ends at [i], and the rest. *)
Fixpoint swap_pass (x : GoogleIPResult) (rest : list GoogleIPResult) : GoogleIPResult * list GoogleIPResult :=
  match rest with
  | [] => (x, [])
  | y :: rest' =>
      if g_Latency y <? g_Latency x then let '(first, l) := swap_pass y rest' in (first, x :: l)
      else let '(first, l) := swap_pass x rest' in (first, y :: l)
  end.

(** The outer loop: one round for each position. *)
Fixpoint sort_rounds (rounds : nat) (l : list GoogleIPResult) : list GoogleIPResult :=
  match rounds, l with
  | S rounds', x :: rest => let '(first, l') := swap_pass x rest in first :: sort_rounds rounds' l'
  | _, _ => l
  end.

Definition sortResults (results : list GoogleIPResult) : list GoogleIPResult := sort_rounds (length results) results.

Definition gasCandidateIPs : list string :=
  ["216.239.32.120"; "216.239.34.120"; "216.239.36.120"; "216.239.38.120"; "142.250.80.142"; "142.250.80.138";
   "142.250.179.110"; "142.250.185.110"; "142.250.184.206"; "142.250.190.238"; "142.250.191.78";
   "172.217.1.206"; "172.217.14.206"; "172.217.16.142"; "172.217.22.174"; "172.217.164.110"; "172.217.168.206";
   "172.217.169.206"; "34.107.221.82"; "142.251.32.110"; "142.251.33.110"; "142.251.46.206"; "142.251.46.238";
   "142.250.80.170"; "142.250.72.206"; "142.250.64.206"; "142.250.72.110"].

Definition googleScanDomains : list string :=
  ["google.com"; "youtube.com"; "gmail.com"; "drive.google.com"; "docs.google.com"; "play.google.com"; "googleapis.com"].

(** [probe ip front]: the latency of a reachable address. *)
Section scan.
Context (probe : string → string → option Z).
Context (lookup_ips : string → option (list string)).
Context (arrival : list GoogleIPResult → list GoogleIPResult).        (** the order in which probes end *)

Definition gasProbeCandidateIPs (frontDomain : string) : list GoogleIPResult :=
  arrival (omap (λ ip, (λ lat, mkIPResult ip lat frontDomain) <$> probe ip frontDomain) gasCandidateIPs).

(** The addresses of one domain that were not seen before, with those seen after it. *)
Fixpoint probe_ips (frontDomain domain : string) (seen : list string) (ips : list string) : list GoogleIPResult * list string :=
  match ips with
  | [] => ([], seen)
  | ip :: ips' =>
      if bool_decide (ip ∈ seen) then probe_ips frontDomain domain seen ips'
      else
        let '(found, seen') := probe_ips frontDomain domain (ip :: seen) ips' in
        (match probe ip frontDomain with Some lat => mkIPResult ip lat domain :: found | None => found end, seen')
  end.

Fixpoint gasProbeDNSIPs (frontDomain : string) (seen : list string) (domains : list string) : list GoogleIPResult :=
  match domains with
  | [] => []
  | domain :: domains' =>
      match lookup_ips domain with
      | None => gasProbeDNSIPs frontDomain seen domains'
      | Some ips => let '(found, seen') := probe_ips frontDomain domain seen ips in found ++ gasProbeDNSIPs frontDomain seen' domains'
      end
  end.

Definition scan_results (cfg : GASConfig) : list GoogleIPResult :=
  let front := if nonempty (c_FrontDomain cfg) then c_FrontDomain cfg else "www.google.com" in
  sortResults (gasProbeCandidateIPs front ++ gasProbeDNSIPs front [] googleScanDomains).

Definition ScanGoogleIPs (w : write_result GASConfig) (m : GASManager) : list GoogleIPResult * GASManager :=
  let results := scan_results (config m) in
  (results,
   match results with
   | best :: _ => snd (saveConfigLocked w (set_config m ((config m) {{ c_GoogleIP := g_IP best; c_LastGoogleIP := g_IP best }})))
   | [] => m
   end).

(** One tick of the failover loop; the restart of the relay (GasBatch) leaves its set-up. *)
Definition failover_tick (w : write_result GASConfig) (stats : nat → relay_stats) (m : GASManager) : GASManager :=
  match relay m with
  | Some id =>
      if failoverStop m && c_Running (config m) && (c_FailoverThreshold (config m) <=? t_relayFail (stats id))
      then snd (ScanGoogleIPs w m) else m
  | None => m
  end.

End scan.

(** ** Front domains *)

(** The domain after the first occurrence of the current one that is not the last, or
    the first domain. *)
Fixpoint domain_after (current : string) (domains : list string) : option string :=
  match domains with
  | d :: (d' :: _) as rest => if bool_decide (d = current) then Some d' else domain_after current rest
  | _ => None
  end.

Definition next_domain (domains : list string) (current : string) : string :=
  match domains with [] => current | d :: _ => default d (domain_after current domains) end.

Definition rotate_tick (w : write_result GASConfig) (m : GASManager) : GASManager :=
  let current := c_FrontDomain (config m) in
  let next := next_domain (c_FrontDomains (config m)) current in
  if negb (rotateStop m) || bool_decide (next = current) then m
  else snd (saveConfigLocked w (set_config m ((config m) {{ c_FrontDomain := next }}))).

(** ** The LAN addresses *)

(** [IsPrivate] or [IsLinkLocalUnicast] of an IPv4 address. *)
Definition isPrivateIPv4 (ipStr : string) : bool :=
  match ParseIP ipStr with Some ip => (length ip =? 4)%nat && v4_private ip | None => false end.

Definition add_lan_ip (acc : list string * list string) (ipStr : string) : list string * list string :=
  let '(seen, ips) := acc in
  if negb (bool_decide (ipStr ∈ seen)) && isPrivateIPv4 ipStr then (ipStr :: seen, ips ++ [ipStr]) else acc.

(** [primary] is empty when there is none; the others come from the host name and from
    the interfaces that are up and not the loopback. *)
Definition gasGetLANIPs (primary : string) (host_ips iface_ips : list string) : list string :=
  let first := if nonempty primary then ([primary], if isPrivateIPv4 primary then [primary] else []) else ([], []) in
  snd (fold_left add_lan_ip (host_ips ++ iface_ips) first).

(** * Runs *)

Inductive event :=
  | EvStart (w : write_result GASConfig)
  | EvFinish (k : nat) (ready : outcome unit) (ca : bool)
  | EvStop (w : write_result GASConfig)
  | EvStats (stats : nat → relay_stats)
  | EvUpdate (w : write_result GASConfig) (cfg : GASConfig)
  | EvLoad (w : write_result GASConfig)
  | EvScan (w : write_result GASConfig) (results : list GoogleIPResult)
  | EvRotate (w : write_result GASConfig)
  | EvApps (w : write_result GASConfig) (apps : list string)
  | EvStandalone (enabled : bool).

(** A scan finds any results: they are sorted and the first one is stored. *)
Definition scanned (w : write_result GASConfig) (results : list GoogleIPResult) (m : GASManager) : GASManager :=
  snd (ScanGoogleIPs (λ _ _, None) (λ _, None) (λ _, results) w m).

Definition exec (e : event) (m : GASManager) : GASManager :=
  match e with
  | EvStart w => snd (Start_begin w m)
  | EvFinish k ready ca => Start_finish k ready ca m
  | EvStop w => snd (Stop w m)
  | EvStats stats => collectStats stats m
  | EvUpdate w cfg => snd (UpdateConfig w cfg m)
  | EvLoad w => snd (LoadConfig w m)
  | EvScan w results => scanned w results m
  | EvRotate w => rotate_tick w m
  | EvApps w apps => SetProxyApps w apps m
  | EvStandalone b => SetStandaloneProxy b m
  end.

Definition run (es : list event) (m : GASManager) : GASManager := fold_left (λ m e, exec e m) es m.

(** No stop arrives while a start is between its halves. *)
Fixpoint calm (es : list event) (m : GASManager) : bool :=
  match es with
  | [] => true
  | e :: es' => (match e with EvStop _ => bool_decide (length (pending m) = 0%nat) | _ => true end) && calm es' (exec e m)
  end.

(** A running manager has its relay, or a start under way; every relay is the current
    one or closed. *)
Record manager_ok (m : GASManager) : Prop := {
  idle_ok : pending m = [] → (c_Running (config m) = true ↔ is_Some (relay m));
  pending_ok : ∀ p ps, pending m = p :: ps → ps = [] ∧ c_Running (config m) = true ∧ relay m = None;
  relay_ok : ∀ id, relay m = Some id → (id < length (relays m))%nat ∧ id ∉ closed m;
  closed_ok : ∀ id, id ∈ closed m → (id < length (relays m))%nat;
  no_leak : ∀ id, (id < length (relays m))%nat → id ∈ closed m ∨ relay m = Some id;
}.

(** * The sort *)

Lemma swap_pass_spec rest : ∀ x, let '(first, l) := swap_pass x rest in
  first :: l ≡ₚ x :: rest ∧ (∀ y, y ∈ first :: l → g_Latency first ≤ g_Latency y).
Proof.
  induction rest as [|y rest IH]; intros x; cbn [swap_pass].
  - split; [done|]. intros z Hz. apply list_elem_of_singleton in Hz as ->. lia.
  - destruct (Z.ltb_spec (g_Latency y) (g_Latency x)) as [Hlt|Hge].
    + specialize (IH y). destruct (swap_pass y rest) as [first l]. destruct IH as [Hp Hm]. split.
      * by rewrite (Permutation_swap x first l), Hp.
      * intros z Hz. rewrite !elem_of_cons in Hz. assert (Hy : y ∈ first :: l) by (rewrite Hp; left).
        pose proof (Hm y Hy). destruct Hz as [->|[->|Hz]]; [lia|lia|]. apply Hm. by right.
    + specialize (IH x). destruct (swap_pass x rest) as [first l]. destruct IH as [Hp Hm]. split.
      * rewrite (Permutation_swap y first l), Hp. apply Permutation_swap.
      * intros z Hz. rewrite !elem_of_cons in Hz. assert (Hx : x ∈ first :: l) by (rewrite Hp; left).
        pose proof (Hm x Hx). destruct Hz as [->|[->|Hz]]; [lia|lia|]. apply Hm. by right.
Qed.

Definition faster (a b : GoogleIPResult) : Prop := g_Latency a ≤ g_Latency b.

Lemma sort_rounds_spec n : ∀ l, (length l <= n)%nat → sort_rounds n l ≡ₚ l ∧ StronglySorted faster (sort_rounds n l).
Proof.
  induction n as [|n IH]; intros [|x rest] Hl; cbn [sort_rounds]; [by repeat constructor|cbn in Hl; lia|by repeat constructor|].
  pose proof (swap_pass_spec rest x) as Hs. destruct (swap_pass x rest) as [first l]. destruct Hs as [Hp Hm].
  assert (Hlen : (length l <= n)%nat) by (apply Permutation_length in Hp; cbn in Hp, Hl; lia).
  destruct (IH l Hlen) as [Hpl Hsl]. split; [by rewrite Hpl|]. constructor; [done|].
  apply list.Forall_forall. intros y Hy. apply Hm. right. by rewrite <- Hpl.
Qed.

(** The exchange sort of the scan sorts: its result is a permutation of the
    addresses found, fastest first, and the address the scan stores is one of least
    latency. *)
Theorem sortResults_sorts results w m :
  sortResults results ≡ₚ results ∧ StronglySorted faster (sortResults results) ∧
  (results ≠ [] → ∃ best, best ∈ results ∧ Forall (faster best) results ∧ c_GoogleIP (config (scanned w results m)) = g_IP best).
Proof.
  destruct (sort_rounds_spec (length results) results (le_n _)) as [Hp Hs]. split; [done|]. split; [done|]. intros Hne.
  unfold scanned, ScanGoogleIPs, scan_results, gasProbeCandidateIPs. cbn [gasProbeDNSIPs googleScanDomains]. rewrite app_nil_r.
  fold (sortResults results) in Hp, Hs. destruct (sortResults results) as [|best l]; [by apply Permutation_nil in Hp|].
  exists best. split; [rewrite <- Hp; left|]. split; [|by destruct w].
  rewrite <- Hp. constructor; [unfold faster; lia|]. by inversion Hs.
Qed.

(** * Start and stop *)

Lemma save_config w m : config (snd (saveConfigLocked w m)) = config m ∧ relay (snd (saveConfigLocked w m)) = relay m ∧
  relays (snd (saveConfigLocked w m)) = relays m ∧ closed (snd (saveConfigLocked w m)) = closed m ∧
  pending (snd (saveConfigLocked w m)) = pending m.
Proof. unfold saveConfigLocked. by destruct w. Qed.

(** Changes that leave the relays and whether the manager runs. *)
Definition same_relays (m m' : GASManager) : Prop :=
  c_Running (config m') = c_Running (config m) ∧ relay m' = relay m ∧ relays m' = relays m ∧ closed m' = closed m ∧ pending m' = pending m.

Lemma ok_same m m' : same_relays m m' → manager_ok m → manager_ok m'.
Proof. intros (Hr & Hre & Hrs & Hc & Hp) [H1 H2 H3 H4 H5]. split; rewrite ?Hr, ?Hre, ?Hrs, ?Hc, ?Hp; done. Qed.

Lemma same_save w m cfg : c_Running cfg = c_Running (config m) → same_relays m (snd (saveConfigLocked w (set_config m cfg))).
Proof. intros Hc. unfold same_relays. destruct (save_config w (set_config m cfg)) as (-> & -> & -> & -> & ->). done. Qed.

Lemma same_exec e m : match e with EvStart _ | EvFinish _ _ _ | EvStop _ => False | _ => True end → same_relays m (exec e m).
Proof.
  destruct e; try done; intros _; cbn [exec].
  - unfold collectStats. destruct (relay m) eqn:E; [destruct (negb _)|]; by repeat split.
  - by apply same_save.
  - unfold LoadConfig. destruct (configFile m); try by repeat split. unfold same_relays. by destruct (save_config w m) as (-> & -> & -> & -> & ->).
  - unfold scanned, ScanGoogleIPs. cbn [snd]. destruct (scan_results _ _ _ _); [by repeat split|]. by apply same_save.
  - unfold rotate_tick. destruct (_ || _); [by repeat split|]. by apply same_save.
  - by apply same_save.
Qed.

Lemma ok_Start_begin w m : manager_ok m → manager_ok (snd (Start_begin w m)).
Proof.
  intros Hok. unfold Start_begin. destruct (c_Running (config m)) eqn:Hr; [done|]. destruct (start_check _) as [ids|e|]; [|done..].
  assert (Hp : pending m = []).
  { destruct (pending m) as [|p ps] eqn:E; [done|]. destruct (pending_ok m Hok p ps E) as (_ & ? & _). congruence. }
  assert (Hre : relay m = None).
  { destruct (relay m) eqn:E; [|done]. pose proof (idle_ok m Hok Hp) as Hi. rewrite E, Hr in Hi. by pose proof (proj2 Hi (mk_is_Some _ _ eq_refl)). }
  destruct Hok as [_ _ _ H4 H5]. destruct m as [cfg cf re res cl pend sv fs rs cg sa]. cbn in *. subst.
  by destruct w; (split; cbn; [| |done..]; [done|intros p ps [= <- <-]]).
Qed.

Lemma ok_Stop w m : manager_ok m → pending m = [] → manager_ok (snd (Stop w m)).
Proof.
  intros Hok Hp. unfold Stop. destruct (c_Running (config m)) eqn:Hr; [|done]. cbn [negb].
  destruct Hok as [_ _ H3 H4 H5]. destruct m as [cfg cf re res cl pend sv fs rs cg sa]. cbn in *. subst.
  assert (Hidle : false = true ↔ is_Some (@None nat)) by (split; [done|by intros [? ?]]).
  destruct w, re as [n|]; (split; cbn; [done|done|done| |]).
  all: try destruct (H3 n eq_refl) as [Hn Hn'].
  all: intros id Hid; specialize (H5 id); specialize (H4 id); set_solver.
Qed.

Lemma same_tickers m : same_relays m (start_tickers m).
Proof. unfold start_tickers. destruct (c_AutoFailoverEnabled _); cbv zeta; destruct (_ && _); by repeat split. Qed.

Lemma ok_create ca cfg m :
  (∀ id, id ∈ closed m → (id < length (relays m))%nat) → (∀ id, (id < length (relays m))%nat → id ∈ closed m) →
  pending m = [] → c_Running (config m) = true → manager_ok (create_relay ca cfg m).
Proof.
  intros H4 H5 Hp Hr. destruct m as [cfg0 cf re res cl pend sv fs rs cg sa]. cbn in *. subst.
  assert (Hlen : length (res ++ [relay_setup_of cfg]) = S (length res)) by (rewrite length_app; cbn; lia).
  split; cbn; rewrite ?Hlen.
  - intros _. split; [by eexists|done].
  - done.
  - intros id [= <-]. split; [lia|]. intros Hin%H4. lia.
  - intros id Hin%H4. lia.
  - intros id Hid. destruct (decide (id = length res)) as [->|]; [by right|left]. apply H5. lia.
Qed.

Lemma ok_failed m : manager_ok m → pending m = [] → manager_ok (start_failed m).
Proof.
  intros [_ _ H3 H4 H5] Hp. destruct m as [cfg cf re res cl pend sv fs rs cg sa]. cbn in *. subst.
  assert (Hidle : false = true ↔ is_Some (@None nat)) by (split; [done|by intros [? ?]]).
  destruct re as [n|]; (split; cbn; [done|done|done| |]).
  all: try destruct (H3 n eq_refl) as [Hn Hn'].
  all: intros id Hid; specialize (H5 id); specialize (H4 id); set_solver.
Qed.

Lemma ok_Start_finish k ready ca m : manager_ok m → manager_ok (Start_finish k ready ca m).
Proof.
  intros Hok. unfold Start_finish. destruct (pending m !! k) as [p|] eqn:Ek; [|done].
  destruct (pending m) as [|p' ps] eqn:Ep; [done|]. destruct (pending_ok m Hok p' ps Ep) as (-> & Hr & Hre).
  destruct k as [|k]; [|done]. injection Ek as ->. destruct Hok as [_ _ _ H4 H5]. rewrite Hre in H5.
  destruct p as [msg|cfg].
  - destruct m. cbn in *. subst. split; cbn; try done.
  - set (m1 := m {{ pending ::= delete 0%nat }}).
    assert (Hp1 : pending m1 = []) by (change (delete 0%nat (pending m) = []); by rewrite Ep).
    assert (Hnew : manager_ok (create_relay ca cfg m1)).
    { apply ok_create; [done| |done|done]. intros id Hid. by destruct (H5 id Hid). }
    unfold Start_rest. cbv zeta. destruct (if standaloneProxy _ then ready else Ok tt); cbn [snd].
    + by apply (ok_same _ _ (same_tickers _)).
    + by apply ok_failed.
    + by apply ok_failed.
Qed.

(** C14: As long as no stop arrives between the halves of a start, the manager is running
    exactly when it has a relay (or a start is under way, and only one), and every relay
    it ever created is the current one or closed. *)
Theorem gas_manager_invariant f es :
  calm es (NewGASManager f) = true → manager_ok (run es (NewGASManager f)).
Proof.
  assert (Hrun : ∀ es m, manager_ok m → calm es m = true → manager_ok (run es m)).
  { unfold run. induction es0 as [|e es0 IH]; intros m Hok; [done|]. cbn [calm fold_left]. intros [He Hc]%andb_prop.
    apply IH; [|done]. destruct e; try (eapply ok_same; [by apply same_exec|done]); cbn [exec].
    - by apply ok_Start_begin.
    - by apply ok_Start_finish.
    - apply ok_Stop; [done|]. apply bool_decide_eq_true in He. by destruct (pending m). }
  apply Hrun. split; cbn; try done; intros; first [lia | split; [done|by intros [? ?]]].
Qed.

(** A stop between the halves of a start leaves a relay behind: the manager is not
    running, and its relay works on. *)
Lemma stop_during_start :
  let m := run [EvUpdate Written (default_gas_config {{ c_AuthKey := "key"; c_ScriptID := "script" }}); EvStart Written;
                EvStop Written; EvFinish 0 (Ok tt) true] (NewGASManager Absent) in
  c_Running (config m) = false ∧ relay m = Some 0%nat ∧ 0%nat ∉ closed m.
Proof. split; [done|]. split; [done|set_solver]. Qed.

Definition leaked (m : GASManager) : Prop := (0 < length (relays m))%nat ∧ relay m ≠ Some 0%nat ∧ 0%nat ∉ closed m.

Lemma leaked_same m m' : same_relays m m' → leaked m → leaked m'.
Proof. unfold leaked. intros (_ & -> & -> & -> & _). done. Qed.

Lemma leaked_failed m : leaked m → leaked (start_failed m).
Proof. intros (Hl & Hr & Hc). destruct m as [? ? [id|]]; cbn in *; (split_and!; [done|done|]); cbn; set_solver. Qed.

Lemma leaked_create ca cfg m : leaked m → leaked (create_relay ca cfg m).
Proof.
  intros (Hl & Hr & Hc). unfold leaked. cbn. rewrite length_app. split; [cbn; lia|]. split; [intros [= He]; lia|done].
Qed.

Lemma leak_step e m : leaked m → leaked (exec e m).
Proof.
  intros Hm. destruct e; try (by apply (leaked_same m); [apply same_exec|]); cbn [exec].
  - unfold Start_begin. destruct (c_Running _); [done|]. destruct (start_check _); [|done..]. by destruct w.
  - unfold Start_finish. destruct (pending m !! k) as [[msg|cfg]|]; [done| |done].
    unfold Start_rest. cbv zeta. assert (Hc : leaked (create_relay ca cfg (m {{ pending ::= delete k }}))) by by apply leaked_create.
    destruct (if standaloneProxy _ then ready else Ok tt); cbn [snd].
    + by apply (leaked_same _ _ (same_tickers _)).
    + by apply leaked_failed.
    + by apply leaked_failed.
  - unfold Stop. destruct (negb _); [done|]. apply leaked_failed in Hm. revert Hm. unfold leaked. by destruct w, m as [? ? [id|]].
Qed.

(** A stop and another start while the first start is under way. *)
Definition overlapped_starts : list event :=
  [EvUpdate Written (default_gas_config {{ c_AuthKey := "key"; c_ScriptID := "script" }}); EvStart Written; EvStop Written;
   EvFinish 0 (Ok tt) true; EvStart Written; EvFinish 0 (Ok tt) true].

Lemma overlapped_leaked : leaked (run overlapped_starts (NewGASManager Absent)).
Proof. split; [apply Nat.ltb_lt; reflexivity|]. split; [discriminate|]. apply (bool_decide_unpack _). vm_compute. exact I. Qed.

(** The next start replaces the relay that the stop left behind, and no event closes it
    any more. *)
Lemma leaked_relay es : 0%nat ∉ closed (run es (run overlapped_starts (NewGASManager Absent))).
Proof.
  pose proof overlapped_leaked as Hm. generalize dependent (run overlapped_starts (NewGASManager Absent)).
  unfold run. induction es as [|e es IH]; intros m Hm; [apply Hm|]. cbn [fold_left]. by apply IH, leak_step.
Qed.

(** ** What a running relay uses is fixed by its start *)

Lemma relays_grow e m : ∃ new, relays (exec e m) = relays m ++ new.
Proof.
  assert (Hsame : ∀ m', same_relays m m' → ∃ new, relays m' = relays m ++ new).
  { intros m' (_ & _ & Hr & _). exists []. by rewrite app_nil_r. }
  destruct e; try (apply Hsame, same_exec, I); cbn [exec].
  - exists []. rewrite app_nil_r. unfold Start_begin. destruct (c_Running _); [done|]. destruct (start_check _); [|done..]. by destruct w.
  - unfold Start_finish. destruct (pending m !! k) as [[msg|cfg]|]; [by exists []; rewrite app_nil_r| |by exists []; rewrite app_nil_r].
    exists [relay_setup_of cfg]. unfold Start_rest. cbv zeta. destruct (if standaloneProxy _ then ready else Ok tt); cbn [snd].
    + by destruct (same_tickers (create_relay ca cfg (m {{ pending ::= delete k }}))) as (_ & _ & -> & _).
    + done.
    + done.
  - exists []. rewrite app_nil_r. unfold Stop. destruct (negb _); [done|]. destruct w, m as [? ? [id|]]; done.
Qed.

(** Scans, failovers, rotations and new configurations never reach a running relay: its
    set-up stays that of the configuration it was started with. *)
Lemma relay_setup_fixed es m id c : relays m !! id = Some c → relays (run es m) !! id = Some c.
Proof.
  unfold run. revert m. induction es as [|e es IH]; intros m Hc; [done|]. cbn [fold_left]. apply IH.
  destruct (relays_grow e m) as [new ->]. by apply lookup_app_l_Some.
Qed.

Lemma stats_address stats m id c : relay m = Some id → c_Running (config m) = true → relays m !! id = Some c →
  c_LastGoogleIP (config (collectStats stats m)) = connectHost c.
Proof. destruct m. cbn. intros -> Hr Hc. unfold collectStats. cbn. rewrite Hr. cbn. by rewrite Hc. Qed.

(** After a scan the manager reports one address as Google's, and the next statistics
    the one the relay still connects to. *)
Lemma failover_reports m es w results stats id c :
  relays m !! id = Some c → relay (run es m) = Some id → c_Running (config (run es m)) = true →
  c_LastGoogleIP (config (collectStats stats (scanned w results (run es m)))) = connectHost c.
Proof.
  intros Hc Hr Hrun. destruct (same_exec (EvScan w results) (run es m) I) as (Hs1 & Hs2 & Hs3 & _). cbn [exec] in *.
  apply stats_address with id; [congruence|congruence|]. rewrite Hs3. by apply relay_setup_fixed.
Qed.

(** ** Rotation and LAN addresses *)

Lemma domain_after_spec current domains : ∀ i, NoDup domains → domains !! i = Some current → domain_after current domains = domains !! S i.
Proof.
  induction domains as [|d domains IH]; intros i Hnd Hi; [done|]. apply list.NoDup_cons in Hnd as [Hd Hnd].
  destruct domains as [|d' domains]; [by destruct i as [|[]]|]. cbn [domain_after]. destruct i as [|i].
  - injection Hi as ->. by rewrite bool_decide_eq_true_2.
  - cbn in Hi. rewrite bool_decide_eq_false_2; [by apply IH|]. intros ->. destruct Hd. by apply list_elem_of_lookup_2 in Hi.
Qed.

(** Distinct front domains are used in turn, the first again after the last. *)
Lemma next_domain_cycles domains current i : NoDup domains → domains !! i = Some current →
  Some (next_domain domains current) = domains !! (S i mod length domains)%nat.
Proof.
  intros Hnd Hi. pose proof (lookup_lt_Some _ _ _ Hi) as Hlt. pose proof (domain_after_spec current domains i Hnd Hi) as Ha.
  unfold next_domain. destruct domains as [|d domains]; [done|]. rewrite Ha.
  destruct (decide (S i = length (d :: domains))) as [He|Hne].
  - rewrite He, Nat.Div0.mod_same, (lookup_ge_None_2 _ (length (d :: domains))) by done. done.
  - rewrite Nat.mod_small by lia. destruct ((d :: domains) !! S i) eqn:E; [done|]. apply lookup_ge_None in E. lia.
Qed.

Lemma add_lan_ips l : ∀ seen ips, NoDup ips → ips ⊆ seen → Forall (λ ip, isPrivateIPv4 ip = true) ips →
  let r := snd (fold_left add_lan_ip l (seen, ips)) in NoDup r ∧ Forall (λ ip, isPrivateIPv4 ip = true) r.
Proof.
  induction l as [|x l IH]; intros seen ips Hnd Hs Hp; [done|]. cbn [fold_left add_lan_ip].
  destruct (negb (bool_decide (x ∈ seen)) && isPrivateIPv4 x) eqn:E; [|by apply IH].
  apply andb_prop in E as [Hx%negb_true_iff%bool_decide_eq_false Hpx]. apply IH.
  - apply list.NoDup_app. split; [done|]. split; [set_solver|apply NoDup_singleton].
  - set_solver.
  - apply Forall_app. split; [done|by apply list.Forall_singleton].
Qed.

(** The LAN addresses offered are private IPv4 addresses, each once. *)
Lemma gasGetLANIPs_private primary host_ips iface_ips :
  let r := gasGetLANIPs primary host_ips iface_ips in NoDup r ∧ Forall (λ ip, isPrivateIPv4 ip = true) r.
Proof.
  unfold gasGetLANIPs. destruct (nonempty primary); [|by apply add_lan_ips; [constructor| |]].
  destruct (isPrivateIPv4 primary) eqn:E; apply add_lan_ips; try set_solver;
    first [apply NoDup_singleton | by apply list.Forall_singleton | apply list.Forall_nil, I | apply NoDup_nil_2].
Qed.

(** ** Witnesses *)

Lemma sortResults_sorts_witness :
  c_GoogleIP (config (scanned Written [mkIPResult "142.250.80.142" 90 "a"; mkIPResult "216.239.38.120" 35 "b"; mkIPResult "172.217.1.206" 60 "c"]
    (NewGASManager Absent))) = "216.239.38.120" ∧
  ∃ best, best ∈ [mkIPResult "216.239.38.120" 35 "b"] ∧ Forall (faster best) [mkIPResult "216.239.38.120" 35 "b"].
Proof.
  split; [reflexivity|].
  destruct (sortResults_sorts [mkIPResult "216.239.38.120" 35 "b"] Written (NewGASManager Absent)) as (_ & _ & Hb).
  destruct Hb as (best & Hin & Hf & _); [discriminate|]. by exists best.
Defined.

Definition demo_gas_events : list event :=
  [EvUpdate Written (default_gas_config {{ c_AuthKey := "key"; c_ScriptIDs := ["one"; "two"] }}); EvStart Written; EvFinish 0 (Ok tt) true;
   EvScan Written [mkIPResult "142.250.80.142" 40 "google.com"]; EvStop Written; EvStart Written; EvFinish 0 (Ok tt) true].

Lemma gas_manager_invariant_witness :
  relay (run demo_gas_events (NewGASManager Absent)) = Some 1%nat ∧
  (connectHost <$> relays (run demo_gas_events (NewGASManager Absent))) = ["216.239.38.120"; "142.250.80.142"] ∧
  manager_ok (run demo_gas_events (NewGASManager Absent)).
Proof.
  split; [reflexivity|]. split; [reflexivity|]. apply (gas_manager_invariant Absent demo_gas_events). reflexivity.
Defined.
