(* ===== verification/GasServer.v ===== *)
(** [proxy/gas_relay.go] and [proxy/gas.go]: the loops that keep the relay alive, the
    standalone proxy server in front of it, and the tests of the GAS page.

    The server is a step relation: its main goroutine, the accept loop and the handlers of
    its connections interleave.  Pings, dials and HTTP requests are answers of the world. *)

From coqutil Require Import Datatypes.RecordSetters.
From S2P Require Import Prelude GoStrings GoNet GoText CertManager GasBatch GasRelay GasPool GasProxy GasManager.
Import DoubleBraceUpdate.

Open Scope Z_scope.

(** * The upkeep of the relay *)

(** The parts of [gasRelay] that a ping, a restart and a close touch: the HTTP/2 client and
    the scripts (GasRelay), the pool (GasPool) and the queue of the batches (GasBatch). *)
Record whole_relay := mkWhole {
  requests : GasRelay.gasRelay;
  conns : GasPool.transport;
  batches : GasBatch.queue;
  relayFail : Z;
  lastRelayOK : bool;
  w_closed : bool;
  channel_closes : nat;                              (** how often the two stop channels were closed *)
}.

Definition fresh_relay : whole_relay := mkWhole GasRelay.newGASRelay GasPool.idle GasBatch.empty_queue 0 false false 0.

(** The single updates of the state. *)
Definition set_requests (r : GasRelay.gasRelay) (w : whole_relay) : whole_relay := w {{ requests := r }}.
Definition set_conns (t : GasPool.transport) (w : whole_relay) : whole_relay := w {{ conns := t }}.
Definition set_fail (n : Z) (ok : bool) (w : whole_relay) : whole_relay := w {{ relayFail := n; lastRelayOK := ok }}.

(** The loop over the pool that closes what it holds. *)
Fixpoint close_each (l : list gasPooledConn) : GasPool.M unit :=
  match l with
  | [] => GasPool.ret tt
  | pc :: l => GasPool.bind (GasPool.close_conn (conn pc)) (λ _, close_each l)
  end.

Definition clear_pool (t : transport) : transport := t {{ pool := [] }}.

Definition drop_pool : GasPool.M unit :=
  GasPool.bind GasPool.lock (λ _ t,
    GasPool.bind (close_each (pool t)) (λ _,
      GasPool.bind (λ t, (Ret tt, clear_pool t)) (λ _, GasPool.unlock)) t).

Definition forget_client (r : GasRelay.gasRelay) : GasRelay.gasRelay := r {{ h2Client := false; h2FailCount := 0; h2BackoffUntil := 0 }}.

Definition forget_blacklist (r : GasRelay.gasRelay) : GasRelay.gasRelay := r {{ sidBlacklist := ∅ }}.

Definition restart (w : whole_relay) : res unit * whole_relay :=
  let w := set_requests (forget_client (requests w)) w in
  let '(r, t) := drop_pool (conns w) in
  let w := set_conns t w in
  match r with
  | Ret _ =>
      let w := w {{ batches ::= GasBatch.restart }} in
      (r, set_requests (forget_blacklist (requests w)) (set_fail 0 false w))
  | _ => (r, w)
  end.

(** The channels and the idle HTTP/2 connections are closed once. *)
Definition close (w : whole_relay) : res unit * whole_relay :=
  if w_closed w then (Ret tt, w)
  else
    let w := w {{ w_closed := true; channel_closes ::= S }} in
    let '(r, t) := drop_pool (conns w) in
    let w := set_conns t w in
    match r with
    | Ret _ => (r, set_requests (forget_blacklist (requests w)) w)
    | _ => (r, w)
    end.

Section upkeep.
Context (scriptIDs sniHosts : list string) (devAvail : bool).
Context (clock : nat → Z).
Context (h2_do : nat → string → option (option string)).
Context (hash0 : string → nat) (parse_url : string → option (string * string)).
Context (dial has_data write : nat → bool).
Context (read : nat → option (Z * gmap string string * string)).
Context (redirect_path : string → option string).

Definition http1 (fuel : nat) (t : transport) : option (res string * transport) := relayHTTP1 clock dial has_data write read redirect_path sniHosts fuel t.

(** A ping without an answer. *)
Definition ping_failed (w : whole_relay) : res unit * whole_relay :=
  let w := set_fail (relayFail w + 1) false w in
  if 5 <=? relayFail w then restart w
  else (Ret tt, set_requests (snd (GasRelay.resetH2 clock (requests w))) w).

(** [None]: the HTTP/1.1 request follows redirects for longer than the fuel. *)
Definition pingRelay (fuel : nat) (w : whole_relay) : option (res unit * whole_relay) :=
  let '(path, r) := GasRelay.execPath scriptIDs devAvail clock hash0 parse_url "ping" (requests w) in
  let '(body, r) := GasRelay.h2Request clock h2_do path r in
  let w := set_requests r w in
  match body with
  | Some _ => Some (Ret tt, set_fail 0 true w)
  | None =>
      match http1 fuel (conns w) with
      | None => None
      | Some (Ret _, t) => Some (Ret tt, set_fail 0 true (set_conns t w))
      | Some (Error, t) => Some (ping_failed (set_conns t w))
      | Some (Panicked, t) => Some (Panicked, set_conns t w)
      | Some (Fatal, t) => Some (Fatal, set_conns t w)
      | Some (Hangs, t) => Some (Hangs, set_conns t w)
      end
  end.

(** [n] beats.  Nothing recovers a panic of this goroutine. *)
Fixpoint heartbeatLoop (fuel n : nat) (w : whole_relay) : option (res unit * whole_relay) :=
  match n with
  | O => Some (Ret tt, w)
  | S n' =>
      match pingRelay fuel w with
      | Some (Ret _, w) => heartbeatLoop fuel n' w
      | r => r
      end
  end.

Definition turn_name (w : whole_relay) : whole_relay := set_conns (snd (nextSNI sniHosts (conns w))) w.

Definition warmUp (fuel : nat) (w : whole_relay) : option (res unit * whole_relay) :=
  match pingRelay fuel w with
  | Some (Ret _, w) =>
      match pingRelay fuel (turn_name w) with
      | Some (Ret _, w) => Some (Ret tt, turn_name w)
      | r => r
      end
  | r => r
  end.
End upkeep.

(** ** The log of the busiest hosts *)

Definition gasStatsLogTopN : nat := 10.

Definition bytes_order (a b : string * gasHostStat) : Prop := Bytes (snd b) ≤ Bytes (snd a).

#[export] Instance bytes_order_dec a b : Decision (bytes_order a b) := Z_le_dec _ _.

Definition stat_line (e : string * gasHostStat) : string * Z * Z * Z :=
  let '(host, st) := e in (host, Requests st, Errors st, if 0 <? Requests st then TotalLatencyNs st ÷ Requests st else 0).

(** The host, its requests and errors, and its average latency; equal hosts in the order of
    a stable sort. *)
Definition logStats (hosts : gmap string gasHostStat) : list (string * Z * Z * Z) := stat_line <$> take gasStatsLogTopN (merge_sort bytes_order (map_to_list hosts)).

(** * The standalone server *)

(** The host it listens on. *)
Definition listen_host (listenHost : string) (lanSharing : bool) : string :=
  let host := if nonempty listenHost then listenHost else "127.0.0.1" in
  if lanSharing && bool_decide (host = "127.0.0.1") then "0.0.0.0" else host.

(** [own]: the authority it makes for itself; [certGen]: the certificate and the key of the
    generator, a key being usable when it signs. *)
Definition newGASProxyServer (own : nat) (certGen : option (option nat * option bool)) : gasMITMManager :=
  match certGen with
  | Some (Some caCert, Some signs) => if (signs : bool) then useCA caCert (newGASMITMManager own) else newGASMITMManager own
  | _ => newGASMITMManager own
  end.

Inductive phase := NotStarted | Serving | Draining | Stopped | Failed.

#[export] Instance phase_eq_dec : EqDecision phase.
Proof. solve_decision. Defined.

Record gas_server := mkServer {
  gs_cancel : bool;                                  (** [s.cancel] is set *)
  gs_done : bool;                                    (** the context is cancelled *)
  gs_main : phase;                                   (** [start] *)
  gs_listening : bool;
  gs_loop : bool;                                    (** [acceptLoop] runs *)
  gs_handlers : gmap nat bool;                       (** open connections, and whether they have a deadline *)
  gs_next : nat;
}.

Definition new_server : gas_server := mkServer false false NotStarted false false ∅ 0.

(** [start] up to its wait. *)
Definition start_server (listens : bool) (s : gas_server) : gas_server :=
  let s := s {{ gs_cancel := true; gs_done := false }} in
  if listens then s {{ gs_main := Serving; gs_listening := true; gs_loop := true }} else s {{ gs_main := Failed }}.

Definition stop_server (s : gas_server) : gas_server := if gs_cancel s then s {{ gs_done := true }} else s.

(** [Accept] fails: the loop ends when the context is cancelled, otherwise it goes on. *)
Definition accept_error (s : gas_server) : gas_server := if gs_done s then s {{ gs_loop := false }} else s.

Definition accepted (s : gas_server) : gas_server := s {{ gs_handlers ::= <[gs_next s := true]>; gs_next ::= S }}.

Inductive server_step : gas_server → gas_server → Prop :=
  | step_start listens s : gs_main s = NotStarted → server_step s (start_server listens s)
  | step_stop s : server_step s (stop_server s)
  | step_wake s : gs_main s = Serving → gs_done s = true → server_step s (s {{ gs_listening := false; gs_main := Draining }})
  | step_accept s : gs_loop s = true → gs_listening s = true → server_step s (accepted s)
  | step_accept_error s : gs_loop s = true → server_step s (accept_error s)
  | step_tunnel s id : is_Some (gs_handlers s !! id) → server_step s (s {{ gs_handlers ::= <[id := false]> }})
  | step_handler_ends s id : is_Some (gs_handlers s !! id) → server_step s (s {{ gs_handlers ::= delete id }})
  | step_return s : gs_main s = Draining → gs_loop s = false → gs_handlers s = ∅ → server_step s (s {{ gs_main := Stopped }}).

(** * The tests of the GAS page *)

Definition gasProbeIP (dials shakes writes : bool) (response : option string) (elapsed : Z) : option Z :=
  if negb dials || negb shakes || negb writes then None
  else
    match response with
    | Some text => if nonempty text && HasPrefix text "HTTP/" then Some (elapsed ÷ 1000000) else None
    | None => None
    end.

Definition TestConnection (dial : string → outcome Z) (listenHost : string) (listenPort : Z) : outcome Z :=
  match dial (JoinHostPort listenHost (Itoa listenPort)) with
  | Ok elapsed => Ok (elapsed ÷ 1000000)
  | Err msg => Err ("gas not reachable at " +:+ JoinHostPort listenHost (Itoa listenPort) +:+ ": " +:+ msg)
  | Panic => Panic
  end.

Record GASTestResult := mkTestResult {
  tr_Success : bool;
  tr_Error : string;
  tr_TCPLatency : Z;
  tr_TLSLatency : Z;
  tr_GoogleIP : string;
  tr_FrontDomain : string;
}.

(** [tcp] dials an address, [tls] shakes hands for a name, verifying or not. *)
Definition TestRelay (tcp : string → outcome Z) (tls : string → bool → outcome Z) (cfg : GASConfig) : GASTestResult :=
  let googleIP := if nonempty (c_GoogleIP cfg) then c_GoogleIP cfg else "216.239.38.120" in
  let frontDomain := if nonempty (c_FrontDomain cfg) then c_FrontDomain cfg else "www.google.com" in
  match tcp (JoinHostPort googleIP "443") with
  | Ok elapsed =>
      match tls frontDomain (c_VerifySSL cfg) with
      | Ok elapsed' => mkTestResult true "" (elapsed ÷ 1000000) (elapsed' ÷ 1000000) googleIP frontDomain
      | Err msg => mkTestResult false ("TLS handshake with " +:+ googleIP +:+ " (SNI: " +:+ frontDomain +:+ ") failed: " +:+ msg) (elapsed ÷ 1000000) 0 "" ""
      | Panic => mkTestResult false "" (elapsed ÷ 1000000) 0 "" ""
      end
  | Err msg => mkTestResult false ("TCP connect to " +:+ googleIP +:+ ":443 failed: " +:+ msg) 0 0 "" ""
  | Panic => mkTestResult false "" 0 0 "" ""
  end.

(** The speed is left as bytes over nanoseconds. *)
Record SpeedTestResult := mkSpeed { sp_Success : bool; sp_Error : string; sp_rate : Z * Z; sp_LatencyMs : Z; sp_BytesDown : Z; sp_DurationMs : Z }.

(** Below 0.01 Mbit/s; no time at all is the rate 0. *)
Definition slow (bytes ns : Z) : bool := (ns <=? 0) || (bytes * 8 * 10 ^ 9 <? ns * 10 ^ 4).

(** [probe]: the time to the response of a request, through the proxy or directly; [get]: the
    body of one, when it can be read, and the time it took. *)
Definition RunSpeedTest (probe : bool → outcome Z) (get : bool → string → outcome (outcome Z * Z)) (running : bool) (latencyMs : Z) : SpeedTestResult :=
  let failed msg latency := mkSpeed false msg (0, 1) latency 0 0 in
  if negb running then failed "GAS proxy is not running" 0
  else
    match (match probe true with Ok ns => Some (true, ns ÷ 1000000) | _ => match probe false with Ok ns => Some (false, ns ÷ 1000000) | _ => None end end) with
    | None => failed "Speed test failed: no transport available (proxy and direct both unreachable)" 0
    | Some (proxied, measured) =>
        let latency := if 0 <? measured then measured else latencyMs in
        match get proxied "https://www.google.com/images/phd/px.gif" with
        | Ok (Ok bytes, ns) =>
            let rate := if 0 <? ns then (bytes, ns) else (0, 1) in
            let first := mkSpeed true "" rate latency bytes (ns ÷ 1000000) in
            if slow bytes ns then
              match get proxied "https://www.google.com/" with
              | Ok (Ok bytes2, ns2) => mkSpeed true "" (if 0 <? ns2 then (bytes2, ns2) else rate) measured bytes2 (ns2 ÷ 1000000)
              | _ => first
              end
            else first
        | Ok (Err msg, _) => failed ("Speed test read failed: " +:+ msg) latency
        | Err msg => failed ("Speed test download failed: " +:+ msg) latency
        | _ => failed "" latency
        end
    end.

(** [loadFallbackCertGenerator]; [pkcs8] reads a key of that form. *)
Definition loadFallbackCertGenerator (pkcs8 : string → option Z) (readable : string → bool) (certPath keyPath : string) (d : disk) : option (ca_cert * Z) :=
  match (if readable certPath then d !! certPath else None), (if readable keyPath then d !! keyPath else None) with
  | Some (CertBlock c), Some (KeyBlock k) => Some (c, k)
  | Some (CertBlock c), Some OtherBlock => (λ k, (c, k)) <$> pkcs8 keyPath
  | _, _ => None
  end.

(** * Lemmas *)

Section upkeep_lemmas.
Context (scriptIDs sniHosts : list string) (devAvail : bool).
Context (clock : nat → Z).
Context (h2_do : nat → string → option (option string)).
Context (hash0 : string → nat) (parse_url : string → option (string * string)).
Context (dial has_data write : nat → bool).
Context (read : nat → option (Z * gmap string string * string)).
Context (redirect_path : string → option string).

Notation failed := (ping_failed clock).
Notation ping := (pingRelay scriptIDs sniHosts devAvail clock h2_do hash0 parse_url dial has_data write read redirect_path).
Notation heartbeats := (heartbeatLoop scriptIDs sniHosts devAvail clock h2_do hash0 parse_url dial has_data write read redirect_path).
Notation h1 := (http1 sniHosts clock dial has_data write read redirect_path).

(** The failures are counted up to four. *)
Definition counted (w : whole_relay) : Prop := 0 ≤ relayFail w ≤ 4.

Lemma restart_counted w : counted w → counted (snd (restart w)).
Proof.
  intros Hw. unfold restart. destruct (drop_pool _) as [[[]| | | |] t]; cbn [snd]; try exact Hw.
  change (0 ≤ 0 ≤ 4). lia.
Qed.

Lemma failed_counted w : counted w → counted (snd (failed w)) ∨ ∃ t, relayFail (snd (failed w)) = 5 ∧ fst (failed w) ≠ Ret t.
Proof.
  intros Hw. unfold ping_failed. change (relayFail (set_fail (relayFail w + 1) false w)) with (relayFail w + 1).
  destruct (Z.leb_spec 5 (relayFail w + 1)) as [H5|H5].
  - unfold restart. destruct (drop_pool _) as [[[]| | | |] t]; cbn [fst snd];
      [left; change (0 ≤ 0 ≤ 4); lia|right; exists tt; split; [change (relayFail w + 1 = 5); unfold counted in Hw; lia|done]..].
  - left. change (0 ≤ relayFail w + 1 ≤ 4). unfold counted in Hw. lia.
Qed.

(** A ping that ends leaves a count of at most four. *)
Lemma ping_counted fuel w w' : counted w → ping fuel w = Some (Ret tt, w') → counted w'.
Proof.
  intros Hw. unfold pingRelay. destruct (GasRelay.execPath _ _ _ _ _ _ _) as [path r].
  destruct (GasRelay.h2Request _ _ _ _) as [[body|] r'].
  - intros [= <-]. change (0 ≤ 0 ≤ 4). lia.
  - destruct (h1 fuel _) as [[[resp| | | |] t]|]; try done.
    + intros [= <-]. change (0 ≤ 0 ≤ 4). lia.
    + intros [= E]. destruct (failed_counted (set_conns t (set_requests r' w)) Hw) as [H|([] & _ & H)]; rewrite E in H; [exact H|done].
Qed.

(** However many pings are made and whatever becomes of them, the count of consecutive
    failures between two pings is between 0 and 4: the fifth failure restarts the relay and
    the count.  A failover threshold of five or more is therefore never reached: no tick of
    the failover loop between two pings changes anything. *)
Theorem failures_bounded fuel n w w' :
  counted w → heartbeats fuel n w = Some (Ret tt, w') →
  counted w' ∧
  ∀ probe lookup_ips arrival wr (stats : nat → relay_stats) m,
    (∀ id, t_relayFail (stats id) = relayFail w') → 5 ≤ c_FailoverThreshold (config m) →
    failover_tick probe lookup_ips arrival wr stats m = m.
Proof.
  intros Hw Hn. assert (Hc : counted w').
  { revert w Hw Hn. induction n as [|n IH]; cbn [heartbeatLoop]; intros w Hw; [by intros [= <-]|].
    destruct (ping fuel w) as [[[[]| | | |] w1]|] eqn:E; try done. apply IH. by eapply ping_counted. }
  split; [done|]. intros probe lookup_ips arrival wr stats m Hs Ht. unfold failover_tick.
  destruct (GasManager.relay m) as [id|]; [|done]. rewrite Hs.
  destruct (Z.leb_spec (c_FailoverThreshold (config m)) (relayFail w')); [unfold counted in Hc; lia|]. by rewrite andb_false_r.
Qed.

(** ** An outage *)

Lemma h2_silent path r : (∀ k p, h2_do k p = None) → fst (GasRelay.h2Request clock h2_do path r) = None.
Proof.
  intros Hh. unfold GasRelay.h2Request, GasRelay.bind. destruct (GasRelay.h2BackoffLeft _ _) as [left r1].
  destruct (0 <? left); [done|]. destruct (GasRelay.ensureH2 _ _) as [u r2]. destruct (negb _); [done|].
  destruct (GasRelay.log_post _ _ _) as [k r3]. rewrite Hh. by destruct (GasRelay.resetH2 _ _).
Qed.

(** The pool is free and empty. *)
Definition bare (t : transport) : Prop := poolMu t = false ∧ pool t = [].

Lemma acquire_unreachable t : (∀ k, dial k = false) → bare t → ∃ t', acquireConn clock dial has_data sniHosts t = (Error, t') ∧ bare t'.
Proof.
  intros Hd [Hm Hp]. unfold acquireConn, GasPool.bind, lock. rewrite Hm.
  change (pool (set_mu true t)) with (pool t). rewrite Hp. cbn [length take_pooled]. unfold GasPool.ret, unlock.
  change (poolMu (set_mu true t)) with true. cbn iota. unfold dial_new, GasPool.bind, ask. rewrite Hd.
  eexists. split; [reflexivity|]. by split.
Qed.

Lemma http1_unreachable fuel t : (∀ k, dial k = false) → bare t → ∃ t', h1 (S fuel) t = Some (Error, t') ∧ bare t'.
Proof.
  intros Hd Ht. destruct (acquire_unreachable t Hd Ht) as (t' & E & Ht'). exists t'.
  unfold http1. cbn [relayHTTP1]. unfold relay_once. by rewrite E.
Qed.

Lemma drop_bare t : bare t → ∃ t', drop_pool t = (Ret tt, t') ∧ bare t'.
Proof.
  intros [Hm Hp]. unfold drop_pool, GasPool.bind, lock. rewrite Hm. change (pool (set_mu true t)) with (pool t). rewrite Hp.
  eexists. split; [reflexivity|]. by split.
Qed.

Lemma ping_in_outage fuel w :
  (∀ k p, h2_do k p = None) → (∀ k, dial k = false) → bare (conns w) → counted w →
  ∃ w', ping (S fuel) w = Some (Ret tt, w') ∧ bare (conns w') ∧ lastRelayOK w' = false ∧ relayFail w' = (relayFail w + 1) mod 5.
Proof.
  intros Hh Hd Hb Hc. unfold pingRelay. destruct (GasRelay.execPath _ _ _ _ _ _ _) as [path r].
  destruct (GasRelay.h2Request _ _ _ _) as [body r'] eqn:E. pose proof (h2_silent path r Hh) as Hs. rewrite E in Hs. cbn in Hs. subst body.
  change (conns (set_requests r' w)) with (conns w). destruct (http1_unreachable fuel (conns w) Hd Hb) as (t & -> & Ht).
  set (w1 := set_conns t (set_requests r' w)). unfold ping_failed. change (relayFail (set_fail (relayFail w1 + 1) false w1)) with (relayFail w + 1).
  unfold counted in Hc. destruct (Z.leb_spec 5 (relayFail w + 1)).
  - unfold restart. change (conns (set_requests _ (set_fail _ _ _))) with t. destruct (drop_bare t Ht) as (t' & -> & Ht').
    eexists. split; [reflexivity|]. split; [exact Ht'|]. split; [done|]. replace (relayFail w + 1) with 5 by lia. done.
  - eexists. split; [reflexivity|]. split; [exact Ht|]. split; [done|]. change (relayFail w + 1 = (relayFail w + 1) mod 5). rewrite Z.mod_small; lia.
Qed.

(** While nothing is reachable the heartbeat neither blocks nor crashes a relay with an empty
    pool, and after [n] pings it counts [n mod 5] failures: the page, which shows the relay
    red from three failures on, shows it yellow again at every fifth failed ping. *)
Theorem outage_count fuel n w :
  (∀ k p, h2_do k p = None) → (∀ k, dial k = false) → bare (conns w) → counted w →
  ∃ w', heartbeats (S fuel) n w = Some (Ret tt, w') ∧ relayFail w' = (relayFail w + Z.of_nat n) mod 5 ∧
    (∀ st, t_relayFail st = relayFail w' → t_lastRelayOK st = false →
       health st = if (relayFail w + Z.of_nat n) mod 5 <? 3 then "yellow" else "red").
Proof.
  intros Hh Hd. revert w. induction n as [|n IH]; intros w Hb Hc; cbn [heartbeatLoop].
  - exists w. rewrite Z.add_0_r, Z.mod_small by (unfold counted in Hc; lia). do 2 (split; [done|]).
    intros st Hf Hl. unfold health. by rewrite Hl, Hf.
  - destruct (ping_in_outage fuel w Hh Hd Hb Hc) as (w1 & -> & Hb1 & _ & Hf1).
    assert (Hc1 : counted w1) by (unfold counted; rewrite Hf1; pose proof (Z.mod_pos_bound (relayFail w + 1) 5); lia).
    destruct (IH w1 Hb1 Hc1) as (w' & E & Hf & Hs). exists w'. rewrite Hf1, Z.add_mod_idemp_l in Hf, Hs by done.
    replace (relayFail w + 1 + Z.of_nat n) with (relayFail w + Z.of_nat (S n)) in Hf, Hs by lia. by split_and!.
Qed.

(** A nil connection is all there is in a free pool. *)
Definition poisoned (t : transport) : Prop := poolMu t = false ∧ ∃ x, pool t = [mkPooled None x].

Lemma poisoned_request fuel t : poisoned t → ∃ t', h1 (S fuel) t = Some (Panicked, t').
Proof.
  intros [Hm [x Hp]]. unfold http1. cbn [relayHTTP1]. unfold relay_once, acquireConn, GasPool.bind, lock. rewrite Hm.
  change (pool (set_mu true t)) with (pool t). rewrite Hp. cbn [length take_pooled]. unfold GasPool.bind, pop, ask.
  change (pool (set_mu true t)) with (pool t). rewrite Hp. cbn [list.last created conn]. by destruct (_ <? _); eexists.
Qed.

Lemma poisoned_drop t : poisoned t → ∃ t', drop_pool t = (Panicked, t').
Proof.
  intros [Hm [x Hp]]. unfold drop_pool, GasPool.bind, lock. rewrite Hm. change (pool (set_mu true t)) with (pool t). rewrite Hp.
  by eexists.
Qed.

(** A request that finds its one connection dead and cannot dial poisons the pool. *)
Lemma dead_request fuel t c t0 :
  (∀ k, dial k = false) → (∀ k, write k = false) → (∀ k, has_data k = false) →
  poolMu t = false → pool t = [mkPooled (Some c) t0] → clock (GasPool.answers t) - t0 < gasConnTTL →
  ∃ t', h1 (S fuel) t = Some (Error, t') ∧ poisoned t'.
Proof.
  intros Hd Hw Hq Hm Hp Ht. unfold http1. cbn [relayHTTP1].
  assert (Ha : ∃ t1, acquireConn clock dial has_data sniHosts t = (Ret c, t1) ∧ bare t1).
  { unfold acquireConn, GasPool.bind, lock. rewrite Hm. change (pool (set_mu true t)) with (pool t). rewrite Hp.
    cbn [length take_pooled]. unfold GasPool.bind, pop, ask. change (pool (set_mu true t)) with (pool t). rewrite Hp.
    cbn [list.last created conn]. change (GasPool.answers (drop_last (set_mu true t))) with (GasPool.answers t).
    destruct (Z.ltb_spec (clock (GasPool.answers t) - t0) gasConnTTL); [|lia]. unfold unlock.
    change (poolMu (tick (drop_last (set_mu true t)))) with true. cbn iota. rewrite Hq.
    eexists. split; [reflexivity|]. split; [done|]. change (removelast (pool (set_mu true t)) = []).
    change (pool (set_mu true t)) with (pool t). by rewrite Hp. }
  destruct Ha as (t1 & E1 & Hb). unfold relay_once. rewrite E1. unfold exchange_on, ask. rewrite Hw. cbn [close_conn].
  destruct (acquire_unreachable (log_close c (tick t1)) Hd Hb) as (t2 & -> & [Hm2 Hp2]).
  unfold deferred, releaseConn, GasPool.bind, lock, ask. rewrite Hm2.
  change (pool (tick (set_mu true t2))) with (pool t2). rewrite Hp2. cbn [length Nat.leb gasPoolMax].
  eexists. split; [reflexivity|]. split; [done|].
  change (∃ x, pool t2 ++ [mkPooled None (clock (GasPool.answers (set_mu true t2)))] = [mkPooled None x]).
  rewrite Hp2. by eexists.
Qed.

Lemma ping_poisoned fuel w : (∀ k p, h2_do k p = None) → poisoned (conns w) → ∃ w', ping (S fuel) w = Some (Panicked, w').
Proof.
  intros Hh Hb. unfold pingRelay. destruct (GasRelay.execPath _ _ _ _ _ _ _) as [path r].
  destruct (GasRelay.h2Request _ _ _ _) as [body r'] eqn:E. pose proof (h2_silent path r Hh) as Hs. rewrite E in Hs. cbn in Hs. subst body.
  change (conns (set_requests r' w)) with (conns w). destruct (poisoned_request fuel (conns w) Hb) as [t ->]. by eexists.
Qed.

(** C30: The same outage, in which writes fail too and nothing arrives, with one idle connection
    in the pool that is younger than the pool's limit, ends the process: the first ping finds
    the connection dead and cannot dial another, so that a nil connection goes into the
    pool, and the next ping, or the restart, calls a method of it.  No goroutine of the relay
    recovers the panic. *)
Theorem outage_crashes fuel w c t0 :
  (∀ k p, h2_do k p = None) → (∀ k, dial k = false) → (∀ k, write k = false) → (∀ k, has_data k = false) →
  poolMu (conns w) = false → pool (conns w) = [mkPooled (Some c) t0] → clock (GasPool.answers (conns w)) - t0 < gasConnTTL →
  ∃ w', heartbeatLoop scriptIDs sniHosts devAvail clock h2_do hash0 parse_url dial has_data write read redirect_path (S fuel) 2 w = Some (Panicked, w').
Proof.
  intros Hh Hd Hwr Hq Hm Hp Ht. cbn [heartbeatLoop].
  assert (H1 : ∃ w1, ping (S fuel) w = Some (Panicked, w1) ∨ (ping (S fuel) w = Some (Ret tt, w1) ∧ poisoned (conns w1))).
  { unfold pingRelay. destruct (GasRelay.execPath _ _ _ _ _ _ _) as [path r].
    destruct (GasRelay.h2Request _ _ _ _) as [body r'] eqn:E. pose proof (h2_silent path r Hh) as Hs. rewrite E in Hs. cbn in Hs. subst body.
    change (conns (set_requests r' w)) with (conns w).
    destruct (dead_request fuel (conns w) c t0 Hd Hwr Hq Hm Hp Ht) as (t & -> & Hb).
    unfold ping_failed. destruct (5 <=? _).
    - unfold restart. change (conns (set_requests _ (set_fail _ _ _))) with t. destruct (poisoned_drop t Hb) as [t' ->].
      eexists. by left.
    - eexists. right. split; [reflexivity|exact Hb]. }
  destruct H1 as (w1 & [->|[-> Hb]]); [by eexists|]. destruct (ping_poisoned fuel w1 Hh Hb) as [w2 ->]. by eexists.
Qed.
End upkeep_lemmas.

(** Closing twice closes nothing twice: the second close does nothing, so that the channels of
    the loops, which may not be closed again, are closed at most once; and what a close leaves
    in the pool is nothing. *)
Theorem close_once w r w' :
  close w = (r, w') → close w' = (Ret tt, w') ∧ (channel_closes w' <= S (channel_closes w))%nat ∧
  (w_closed w = false → r = Ret tt → pool (conns w') = [] ∧ sidBlacklist (requests w') = ∅).
Proof.
  unfold close at 1. destruct (w_closed w) eqn:Hc.
  - intros [= <- <-]. unfold close. rewrite Hc. split_and!; [done|lia|done].
  - set (w1 := w {{ w_closed := true; channel_closes ::= S }}). change (conns w1) with (conns w).
    assert (Hcl : ∀ w2, w_closed w2 = true → close w2 = (Ret tt, w2)) by (intros w2 H2; unfold close; by rewrite H2).
    assert (Hle : (S (channel_closes w) <= S (channel_closes w))%nat) by lia.
    destruct (drop_pool (conns w)) as [[[]| | | |] t] eqn:Ed; intros [= <- <-]; (split; [by apply Hcl|]); (split; [exact Hle|]); try done.
    intros _ _. split; [|done]. change (pool t = []). revert Ed. unfold drop_pool, GasPool.bind at 1, lock.
    destruct (poolMu (conns w)); [done|]. unfold GasPool.bind.
    destruct (close_each _ _) as [[[]| | | |] t1]; try done. unfold unlock.
    destruct (poolMu (clear_pool t1)); [|done]. by intros [= <-].
Qed.

(** The log shows at most ten hosts, and no host left out carried more bytes than one shown. *)
Theorem log_shows_busiest hosts :
  (length (logStats hosts) <= gasStatsLogTopN)%nat ∧
  ∃ shown rest, map_to_list hosts ≡ₚ shown ++ rest ∧ logStats hosts = stat_line <$> shown ∧
    (rest = [] ∨ length shown = gasStatsLogTopN) ∧
    ∀ e e', e ∈ shown → e' ∈ rest → Bytes (snd e') ≤ Bytes (snd e).
Proof.
  set (l := merge_sort bytes_order (map_to_list hosts)).
  assert (Hs : StronglySorted bytes_order l).
  { apply StronglySorted_merge_sort; [intros x y z; unfold bytes_order; lia|intros x y; unfold bytes_order; lia]. }
  split; [unfold logStats; rewrite length_fmap, length_take; lia|].
  exists (take gasStatsLogTopN l), (drop gasStatsLogTopN l). rewrite take_drop. split_and!.
  - symmetry. apply merge_sort_Permutation.
  - done.
  - destruct (Nat.le_gt_cases (length l) gasStatsLogTopN) as [Hl|Hl];
      [left; by apply drop_ge|right; rewrite length_take; lia].
  - rewrite <- (take_drop gasStatsLogTopN l) in Hs. intros e e'. by apply (StronglySorted_app_1_elem_of bytes_order).
Qed.

(** ** The server *)

Definition server_ok (s : gas_server) : Prop :=
  (gs_done s = true → gs_cancel s = true) ∧
  match gs_main s with
  | NotStarted | Failed => gs_listening s = false ∧ gs_loop s = false ∧ gs_handlers s = ∅
  | Serving => gs_listening s = true ∧ gs_cancel s = true
  | Draining => gs_done s = true ∧ gs_listening s = false
  | Stopped => gs_done s = true ∧ gs_listening s = false ∧ gs_loop s = false ∧ gs_handlers s = ∅
  end.

Lemma server_ok_step s s' : server_step s s' → server_ok s → server_ok s'.
Proof.
  destruct s as [cancel dn main lis loop hs nx]. unfold server_ok.
  intros Hst. inversion Hst; subst; cbn in *; intros [Hd Hm]; subst; try done.
  - by destruct listens.
  - unfold stop_server. cbn. destruct cancel; cbn; [|done]. split; [done|]. by destruct main; intuition.
  - split; [exact Hd|]. destruct main; cbn; intuition congruence.
  - unfold accept_error. cbn. destruct dn; cbn; (split; [done|]); destruct main; cbn in *; intuition congruence.
  - split; [exact Hd|]. destruct main; cbn; try done; destruct H as [? Hk]; intuition (subst; by rewrite lookup_empty in Hk).
  - split; [exact Hd|]. destruct main; cbn; try done; destruct H as [? Hk]; intuition (subst; by rewrite lookup_empty in Hk).
  - split; [exact Hd|]. by intuition.
Qed.

Lemma server_ok_reachable s : rtc server_step new_server s → server_ok s.
Proof.
  intros H. assert (H0 : server_ok new_server) by done. revert H0. induction H as [|x y z Hxy _ IH]; [done|].
  intros Hx. apply IH. by eapply server_ok_step.
Qed.

(** Every handler may end on its own. *)
Lemma handlers_end s : rtc server_step s (s {{ gs_handlers := ∅ }}).
Proof.
  destruct s as [cancel dn main lis loop hs nx]. change (rtc server_step (mkServer cancel dn main lis loop hs nx) (mkServer cancel dn main lis loop ∅ nx)).
  induction hs as [|k b hs Hk IH] using map_ind; [apply rtc_refl|].
  eapply rtc_l; [apply (step_handler_ends _ k)|].
  - cbn. rewrite lookup_insert_eq. by eexists.
  - cbn. change (rtc server_step (mkServer cancel dn main lis loop (delete k (<[k:=b]> hs)) nx) (mkServer cancel dn main lis loop ∅ nx)).
    by rewrite delete_insert_id.
Qed.

(** The server, however its goroutines interleave: when [start] has returned without an error,
    the server has been stopped, its listener and its accept loop are gone and no handler runs;
    from then on nothing changes; a listener is open only while [start] waits to be stopped.
    From every state in which [start] waits, a stop can be followed by its return. *)
Theorem server_stops s :
  rtc server_step new_server s →
  (gs_main s = Stopped →
     gs_done s = true ∧ gs_listening s = false ∧ gs_loop s = false ∧ gs_handlers s = ∅ ∧ ∀ s', server_step s s' → s' = s) ∧
  (gs_listening s = true → gs_main s = Serving) ∧
  (gs_main s = Serving → ∃ s', rtc server_step (stop_server s) s' ∧ gs_main s' = Stopped).
Proof.
  intros Hr%server_ok_reachable. destruct s as [cancel dn main lis loop hs nx], Hr as [Hd Hm]. cbn in *. split_and!.
  - intros ->. destruct Hm as (-> & -> & -> & ->). do 4 (split; [done|]). intros s' Hst. specialize (Hd eq_refl). subst cancel.
    inversion Hst; subst; cbn in *; try done; destruct H as [? Hk]; by rewrite lookup_empty in Hk.
  - intros ->. destruct main; intuition congruence.
  - intros ->. destruct Hm as [-> ->].
    change (stop_server (mkServer true dn Serving true loop hs nx)) with (mkServer true true Serving true loop hs nx).
    exists (mkServer true true Stopped false false ∅ nx). split; [|done].
    eapply rtc_l; [by apply step_wake|]. change (rtc server_step (mkServer true true Draining false loop hs nx) (mkServer true true Stopped false false ∅ nx)).
    etransitivity; [apply handlers_end|].
    change (rtc server_step (mkServer true true Draining false loop ∅ nx) (mkServer true true Stopped false false ∅ nx)).
    assert (Hret : server_step (mkServer true true Draining false false ∅ nx) (mkServer true true Stopped false false ∅ nx)) by (by apply (step_return (mkServer true true Draining false false ∅ nx))).
    destruct loop; [|by apply rtc_once].
    eapply rtc_l; [by apply step_accept_error|]. by apply rtc_once.
Qed.

(** A stop that comes before the start is lost: the server then starts and waits. *)
Lemma early_stop_lost : stop_server new_server = new_server ∧ gs_main (start_server true (stop_server new_server)) = Serving ∧
  gs_done (start_server true (stop_server new_server)) = false.
Proof. done. Qed.

(** ** The authority and the tests *)

(** What the certificate manager saves, the fallback loader of the relay reads back: the same
    certificate and key, as long as both files can be read. *)
Theorem fallback_reads_saved (pkcs8 : string → option Z) readable e c k cm d d' :
  saveCA e c k cm d = (Ok tt, d') → caPath cm ≠ keyPath cm → readable (caPath cm) = true → readable (keyPath cm) = true →
  loadFallbackCertGenerator pkcs8 readable (caPath cm) (keyPath cm) d' = Some (c, k).
Proof.
  intros Hs Hne Hc Hk. unfold loadFallbackCertGenerator. rewrite Hc, Hk. revert Hs. unfold saveCA, write_pem.
  destruct (ce_creates e (caPath cm)); [|done]. destruct (ce_writes e (caPath cm)); [|done]. cbn [negb].
  destruct (ce_creates e (keyPath cm)); [|done]. destruct (ce_writes e (keyPath cm)); [|done]. cbn [negb].
  intros [= <-]. by rewrite lookup_insert_eq, (lookup_insert_ne _ (keyPath cm)), lookup_insert_eq.
Qed.

(** The test of the relay and the speed test do not say what their comments promise: the first
    does not depend on the script, the key or anything else of the configuration but the
    address, the front domain and the verification, and the second succeeds without the
    tunnel, on a direct download. *)
Theorem tests_without_relay :
  (∀ tcp tls cfg cfg',
     c_GoogleIP cfg' = c_GoogleIP cfg → c_FrontDomain cfg' = c_FrontDomain cfg → c_VerifySSL cfg' = c_VerifySSL cfg →
     TestRelay tcp tls cfg' = TestRelay tcp tls cfg) ∧
  (∀ probe get latencyMs msg ns bytes ns',
     probe true = Err msg → (∀ url, get true url = Err msg) → probe false = Ok ns → (∀ url, get false url = Ok (Ok bytes, ns')) →
     sp_Success (RunSpeedTest probe get true latencyMs) = true ∧ sp_BytesDown (RunSpeedTest probe get true latencyMs) = bytes).
Proof.
  split.
  - intros tcp tls cfg cfg' H1 H2 H3. unfold TestRelay. by rewrite H1, H2, H3.
  - intros probe get latencyMs msg ns bytes ns' Hp Hg Hd Hb. unfold RunSpeedTest. rewrite Hp, Hd. cbn [negb]. rewrite !Hb.
    by destruct (slow bytes ns').
Qed.

(** * Witnesses *)

(** A relay with one idle connection that was used at time 0. *)
Definition one_idle : whole_relay := mkWhole GasRelay.newGASRelay (mkTransport [mkPooled (Some 0%nat) 0] false 0 0 1 []) GasBatch.empty_queue 0 true false 0.

Definition offline_beats (w : whole_relay) (n : nat) : option (res unit * whole_relay) :=
  heartbeatLoop ["script"] ["www.google.com"] false Z.of_nat (λ _ _, None) (λ _, 0%nat) (λ _, None)
    (λ _, false) (λ _, false) (λ _, false) (λ _, None) (λ _, None) 1 n w.

Example offline_counts :
  (λ n, (relayFail ∘ snd) <$> offline_beats fresh_relay n) <$> [1; 3; 4; 5; 8]%nat = [Some 1; Some 3; Some 4; Some 0; Some 3].
Proof. vm_compute. reflexivity. Qed.

Lemma failures_bounded_witness : ∃ w', offline_beats fresh_relay 4 = Some (Ret tt, w') ∧ relayFail w' ≤ 4.
Proof.
  eexists. split; [vm_compute; reflexivity|].
  eapply (failures_bounded ["script"] ["www.google.com"] false Z.of_nat (λ _ _, None) (λ _, 0%nat) (λ _, None)
    (λ _, false) (λ _, false) (λ _, false) (λ _, None) (λ _, None) 1 4 fresh_relay); [split; vm_compute; discriminate|vm_compute; reflexivity].
Defined.

Lemma outage_count_witness : ∃ w', offline_beats fresh_relay 7 = Some (Ret tt, w') ∧ relayFail w' = (relayFail fresh_relay + Z.of_nat 7) mod 5.
Proof.
  destruct (outage_count ["script"] ["www.google.com"] false Z.of_nat (λ _ _, None) (λ _, 0%nat) (λ _, None)
    (λ _, false) (λ _, false) (λ _, false) (λ _, None) (λ _, None) 0 7 fresh_relay) as (w' & H & Hf & _);
    [done|done|by split|split; vm_compute; discriminate|].
  exists w'. by split.
Defined.

Lemma outage_crashes_witness : ∃ w', offline_beats one_idle 2 = Some (Panicked, w').
Proof.
  apply (outage_crashes ["script"] ["www.google.com"] false Z.of_nat (λ _ _, None) (λ _, 0%nat) (λ _, None)
    (λ _, false) (λ _, false) (λ _, false) (λ _, None) (λ _, None) 0 one_idle 0 0); done.
Defined.

Lemma server_stops_witness : ∃ s', rtc server_step (stop_server (start_server true new_server)) s' ∧ gs_main s' = Stopped.
Proof.
  destruct (server_stops (start_server true new_server)) as (_ & _ & H); [|by apply H].
  apply rtc_once. by apply (step_start true new_server).
Defined.

Lemma close_once_witness : close (snd (close one_idle)) = (Ret tt, snd (close one_idle)).
Proof. exact (proj1 (close_once one_idle (Ret tt) (snd (close one_idle)) eq_refl)). Defined.
