(* ===== verification/ProcMon.v ===== *)
(** [proxy/procmon.go], [proxy/procmon_windows.go] and the counted connections of
    [proxy/proxy.go]: which process of the machine moves how many bytes through the proxy.

    The connection table and the processes are answers of the system, as in
    [PortManager].  Counters stay below 2^63. *)

From coqutil Require Import Datatypes.RecordSetters.
From Stdlib Require Import Strings.Byte.
From S2P Require Import Prelude GoStrings GoNet V2RayCore PortManager.
Import DoubleBraceUpdate.

Open Scope Z_scope.

(** * State *)

Record ProcessInfo := mkProcessInfo { PID : Z; Name : string; DownBytes : Z; UpBytes : Z; IsActive : bool }.

Record procConnTrack := mkTrack { ct_pid : Z; downBytes : Z; upBytes : Z; lastSeenNano : Z }.

Record ProcessMonitor := mkMonitor {
  conns : gmap string procConnTrack;
  processes : gmap Z ProcessInfo;
  proxyPort : Z;
}.

Definition NewProcessMonitor (proxyPort : Z) : ProcessMonitor := mkMonitor ∅ ∅ proxyPort.

Definition TrackConnection (now : Z) (clientAddr : string) (pm : ProcessMonitor) : ProcessMonitor :=
  match conns pm !! clientAddr with
  | Some _ => pm
  | None => pm {{ conns ::= <[clientAddr := mkTrack (-1) 0 0 now]> }}
  end.

Definition RecordBytes (now : Z) (clientAddr : string) (down up : Z) (pm : ProcessMonitor) : ProcessMonitor :=
  match conns pm !! clientAddr with
  | Some ct =>
      if 0 <? ct_pid ct
      then pm {{ conns ::= <[clientAddr := mkTrack (ct_pid ct) (downBytes ct + down) (upBytes ct + up) now]> }}
      else pm
  | None => pm
  end.

(** * Refreshing *)

Definition six_seconds : Z := 6 * 10 ^ 9.

(** The first loop: the process that has the connection's port now. *)
Definition assign (now : Z) (portMap : gmap string Z) (addr : string) (ct : procConnTrack) : procConnTrack :=
  match SplitHostPort addr with
  | Some (_, port) =>
      match portMap !! port with
      | Some pid => mkTrack pid (downBytes ct) (upBytes ct) now
      | None => ct
      end
  | None => ct
  end.

Definition known_name (old : gmap Z ProcessInfo) (pid : Z) : string :=
  match old !! pid with Some existing => Name existing | None => "" end.

(** A connection's bytes on top of a process's. *)
Definition grown (now : Z) (ct : procConnTrack) (pi : ProcessInfo) : ProcessInfo :=
  pi {{ DownBytes ::= Z.add (downBytes ct); UpBytes ::= Z.add (upBytes ct);
        IsActive ::= andb (negb (six_seconds <? now - lastSeenNano ct)) }}.

(** One connection of the second loop. *)
Definition add_conn (now : Z) (old : gmap Z ProcessInfo) (acc : gmap Z ProcessInfo) (ct : procConnTrack) : gmap Z ProcessInfo :=
  if ct_pid ct <=? 0 then acc
  else
    let pi := default (mkProcessInfo (ct_pid ct) (known_name old (ct_pid ct)) 0 0 true) (acc !! ct_pid ct) in
    <[ct_pid ct := grown now ct pi]> acc.

(** One process of the machine. *)
Definition add_known (old : gmap Z ProcessInfo) (acc : gmap Z ProcessInfo) (pid : Z) : gmap Z ProcessInfo :=
  match acc !! pid with
  | Some _ => acc
  | None => <[pid := mkProcessInfo pid (known_name old pid) 0 0 false]> acc
  end.

Definition keep_name (old : gmap Z ProcessInfo) (pid : Z) (pi : ProcessInfo) : ProcessInfo :=
  if nonempty (Name pi) then pi else match old !! pid with Some existing => pi {{ Name := Name existing }} | None => pi end.

(** The order in which Go visits the connections. *)
Class ConnRange := {
  visit : gmap string procConnTrack → list procConnTrack;
  visit_perm m : visit m ≡ₚ snd <$> map_to_list m;
}.

#[export] Instance sorted_visit : ConnRange | 100 := {| visit m := snd <$> map_to_list m; visit_perm m := reflexivity _ |}.

Section refresh.
Context `{CR : ConnRange}.

(** [fetched]: the fetcher's answer; [pids]: the lister's, if there is one. *)
Definition refresh (now : Z) (fetched : outcome (gmap string Z)) (pids : option (list Z)) (pm : ProcessMonitor) : ProcessMonitor :=
  match fetched with
  | Ok portMap =>
      let cs := map_imap (λ addr ct, Some (assign now portMap addr ct)) (conns pm) in
      let pidBytes := foldl (add_conn now (processes pm)) ∅ (visit cs) in
      let pidBytes := match pids with Some l => foldl (add_known (processes pm)) pidBytes l | None => pidBytes end in
      mkMonitor cs (map_imap (λ pid pi, Some (keep_name (processes pm) pid pi)) pidBytes) (proxyPort pm)
  | _ => pm
  end.
End refresh.

Definition GetProcesses (pm : ProcessMonitor) : list ProcessInfo := snd <$> map_to_list (processes pm).

(** * The system's tables on Windows *)

Definition portFromInt : Z → Z := pmPortFromInt.

Definition getExtendedTcpTable : list byte → option (list tcp_row) := pmGetTcpTable.

Definition int32 (n : Z) : Z := (n + 2 ^ 31) mod 2 ^ 32 - 2 ^ 31.

(** The processes connected to the proxy's port, by their own port; a later row wins. *)
Definition tcp_owner (proxyPort : Z) (acc : gmap string Z) (row : tcp_row) : gmap string Z :=
  if (portFromInt (DwRemotePort row) =? proxyPort) && (0 <? int32 (DwOwningPid row))
  then <[Itoa (portFromInt (DwLocalPort row)) := int32 (DwOwningPid row)]> acc else acc.

Definition newTCPFetcher (windows : bool) (proxyPort : Z) (rows : outcome (list tcp_row)) : outcome (gmap string Z) :=
  if windows then match rows with Ok rows => Ok (foldl (tcp_owner proxyPort) ∅ rows) | Err msg => Err msg | Panic => Panic end
  else Ok ∅.

(** The names of processes, a cache of their own with the code of [PortManager]'s, except that
    the ids are compared as signed numbers. *)
Definition getProcessName : pm_env → Z → pm_state → string * pm_state := pmGetProcessName.

Definition enumerateProcesses (e : pm_env) (st : pm_state) : pm_state :=
  if snapshot e then
    let activePids : gset Z := set_map int32 (dom (PortManager.processes e)) in
    mkPmState (filter (λ kv, int32 kv.1 ∈ activePids) (names st ∪ (ToLower <$> PortManager.processes e))) (last_enum st)
  else st.

(** In some order. *)
Definition getAllProcessPIDs (st : pm_state) : list Z := (λ kv, int32 kv.1) <$> map_to_list (names st).

(** The function [newTCPFetcher] returns, with the time of the last enumeration. *)
Definition fetch (e : pm_env) (proxyPort : Z) (st : pm_state) : outcome (gmap string Z) * pm_state :=
  if windows e then
    let st := if 15 <? now e - last_enum st then mkPmState (names (enumerateProcesses e st)) (now e) else st in
    (newTCPFetcher true proxyPort (match table e with Some rows => Ok rows | None => Err "table" end), st)
  else (newTCPFetcher false proxyPort (Ok []), st).

(** * The server's connections *)

Record counted := mkCounted {
  bytesDown : Z;
  bytesUp : Z;
  monitor : option ProcessMonitor;
}.

Definition on_monitor (f : ProcessMonitor → ProcessMonitor) (s : counted) : counted := s {{ monitor ::= fmap f }}.

(** [trackingListener.Accept]. *)
Definition Accept (now : Z) (clientAddr : string) : counted → counted := on_monitor (TrackConnection now clientAddr).

(** [statConn.Read] and [Write] of [n] bytes. *)
Definition Read (now : Z) (clientAddr : string) (n : Z) (s : counted) : counted :=
  if 0 <? n then on_monitor (RecordBytes now clientAddr 0 n) (s {{ bytesUp ::= Z.add n }}) else s.

Definition Write (now : Z) (clientAddr : string) (n : Z) (s : counted) : counted :=
  if 0 <? n then on_monitor (RecordBytes now clientAddr n 0) (s {{ bytesDown ::= Z.add n }}) else s.

(** [InitProcessMonitor] reads the port of the address. *)
Definition monitor_port (listenAddr : string) : Z :=
  let port := match SplitHostPort listenAddr with Some (_, p) => let '(v, err) := GoText.ParseInt p in if err then 0 else v | None => 0 end in
  if port =? 0 then 8080 else port.

Definition InitProcessMonitor (listenAddr : string) (s : counted) : counted :=
  match monitor s with Some _ => s | None => s {{ monitor := Some (NewProcessMonitor (monitor_port listenAddr)) }} end.

Definition StopProcessMonitor (s : counted) : counted := s {{ monitor := None }}.

Definition GetStats (s : counted) : Z * Z := (bytesDown s, bytesUp s).

(** * The processes of the machine *)

Definition is_pid (pid : Z) : Prop := 0 ≤ pid < 2 ^ 32.

Lemma int32_inj pid pid' : is_pid pid → is_pid pid' → int32 pid = int32 pid' → pid = pid'.
Proof. unfold is_pid, int32. intros H H' E. Z.div_mod_to_equations. lia. Qed.

Definition pids_ok (e : pm_env) (st : pm_state) : Prop :=
  (∀ pid, is_Some (PortManager.processes e !! pid) → is_pid pid) ∧ (∀ pid, is_Some (names st !! pid) → is_pid pid).

(** Both copies of the enumeration do the same, whatever the ids are. *)
Lemma enumerateProcesses_same e st : pids_ok e st → enumerateProcesses e st = pmEnumerateProcesses e st.
Proof.
  intros [He Hst]. unfold enumerateProcesses, pmEnumerateProcesses. destruct (snapshot e); [|done]. f_equal.
  apply map_filter_ext. intros pid name Hl. cbn. rewrite elem_of_map. split.
  - intros (pid' & E & Hd%elem_of_dom). enough (pid = pid') by congruence. apply int32_inj; [|by apply He|done].
    apply lookup_union_Some_raw in Hl as [Hl|[_ Hl]]; [by apply Hst|]. rewrite lookup_fmap in Hl. apply He.
    by destruct (PortManager.processes e !! pid).
  - intros H. exists pid. split; [done|]. by apply elem_of_dom.
Qed.

(** After an enumeration the processes listed are those that run. *)
Lemma listed_pids e st pid :
  pids_ok e st → snapshot e = true →
  pid ∈ getAllProcessPIDs (enumerateProcesses e st) ↔ ∃ p, pid = int32 p ∧ is_Some (PortManager.processes e !! p).
Proof.
  intros Hok Hs. rewrite enumerateProcesses_same by done. unfold getAllProcessPIDs, pmEnumerateProcesses. rewrite Hs. cbn [names].
  rewrite list_elem_of_fmap. split.
  - intros ([p name] & -> & Hin). apply elem_of_map_to_list, map_lookup_filter_Some in Hin as [_ H]. by exists p.
  - intros (p & -> & [name Hp]). destruct (names st !! p) as [name'|] eqn:Hn.
    + exists (p, name'). split; [done|]. apply elem_of_map_to_list, map_lookup_filter_Some. split; [by apply lookup_union_Some_l|by exists name].
    + exists (p, ToLower name). split; [done|]. apply elem_of_map_to_list, map_lookup_filter_Some. split; [|by exists name].
      rewrite lookup_union_r by done. by rewrite lookup_fmap, Hp.
Qed.

(** The order of the list does not matter. *)
Lemma add_known_comm old acc p q : add_known old (add_known old acc p) q = add_known old (add_known old acc q) p.
Proof.
  destruct (decide (p = q)) as [->|Hne]; [done|]. unfold add_known.
  destruct (acc !! p) eqn:Hp, (acc !! q) eqn:Hq; rewrite ?lookup_insert_ne, ?Hp, ?Hq by done; try done. by rewrite insert_insert_ne.
Qed.

Lemma add_known_any_order old acc l l' : l ≡ₚ l' → foldl (add_known old) acc l = foldl (add_known old) acc l'.
Proof.
  intros Hp. induction Hp as [|p l l' _ IH|p q l|l l' l'' _ IH _ IH'] in acc |- *; cbn; [done|apply IH|by rewrite add_known_comm|].
  by rewrite IH.
Qed.

(** * Totals *)

Definition total `{Countable K} (m : gmap K Z) : Z := foldr Z.add 0 (snd <$> map_to_list m).

Section totals.
Context `{Countable K}.
Implicit Types (m : gmap K Z).

#[local] Instance sum_proper : Proper ((≡ₚ) ==> (=)) (foldr Z.add 0).
Proof. intros l l' Hp. induction Hp; cbn; lia. Qed.

Lemma total_insert_new m k x : m !! k = None → total (<[k := x]> m) = x + total m.
Proof. intros Hk. unfold total. rewrite map_to_list_insert by done. done. Qed.

Lemma total_delete m k x : m !! k = Some x → total m = x + total (delete k m).
Proof. intros Hk. rewrite <- (insert_delete_id m k x Hk) at 1. by rewrite total_insert_new by apply lookup_delete_eq. Qed.

Lemma total_insert m k x y : m !! k = Some y → total (<[k := x]> m) = total m - y + x.
Proof.
  intros Hk. rewrite (total_delete m k y Hk). rewrite <- insert_delete_eq, total_insert_new by apply lookup_delete_eq. lia.
Qed.

Lemma total_empty : total (∅ : gmap K Z) = 0.
Proof. unfold total. by rewrite map_to_list_empty. Qed.

Lemma total_le m m' : (∀ k x, m !! k = Some x → ∃ y, m' !! k = Some y ∧ x ≤ y) → dom m = dom m' → total m ≤ total m'.
Proof.
  revert m'. induction m as [| k x m Hk IH] using map_ind; intros m' Hle Hd.
  - symmetry in Hd. rewrite dom_empty_L in Hd. apply dom_empty_inv_L in Hd. subst. lia.
  - destruct (Hle k x) as (y & Hy & Hxy); [apply lookup_insert_eq |]. rewrite total_insert_new, (total_delete m' k y) by done.
    enough (total m ≤ total (delete k m')) by lia. apply IH.
    + intros k' x' Hx. assert (k ≠ k') by congruence. destruct (Hle k' x') as (y' & Hy' & ?); [by rewrite lookup_insert_ne |].
      exists y'. by rewrite lookup_delete_ne.
    + rewrite dom_delete_L, <- Hd, dom_insert_L. apply not_elem_of_dom in Hk. set_solver.
Qed.
End totals.

(** What a connection is credited with. *)
Definition credited (f : procConnTrack → Z) (ct : procConnTrack) : Z := if 0 <? ct_pid ct then f ct else 0.

(** A counter of connections and the one of processes that sums it. *)
Inductive counter := Down | Up.

Definition of_conn (c : counter) (ct : procConnTrack) : Z := match c with Down => downBytes ct | Up => upBytes ct end.
Definition of_process (c : counter) (pi : ProcessInfo) : Z := match c with Down => DownBytes pi | Up => UpBytes pi end.

Lemma of_grown c now ct pi : of_process c (grown now ct pi) = of_conn c ct + of_process c pi.
Proof. by destruct c, pi. Qed.

Lemma add_conn_total c now old acc ct :
  total (of_process c <$> add_conn now old acc ct) = total (of_process c <$> acc) + credited (of_conn c) ct.
Proof.
  unfold add_conn, credited. destruct (Z.leb_spec (ct_pid ct) 0), (Z.ltb_spec 0 (ct_pid ct)); try lia.
  rewrite fmap_insert. destruct (acc !! ct_pid ct) as [pi |] eqn:Hp; cbn [default from_option id].
  - rewrite (total_insert _ _ _ (of_process c pi)) by (by rewrite lookup_fmap, Hp).
    change (total (of_process c <$> acc) - of_process c pi + of_process c (grown now ct pi) = total (of_process c <$> acc) + of_conn c ct).
    rewrite of_grown. lia.
  - rewrite total_insert_new by (by rewrite lookup_fmap, Hp).
    match goal with |- ?x + _ = _ => change x with (of_process c (grown now ct (mkProcessInfo (ct_pid ct) (known_name old (ct_pid ct)) 0 0 true))) end.
    rewrite of_grown. destruct c; cbn [of_process DownBytes UpBytes]; lia.
Qed.

Lemma add_conns_total c now old l acc :
  total (of_process c <$> foldl (add_conn now old) acc l) = total (of_process c <$> acc) + foldr Z.add 0 (credited (of_conn c) <$> l).
Proof. induction l as [| ct l IH] in acc |- *; cbn; [lia |]. rewrite IH, add_conn_total. lia. Qed.

Lemma add_known_total c old acc pid : total (of_process c <$> add_known old acc pid) = total (of_process c <$> acc).
Proof.
  unfold add_known. destruct (acc !! pid) eqn:Hp; [done |]. rewrite fmap_insert, total_insert_new by (by rewrite lookup_fmap, Hp). by destruct c.
Qed.

Lemma add_knowns_total c old l acc : total (of_process c <$> foldl (add_known old) acc l) = total (of_process c <$> acc).
Proof. induction l as [| pid l IH] in acc |- *; [done |]. cbn. by rewrite IH, add_known_total. Qed.

Lemma keep_names_fmap c old acc : of_process c <$> map_imap (λ pid pi, Some (keep_name old pid pi)) acc = of_process c <$> acc.
Proof.
  apply map_eq. intros pid. rewrite !lookup_fmap, map_lookup_imap. destruct (acc !! pid) as [pi |]; [| done]. cbn. f_equal.
  unfold keep_name. destruct (nonempty _), (old !! pid), c; done.
Qed.

Lemma visit_total `{CR : ConnRange} c cs : foldr Z.add 0 (credited (of_conn c) <$> visit cs) = total (credited (of_conn c) <$> cs).
Proof.
  unfold total. rewrite map_to_list_fmap, <- list_fmap_compose. change (snd ∘ prod_map id (credited (of_conn c))) with (credited (of_conn c) ∘ @snd string procConnTrack).
  rewrite list_fmap_compose.
  assert (Hp : credited (of_conn c) <$> visit cs ≡ₚ credited (of_conn c) <$> (snd <$> map_to_list cs)) by (by apply fmap_Permutation, visit_perm).
  induction Hp; cbn; lia.
Qed.

(** After a refresh the processes share what the connections with a known process
    counted. *)
Lemma refresh_total `{CR : ConnRange} c now portMap pids pm :
  total (of_process c <$> processes (refresh now (Ok portMap) pids pm)) = total (credited (of_conn c) <$> conns (refresh now (Ok portMap) pids pm)).
Proof.
  cbn. rewrite keep_names_fmap. rewrite <- visit_total. destruct pids as [l |]; rewrite ?add_knowns_total, add_conns_total, fmap_empty, total_empty; lia.
Qed.

Lemma refresh_conns `{CR : ConnRange} c now fetched pids pm : of_conn c <$> conns (refresh now fetched pids pm) = of_conn c <$> conns pm.
Proof.
  destruct fetched as [portMap | |]; try done. cbn. apply map_eq. intros addr. rewrite !lookup_fmap, map_lookup_imap.
  destruct (conns pm !! addr) as [ct |]; [| done]. cbn. f_equal. unfold assign.
  destruct (SplitHostPort addr) as [[h p] |]; [| done]. destruct (portMap !! p); by destruct c.
Qed.

(** * Every run *)

Inductive mon_op :=
  | OpAccept (now : Z) (addr : string)
  | OpRead (now : Z) (addr : string) (n : Z)
  | OpWrite (now : Z) (addr : string) (n : Z)
  | OpRefresh (now : Z) (fetched : outcome (gmap string Z)) (pids : option (list Z)).

Section runs.
Context `{CR : ConnRange}.

Definition run_op (o : mon_op) (s : counted) : counted :=
  match o with
  | OpAccept now addr => Accept now addr s
  | OpRead now addr n => Read now addr n s
  | OpWrite now addr n => Write now addr n s
  | OpRefresh now fetched pids => on_monitor (refresh now fetched pids) s
  end.

Definition of_server (c : counter) (s : counted) : Z := match c with Down => bytesDown s | Up => bytesUp s end.

(** Counters never go down, connections count at most the server's bytes, processes at
    most those; and no process has a name. *)
Record monitored (s : counted) (pm : ProcessMonitor) : Prop := {
  mo_pos : ∀ c, map_Forall (λ _ ct, 0 ≤ of_conn c ct) (conns pm);
  mo_conns : ∀ c, total (of_conn c <$> conns pm) ≤ of_server c s;
  mo_procs : ∀ c, total (of_process c <$> processes pm) ≤ of_server c s;
  mo_names : map_Forall (λ _ pi, Name pi = "") (processes pm);
}.

Definition counted_ok (s : counted) : Prop := ∀ pm, monitor s = Some pm → monitored s pm.

Lemma credited_le c (m : gmap string procConnTrack) : map_Forall (λ _ ct, 0 ≤ of_conn c ct) m → total (credited (of_conn c) <$> m) ≤ total (of_conn c <$> m).
Proof.
  intros H. apply total_le; [| by rewrite !dom_fmap_L]. intros k x. rewrite lookup_fmap. intros (ct & Hct & ->)%fmap_Some.
  exists (of_conn c ct). rewrite lookup_fmap, Hct. split; [done |]. specialize (H k ct Hct). cbn in H. unfold credited. destruct (0 <? ct_pid ct); lia.
Qed.

(** ** Names *)

Lemma add_conn_names now old acc ct :
  map_Forall (λ _ pi, Name pi = "") old → map_Forall (λ _ pi, Name pi = "") acc → map_Forall (λ _ pi, Name pi = "") (add_conn now old acc ct).
Proof.
  intros Ho Ha. unfold add_conn. destruct (ct_pid ct <=? 0); [done |]. apply map_Forall_insert_2; [| done].
  change (Name (default (mkProcessInfo (ct_pid ct) (known_name old (ct_pid ct)) 0 0 true) (acc !! ct_pid ct)) = "").
  destruct (acc !! ct_pid ct) as [pi |] eqn:Hp; [by apply (Ha _ _ Hp) |]. cbn. unfold known_name.
  destruct (old !! ct_pid ct) as [pi |] eqn:Hq; [by apply (Ho _ _ Hq) | done].
Qed.

Lemma add_known_names old acc pid :
  map_Forall (λ _ pi, Name pi = "") old → map_Forall (λ _ pi, Name pi = "") acc → map_Forall (λ _ pi, Name pi = "") (add_known old acc pid).
Proof.
  intros Ho Ha. unfold add_known. destruct (acc !! pid); [done |]. apply map_Forall_insert_2; [| done]. cbn. unfold known_name.
  destruct (old !! pid) as [pi |] eqn:Hq; [by apply (Ho _ _ Hq) | done].
Qed.

Lemma foldl_keeps {A B} (P : A → Prop) (f : A → B → A) l a : (∀ a b, P a → P (f a b)) → P a → P (foldl f a l).
Proof. intros Hf. induction l as [| b l IH] in a |- *; cbn; auto. Qed.

Lemma refresh_names now fetched pids pm :
  map_Forall (λ _ pi, Name pi = "") (processes pm) → map_Forall (λ _ pi, Name pi = "") (processes (refresh now fetched pids pm)).
Proof.
  intros Ho. destruct fetched as [portMap | |]; try done. cbn. intros pid pi. rewrite map_lookup_imap. intros (pi' & Hp & [= <-])%bind_Some.
  set (summed := foldl (add_conn now (processes pm)) ∅ _) in Hp.
  assert (Hs : map_Forall (λ _ pi, Name pi = "") summed) by (apply (foldl_keeps (map_Forall (λ _ pi, Name pi = ""))); [intros; by apply add_conn_names | apply map_Forall_empty]).
  assert (Hn : Name pi' = "").
  { destruct pids as [l |]; [| exact (Hs _ _ Hp)].
    refine (foldl_keeps (map_Forall (λ _ pi, Name pi = "")) (add_known (processes pm)) l summed _ Hs _ _ Hp). intros. by apply add_known_names. }
  unfold keep_name. rewrite Hn. cbn. destruct (processes pm !! pid) as [ex |] eqn:He; [exact (Ho _ _ He) | done].
Qed.

(** ** The invariant *)

Lemma monitored_mono s s' pm : monitored s pm → (∀ c, of_server c s ≤ of_server c s') → monitored s' pm.
Proof. intros [] Hle. split; try done; intros c; specialize (Hle c); [specialize (mo_conns0 c) | specialize (mo_procs0 c)]; lia. Qed.

Lemma track_ok now addr s pm : monitored s pm → monitored s (TrackConnection now addr pm).
Proof.
  intros [Hp Hc Hm Hn]. unfold TrackConnection. destruct (conns pm !! addr) eqn:Ha; [done |]. split; try done; intros c.
  - apply map_Forall_insert_2; [by destruct c | apply Hp].
  - change (total (of_conn c <$> <[addr := mkTrack (-1) 0 0 now]> (conns pm)) ≤ of_server c s).
    rewrite fmap_insert, total_insert_new by (by rewrite lookup_fmap, Ha). specialize (Hc c). destruct c; cbn [of_conn downBytes upBytes] in *; lia.
Qed.

Definition moved (c : counter) (down up : Z) : Z := match c with Down => down | Up => up end.

Lemma record_ok now addr down up s s' pm :
  0 ≤ down → 0 ≤ up → (∀ c, of_server c s' = of_server c s + moved c down up) → monitored s pm → monitored s' (RecordBytes now addr down up pm).
Proof.
  intros Hd Hu Hs [Hp Hc Hm Hn]. unfold RecordBytes.
  assert (Hpm : monitored s' pm) by (apply (monitored_mono s); [by split | intros c; rewrite Hs; destruct c; cbn; lia]).
  destruct (conns pm !! addr) as [ct |] eqn:Ha; [| done]. destruct (0 <? ct_pid ct); [| done]. split; try apply Hpm; intros c.
  - apply map_Forall_insert_2; [| apply Hp]. specialize (Hp c addr ct Ha). destruct c; cbn in *; lia.
  - change (total (of_conn c <$> <[addr := mkTrack (ct_pid ct) (downBytes ct + down) (upBytes ct + up) now]> (conns pm)) ≤ of_server c s').
    rewrite fmap_insert, (total_insert _ _ _ (of_conn c ct)) by (by rewrite lookup_fmap, Ha). rewrite Hs. specialize (Hc c). destruct c; cbn [of_conn downBytes upBytes moved] in *; lia.
Qed.

Lemma refresh_ok now fetched pids s pm : monitored s pm → monitored s (refresh now fetched pids pm).
Proof.
  intros [Hp Hc Hm Hn].
  assert (Hpos : ∀ c, map_Forall (λ _ ct, 0 ≤ of_conn c ct) (conns (refresh now fetched pids pm))).
  { intros c addr ct Hct. pose proof (refresh_conns c now fetched pids pm) as He. apply (f_equal (.!! addr)) in He. rewrite !lookup_fmap, Hct in He. cbn in He.
    destruct (conns pm !! addr) as [ct' |] eqn:Ha; [| done]. injection He as ->. exact (Hp c _ _ Ha). }
  split; [done | intros c; by rewrite refresh_conns | | by apply refresh_names].
  intros c. destruct fetched as [portMap | |]; [| apply Hm..]. rewrite refresh_total. etrans; [by apply credited_le |]. by rewrite refresh_conns.
Qed.

Lemma on_monitor_ok f s s' :
  (∀ pm, monitored s pm → monitored s' (f pm)) → counted_ok s → monitor s' = monitor s → counted_ok (on_monitor f s').
Proof.
  intros Hf Hs Hm pm Hpm. change (f <$> monitor s' = Some pm) in Hpm. rewrite Hm in Hpm. apply fmap_Some in Hpm as (pm' & Hpm' & ->).
  destruct (Hf pm' (Hs pm' Hpm')) as [H1 H2 H3 H4]. by split.
Qed.

Lemma run_op_ok o s : counted_ok s → counted_ok (run_op o s).
Proof.
  intros Hs. destruct o as [now addr | now addr n | now addr n | now fetched pids]; cbn [run_op].
  - apply (on_monitor_ok _ s); [| done | done]. intros pm. apply track_ok.
  - unfold Read. destruct (Z.ltb_spec 0 n); [| done]. apply (on_monitor_ok _ s); [| done | done]. intros pm. apply record_ok; [lia | lia |].
    intros []; unfold of_server, moved; [by rewrite Z.add_0_r | apply Z.add_comm].
  - unfold Write. destruct (Z.ltb_spec 0 n); [| done]. apply (on_monitor_ok _ s); [| done | done]. intros pm. apply record_ok; [lia | lia |].
    intros []; unfold of_server, moved; [apply Z.add_comm | by rewrite Z.add_0_r].
  - apply (on_monitor_ok _ s); [| done | done]. intros pm. apply refresh_ok.
Qed.

Definition watched (listenAddr : string) : counted := InitProcessMonitor listenAddr (mkCounted 0 0 None).

(** C29: in every run the bytes shown for the processes come to at most those of the
    server, in both directions; after a refresh they are what the connections with a known
    process counted; and no process is ever shown with a name. *)
Theorem bytes_attributed listenAddr ops pm :
  monitor (foldl (λ s o, run_op o s) (watched listenAddr) ops) = Some pm →
  (∀ c, total (of_process c <$> processes pm) ≤ of_server c (foldl (λ s o, run_op o s) (watched listenAddr) ops)) ∧
  (∀ c now portMap pids, total (of_process c <$> processes (refresh now (Ok portMap) pids pm)) =
     total (credited (of_conn c) <$> conns (refresh now (Ok portMap) pids pm))) ∧
  ∀ pi, pi ∈ GetProcesses pm → Name pi = "".
Proof.
  intros Hpm. assert (Hok : counted_ok (foldl (λ s o, run_op o s) (watched listenAddr) ops)).
  { apply foldl_keeps; [intros s o; apply run_op_ok |]. intros pm' [= <-]. split; intros []; vm_compute; done. }
  destruct (Hok pm Hpm) as [_ _ Hm Hn]. split; [exact Hm |]. split; [intros; apply refresh_total |].
  intros pi ([k pi'] & -> & Hin)%list_elem_of_fmap. apply elem_of_map_to_list in Hin. exact (Hn _ _ Hin).
Qed.
End runs.

Lemma record_dom now addr down up pm : dom (conns pm) ⊆ dom (conns (RecordBytes now addr down up pm)).
Proof.
  unfold RecordBytes. destruct (conns pm !! addr) as [ct |]; [| done]. destruct (0 <? ct_pid ct); [| done].
  change (dom (conns pm) ⊆ dom (<[addr := mkTrack (ct_pid ct) (downBytes ct + down) (upBytes ct + up) now]> (conns pm))). set_solver.
Qed.

(** Connections are never forgotten. *)
Lemma conns_grow `{CR : ConnRange} o s pm pm' :
  monitor s = Some pm → monitor (run_op o s) = Some pm' → dom (conns pm) ⊆ dom (conns pm').
Proof.
  intros Hm. destruct o as [now addr | now addr n | now addr n | now fetched pids]; cbn [run_op]; unfold Read, Write; try destruct (0 <? n);
    try (rewrite Hm; by intros [= <-]); intros H.
  - change (TrackConnection now addr <$> monitor s = Some pm') in H. rewrite Hm in H. injection H as <-. unfold TrackConnection.
    destruct (conns pm !! addr); [done |]. change (dom (conns pm) ⊆ dom (<[addr := mkTrack (-1) 0 0 now]> (conns pm))). set_solver.
  - change (RecordBytes now addr 0 n <$> monitor s = Some pm') in H. rewrite Hm in H. injection H as <-. apply record_dom.
  - change (RecordBytes now addr n 0 <$> monitor s = Some pm') in H. rewrite Hm in H. injection H as <-. apply record_dom.
  - change (refresh now fetched pids <$> monitor s = Some pm') in H. rewrite Hm in H. injection H as <-.
    pose proof (refresh_conns Down now fetched pids pm) as He. apply (f_equal dom) in He. rewrite !dom_fmap_L in He. by rewrite He.
Qed.

(** ** A port in use again *)

Definition client : string := "127.0.0.1:50000".

(** Process 7 connects, moves 100 bytes before the first refresh and 1000 after it; then
    process 8 gets the port and moves 10. *)
Definition reused_port : list mon_op :=
  [OpAccept 0 client; OpWrite 0 client 100; OpRefresh 10 (Ok {["50000" := 7]}) None; OpWrite 11 client 1000;
   OpRefresh 20 (Ok {["50000" := 8]}) None; OpWrite 21 client 10; OpRefresh 30 (Ok {["50000" := 8]}) None].

(** The first bytes are nobody's, and the others are all those of process 8. *)
Lemma bytes_attributed_witness :
  ∃ pm, monitor (foldl (λ s o, run_op o s) (watched "127.0.0.1:8080") reused_port) = Some pm ∧
    ((λ pi, (PID pi, DownBytes pi)) <$> GetProcesses pm) = [(8, 1010)] ∧
    total (of_process Down <$> processes pm) ≤ of_server Down (foldl (λ s o, run_op o s) (watched "127.0.0.1:8080") reused_port) ∧
    of_server Down (foldl (λ s o, run_op o s) (watched "127.0.0.1:8080") reused_port) = 1110.
Proof.
  destruct (monitor (foldl (λ s o, run_op o s) (watched "127.0.0.1:8080") reused_port)) as [pm |] eqn:Hm; [| by vm_compute in Hm].
  exists pm. split; [done |]. split; [vm_compute in Hm; injection Hm as <-; by vm_compute |].
  split; [exact (proj1 (bytes_attributed "127.0.0.1:8080" reused_port pm Hm) Down) | by vm_compute].
Defined.
