(* ===== verification/CoreRuntime.v ===== *)
(** [core_runtime.go] and [core_api.go]: the core process, which joins the rule manager,
    the proxy server, the V2Ray manager and the certificate authority behind remote calls.

    A call is one run without interleaving, except that starting the TUN device is cut in
    two halves; the interleavings of [Server] are its own. What the system answers during a
    call is an environment. The Mihomo process that runs the TUN device is not in the
    repository: its manager answers as the environment says and what it is told is recorded. *)

From coqutil Require Import Datatypes.RecordSetters.
From S2P Require Import Prelude GoStrings GoNet GoText Types CFPool Settings Rules V2RayConfig V2RayCore V2RayManager Server CertManager PortManager.
Import DoubleBraceUpdate.

Open Scope Z_scope.

(** * State *)

Record RouteEvent := mkRouteEvent { re_Domain : string; re_Mode : string }.

Record TUNStatus := mkTUNStatus { ts_Supported : bool; ts_Running : bool; ts_Enabled : bool; ts_Driver : string; ts_Message : string }.

Inductive tun_call := TunStart (cfg : TUNConfig) (port : string) | TunStop | TunRestart (cfg : TUNConfig) (port : string).

(** The fields of [ProxyServer] that no other part of its life cycle reads come along. *)
Record coreRuntime := mkRuntime {
  rt_rules : Rules.RuleManager;
  rt_server : Server.system;
  rt_v2rayPort : Z;
  rt_v2rayHTTPPort : Z;
  rt_gasDialAddr : string;
  rt_gasRelay : option nat;
  rt_v2ray : V2RayManager.V2RayManager;
  rt_tunStarting : bool;
  rt_tunStartErr : string;
  rt_tunCalls : list tun_call;
  rt_routeEvents : list RouteEvent;
  rt_names : pm_state;
  rt_certManager : option CertManager.CertManager;
  rt_disk : disk;
  rt_certCache : bool;                               (** certificates were made since the cache was cleared *)
  rt_logCapture : bool;
}.

(** What the system answers during one call. *)
Record runtime_env := mkEnv {
  e_windows : bool;
  e_elevated : bool;
  e_ports : Z → pm_env;
  e_own : Z → bool;                                  (** ending the process ends this one *)
  e_listens : bool * bool;                           (** the two listeners of [Start] open *)
  e_dials : list bool;                               (** the dials of [waitForListen] before its deadline *)
  e_settings : write_result SettingsConfig;
  e_rules : write_result RulesConfig;
  e_v2ray : write_result V2RaySettings;
  e_store : write_result V2RayConfigStore;
  e_gfwlist : outcome (string * option string);      (** the cached list *)
  e_now : Z;
  e_cert : cert_env * cert_env;
  e_tun_start : outcome unit;
  e_tun_stop : outcome unit;
  e_tun_status : TUNStatus;
}.

(** How a call ends: it returns, waits for ever, or the process is ended. *)
Inductive call_result (A : Type) := Returned (a : A) | Waits | Ended.
Arguments Returned {A} _.
Arguments Waits {A}.
Arguments Ended {A}.

Definition M (A : Type) : Type := coreRuntime → call_result A * coreRuntime.

#[export] Instance M_ret : MRet M := λ A a rt, (Returned a, rt).

#[export] Instance M_bind : MBind M := λ A B f m rt,
  match m rt with
  | (Returned a, rt) => f a rt
  | (Waits, rt) => (Waits, rt)
  | (Ended, rt) => (Ended, rt)
  end.

(** [if err := m; err != nil { return err }] before [k]. *)
Definition try (m : M (outcome unit)) (k : M (outcome unit)) : M (outcome unit) :=
  r ← m; match r with Ok _ => k | _ => mret r end.

Definition gets {A} (f : coreRuntime → A) : M A := λ rt, (Returned (f rt), rt).

Definition modify (f : coreRuntime → coreRuntime) : M unit := λ rt, (Returned tt, f rt).

(** An operation of the rule manager. *)
Definition rules_op (op : Rules.RuleManager → outcome unit * Rules.RuleManager) : M (outcome unit) := λ rt,
  let '(r, rm) := op (rt_rules rt) in (Returned r, rt {{ rt_rules := rm }}).

Definition on_settings (f : Settings → Settings) : M unit :=
  modify (λ rt, rt {{ rt_rules := (rt_rules rt) {{ Rules.settings ::= f }} }}).

Definition v2ray_op {A} (op : V2RayManager.V2RayManager → option A * V2RayManager.V2RayManager) : M A := λ rt,
  let '(r, m) := op (rt_v2ray rt) in
  (match r with Some a => Returned a | None => Waits end, rt {{ rt_v2ray := m }}).

Definition GetSettings : V2RayManager.V2RayManager → option V2RaySettings * V2RayManager.V2RayManager := locking (λ m, (V2RayManager.settings m, m)).

Definition GetCorePort : V2RayManager.V2RayManager → option Z * V2RayManager.V2RayManager := locking (λ m, (CorePort (store m), m)).

Section runtime.
Context `{MR : MapRange} (e : runtime_env).

(** ** The proxy server *)

(** A read of the server under its mutex. *)
Definition read_server {A} (f : ProxyServer → A) : M A := λ rt,
  (if sv_mu_stuck (proxy (rt_server rt)) then Waits else Returned (f (proxy (rt_server rt))), rt).

(** A setter of the server. *)
Definition set_server {A} (f : ProxyServer → A * ProxyServer) : M A := λ rt,
  if sv_mu_stuck (proxy (rt_server rt)) then (Waits, rt)
  else
    let '(r, p) := f (proxy (rt_server rt)) in
    (Returned r, rt {{ rt_server := (rt_server rt) {{ proxy := p }} }}).

(** [Start] run to its end. *)
Definition start_alone (s : system) : call_result (outcome unit) * system :=
  let id := fresh s in
  let step a s := default s (exec a s) in
  match exec CallStart s with
  | None => (Waits, s)
  | Some s =>
      if bool_decide (threads s !! id = None) then (if sv_mu_stuck (proxy s) then Waits else Returned (Ok tt), s)
      else
        let s := step (Advance id (fst (e_listens e))) s in
        if bool_decide (threads s !! id = Some StartFailed) then (Returned (Err "failed to listen"), step (Advance id true) s)
        else (Returned (Ok tt), step (Advance id true) (step (Advance id true) (step (Advance id (snd (e_listens e))) s)))
  end.

(** [Stop] run to its end, with the accept loops that it waits for and the serving
    goroutine that it ends. *)
Definition stop_alone (s : system) : call_result (outcome unit) * system :=
  let id := fresh s in
  let step a s := default s (exec a s) in
  match exec CallStop s with
  | None => (Waits, s)
  | Some s =>
      if bool_decide (threads s !! id = None) then (if sv_mu_stuck (proxy s) then Waits else Returned (Ok tt), s)
      else
        let s := step (Advance id true) s in
        let s := foldr (λ i s, step (AcceptFails i) s) s (elements (accept_loops s)) in
        match exec (Advance id true) s with
        | None => (Waits, s)
        | Some s =>
            let s := step (Advance id true) s in
            (Returned (Ok tt), match sv_Server (proxy s) with Some srv => step (ServeReports srv) (step (ServeReturns srv) s) | None => s end)
        end
  end.

Definition on_server (f : system → call_result (outcome unit) * system) : M (outcome unit) := λ rt,
  let '(r, s) := f (rt_server rt) in (r, rt {{ rt_server := s }}).

Definition Start : M (outcome unit) := on_server start_alone.
Definition Stop : M (outcome unit) := on_server stop_alone.

(** [UpdateIPs] under the server's mutex, which is never released when the pool's is
    not. *)
Definition update_pool (ips : list string) : M unit := λ rt,
  let s := rt_server rt in
  if sv_mu_stuck (proxy s) then (Waits, rt)
  else
    match with_pool (λ p, pair true <$> CFPool.UpdateIPs ips p) (proxy s) with
    | Some p => (Returned tt, rt {{ rt_server := s {{ proxy := p }} }})
    | None => (Waits, rt {{ rt_server := stick s }})
    end.

Definition preferred_ips : M (list string) := gets (λ rt, cf_PreferredIPs (cloudflareConfig (Rules.settings (rt_rules rt)))).

(** [SetRuleManager] with the manager the server has already, and
    [UpdateCloudflareConfig]. *)
Definition SetRuleManager : M unit := ips ← preferred_ips; update_pool ips.
Definition UpdateCloudflareConfig : M unit := ips ← preferred_ips; update_pool ips.

Definition GetListenAddr : M string := read_server sv_listenAddr.
Definition GetMode : M string := read_server sv_mode.
Definition IsRunning : M bool := read_server sv_running.

(** ** Addresses *)

Definition getListenPort : M Z :=
  addr ← GetListenAddr;
  mret match SplitHostPort addr with Some (_, port) => scan_int port | None => 0 end.

Definition currentListenPort : M string :=
  addr ← GetListenAddr;
  stored ← gets (λ rt, listenPort (Rules.settings (rt_rules rt)));
  mret match SplitHostPort (TrimSpace addr) with
       | Some (_, port) => if nonempty (TrimSpace port) then TrimSpace port else TrimSpace stored
       | None => TrimSpace stored
       end.

Definition save_config : M (outcome unit) := rules_op (Rules.SaveConfig (e_windows e) (e_settings e) (e_rules e)).

Definition setListenAddr (addr : string) : M (outcome unit) :=
  match SplitHostPort addr with
  | None => mret (Err "invalid address")
  | Some (host, port) =>
      if nonempty port && ((scan_int port <? 1) || (65535 <? scan_int port)) then mret (Err "invalid port in address")
      else
        try (set_server (set_listen_addr addr))
          (on_settings (SetListenHost host);; on_settings (SetListenPort port);; save_config)
  end.

Definition setListenPort (port : Z) : M (outcome unit) :=
  if (port <? 1) || (65535 <? port) then mret (Err "invalid port number")
  else
    host ← gets (λ rt, listenHost (Rules.settings (rt_rules rt)));
    try (set_server (set_listen_addr (or_default "127.0.0.1" host +:+ ":" +:+ Itoa port)))
      (on_settings (SetListenPort (Itoa port));; save_config).

Definition setSOCKSAddr (addr : string) : M (outcome unit) :=
  try (set_server (set_socks_addr addr))
    (on_settings (SetSocksAddr addr);;
     match SplitHostPort addr with
     | Some (host, port) => on_settings (SetSocksHost host);; on_settings (SetSocksPort port)
     | None => mret tt
     end;;
     save_config).

(** ** Starting and stopping the proxy *)

Definition selfNames : list string := ["novaproxy"; "usque"].

Definition ends_own (ev : pm_event) : bool := existsb (e_own e) (ended_by ev).

(** The error is dropped, the port is then the one asked for. *)
Definition ensure_port (port : Z) : M Z := λ rt,
  let '(evs, (port, _), st) := EnsurePortAvailable (e_ports e) port selfNames (rt_names rt) in
  if existsb ends_own evs then (Ended, rt) else (Returned port, rt {{ rt_names := st }}).

(** The first dial that succeeds ends the wait. *)
Definition waitForListen : outcome unit := if existsb id (e_dials e) then Ok tt else Err "timeout".

Definition set_v2ray_ports : M unit :=
  port ← v2ray_op GetCorePort; modify (λ rt, rt {{ rt_v2rayPort := port; rt_v2rayHTTPPort := port + 1 }}).

Definition startProxy : M (outcome unit) :=
  port ← getListenPort;
  let originalPort := if port =? 0 then 8080 else port in
  availablePort ← ensure_port originalPort;
  try (if availablePort =? originalPort then mret (Ok tt) else setListenPort availablePort)
    (try Start
       (match waitForListen with
        | Ok _ => set_v2ray_ports;; mret (Ok tt)
        | _ => Stop;; mret (Err "proxy started but not listening")
        end)).

(** The messages of the errors there are. *)
Definition errorsJoin (errs : list (option string)) : option string :=
  match omap id errs with
  | [] => None
  | [msg] => Some msg
  | msgs => Some (Join msgs "; ")
  end.

Definition stopProxy : M (outcome unit) :=
  r ← Stop;
  mret match errorsJoin [match r with Err msg => Some msg | _ => None end] with
       | Some msg => Err msg
       | None => Ok tt
       end.

(** ** Modes *)

(** The error of saving is dropped. *)
Definition save_mode (mode : string) : M (outcome unit) :=
  s ← v2ray_op GetSettings;
  _ ← v2ray_op (SaveSettings (e_v2ray e) (s {{ s_RoutingMode := mode }}));
  mret (Ok tt).

Definition switchMode (mode : string) : M (outcome unit) :=
  let mode := norm mode in
  if bool_decide (mode = "rule") then set_server (set_mode "mitm");; save_mode mode
  else if bool_decide (mode = "gas") then set_server (set_mode "gas");; save_mode mode
  else if bool_decide (mode = "v2ray") then set_server (set_mode "v2ray");; set_v2ray_ports;; save_mode mode
  else mret (Err "unknown routing mode").

Definition mode_class (mode : string) : string :=
  if bool_decide (mode = "gas") then "gas" else if bool_decide (mode = "v2ray") then "v2ray" else "rule".

Definition getCurrentMode : M string :=
  s ← v2ray_op GetSettings;
  if nonempty (s_RoutingMode s) then mret (s_RoutingMode s) else mode ← GetMode; mret (mode_class mode).

Definition SetProxyMode (mode : string) : M (outcome unit) :=
  if bool_decide (mode ∈ ["rule"; "gas"; "v2ray"]) then switchMode mode else set_server (set_mode mode).

(** ** The TUN device *)

Definition set_tun_state (starting : bool) (err : outcome unit) (rt : coreRuntime) : coreRuntime :=
  rt {{ rt_tunStarting := starting;
        rt_tunStartErr := if starting then "" else match err with Err msg => TrimSpace msg | _ => "" end }}.

Definition setTUNStartState (starting : bool) (err : outcome unit) : M unit := modify (set_tun_state starting err).

Definition tell_tun (c : tun_call) : M unit := modify (λ rt, rt {{ rt_tunCalls ::= λ cs, cs ++ [c] }}).

Definition tun_config : M TUNConfig := gets (λ rt, GetTUNConfig (e_windows e) (Rules.settings (rt_rules rt))).

(** [startTUN] between the two changes of the state. *)
Definition startTUN_body : M (outcome unit) :=
  if negb (e_elevated e) then mret (Err "TUN requires administrator privileges on Windows")
  else
    running ← IsRunning;
    r ← (if (running : bool) then mret (Ok tt) : M (outcome unit) else startProxy);
    match r with
    | Err msg => mret (Err ("start proxy before TUN: " +:+ msg))
    | Panic => mret Panic
    | Ok _ =>
        port ← currentListenPort;
        if negb (nonempty port) then mret (Err "proxy listen port is empty")
        else cfg ← tun_config; tell_tun (TunStart cfg port);; mret (e_tun_start e)
    end.

Definition startTUN : M (outcome unit) :=
  setTUNStartState true (Ok tt);; r ← startTUN_body; setTUNStartState false r;; mret r.

(** The logged text and stack of the panic are left out. *)
Definition failTUNStart (err : outcome unit) : M unit := setTUNStartState false err.

(** The call of the service: it recovers a panic of the start and then answers as if there
    had been none. *)
Definition StartTUN : M (outcome unit) :=
  r ← startTUN;
  match r with Panic => failTUNStart (Err "core StartTUN panic");; mret (Ok tt) | _ => mret r end.

Definition stopTUN : M (outcome unit) := setTUNStartState false (Ok tt);; tell_tun TunStop;; mret (e_tun_stop e).

(** The message while a start is under way. *)
Definition starting_message (msg : string) : string :=
  if negb (nonempty (TrimSpace msg)) || Contains (ToLower msg) "selected" || Contains (ToLower msg) "not running"
  then "TUN startup in progress" else msg.

Definition tun_status (rt : coreRuntime) : TUNStatus :=
  let status := e_tun_status e in
  if ts_Running status then status {{ ts_Enabled := true }}
  else
    let status := status {{ ts_Enabled := false }} in
    if rt_tunStarting rt then status {{ ts_Message ::= starting_message }}
    else if nonempty (TrimSpace (rt_tunStartErr rt)) then status {{ ts_Message := TrimSpace (rt_tunStartErr rt) }}
    else status.

Definition getTUNStatus : M TUNStatus := gets tun_status.

(** ** Routing events *)

(** The callback given to [SetRouteEventCallback]. *)
Definition add_event (evs : list RouteEvent) (ev : RouteEvent) : list RouteEvent :=
  let evs := evs ++ [ev] in
  if (200 <? length evs)%nat then drop (length evs - 100) evs else evs.

Definition route_event (domain mode : string) : M unit :=
  modify (λ rt, rt {{ rt_routeEvents ::= λ evs, add_event evs (mkRouteEvent domain mode) }}).

Definition popRouteEvents : M (list RouteEvent) := λ rt, (Returned (rt_routeEvents rt), rt {{ rt_routeEvents := [] }}).

(** ** Configuration and certificates *)

Definition init_router : M unit := modify (λ rt, rt {{ rt_rules ::= Rules.InitAutoRouter (e_gfwlist e) (e_now e) }}).

Definition local_addr (port : string) : string := "127.0.0.1:" +:+ or_default "8080" port.

Definition reloadConfig : M (outcome unit) :=
  try (rules_op (Rules.LoadConfig (e_windows e) (e_settings e) (e_rules e) (e_rules e)))
    (port ← gets (λ rt, listenPort (Rules.settings (rt_rules rt)));
     try (set_server (set_listen_addr (local_addr port)))
       (SetRuleManager;; UpdateCloudflareConfig;; init_router;;
        port ← currentListenPort; cfg ← tun_config; tell_tun (TunRestart cfg port);;
        mret (Ok tt))).

Definition init_certs (join : string → string → string) (certPath : string) : M (outcome CertManager.CertManager) := λ rt,
  let '(r, d) := InitCertManager join (fst (e_cert e)) (snd (e_cert e)) certPath (rt_disk rt) in
  (Returned r, rt {{ rt_disk := d }}).

Definition reloadCertificate (join : string → string → string) (certPath : string) : M (outcome unit) :=
  r ← init_certs join certPath;
  match r with
  | Ok cm => modify (λ rt, rt {{ rt_certManager := Some cm; rt_certCache := false }});; mret (Ok tt)
  | Err msg => mret (Err msg)
  | Panic => mret Panic
  end.

(** [start]: an error of the certificates is only logged. *)
Definition start (join : string → string → string) (certPath : string) : M unit :=
  r ← init_certs join certPath;
  modify (λ rt, rt {{ rt_certManager := match r with Ok cm => Some cm | _ => None end }});;
  SetRuleManager;; UpdateCloudflareConfig;; init_router.

(** The runtime before [start]. *)
Definition new_runtime (rm : Rules.RuleManager) (vm : V2RayManager.V2RayManager) (d : disk) : coreRuntime :=
  mkRuntime rm (boot (local_addr (listenPort (Rules.settings rm)))) 0 0 "" None vm false "" [] [] (mkPmState ∅ (e_now e)) None d false false.

(** From the files of the rule manager, those of the V2Ray manager and the disk of the
    certificates. *)
Definition newCoreRuntime (join : string → string → string) (certPath : string) (fs : file SettingsConfig) (fr : file RulesConfig)
    (sf : file V2RayConfigStore) (vf : file V2RaySettings) (d : disk) : outcome (call_result unit * coreRuntime) :=
  match Rules.LoadConfig (e_windows e) (e_settings e) (e_rules e) (e_rules e) (NewRuleManager fs fr) with
  | (Ok _, rm) =>
      Ok ((_ ← set_server (set_socks_addr (socksAddr (Rules.settings rm))); start join certPath) (new_runtime rm (NewV2RayManager sf vf) d))
  | (Err msg, _) => Err msg
  | (Panic, _) => Panic
  end.

Definition shutdown : M unit := tell_tun TunStop;; Stop;; mret tt.

(** ** Calls of the service *)

(** The relay that was there is dropped as it is. *)
Definition SetGASRelay (enabled : bool) (made : nat) : M unit := modify (λ rt, rt {{ rt_gasRelay := if enabled then Some made else None }}).

Definition SetGASDialAddr (addr : string) : M unit := modify (λ rt, rt {{ rt_gasDialAddr := addr }}).

Definition V2RayStartCore : M unit := v2ray_op (SetCoreRunning (e_store e) true);; v2ray_op (SetCoreActive (e_store e) true).

Definition V2RayStopCore : M unit := v2ray_op (SetCoreRunning (e_store e) false);; v2ray_op (SetCoreActive (e_store e) false).

Definition startLogCapture : M unit := modify (λ rt, rt {{ rt_logCapture := true }}).
Definition stopLogCapture : M unit := modify (λ rt, rt {{ rt_logCapture := false }}).
End runtime.

(** * Routing events *)

Lemma add_event_kept l0 l ev k :
  l = drop k l0 → (length l0 ≤ 200 → k = 0)%nat → (length l ≤ 200)%nat → (length l0 `min` 100 ≤ length l)%nat →
  ∃ k', add_event l ev = drop k' (l0 ++ [ev]) ∧ (length (l0 ++ [ev]) ≤ 200 → k' = 0)%nat ∧
    (length (l0 ++ [ev]) `min` 100 ≤ length (add_event l ev) ≤ 200)%nat.
Proof.
  intros Hl Hk Hle Hmin. unfold add_event. rewrite !length_app. cbn [length].
  assert (Hlen : length l = (length l0 - k)%nat) by (rewrite Hl; apply length_drop).
  destruct (Nat.ltb_spec 200 (length l + 1)).
  - exists (k + (length l + 1 - 100))%nat. split; [| rewrite ?length_drop, ?length_app; cbn [length]; lia].
    rewrite <- drop_drop. f_equal. rewrite drop_app_le by lia. by rewrite <- Hl.
  - exists k. rewrite ?length_app. cbn [length]. split; [| lia]. rewrite drop_app_le by lia. by rewrite <- Hl.
Qed.

Lemma add_events_kept l :
  ∃ k, foldl add_event [] l = drop k l ∧ (length l ≤ 200 → k = 0)%nat ∧ (length l `min` 100 ≤ length (foldl add_event [] l) ≤ 200)%nat.
Proof.
  induction l as [| ev l IH] using rev_ind; [by exists 0%nat; cbn; repeat split; lia |].
  destruct IH as (k & Hk & H0 & Hmin & Hmax). rewrite foldl_snoc. by eapply add_event_kept.
Qed.

Definition emit (rt : coreRuntime) (ev : RouteEvent) : coreRuntime := snd (route_event (re_Domain ev) (re_Mode ev) rt).

Lemma emit_events l rt : rt_routeEvents (foldl emit rt l) = foldl add_event (rt_routeEvents rt) l.
Proof.
  induction l as [| ev l IH] in rt |- *; [done |]. cbn [foldl]. rewrite IH. f_equal. by destruct ev.
Qed.

(** A reader of the events gets the latest ones in order: all that came since it
    last read when they are at most 200, never fewer than the last hundred, never more
    than 200; and it gets none of them twice. *)
Theorem events_delivered l rt :
  rt_routeEvents rt = [] →
  ∃ k, fst (popRouteEvents (foldl emit rt l)) = Returned (drop k l) ∧ rt_routeEvents (snd (popRouteEvents (foldl emit rt l))) = [] ∧
    (length l ≤ 200 → k = 0)%nat ∧ (length l `min` 100 ≤ length (drop k l) ≤ 200)%nat.
Proof.
  intros H. destruct (add_events_kept l) as (k & Hk & H0 & Hn). exists k.
  unfold popRouteEvents. cbn [fst snd]. rewrite emit_events, H, Hk. rewrite Hk in Hn. split_and!; [done | done | done | lia..].
Qed.

(** * Modes *)

Lemma v2ray_op_free {A} (op : V2RayManager.V2RayManager → option A * V2RayManager.V2RayManager) rt a m :
  op (rt_v2ray rt) = (Some a, m) → v2ray_op op rt = (Returned a, rt {{ rt_v2ray := m }}).
Proof. intros H. unfold v2ray_op. by rewrite H. Qed.

Lemma v2_locking_free {A} (body : V2RayManager.V2RayManager → A * V2RayManager.V2RayManager) m a m' :
  held m = false → body m = (a, m') → locking body m = (Some a, m').
Proof. intros H Hb. unfold locking. by rewrite H, Hb. Qed.

(** The manager after the mode was saved. *)
Definition with_mode (w : write_result V2RaySettings) (mode : string) (m : V2RayManager.V2RayManager) : V2RayManager.V2RayManager :=
  let s := (V2RayManager.settings m) {{ s_RoutingMode := mode }} in
  snd (saveSettingsToFile w (m {{ V2RayManager.settings := s; corePort := if s_CorePort s =? 0 then corePort m else s_CorePort s }})).

Lemma save_mode_free e mode rt :
  held (rt_v2ray rt) = false → save_mode e mode rt = (Returned (Ok tt), rt {{ rt_v2ray ::= with_mode (e_v2ray e) mode }}).
Proof.
  intros H. unfold save_mode, mbind, M_bind, GetSettings, SaveSettings. erewrite v2ray_op_free; [| by apply v2_locking_free].
  cbv beta iota. erewrite v2ray_op_free; [| apply v2_locking_free; [done | apply surjective_pairing]]. reflexivity.
Qed.

Definition free_runtime (rt : coreRuntime) : Prop := sv_mu_stuck (proxy (rt_server rt)) = false ∧ held (rt_v2ray rt) = false.

Lemma set_server_free {A} (f : ProxyServer → A * ProxyServer) rt a p :
  sv_mu_stuck (proxy (rt_server rt)) = false → f (proxy (rt_server rt)) = (a, p) →
  set_server f rt = (Returned a, rt {{ rt_server := (rt_server rt) {{ proxy := p }} }}).
Proof. intros H Hf. unfold set_server. by rewrite H, Hf. Qed.

Lemma read_server_free {A} (f : ProxyServer → A) rt :
  sv_mu_stuck (proxy (rt_server rt)) = false → read_server f rt = (Returned (f (proxy (rt_server rt))), rt).
Proof. intros H. unfold read_server. by rewrite H. Qed.

Lemma set_mode_valid mode p : norm mode ∈ valid_modes → set_mode mode p = (Ok tt, p {{ sv_mode := norm mode }}).
Proof. intros H. unfold set_mode. by rewrite bool_decide_true by done. Qed.

(** The mode the server is put in. *)
Definition served_mode (mode : string) : string := if bool_decide (mode = "rule") then "mitm" else mode.

(** What a switch leaves alone. *)
Record switched (e : runtime_env) (mode : string) (rt rt' : coreRuntime) : Prop := {
  sw_addr : sv_listenAddr (proxy (rt_server rt')) = sv_listenAddr (proxy (rt_server rt));
  sw_mode : sv_mode (proxy (rt_server rt')) = served_mode mode;
  sw_v2ray : rt_v2ray rt' = with_mode (e_v2ray e) mode (rt_v2ray rt);
  sw_rules : rt_rules rt' = rt_rules rt;
  sw_disk : rt_disk rt' = rt_disk rt;
  sw_free : sv_mu_stuck (proxy (rt_server rt')) = false;
}.

Lemma switchMode_ok e mode rt :
  free_runtime rt → norm mode ∈ ["rule"; "gas"; "v2ray"] →
  ∃ rt', switchMode e mode rt = (Returned (Ok tt), rt') ∧ switched e (norm mode) rt rt'.
Proof.
  intros [Hs Hh] Hm. unfold switchMode. generalize dependent (norm mode). intros m Hm.
  assert (Hgo : ∀ target, norm target = served_mode m → served_mode m ∈ valid_modes →
    ∃ rt', (set_server (set_mode target);; save_mode e m) rt = (Returned (Ok tt), rt') ∧ switched e m rt rt').
  { intros target Ht Hv. unfold mbind, M_bind. erewrite set_server_free; [| done | apply set_mode_valid; by rewrite Ht].
    cbv beta iota. rewrite save_mode_free by done. eexists. split; [done |]. by split. }
  apply list_elem_of_In in Hm as [<- | [<- | [<- | []]]].
  - rewrite bool_decide_true by done. apply Hgo; [by vm_compute |]. rewrite <- (bool_decide_eq_true (_ ∈ _)). by vm_compute.
  - rewrite bool_decide_false, bool_decide_true by done. apply Hgo; [by vm_compute |]. rewrite <- (bool_decide_eq_true (_ ∈ _)). by vm_compute.
  - rewrite (bool_decide_false ("v2ray" = "rule")), (bool_decide_false ("v2ray" = "gas")), bool_decide_true by done.
    unfold mbind, M_bind. erewrite set_server_free; [| done | apply set_mode_valid; rewrite <- (bool_decide_eq_true (_ ∈ _)); by vm_compute].
    unfold set_v2ray_ports, mbind, M_bind, GetCorePort. erewrite v2ray_op_free; [| by apply v2_locking_free]. cbv beta iota. unfold modify. cbv beta iota.
    rewrite save_mode_free by done. eexists. split; [done |]. by split.
Qed.

(** * Starting the runtime *)

Definition pool_free (p : ProxyServer) : Prop := ∀ pool, sv_cfPool p = Some pool → mu_held pool = false.

(** The pool may change, and everything about it. *)
Definition same_server (p p' : ProxyServer) : Prop :=
  sv_mode p' = sv_mode p ∧ sv_listenAddr p' = sv_listenAddr p ∧ sv_socksAddr p' = sv_socksAddr p ∧ sv_running p' = sv_running p ∧
  sv_mu_stuck p' = sv_mu_stuck p ∧ pool_free p'.

Lemma UpdateIPs_free `{MR : MapRange} ips pool : mu_held pool = false → ∃ pool', CFPool.UpdateIPs ips pool = Some pool' ∧ mu_held pool' = false.
Proof.
  intros Hm. unfold CFPool.UpdateIPs. destruct (update_map _ _ _) as [[h n] m]. unfold locked. rewrite Hm. by eexists.
Qed.

Lemma update_pool_free `{MR : MapRange} ips rt :
  sv_mu_stuck (proxy (rt_server rt)) = false → pool_free (proxy (rt_server rt)) →
  ∃ p, update_pool ips rt = (Returned tt, rt {{ rt_server := (rt_server rt) {{ proxy := p }} }}) ∧ same_server (proxy (rt_server rt)) p.
Proof.
  intros Hs Hp. unfold update_pool. rewrite Hs. unfold with_pool. destruct (sv_cfPool (proxy (rt_server rt))) as [pool |] eqn:Hc.
  - destruct (UpdateIPs_free ips pool (Hp _ Hc)) as (pool' & -> & Hh). eexists. split; [done |].
    split_and!; try done. intros pool'' [= <-]. done.
  - eexists. split; [done |]. split_and!; try done.
Qed.

(** Operations that return and leave alone what the configuration says. *)
Definition ready (rt : coreRuntime) : Prop := sv_mu_stuck (proxy (rt_server rt)) = false ∧ pool_free (proxy (rt_server rt)).

Definition idle (rt : coreRuntime) : Prop := ready rt ∧ sv_running (proxy (rt_server rt)) = false.

Definition same_config (rt rt' : coreRuntime) : Prop :=
  same_server (proxy (rt_server rt)) (proxy (rt_server rt')) ∧ rt_v2ray rt' = rt_v2ray rt ∧ Rules.settings (rt_rules rt') = Rules.settings (rt_rules rt) ∧
  rt_gasRelay rt' = rt_gasRelay rt ∧ rt_gasDialAddr rt' = rt_gasDialAddr rt ∧ rt_logCapture rt' = rt_logCapture rt.

Definition harmless {A} (m : M A) : Prop := ∀ rt, ready rt → ∃ a rt', m rt = (Returned a, rt') ∧ same_config rt rt'.

Lemma harmless_bind {A B} (m : M A) (f : A → M B) : harmless m → (∀ a, harmless (f a)) → harmless (m ≫= f).
Proof.
  intros Hm Hf rt Hr. destruct (Hm rt Hr) as (a & rt1 & H1 & (Hm1 & Hl1 & Hs1 & Hr1 & Hk1 & Hp1) & Hv1 & Hg1 & Ha1 & Hb1 & Hc1).
  destruct (Hf a rt1) as (b & rt2 & H2 & (Hm2 & Hl2 & Hs2 & Hr2 & Hk2 & Hp2) & Hv2 & Hg2 & Ha2 & Hb2 & Hc2); [split; [rewrite Hk1; apply Hr | done] |].
  exists b, rt2. unfold mbind, M_bind. rewrite H1. split; [done |]. unfold same_config, same_server. by repeat split; try done; etrans.
Qed.

Lemma harmless_modify f : (∀ rt, rt_server (f rt) = rt_server rt ∧ rt_v2ray (f rt) = rt_v2ray rt ∧ Rules.settings (rt_rules (f rt)) = Rules.settings (rt_rules rt) ∧
    rt_gasRelay (f rt) = rt_gasRelay rt ∧ rt_gasDialAddr (f rt) = rt_gasDialAddr rt ∧ rt_logCapture (f rt) = rt_logCapture rt) → harmless (modify f).
Proof.
  intros H rt Hr. destruct (H rt) as (Hs & Hv & Hg & ? & ? & ?). exists tt, (f rt). split; [done |]. unfold same_config, same_server. rewrite Hs. repeat split; try done. apply Hr.
Qed.

Lemma harmless_gets {A} (f : coreRuntime → A) : harmless (gets f).
Proof. intros rt Hr. exists (f rt), rt. split; [done |]. unfold same_config, same_server. repeat split; try done. apply Hr. Qed.

Lemma harmless_update_pool `{MR : MapRange} ips : harmless (update_pool ips).
Proof. intros rt Hr. destruct (update_pool_free ips rt) as (p & Hu & Hs); [apply Hr.. |]. eexists tt, _. split; [exact Hu |]. by repeat split; try apply Hs. Qed.

Lemma harmless_init_certs e join certPath : harmless (init_certs e join certPath).
Proof.
  intros rt Hr. unfold init_certs. destruct (InitCertManager _ _ _ _ _) as [r d]. eexists r, _. split; [done |]. unfold same_config, same_server. repeat split; try done. apply Hr.
Qed.

Lemma InitAutoRouter_settings cache now rm : Rules.settings (Rules.InitAutoRouter cache now rm) = Rules.settings rm.
Proof. unfold Rules.InitAutoRouter. by destruct (AutoRouting.LoadFromFile _ _ _ _). Qed.

Lemma harmless_init_router e : harmless (init_router e).
Proof. apply harmless_modify. intros rt. split_and!; [done | done | apply InitAutoRouter_settings | done..]. Qed.

Lemma harmless_start `{MR : MapRange} e join certPath : harmless (start e join certPath).
Proof.
  unfold start, SetRuleManager, UpdateCloudflareConfig, preferred_ips.
  repeat first [apply harmless_bind; [| intros ?] | apply harmless_init_router | apply harmless_init_certs | apply harmless_modify; done | apply harmless_gets | apply harmless_update_pool].
Qed.

(** The V2Ray manager's mode, if one was stored. *)
Definition stored_mode (vf : file V2RaySettings) : string :=
  match vf with Doc s => if nonempty (s_RoutingMode s) then s_RoutingMode s else "rule" | _ => "rule" end.

Lemma reported_mode rt :
  free_runtime rt →
  getCurrentMode rt = (Returned (if nonempty (s_RoutingMode (V2RayManager.settings (rt_v2ray rt))) then s_RoutingMode (V2RayManager.settings (rt_v2ray rt))
                                 else mode_class (sv_mode (proxy (rt_server rt)))), rt).
Proof.
  intros [Hs Hh]. unfold getCurrentMode, mbind, M_bind, GetSettings, GetMode. erewrite v2ray_op_free; [| by apply v2_locking_free].
  replace (rt {{ rt_v2ray := rt_v2ray rt }}) with rt by (by destruct rt).
  destruct (nonempty _); [done |]. by rewrite read_server_free by done.
Qed.

(** The core starts in the mode mitm on the local address, whatever was served and
    listened on before, and says that it serves the stored mode. *)
Lemma boot_state `{MR : MapRange} e join certPath fs fr sf vf d rm :
  Rules.LoadConfig (e_windows e) (e_settings e) (e_rules e) (e_rules e) (NewRuleManager fs fr) = (Ok tt, rm) →
  ∃ rt, newCoreRuntime e join certPath fs fr sf vf d = Ok (Returned tt, rt) ∧
    sv_mode (proxy (rt_server rt)) = "mitm" ∧ sv_running (proxy (rt_server rt)) = false ∧
    sv_listenAddr (proxy (rt_server rt)) = local_addr (listenPort (Rules.settings rm)) ∧
    sv_socksAddr (proxy (rt_server rt)) = socksAddr (Rules.settings rm) ∧
    getCurrentMode rt = (Returned (stored_mode vf), rt) ∧
    idle rt ∧ held (rt_v2ray rt) = false ∧ rt_gasRelay rt = None ∧ rt_gasDialAddr rt = "" ∧ rt_logCapture rt = false.
Proof.
  intros Hl. unfold newCoreRuntime. rewrite Hl. unfold mbind, M_bind. erewrite set_server_free by done.
  cbv beta iota.
  match goal with |- context [start e join certPath ?x] =>
    destruct (harmless_start e join certPath x) as ([] & rt & Hrt & (Hm & Ha & Hs & Hr & Hk & Hp) & Hv & Hg & Hga & Hgd & Hgl); [| rewrite Hrt] end.
  { split; [done |]. intros pool [= <-]. done. }
  exists rt. split; [done |].
  assert (Hh : held (rt_v2ray rt) = false) by (rewrite Hv; by destruct sf, vf).
  rewrite Hm, Ha, Hs, Hr. split_and!; try done; try (by rewrite ?Hga, ?Hgd, ?Hgl).
  assert (Hf : free_runtime rt).
  { split; [done |]. rewrite Hv. by destruct sf, vf. }
  rewrite (reported_mode _ Hf), Hv, Hm. clear.
  by destruct vf, sf.
Qed.

(** ** What a restart forgets *)

Lemma loadRules_doc w rm rc :
  Rules.rulesFile rm = Doc rc → ∃ rm', loadRulesConfig w rm = (Ok tt, rm') ∧ Rules.settings rm' = Rules.settings rm.
Proof. intros H. unfold loadRulesConfig. rewrite H. eexists. by split. Qed.

Lemma normalize_port windows rm : listenPort (Rules.settings (snd (normalize_loaded windows rm))) = or_default "8080" (listenPort (Rules.settings rm)).
Proof. unfold normalize_loaded. by destruct (migrateLegacyECHRules _ _) as [[mv sgs] ps]. Qed.

Lemma loads_saved windows w1 w2 w3 s rc :
  ∃ rm, Rules.LoadConfig windows w1 w2 w3 (NewRuleManager (Doc (settings_doc windows s)) (Doc rc)) = (Ok tt, rm) ∧
    listenPort (Rules.settings rm) = or_default "8080" (listenPort s).
Proof.
  unfold Rules.LoadConfig. cbn [Rules.settingsFile NewRuleManager loadSettingsConfig]. rewrite apply_settings_doc. cbv beta iota.
  match goal with |- context [loadRulesConfig w2 ?x] => destruct (loadRules_doc w2 x rc) as (rm2 & -> & Hs2); [done |] end.
  pose proof (normalize_port windows rm2) as Hp. destruct (normalize_loaded windows rm2) as [moved rm3]. cbn [snd] in Hp. rewrite Hs2 in Hp.
  exists (if moved then snd (saveRulesConfig w3 (buildRules rm3)) else buildRules rm3). split; [done |].
  trans (listenPort (Rules.settings rm3)).
  - destruct moved; [| done]. unfold saveRulesConfig. by destruct (write_file _ _).
  - rewrite Hp. change (or_default "8080" (or_default "8080" (listenPort s)) = or_default "8080" (listenPort s)). by destruct (listenPort s).
Qed.

(** Every file is written. *)
Definition writes (e : runtime_env) : Prop := e_settings e = Written ∧ e_rules e = Written ∧ e_v2ray e = Written.

Definition port_ok (port : string) : bool := negb (nonempty port && ((scan_int port <? 1) || (65535 <? scan_int port))).

Lemma setListenAddr_ok e addr host port rt :
  writes e → free_runtime rt → sv_running (proxy (rt_server rt)) = false → SplitHostPort addr = Some (host, port) → port_ok port = true →
  ∃ rt', setListenAddr e addr rt = (Returned (Ok tt), rt') ∧ sv_listenAddr (proxy (rt_server rt')) = addr ∧ free_runtime rt' ∧
    listenPort (Rules.settings (rt_rules rt')) = port ∧ listenHost (Rules.settings (rt_rules rt')) = host ∧
    Rules.settingsFile (rt_rules rt') = Doc (settings_doc (e_windows e) (Rules.settings (rt_rules rt'))) ∧
    Rules.rulesFile (rt_rules rt') = Doc (rules_doc (rt_rules rt')).
Proof.
  intros (Hs & Hr & _) [Hst Hh] Hrun Ha Hp. unfold setListenAddr. rewrite Ha. apply negb_true_iff in Hp. rewrite Hp.
  unfold try, mbind, M_bind. erewrite set_server_free; [| done | unfold set_listen_addr; by rewrite Hrun]. cbv beta iota.
  unfold on_settings, modify, save_config, rules_op, Rules.SaveConfig, saveSettingsConfig, saveRulesConfig, write_file. rewrite Hs, Hr. cbv beta iota zeta.
  eexists. split; [done |]. by repeat split.
Qed.

Lemma with_mode_settings w mode m : s_RoutingMode (V2RayManager.settings (with_mode w mode m)) = mode ∧ held (with_mode w mode m) = held m.
Proof. unfold with_mode, saveSettingsToFile. by destruct (write_file _ _). Qed.

Lemma with_mode_stored mode m : nonempty mode = true → stored_mode (V2RayManager.settingsFile (with_mode Written mode m)) = mode.
Proof. intros H. change (stored_mode _) with (if nonempty mode then mode else "rule"). by rewrite H. Qed.

(** After a change of address and mode was stored, the program serves them; a restart
    reports the stored mode but serves the mode mitm, and listens on the stored port of the
    local address, whatever the host. *)
Theorem restart_forgets `{MR : MapRange} e join certPath mode addr host port rt :
  writes e → free_runtime rt → sv_running (proxy (rt_server rt)) = false → SplitHostPort addr = Some (host, port) → port_ok port = true →
  norm mode ∈ ["rule"; "gas"; "v2ray"] →
  ∃ rt' rt2, try (setListenAddr e addr) (switchMode e mode) rt = (Returned (Ok tt), rt') ∧
    sv_listenAddr (proxy (rt_server rt')) = addr ∧ sv_mode (proxy (rt_server rt')) = served_mode (norm mode) ∧ getCurrentMode rt' = (Returned (norm mode), rt') ∧
    newCoreRuntime e join certPath (Rules.settingsFile (rt_rules rt')) (Rules.rulesFile (rt_rules rt')) (storeFile (rt_v2ray rt'))
      (V2RayManager.settingsFile (rt_v2ray rt')) (rt_disk rt') = Ok (Returned tt, rt2) ∧
    sv_listenAddr (proxy (rt_server rt2)) = "127.0.0.1:" +:+ or_default "8080" port ∧ sv_mode (proxy (rt_server rt2)) = "mitm" ∧ getCurrentMode rt2 = (Returned (norm mode), rt2).
Proof.
  intros Hw Hf Hrun Ha Hp Hm. destruct (setListenAddr_ok e addr host port rt Hw Hf Hrun Ha Hp) as (rt1 & H1 & Ha1 & Hf1 & Hp1 & _ & Hs1 & Hr1).
  destruct (switchMode_ok e mode rt1 Hf1 Hm) as (rt' & H2 & Hsw).
  assert (Hne : nonempty (norm mode) = true) by (apply list_elem_of_In in Hm as [<- | [<- | [<- | []]]]; done).
  destruct (loads_saved (e_windows e) (e_settings e) (e_rules e) (e_rules e) (Rules.settings (rt_rules rt1)) (rules_doc (rt_rules rt1))) as (rm & Hrm & Hport).
  destruct (boot_state e join certPath _ _ (storeFile (rt_v2ray rt')) (V2RayManager.settingsFile (rt_v2ray rt')) (rt_disk rt') rm Hrm) as (rt2 & Hb & Hm2 & _ & Ha2 & _ & Hr2 & _).
  exists rt', rt2. rewrite (sw_rules _ _ _ _ Hsw), Hs1, Hr1. split_and!.
  - unfold try, mbind, M_bind. by rewrite H1.
  - by rewrite (sw_addr _ _ _ _ Hsw).
  - apply Hsw.
  - destruct (with_mode_settings (e_v2ray e) (norm mode) (rt_v2ray rt1)) as [Hset Hheld].
    rewrite reported_mode; rewrite ?(sw_v2ray _ _ _ _ Hsw), ?Hset, ?Hne; [done |]. split; [apply Hsw |]. rewrite (sw_v2ray _ _ _ _ Hsw), Hheld. apply Hf1.
  - done.
  - rewrite Ha2. unfold local_addr. rewrite Hport, Hp1. by destruct port.
  - done.
  - rewrite Hr2, (sw_v2ray _ _ _ _ Hsw), (proj2 (proj2 Hw)). by rewrite with_mode_stored.
Qed.

(** * Starting the proxy *)

(** A running server with its listener. *)
Definition serves (addr : string) (s : system) : Prop :=
  sv_running (proxy s) = true ∧ sv_listenAddr (proxy s) = addr ∧
  ∃ srv, sv_Server (proxy s) = Some srv ∧ listeners s !! Main srv = Some addr ∧ serving s !! srv = Some true.

Definition up (addr mode : string) (s : system) : Prop := serves addr s ∧ sv_mode (proxy s) = mode ∧ sv_mu_stuck (proxy s) = false ∧ pool_free (proxy s).

(** A [Start] that has its listener. *)
Record starting (id : nat) (addr mode : string) (pc0 : pc) (s : system) : Prop := {
  st_pc : threads s !! id = Some pc0;
  st_free : sv_mu_stuck (proxy s) = false;
  st_idle : sv_running (proxy s) = false;
  st_addr : sv_listenAddr (proxy s) = addr;
  st_listener : listeners s !! Main id = Some addr;
  st_pool : pool_free (proxy s);
  st_mode : sv_mode (proxy s) = mode;
}.

Section start_lemmas.
Context `{MR : MapRange}.

Lemma exec_advance id ok pc0 s : threads s !! id = Some pc0 → exec (Advance id ok) s = advance_pc id ok pc0 s.
Proof. intros H. cbn [exec]. unfold advance. by rewrite H. Qed.

Lemma step_socks id addr mode ok s :
  starting id addr mode StartSocks s → ∃ b s', exec (Advance id ok) s = Some s' ∧ starting id addr mode (StartPublish b) s'.
Proof.
  intros [Hpc Hf Hi Ha Hl Hp Hm]. rewrite (exec_advance _ _ _ _ Hpc). cbn [advance_pc]. unfold critical. rewrite Hf.
  destruct (nonempty (sv_socksAddr (proxy s))).
  - unfold listen. destruct (ok && _); eexists _, _; (split; [done |]); split; try done; try apply lookup_insert_eq.
    cbn. unfold compose. by rewrite lookup_insert_ne.
  - eexists _, _. split; [done |]. split; try done. apply lookup_insert_eq.
Qed.

Lemma step_publish id addr mode b s :
  starting id addr mode (StartPublish b) s →
  ∃ s', exec (Advance id true) s = Some s' ∧ threads s' !! id = Some (StartSpawn b) ∧ sv_running (proxy s') = true ∧
    sv_listenAddr (proxy s') = addr ∧ sv_Server (proxy s') = Some id ∧ listeners s' !! Main id = Some addr ∧
    sv_mode (proxy s') = mode ∧ sv_mu_stuck (proxy s') = false ∧ pool_free (proxy s').
Proof.
  intros [Hpc Hf Hi Ha Hl Hp Hm]. rewrite (exec_advance _ _ _ _ Hpc). cbn [advance_pc]. unfold Start_publish, critical. rewrite Hf, Hi.
  eexists. split; [done |]. split; [apply lookup_insert_eq |]. by destruct b.
Qed.

Lemma step_spawn id addr mode b s :
  threads s !! id = Some (StartSpawn b) → sv_running (proxy s) = true → sv_listenAddr (proxy s) = addr → sv_Server (proxy s) = Some id →
  listeners s !! Main id = Some addr → sv_mode (proxy s) = mode → sv_mu_stuck (proxy s) = false → pool_free (proxy s) →
  ∃ s', exec (Advance id true) s = Some s' ∧ up addr mode s'.
Proof.
  intros Hpc Hr Ha Hs Hl Hm Hf Hp. rewrite (exec_advance _ _ _ _ Hpc). cbn [advance_pc]. eexists. split; [done |].
  destruct b; (split; [| done]); (split; [done |]; split; [done |]; exists id; split; [done |]; split; [done |]; apply lookup_insert_eq).
Qed.

Lemma start_tail id addr mode ok s :
  starting id addr mode StartSocks s →
  let step a s := default s (exec a s) in
  up addr mode (step (Advance id true) (step (Advance id true) (step (Advance id ok) s))).
Proof.
  intros H. cbv zeta. destruct (step_socks _ _ _ ok _ H) as (b & s1 & -> & H1). cbn [default from_option Datatypes.id].
  destruct (step_publish _ _ _ _ _ H1) as (s2 & -> & Hpc & Hr & Ha & Hs & Hl & Hm & Hf & Hp). cbn [default from_option Datatypes.id].
  by destruct (step_spawn _ _ _ _ _ Hpc Hr Ha Hs Hl Hm Hf Hp) as (s3 & -> & H3).
Qed.

(** The first step of a [Start] that goes on. *)
Lemma step_begin s :
  sv_mu_stuck (proxy s) = false → sv_running (proxy s) = false → pool_free (proxy s) →
  ∃ s', exec CallStart s = Some s' ∧ threads s' !! fresh s = Some (StartListen (sv_listenAddr (proxy s))) ∧ listeners s' = listeners s ∧
    same_server (proxy s) (proxy s').
Proof.
  intros Hf Hi Hp. cbn [exec]. unfold Start_begin, critical. rewrite Hf, Hi. unfold with_pool.
  destruct (sv_cfPool (proxy s)) as [pool |] eqn:Hc.
  - unfold CFPool.Start, locked. rewrite (Hp _ Hc). cbn [fmap option_fmap option_map].
    destruct (CFPool.running pool) eqn:Hr; eexists; (split; [done |]); (split; [apply lookup_insert_eq |]); (split; [done |]);
      (split_and!; try done); intros pool' [= <-]; exact (Hp _ Hc).
  - eexists. split; [done |]. split; [apply lookup_insert_eq |]. split; [done |]. by split_and!.
Qed.

Lemma with_pool_stop p :
  pool_free p → ∃ p', with_pool CFPool.Stop p = Some p' ∧ sv_running p' = sv_running p ∧ sv_mu_stuck p' = sv_mu_stuck p.
Proof.
  intros Hp. unfold with_pool. destruct (sv_cfPool p) as [pool |] eqn:Hc; [| by eexists].
  unfold CFPool.Stop, locked. rewrite (Hp _ Hc). by eexists.
Qed.

Lemma start_alone_spec e s :
  sv_mu_stuck (proxy s) = false → sv_running (proxy s) = false → pool_free (proxy s) →
  ∃ r s', start_alone e s = (Returned r, s') ∧
    match r with
    | Ok _ => up (sv_listenAddr (proxy s)) (sv_mode (proxy s)) s'
    | _ => sv_running (proxy s') = false ∧ sv_mu_stuck (proxy s') = false ∧ listeners s' = listeners s
    end.
Proof.
  intros Hf Hi Hp. destruct (step_begin s Hf Hi Hp) as (s1 & H1 & Hpc & Hl & (Hm & Ha & Hs & Hr & Hk & Hp1)).
  unfold start_alone. rewrite H1. cbv zeta. rewrite bool_decide_false by (by rewrite Hpc). rewrite (exec_advance _ _ _ _ Hpc). cbn [advance_pc].
  destruct (listen (fst (e_listens e)) (Main (fresh s)) (sv_listenAddr (proxy s)) s1) as [ok s2] eqn:Hlisten. unfold listen in Hlisten.
  destruct (fst (e_listens e) && _); injection Hlisten as <- <-; cbn [default from_option Datatypes.id].
  - assert (Hthr : threads (goto (fresh s) StartSocks (s1 {{ listeners ::= <[Main (fresh s) := sv_listenAddr (proxy s)]> }})) !! fresh s = Some StartSocks) by apply lookup_insert_eq.
    rewrite bool_decide_false by (intros Hc; discriminate (eq_trans (eq_sym Hthr) Hc)). eexists (Ok tt), _. split; [done |]. rewrite <- Ha. apply start_tail.
    split; [exact Hthr | by rewrite <- Hf | by rewrite <- Hi | done | apply lookup_insert_eq | exact Hp1 | exact Hm].
  - rewrite bool_decide_true by apply lookup_insert_eq. erewrite exec_advance by apply lookup_insert_eq. cbn [advance_pc].
    destruct (with_pool_stop (proxy s1) Hp1) as (p2 & Hw & Hr2 & Hk2).
    eexists (Err _), _. split; [done |]. change (proxy (goto _ _ s1)) with (proxy s1). rewrite Hw. cbn [fmap option_fmap option_map default from_option Datatypes.id].
    split; [by rewrite <- Hi, <- Hr, <- Hr2 |]. split; [by rewrite <- Hf, <- Hk, <- Hk2 |]. done.
Qed.
(** ** Stopping *)

Lemma step_stop s :
  sv_mu_stuck (proxy s) = false → sv_running (proxy s) = true → pool_free (proxy s) →
  ∃ s' ln, exec CallStop s = Some s' ∧ threads s' !! fresh s = Some (StopClose ln) ∧ sv_running (proxy s') = false ∧ sv_mu_stuck (proxy s') = false.
Proof.
  intros Hf Hr Hp. cbn [exec]. unfold Stop_begin, critical. rewrite Hf, Hr. cbn [negb].
  assert (Hp' : pool_free ((proxy s) {{ sv_running := false }})) by exact Hp.
  destruct (with_pool_stop _ Hp') as (p' & -> & Hr' & Hk').
  eexists _, _. split; [done |]. split; [apply lookup_insert_eq |]. split; [exact Hr' | by rewrite <- Hf].
Qed.

Lemma accept_fails_all s l :
  sv_mu_stuck (proxy s) = false → sv_running (proxy s) = false →
  let s' := foldr (λ i s, default s (exec (AcceptFails i) s)) s l in
  proxy s' = proxy s ∧ threads s' = threads s ∧ accept_loops s' = accept_loops s ∖ list_to_set l.
Proof.
  intros Hf Hr. cbv zeta. induction l as [| i l (Hp & Ht & Ha)]; [cbn; repeat split; set_solver |].
  cbn [foldr]. set (s1 := foldr _ s l) in *. cbn [exec]. unfold accept_fails, critical. rewrite Hp, Hf, Hr.
  case_bool_decide as Hi; cbn [default from_option Datatypes.id].
  - split; [done |]. split; [done |]. cbn. change (accept_loops s1 ∖ {[i]} = accept_loops s ∖ ({[i]} ∪ list_to_set l)). rewrite Ha. set_solver.
  - rewrite Ha in *. split; [done |]. split; [done |]. cbn [list_to_set]. set_solver.
Qed.

Lemma serve_ends srv s :
  sv_mu_stuck (proxy s) = false → sv_running (proxy s) = false →
  let step a s := default s (exec a s) in
  let s' := step (ServeReports srv) (step (ServeReturns srv) s) in sv_running (proxy s') = false ∧ sv_mu_stuck (proxy s') = false.
Proof.
  intros Hf Hr. cbv zeta. cbn [exec].
  assert (H1 : proxy (default s (serve_returns srv s)) = proxy s) by (unfold serve_returns; by destruct (serving s !! srv) as [[] |]).
  set (s1 := default s (serve_returns srv s)) in *. unfold serve_reports, critical. rewrite H1, Hf.
  destruct (serving s1 !! srv) as [[] |]; cbn [default from_option Datatypes.id]; try (by rewrite H1).
  case_bool_decide; [done |]. change (sv_running (proxy s1) = false ∧ sv_mu_stuck (proxy s1) = false). by rewrite H1.
Qed.

Lemma stop_alone_spec s :
  sv_mu_stuck (proxy s) = false → sv_running (proxy s) = true → pool_free (proxy s) →
  ∃ s', stop_alone s = (Returned (Ok tt), s') ∧ sv_running (proxy s') = false ∧ sv_mu_stuck (proxy s') = false.
Proof.
  intros Hf Hr Hp. destruct (step_stop s Hf Hr Hp) as (s1 & ln & H1 & Hpc & Hr1 & Hf1).
  unfold stop_alone. rewrite H1. cbv zeta. rewrite bool_decide_false by (by rewrite Hpc). rewrite (exec_advance _ true _ _ Hpc). cbn [advance_pc default from_option Datatypes.id].
  set (s2 := goto _ _ _). assert (H2 : proxy s2 = proxy s1) by (by destruct ln).
  assert (Hpc2 : threads s2 !! fresh s = Some StopWait) by apply lookup_insert_eq.
  destruct (accept_fails_all s2 (elements (accept_loops s2))) as (H3 & Ht3 & Ha3); [by rewrite H2 | by rewrite H2 |].
  set (s3 := foldr _ s2 _) in *. assert (Hpc3 : threads s3 !! fresh s = Some StopWait) by (by rewrite Ht3).
  rewrite (exec_advance _ true _ _ Hpc3). cbn [advance_pc].
  rewrite bool_decide_true by (rewrite Ha3, list_to_set_elements_L; set_solver).
  set (s4 := goto (fresh s) StopServer s3). assert (Hpc4 : threads s4 !! fresh s = Some StopServer) by apply lookup_insert_eq.
  rewrite (exec_advance _ true _ _ Hpc4). cbn [advance_pc default from_option Datatypes.id].
  set (s5 := finish (fresh s) _). assert (H5 : proxy s5 = proxy s1).
  { rewrite <- H2, <- H3. unfold s5. by destruct (sv_Server (proxy s4)). }
  destruct (sv_Server (proxy s5)) as [srv |]; eexists; (split; [done |]).
  - apply serve_ends; by rewrite H5.
  - by rewrite H5.
Qed.
End start_lemmas.

(** ** The whole start *)

Definition original_port (rt : coreRuntime) : Z :=
  let port := match SplitHostPort (sv_listenAddr (proxy (rt_server rt))) with Some (_, port) => scan_int port | None => 0 end in
  if port =? 0 then 8080 else port.

(** What a start leaves alone. *)
Definition kept (rt rt' : coreRuntime) : Prop :=
  sv_mode (proxy (rt_server rt')) = sv_mode (proxy (rt_server rt)) ∧ rt_gasRelay rt' = rt_gasRelay rt ∧ rt_gasDialAddr rt' = rt_gasDialAddr rt ∧
  rt_logCapture rt' = rt_logCapture rt ∧ rt_v2ray rt' = rt_v2ray rt.

Lemma ensure_port_range e port rt :
  (∃ rt', ensure_port e port rt = (Ended, rt')) ∨
  ∃ p, ensure_port e port rt = (Returned p, rt {{ rt_names := snd (EnsurePortAvailable (e_ports e) port selfNames (rt_names rt)) }}) ∧ port ≤ p < port + 10.
Proof.
  unfold ensure_port, EnsurePortAvailable.
  destruct (ensure_from_ok maxAttempts (e_ports e) selfNames port (rt_names rt)) as (tries & _ & _ & Hr); [by vm_compute |].
  destruct (ensure_from _ _ _ _ _) as [[evs r] st]. cbn [fst snd] in Hr. cbv beta iota zeta.
  destruct r as [p |]; cbv beta iota; destruct (existsb _ evs); [left; by eexists | | left; by eexists |]; right; eexists; (split; [done |]); unfold maxAttempts in Hr; lia.
Qed.

Lemma setListenPort_idle e port rt :
  idle rt → ∃ r rt', setListenPort e port rt = (Returned r, rt') ∧ idle rt' ∧ kept rt rt' ∧
    (is_ok r = true → listenPort (Rules.settings (rt_rules rt')) = Itoa port ∧
      ∃ host, sv_listenAddr (proxy (rt_server rt')) = host +:+ ":" +:+ Itoa port).
Proof.
  intros [[Hk Hp] Hr]. unfold setListenPort. destruct (_ || _); [by eexists _, _ |].
  unfold try, gets, mbind, M_bind. erewrite set_server_free; [| done | unfold set_listen_addr; by rewrite Hr]. cbv beta iota.
  unfold on_settings, modify, save_config, rules_op. destruct (Rules.SaveConfig _ _ _ _) as [r rm] eqn:Hsave. cbv beta iota.
  eexists _, _. split; [done |]. split; [done |]. split; [done |]. intros Hok. split; [| by eexists].
  change (listenPort (Rules.settings rm) = Itoa port). unfold Rules.SaveConfig, saveRulesConfig in Hsave.
  destruct (saveSettingsConfig _ _ _) as [[[] | |] f]; cbv beta iota zeta in Hsave; [| by injection Hsave as <- <- ..].
  destruct (write_file _ _) as [r2 f2]. by injection Hsave as <- <-.
Qed.

Lemma start_listening `{MR : MapRange} e rt :
  idle rt → held (rt_v2ray rt) = false →
  ∃ r rt', try (Start e) (match waitForListen e with Ok _ => set_v2ray_ports;; mret (Ok tt) | _ => Stop;; mret (Err "proxy started but not listening") end) rt
    = (Returned r, rt') ∧ rt_rules rt' = rt_rules rt ∧
    match r with
    | Ok _ => serves (sv_listenAddr (proxy (rt_server rt))) (rt_server rt') ∧ existsb Datatypes.id (e_dials e) = true ∧
        rt_v2rayPort rt' = CorePort (store (rt_v2ray rt)) ∧ rt_v2rayHTTPPort rt' = rt_v2rayPort rt' + 1 ∧ kept rt rt'
    | _ => sv_running (proxy (rt_server rt')) = false
    end.
Proof.
  intros [[Hk Hp] Hr] Hh. destruct (start_alone_spec e (rt_server rt) Hk Hr Hp) as (r & s' & Hs & Hspec).
  unfold try, Start, Stop, on_server, mbind, M_bind. rewrite Hs. cbv beta iota.
  destruct r as [[] | msg |]; [| eexists _, _; (split; [done |]); (split; [done |]); apply Hspec..].
  destruct Hspec as ((Hrun & Ha & Hserve) & Hm & Hf & Hp'). unfold waitForListen. destruct (existsb _ (e_dials e)) eqn:Hd.
  - unfold set_v2ray_ports, mbind, M_bind, GetCorePort, modify. erewrite v2ray_op_free; [| by apply v2_locking_free]. cbv beta iota.
    eexists _, _. split; [done |]. by repeat split.
  - destruct (stop_alone_spec s' Hf Hrun Hp') as (s2 & Hstop & Hr2 & _). change (rt_server (rt {{ rt_server := s' }})) with s'. rewrite Hstop. cbv beta iota.
    eexists _, _. split; [done |]. by split.
Qed.

(** The rest of [startProxy], once it has a port. *)
Definition start_at `{MR : MapRange} (e : runtime_env) (originalPort availablePort : Z) : M (outcome unit) :=
  try (if availablePort =? originalPort then mret (Ok tt) else setListenPort e availablePort)
    (try (Start e) (match waitForListen e with Ok _ => set_v2ray_ports;; mret (Ok tt) | _ => Stop;; mret (Err "proxy started but not listening") end)).

Lemma startProxy_eq `{MR : MapRange} e rt :
  sv_mu_stuck (proxy (rt_server rt)) = false → startProxy e rt = (ensure_port e (original_port rt) ≫= start_at e (original_port rt)) rt.
Proof. intros H. unfold startProxy, getListenPort, GetListenAddr, mbind, M_bind. by rewrite read_server_free. Qed.

Lemma startProxy_spec `{MR : MapRange} e rt :
  idle rt → held (rt_v2ray rt) = false →
  (∃ rt', startProxy e rt = (Ended, rt')) ∨
  ∃ r rt', startProxy e rt = (Returned r, rt') ∧
    match r with
    | Ok _ => serves (sv_listenAddr (proxy (rt_server rt'))) (rt_server rt') ∧ existsb Datatypes.id (e_dials e) = true ∧
        rt_v2rayPort rt' = CorePort (store (rt_v2ray rt)) ∧ rt_v2rayHTTPPort rt' = rt_v2rayPort rt' + 1 ∧ kept rt rt' ∧
        (sv_listenAddr (proxy (rt_server rt')) = sv_listenAddr (proxy (rt_server rt)) ∨
         ∃ host port, original_port rt < port < original_port rt + 10 ∧ sv_listenAddr (proxy (rt_server rt')) = host +:+ ":" +:+ Itoa port ∧
           listenPort (Rules.settings (rt_rules rt')) = Itoa port)
    | _ => sv_running (proxy (rt_server rt')) = false
    end.
Proof.
  intros Hi Hh. rewrite startProxy_eq by apply Hi. unfold mbind, M_bind.
  destruct (ensure_port_range e (original_port rt) rt) as [[rt' ->] | (p & -> & Hp)]; [left; by eexists | right]. cbv beta iota.
  set (rt1 := rt {{ rt_names := _ }}). unfold start_at, try at 1, mbind at 1, M_bind at 1. destruct (Z.eqb_spec p (original_port rt)) as [-> | Hne].
  - destruct (start_listening e rt1 Hi Hh) as (r & rt' & Hrt & _ & Hr). exists r, rt'. split; [exact Hrt |].
    destruct r; [| done..]. destruct Hr as (Hs & Hd & Hv & Hv' & Hkept). pose proof Hs as (_ & Ha & _). rewrite Ha. split_and!; try done. by left.
  - destruct (setListenPort_idle e p rt1 Hi) as (r & rt2 & -> & Hi2 & Hk2 & Hok). cbv beta iota.
    destruct r as [[] | msg |]; [| eexists _, rt2; split; [done |]; apply Hi2..].
    destruct (start_listening e rt2 Hi2) as (r & rt' & Hrt & Hrules & Hr); [by rewrite (proj2 (proj2 (proj2 (proj2 Hk2)))) |]. exists r, rt'. split; [exact Hrt |].
    destruct r; [| done..]. destruct Hr as (Hs & Hd & Hv & Hv' & Hkept). destruct (Hok eq_refl) as [Hport [host Haddr]]. destruct Hs as (Hrun & Ha & Hserve).
    rewrite Ha. destruct Hkept as (Km & Kr & Kd & Kl & Kv), Hk2 as (Km2 & Kr2 & Kd2 & Kl2 & Kv2).
    split; [by repeat split |]. split; [done |]. split; [by rewrite Hv, Kv2 |]. split; [done |]. split; [split_and!; by etrans |]. right. exists host, p. rewrite Hrules. split; [lia | done].
Qed.

(** C33: what starting the proxy comes to, when it does not run: the server serves its
    address, a dial to it succeeded, the port is the one asked for or one of the nine
    after it, then stored, and the V2Ray ports are set; or an error is returned and the
    server does not run; or the process was ended. *)
Theorem startProxy_serves `{MR : MapRange} e rt :
  idle rt → held (rt_v2ray rt) = false →
  (∃ rt', startProxy e rt = (Ended, rt')) ∨
  ∃ r rt', startProxy e rt = (Returned r, rt') ∧
    match r with
    | Ok _ => serves (sv_listenAddr (proxy (rt_server rt'))) (rt_server rt') ∧ existsb Datatypes.id (e_dials e) = true ∧
        rt_v2rayPort rt' = CorePort (store (rt_v2ray rt)) ∧ rt_v2rayHTTPPort rt' = rt_v2rayPort rt' + 1 ∧
        (sv_listenAddr (proxy (rt_server rt')) = sv_listenAddr (proxy (rt_server rt)) ∨
         ∃ host port, original_port rt < port < original_port rt + 10 ∧ sv_listenAddr (proxy (rt_server rt')) = host +:+ ":" +:+ Itoa port ∧
           listenPort (Rules.settings (rt_rules rt')) = Itoa port)
    | _ => sv_running (proxy (rt_server rt')) = false
    end.
Proof.
  intros Hi Hh. destruct (startProxy_spec e rt Hi Hh) as [H | (r & rt' & H & Hr)]; [by left | right]. exists r, rt'. split; [done |].
  destruct r; [| done..]. destruct Hr as (? & ? & ? & ? & _ & ?). by split_and!.
Qed.

(** A call that finds the port held by the process itself, as every call does while
    the proxy runs, ends the process. *)
Theorem start_ends_itself `{MR : MapRange} e rt pid st st' name :
  sv_mu_stuck (proxy (rt_server rt)) = false →
  FindProcessByPort (e_ports e (original_port rt)) (original_port rt) (rt_names rt) = (Ok pid, st) → pid ≠ 0 → e_own e pid = true →
  GetProcessNameByPID (e_ports e (original_port rt)) pid st = (Ok name, st') → is_self selfNames name = true →
  pid ∈ (KillProcessByPID (e_ports e (original_port rt)) pid).1 →
  startProxy e rt = (Ended, rt).
Proof.
  intros Hk Hf Hp Ho Hn Hs Hkill. rewrite startProxy_eq by done. unfold mbind, M_bind, ensure_port, EnsurePortAvailable.
  change maxAttempts with (S 9). rewrite ensure_from_S. unfold try_port. rewrite Hf. destruct (Z.eqb_spec pid 0); [done |]. rewrite Hn, Hs. cbv beta iota zeta.
  destruct (KillProcessByPID _ pid) as [ended ok]. cbn [fst] in Hkill.
  assert (He : ∀ ok, ends_own e (Kill pid ended ok) = true) by (intros ?; apply existsb_exists; exists pid; split; [by apply list_elem_of_In | done]).
  destruct ok; [| destruct (ensure_from 9 (e_ports e) selfNames (original_port rt + 1) st') as [[evs' r'] st2]]; cbv beta iota zeta; cbn [app existsb]; rewrite He; [done | by destruct r'].
Qed.

(** * Configuration and status *)

Lemma set_listen_running addr p : sv_running p = true → set_listen_addr addr p = (Err "cannot change address while proxy is running", p).
Proof. intros H. unfold set_listen_addr. by rewrite H. Qed.

(** While the proxy runs the configuration cannot be reloaded, but half of it is: the
    new rules are served, by the same manager, without a router and with the address and
    the pool of before, and the caller gets an error. *)
Theorem reload_needs_stop `{MR : MapRange} e rt rm :
  sv_mu_stuck (proxy (rt_server rt)) = false → sv_running (proxy (rt_server rt)) = true →
  Rules.LoadConfig (e_windows e) (e_settings e) (e_rules e) (e_rules e) (rt_rules rt) = (Ok tt, rm) →
  ∃ rt', reloadConfig e rt = (Returned (Err "cannot change address while proxy is running"), rt') ∧
    rt_rules rt' = rm ∧ proxy (rt_server rt') = proxy (rt_server rt) ∧ rt_tunCalls rt' = rt_tunCalls rt.
Proof.
  intros Hk Hr Hl. unfold reloadConfig, try, rules_op, gets, mbind, M_bind. rewrite Hl. cbv beta iota.
  erewrite set_server_free; [| done | apply set_listen_running; exact Hr]. cbv beta iota. eexists. by split.
Qed.

(** The server is told the port of the stored configurations, the core listens on the one
    of the settings. *)
Lemma v2ray_ports_differ e s rt :
  held (rt_v2ray rt) = false → s_CorePort s ≠ 0 →
  ∃ rt', (v2ray_op (SaveSettings (e_v2ray e) s);; set_v2ray_ports) rt = (Returned tt, rt') ∧
    corePort (rt_v2ray rt') = s_CorePort s ∧ rt_v2rayPort rt' = CorePort (store (rt_v2ray rt)).
Proof.
  intros Hh Hs. unfold mbind, M_bind, SaveSettings. erewrite v2ray_op_free; [| apply v2_locking_free; [done | apply surjective_pairing]]. cbv beta iota.
  unfold saveSettingsToFile, set_v2ray_ports, mbind, M_bind, GetCorePort, modify. destruct (write_file _ _) as [r f]. cbv beta iota zeta.
  erewrite v2ray_op_free; [| by apply v2_locking_free]. cbv beta iota. eexists. split; [done |]. split; [| done].
  change ((if s_CorePort s =? 0 then corePort (rt_v2ray rt) else s_CorePort s) = s_CorePort s). by destruct (Z.eqb_spec (s_CorePort s) 0).
Qed.

(** Marking the core as running does not start it. *)
Lemma start_core_only_marks e rt :
  held (rt_v2ray rt) = false →
  ∃ rt', V2RayStartCore e rt = (Returned tt, rt') ∧ CoreRunning (store (rt_v2ray rt')) = true ∧ coreInstance (rt_v2ray rt') = coreInstance (rt_v2ray rt).
Proof.
  intros Hh. unfold V2RayStartCore, mbind, M_bind, SetCoreRunning, SetCoreActive, set_core_running, save, v2ray_op, locking. rewrite Hh.
  destruct (write_file _ _) as [r f]. cbv beta iota zeta.
  match goal with |- context [held ?m] => change (held m) with (held (rt_v2ray rt)) end. rewrite Hh. cbv beta iota zeta. cbn [snd].
  destruct (write_file _ _) as [r2 f2]. eexists. by split.
Qed.

(** ** The TUN device *)

(** While a start is under way the status says so, unless the device has something to
    say; when it failed the status tells why. *)
Lemma tun_status_starting e rt :
  ts_Running (e_tun_status e) = false → TrimSpace (ts_Message (e_tun_status e)) = "" →
  ts_Message (tun_status e (set_tun_state true (Ok tt) rt)) = "TUN startup in progress".
Proof.
  intros Hr Hm. unfold tun_status. rewrite Hr. change (rt_tunStarting (set_tun_state true (Ok tt) rt)) with true. cbv iota.
  change (starting_message (ts_Message (e_tun_status e)) = "TUN startup in progress"). unfold starting_message. by rewrite Hm.
Qed.

Lemma tun_status_failed e rt msg :
  ts_Running (e_tun_status e) = false → nonempty (TrimSpace msg) = true →
  ts_Message (tun_status e (set_tun_state false (Err msg) rt)) = TrimSpace msg.
Proof.
  intros Hr Hm. unfold tun_status. rewrite Hr. change (rt_tunStarting (set_tun_state false (Err msg) rt)) with false. cbv iota.
  change (rt_tunStartErr (set_tun_state false (Err msg) rt)) with (TrimSpace msg). rewrite (TrimSpace_idemp msg), Hm. done.
Qed.

(** The flag does not count: of two starts under way, the end of one makes the status
    that of a core where the other never began. *)
Lemma overlapping_starts e rt err1 :
  tun_status e (set_tun_state false err1 (set_tun_state true (Ok tt) (set_tun_state true (Ok tt) rt))) = tun_status e (set_tun_state false err1 rt).
Proof. reflexivity. Qed.

(** * A core *)

(** Nobody holds a port, every file can be written. *)
Definition free_env : runtime_env :=
  mkEnv false true (λ _, mkPmEnv false 0 ∅ (λ _, true) false None (λ _, true) ∅ (λ _, ([], false))) (λ _, false) (true, true) [false; true]
    Written Written Written Written (Err "no cache") 0 (good_env 1, good_env 2) (Ok tt) (Ok tt) (mkTUNStatus true false false "" "").

(** On Windows, with the core as the process 42 that listens on 8080. *)
Definition own_env : runtime_env :=
  mkEnv true true
    (λ _, mkPmEnv true 0 {[42 := "NovaProxy.exe"]} (λ _, true) true (Some [mkRow 2 16777343 (stored_port 0 8080) 0 0 42]) (λ _, false) ∅ (λ pid, ([pid], true)))
    (λ pid, pid =? 42) (true, true) [true]
    Written Written Written Written (Err "no cache") 0 (good_env 1, good_env 2) (Ok tt) (Ok tt) (mkTUNStatus true false false "" "").

Definition demo_core : coreRuntime := new_runtime free_env Rules.demo_rm (NewV2RayManager Absent Absent) ∅.

Definition running_core : coreRuntime := snd (startProxy free_env demo_core).

Lemma demo_idle : idle demo_core.
Proof. split; [split; [by vm_compute | intros pool [= <-]; by vm_compute] | by vm_compute]. Qed.

Lemma events_delivered_witness :
  ∃ k, fst (popRouteEvents (foldl emit demo_core [mkRouteEvent "a.example" "mitm"; mkRouteEvent "b.example" "direct"])) =
         Returned (drop k [mkRouteEvent "a.example" "mitm"; mkRouteEvent "b.example" "direct"]) ∧ k = 0%nat.
Proof.
  destruct (events_delivered [mkRouteEvent "a.example" "mitm"; mkRouteEvent "b.example" "direct"] demo_core eq_refl) as (k & H & _ & H0 & _).
  exists k. split; [exact H | apply H0; cbn; lia].
Defined.

Lemma restart_forgets_witness :
  ∃ rt' rt2, try (setListenAddr free_env "0.0.0.0:9090") (switchMode free_env " GAS") demo_core = (Returned (Ok tt), rt') ∧
    newCoreRuntime free_env demo_join "certs" (Rules.settingsFile (rt_rules rt')) (Rules.rulesFile (rt_rules rt')) (storeFile (rt_v2ray rt'))
      (V2RayManager.settingsFile (rt_v2ray rt')) (rt_disk rt') = Ok (Returned tt, rt2) ∧
    sv_listenAddr (proxy (rt_server rt2)) = "127.0.0.1:9090" ∧ sv_mode (proxy (rt_server rt2)) = "mitm" ∧ getCurrentMode rt2 = (Returned "gas", rt2).
Proof.
  assert (Hm : norm " GAS" ∈ ["rule"; "gas"; "v2ray"]) by (apply list_elem_of_In; vm_compute; auto).
  assert (Hf : free_runtime demo_core) by (split; by vm_compute).
  destruct (restart_forgets free_env demo_join "certs" " GAS" "0.0.0.0:9090" "0.0.0.0" "9090" demo_core ltac:(by repeat split) Hf ltac:(by vm_compute) ltac:(by vm_compute) ltac:(by vm_compute) Hm)
    as (rt' & rt2 & H1 & _ & _ & _ & H2 & H3 & H4 & H5).
  exists rt', rt2. split; [exact H1 |]. split; [exact H2 |]. split; [exact H3 |]. split; [exact H4 | exact H5].
Defined.

Lemma startProxy_serves_witness :
  fst (startProxy free_env demo_core) = Returned (Ok tt) ∧
  ((∃ rt', startProxy free_env demo_core = (Ended, rt')) ∨
   ∃ r rt', startProxy free_env demo_core = (Returned r, rt') ∧
     match r with Ok _ => serves (sv_listenAddr (proxy (rt_server rt'))) (rt_server rt') | _ => sv_running (proxy (rt_server rt')) = false end).
Proof.
  split; [by vm_compute |]. destruct (startProxy_serves free_env demo_core demo_idle eq_refl) as [H | (r & rt' & H & Hr)]; [by left | right].
  exists r, rt'. split; [exact H |]. destruct r; [exact (proj1 Hr) | exact Hr..].
Defined.

Lemma start_ends_itself_witness : startProxy own_env running_core = (Ended, running_core).
Proof.
  refine (start_ends_itself own_env running_core 42 (mkPmState ∅ 0) (mkPmState {[42 := "novaproxy.exe"]} 0) "novaproxy.exe" _ _ _ _ _ _ _); vm_compute; first [done | left].
Defined.

Lemma reload_needs_stop_witness :
  sv_running (proxy (rt_server running_core)) = true ∧
  ∃ rt', reloadConfig free_env running_core = (Returned (Err "cannot change address while proxy is running"), rt') ∧
    proxy (rt_server rt') = proxy (rt_server running_core).
Proof.
  split; [by vm_compute |].
  destruct (Rules.LoadConfig (e_windows free_env) (e_settings free_env) (e_rules free_env) (e_rules free_env) (rt_rules running_core)) as [r rm] eqn:Hl.
  assert (Hr : r = Ok tt) by (change r with (fst (r, rm)); rewrite <- Hl; by vm_compute). subst r.
  destruct (reload_needs_stop free_env running_core rm ltac:(by vm_compute) ltac:(by vm_compute) Hl) as (rt' & H & _ & Hp & _).
  exists rt'. split; [exact H | exact Hp].
Defined.
