(* ===== verification/CoreService.v ===== *)
(** [core_api.go]: the remote calls of the core process and the loop that accepts them.

    A call runs without interleaving, except that stopping the TUN device is answered
    before it is done.  What the log buffer, which is not in the repository, is told is
    recorded; what it answers is an argument.  Of the log only the lines are kept that the
    service itself writes. *)

From coqutil Require Import Datatypes.RecordSetters.
From S2P Require Import Prelude GoStrings GoText Types CFPool GasCache GasHTTP Settings Rules V2RayConfig V2RayCore V2RayManager Server CertManager PortManager CoreRuntime.
Import DoubleBraceUpdate.

Open Scope Z_scope.

(** * Requests and replies *)

Inductive request :=
  | Ping | GetInfo | ReloadConfig | ReloadCertificate | Shutdown
  | StartProxy | StopProxy | IsProxyRunning | GetStats
  | StartTUN | StopTUN | GetTUNStatus
  | StartLogCapture | StopLogCapture | IsLogCaptureEnabled | GetRecentLogs (limit : Z) | ClearLogs
  | GetRouteEvents
  | SetProxyMode (mode : string) | GetProxyMode
  | SetGASDialAddr (addr : string) | SetGASRelay (enabled : bool) (made : nat)
  | V2RayGetConfigs | V2RayAddConfig (link : string) | V2RayDeleteConfig (id : string) | V2RaySelectConfig (id : string)
  | V2RayClearConfigs | V2RayGetSelectedConfig
  | V2RayStartCore | V2RayStopCore | V2RayCoreStatus
  | V2RayGetSettings | V2RaySaveSettings (s : V2RaySettings).

Inductive reply :=
  | Empty
  | BoolReply (value : bool)
  | StringReply (value : string)
  | StatsReply (down up etc : Z)
  | CoreInfoReply (pid : Z) (executable : string) (elevated : bool)
  | TUNStatusReply (status : TUNStatus)
  | RouteEventsReply (events : list RouteEvent)
  | V2RayGetConfigsReply (configs : list V2RayConfig)
  | V2RayAddConfigReply (config : option V2RayConfig) (error : string)
  | V2RayCoreStatusReply (running active : bool) (port : Z)
  | V2RaySettingsReply (settings : V2RaySettings).

(** * The log *)

Inductive log_op := LogWrite (line : string) | LogClear.

Record core_service := mkCore { runtime : coreRuntime; logBuffer : list log_op }.

Definition newline : string := String LF EmptyString.

(** [stamp]: the date and the time, as formatted. *)
Definition appendLog (stamp message : string) (log : list log_op) : list log_op :=
  let trimmed := TrimSpace message in
  if negb (nonempty trimmed) then log
  else log ++ [LogWrite (stamp +:+ " " +:+ trimmed +:+ (if HasSuffix trimmed newline then "" else newline))].

Definition recentLogs (snapshot : list log_op → Z → list string) (limit : Z) (log : list log_op) : string := Join (snapshot log limit) newline.

Definition clearLogs (stamp : string) (log : list log_op) : list log_op := appendLog stamp "[core] logs cleared" (log ++ [LogClear]).

(** * One call *)

(** What the world answers during a call. *)
Record service_env := mkServiceEnv {
  v_run : runtime_env;
  v_pid : Z;
  v_exec : string;
  v_stats : Z * Z * Z;                               (** the counters of the server, [ProcMon] *)
  v_stamp : string;
  v_snapshot : list log_op → Z → list string;
  v_now : nat → Z;
  v_Unmarshal : string → option jobject;
  v_fmt_v : jvalue → string;
}.

Definition Svc (A : Type) : Type := core_service → call_result A * core_service.

#[export] Instance Svc_ret : MRet Svc := λ A a s, (Returned a, s).

#[export] Instance Svc_bind : MBind Svc := λ A B f m s,
  match m s with
  | (Returned a, s) => f a s
  | (Waits, s) => (Waits, s)
  | (Ended, s) => (Ended, s)
  end.

Definition lift {A} (m : M A) : Svc A := λ s, let '(r, rt) := m (runtime s) in (r, s {{ runtime := rt }}).

Definition log (f : list log_op → list log_op) : Svc unit := λ s, (Returned tt, s {{ logBuffer ::= f }}).

(** A call that answers only its error, and one that only answers. *)
Definition bare (m : M (outcome unit)) : Svc (outcome reply) :=
  r ← lift m; mret match r with Ok _ => Ok Empty | Err msg => Err msg | Panic => Panic end.

Definition answer {A} (f : A → reply) (m : M A) : Svc (outcome reply) := a ← lift m; mret (Ok (f a)).

Definition IsCoreActive : V2RayManager.V2RayManager → option bool * V2RayManager.V2RayManager := locking (λ m, (CoreActive (store m), m)).

Section service.
Context `{MR : MapRange} (join : string → string → string) (certPath : string) (v : service_env).

Definition add_config (link : string) : M (outcome V2RayConfig) :=
  v2ray_op (AddConfig (v_Unmarshal v) (v_fmt_v v) (e_store (v_run v)) (v_now v) link).

Definition core_status : M (bool * bool * Z) :=
  running ← v2ray_op IsCoreRunning; active ← v2ray_op IsCoreActive; port ← v2ray_op GetCorePort; mret (running, active, port).

(** The methods of [coreService]; [Shutdown] and the delayed half of [StopTUN] are the
    loop's. *)
Definition serve (q : request) : Svc (outcome reply) :=
  let e := v_run v in
  match q with
  | Ping => mret (Ok (BoolReply true))
  | GetInfo => mret (Ok (CoreInfoReply (v_pid v) (v_exec v) (e_elevated e)))
  | ReloadConfig => bare (reloadConfig e)
  | ReloadCertificate => bare (reloadCertificate e join certPath)
  | Shutdown => mret (Ok Empty)
  | StartProxy => bare (startProxy e)
  | StopProxy => bare stopProxy
  | IsProxyRunning => answer BoolReply CoreRuntime.IsRunning
  | GetStats => let '(down, up, etc) := v_stats v in mret (Ok (StatsReply down up etc))
  | StartTUN =>
      r ← lift (CoreRuntime.StartTUN e);
      match r with
      | Err msg => log (appendLog (v_stamp v) ("[core] StartTUN failed: " +:+ msg));; mret (Err msg)
      | _ => mret (Ok Empty)
      end
  | StopTUN => mret (Ok Empty)
  | GetTUNStatus => answer TUNStatusReply (getTUNStatus e)
  | StartLogCapture =>
      lift startLogCapture;; log (λ l, appendLog (v_stamp v) "[core] log capture started" (l ++ [LogClear]));; mret (Ok Empty)
  | StopLogCapture => log (appendLog (v_stamp v) "[core] log capture stopping");; lift stopLogCapture;; mret (Ok Empty)
  | IsLogCaptureEnabled => answer BoolReply (gets rt_logCapture)
  | GetRecentLogs limit => λ s, (Returned (Ok (StringReply (recentLogs (v_snapshot v) limit (logBuffer s)))), s)
  | ClearLogs => log (clearLogs (v_stamp v));; mret (Ok Empty)
  | GetRouteEvents => answer RouteEventsReply popRouteEvents
  | SetProxyMode mode => bare (CoreRuntime.SetProxyMode e mode)
  | GetProxyMode => answer StringReply getCurrentMode
  | SetGASDialAddr addr => answer (λ _, Empty) (CoreRuntime.SetGASDialAddr addr)
  | SetGASRelay enabled made => answer (λ _, Empty) (CoreRuntime.SetGASRelay enabled made)
  | V2RayGetConfigs => answer V2RayGetConfigsReply (v2ray_op GetConfigs)
  | V2RayAddConfig link =>
      r ← lift (add_config link);
      mret match r with
           | Ok cfg => Ok (V2RayAddConfigReply (Some cfg) "")
           | Err msg => Ok (V2RayAddConfigReply None msg)
           | Panic => Panic
           end
  | V2RayDeleteConfig id => bare (v2ray_op (DeleteConfig (e_store e) id))
  | V2RaySelectConfig id => bare (v2ray_op (SelectConfig (e_store e) id))
  | V2RayClearConfigs => bare (v2ray_op (ClearConfigs (e_store e)))
  | V2RayGetSelectedConfig => answer (λ cfg, V2RayAddConfigReply cfg "") (v2ray_op GetSelectedConfig)
  | V2RayStartCore => answer (λ _, Empty) (CoreRuntime.V2RayStartCore e)
  | V2RayStopCore => answer (λ _, Empty) (CoreRuntime.V2RayStopCore e)
  | V2RayCoreStatus => answer (λ '(running, active, port), V2RayCoreStatusReply running active port) core_status
  | V2RayGetSettings => answer V2RaySettingsReply (v2ray_op GetSettings)
  | V2RaySaveSettings s => bare (v2ray_op (SaveSettings (e_v2ray e) s))
  end.
End service.

(** * The core process *)

(** The process while it serves, while its [shutdown] waits for ever, and after it has
    returned, was ended by a call or crashed. *)
Inductive fate := Serving | ShuttingDown | Returned_ | Killed | Crashed.

#[export] Instance fate_eq_dec : EqDecision fate.
Proof. solve_decision. Defined.

Record core_main := mkMain {
  service : core_service;
  listening : bool;
  conns : gset nat;
  next_conn : nat;
  stops : nat;                                       (** goroutines of [StopTUN] that have not run yet *)
  pending : gmap nat (nat * outcome reply);          (** calls that have returned, with their connections: [net/rpc] is yet to write the answers *)
  next_call : nat;
  m_fate : fate;
}.

Inductive event :=
  | Connects
  | AcceptFails (temporary : bool) (stamp msg : string)   (** when the listener is closed, because it is *)
  | Calls (conn : nat) (v : service_env) (q : request)
  | Replies (call : nat)                                  (** the answer of a call is written *)
  | StopRuns (v : service_env)
  | Disconnects (conn : nat).

(** Calls are served until the process is gone. *)
Definition alive (s : core_main) : bool := match m_fate s with Serving | ShuttingDown => true | _ => false end.

(** What a call does to the loop before it returns: the listener is closed, once, or a stop
    is due. *)
Definition loop_effect (q : request) (s : core_main) : core_main :=
  match q with
  | Shutdown => s {{ listening := false }}
  | StopTUN => s {{ stops ::= S }}
  | _ => s
  end.

(** The method has returned to [net/rpc]. *)
Definition returned (conn : nat) (r : outcome reply) (s : core_main) : core_main :=
  s {{ pending ::= insert (next_call s) (conn, r); next_call ::= S }}.

Definition with_service (f : core_service → core_service) (s : core_main) : core_main := s {{ service ::= f }}.

(** The deferred [shutdown] when the loop has left. *)
Definition leave (stamp : string) (s : core_main) : core_main :=
  let '(r, rt) := CoreRuntime.shutdown (runtime (service s)) in
  let s := with_service (λ c, c {{ runtime := rt }}) s in
  match r with
  | Returned _ => (with_service (λ c, c {{ logBuffer ::= appendLog stamp "[core] runtime stopped" }}) s) {{ m_fate := Returned_ }}
  | _ => s {{ m_fate := ShuttingDown }}
  end.

Section main.
Context `{MR : MapRange} (join : string → string → string) (certPath : string).

(** A call.  The methods run in goroutines of their own, out of reach of the recover around
    the connection. *)
Definition serve_call (conn : nat) (v : service_env) (q : request) (s : core_main) : core_main :=
  match serve join certPath v q (service s) with
  | (Returned Panic, c) => (with_service (λ _, c) s) {{ m_fate := Crashed }}
  | (Returned r, c) => returned conn r (loop_effect q (with_service (λ _, c) s))
  | (Waits, c) => with_service (λ _, c) s
  | (Ended, c) => (with_service (λ _, c) s) {{ m_fate := Killed }}
  end.

(** [go func() { stopTUN }]: an error is logged, a panic ends the process. *)
Definition run_stop (v : service_env) (s : core_main) : core_main :=
  let '(r, rt) := stopTUN (v_run v) (runtime (service s)) in
  let s := (with_service (λ c, c {{ runtime := rt }}) s) {{ stops ::= pred }} in
  match r with
  | Returned (Err msg) => with_service (λ c, c {{ logBuffer ::= appendLog (v_stamp v) ("[core] StopTUN failed: " +:+ msg) }}) s
  | Returned Panic => s {{ m_fate := Crashed }}
  | _ => s
  end.

(** [None]: the event cannot happen.  What a client reads is given with it: an answer that
    is written while its connection is open. *)
Definition handle (ev : event) (s : core_main) : option (option (outcome reply) * core_main) :=
  if negb (alive s) then None
  else
    match ev with
    | Connects => if listening s && bool_decide (m_fate s = Serving) then Some (None, s {{ conns ::= union {[next_conn s]}; next_conn ::= S }}) else None
    | AcceptFails temporary stamp msg =>
        if negb (bool_decide (m_fate s = Serving)) then None
        else if listening s then Some (None, with_service (λ c, c {{ logBuffer ::= appendLog stamp ((if temporary then "[core] rpc accept temporary error: " else "[core] rpc accept error: ") +:+ msg) }}) s)
        else Some (None, leave stamp s)
    | Calls conn v q => if bool_decide (conn ∈ conns s) then Some (None, serve_call conn v q s) else None
    | Replies call =>
        match pending s !! call with
        | Some (conn, r) => Some (if bool_decide (conn ∈ conns s) then Some r else None, s {{ pending ::= delete call }})
        | None => None
        end
    | StopRuns v => if (0 <? stops s)%nat then Some (None, run_stop v s) else None
    | Disconnects conn => if bool_decide (conn ∈ conns s) then Some (None, s {{ conns ::= λ cs, cs ∖ {[conn]} }}) else None
    end.

(** A run with the answers that clients read. *)
Fixpoint run (evs : list event) (s : core_main) : option (list (outcome reply) * core_main) :=
  match evs with
  | [] => Some ([], s)
  | ev :: evs =>
      match handle ev s with
      | None => None
      | Some (r, s) =>
          match run evs s with
          | None => None
          | Some (rs, s) => Some (match r with Some r => r :: rs | None => rs end, s)
          end
      end
  end.

(** [runCoreMain] with a runtime that was made. *)
Definition runCoreMain (stamp : string) (pid : string) (listens : outcome unit) (rt : coreRuntime) : core_main :=
  let c := mkCore rt (appendLog stamp ("[core] starting pid=" +:+ pid) []) in
  let s := mkMain c false ∅ 0 0 ∅ 0 Serving in
  match listens with
  | Ok _ => (with_service (λ c, c {{ logBuffer ::= appendLog stamp "[core] listening on 127.0.0.1:18933" }}) s) {{ listening := true }}
  | Err msg => leave stamp (with_service (λ c, c {{ logBuffer ::= appendLog stamp ("[core] listen failed: " +:+ msg) }}) s)
  | Panic => s {{ m_fate := Crashed }}
  end.
End main.

(** * The life of the core *)

(** [Stop] returns exactly when the server's mutex is free and, under a running proxy, the
    pool's is. *)
Lemma stop_cases sy :
  threads sy !! fresh sy = None →
  let p := proxy sy in
  (sv_mu_stuck p = false ∧ (sv_running p = true → pool_free p) →
     ∃ sy', stop_alone sy = (Returned (Ok tt), sy') ∧ sv_running (proxy sy') = false) ∧
  (¬ (sv_mu_stuck p = false ∧ (sv_running p = true → pool_free p)) → fst (stop_alone sy) = Waits).
Proof.
  intros Hn. cbv zeta. split.
  - intros [Hf Hp]. destruct (sv_running (proxy sy)) eqn:Hr.
    + destruct (stop_alone_spec sy Hf Hr (Hp eq_refl)) as (sy' & H & Hr' & _). by exists sy'.
    + exists sy. split; [|done]. unfold stop_alone. cbn [exec]. unfold Stop_begin, critical. rewrite Hf, Hr. cbn [negb].
      rewrite bool_decide_true by exact Hn. by rewrite ?Hf.
  - intros H. unfold stop_alone. cbn [exec]. unfold Stop_begin, critical. destruct (sv_mu_stuck (proxy sy)) eqn:Hf; [done|].
    destruct (sv_running (proxy sy)) eqn:Hr; [|by destruct H]. cbn [negb].
    unfold with_pool. destruct (sv_cfPool (proxy sy)) as [pool|] eqn:Hpool.
    2: { destruct H. split; [done|]. intros _ pool. by rewrite Hpool. }
    change (sv_cfPool ((proxy sy) {{ sv_running := false }})) with (sv_cfPool (proxy sy)). rewrite Hpool. unfold CFPool.Stop, locked.
    destruct (mu_held pool) eqn:Hm.
    + cbn [fmap option_fmap option_map]. rewrite bool_decide_true by exact Hn. done.
    + destruct H. split; [done|]. intros _ pool' Hp'. rewrite Hpool in Hp'. by injection Hp' as <-.
Qed.

Lemma on_server_tun f rt r rt' : on_server f rt = (r, rt') → rt_tunCalls rt' = rt_tunCalls rt.
Proof. unfold on_server. destruct (f _) as [a s]. by intros [= _ <-]. Qed.

Lemma shutdown_stops_tun rt r rt' : CoreRuntime.shutdown rt = (r, rt') → list.last (rt_tunCalls rt') = Some TunStop.
Proof.
  unfold CoreRuntime.shutdown, tell_tun, modify, mbind, M_bind, mret, M_ret.
  destruct (Stop _) as [[a| |] rt1] eqn:E; intros [= _ <-]; apply on_server_tun in E; rewrite E; apply last_snoc.
Qed.

Section main_lemmas.
Context `{MR : MapRange} (join : string → string → string) (certPath : string).

Notation handles := (handle join certPath).
Notation runs := (run join certPath).

Definition is_shutdown (ev : event) : bool := match ev with Calls _ _ Shutdown => true | _ => false end.

Lemma leave_listening stamp s : listening (leave stamp s) = listening s.
Proof. unfold leave. by destruct (CoreRuntime.shutdown _) as [[] rt]. Qed.

Lemma run_stop_listening v s : listening (run_stop v s) = listening s.
Proof. unfold run_stop. by destruct (stopTUN _ _) as [[[]| |] rt]. Qed.

Lemma serve_call_listening c v q s : listening (serve_call join certPath c v q s) = listening s && negb (match q with Shutdown => true | _ => false end).
Proof.
  unfold serve_call. destruct q; cbn [negb]; rewrite ?andb_true_r, ?andb_false_r;
    first [by destruct (serve _ _ _ _ _) as [[[]| |] ?] | done].
Qed.

Lemma handle_listening ev s r s' : handles ev s = Some (r, s') → listening s' = listening s && negb (is_shutdown ev).
Proof.
  unfold handle. destruct (negb (alive s)); [done|].
  destruct ev as [|temporary stamp msg|c v q|call|v|c]; cbn [is_shutdown negb]; rewrite ?andb_true_r.
  - destruct (_ && _); [|done]. by intros [= _ <-].
  - destruct (negb _); [done|]. destruct (listening s) eqn:Hl; intros [= _ <-]; [exact Hl|by rewrite leave_listening].
  - destruct (bool_decide _); [|done]. intros [= _ <-]. apply serve_call_listening.
  - destruct (pending s !! call) as [[c r0]|]; [|done]. by intros [= _ <-].
  - destruct (0 <? _)%nat; [|done]. intros [= _ <-]. apply run_stop_listening.
  - destruct (bool_decide _); [|done]. by intros [= _ <-].
Qed.

Lemma run_cons ev evs s rs s' :
  runs (ev :: evs) s = Some (rs, s') → ∃ r s1 rs1, handles ev s = Some (r, s1) ∧ runs evs s1 = Some (rs1, s').
Proof. cbn. destruct (handles ev s) as [[r s1]|]; [|done]. destruct (runs evs s1) as [[rs1 s2]|] eqn:E; [|done]. intros [= _ <-]. by exists r, s1, rs1. Qed.

Lemma run_listening evs s rs s' : runs evs s = Some (rs, s') → listening s' = listening s && negb (existsb is_shutdown evs).
Proof.
  induction evs as [|ev evs IH] in s, rs |- *; [intros [= _ <-]; by rewrite andb_true_r|].
  intros (r & s1 & rs1 & Hh & Hr)%run_cons. rewrite (IH _ _ Hr), (handle_listening _ _ _ _ Hh). cbn [existsb]. by rewrite negb_orb, andb_assoc.
Qed.

Lemma serve_call_fate conn v q s :
  let s' := serve_call join certPath conn v q s in m_fate s' = m_fate s ∨ m_fate s' = Crashed ∨ m_fate s' = Killed.
Proof.
  unfold serve_call. destruct (serve _ _ _ _ _) as [[[]| |] c]; cbn; [left; by destruct q|left; by destruct q|by right; left|by left|by right; right].
Qed.

Lemma run_stop_fate v s : m_fate (run_stop v s) = m_fate s ∨ m_fate (run_stop v s) = Crashed.
Proof. unfold run_stop. destruct (stopTUN _ _) as [[[]| |] rt]; cbn; by (left + right). Qed.

(** How a step changes the fate: a process that has left its loop was told to shut down. *)
Lemma handle_fate ev s r s' :
  handles ev s = Some (r, s') →
  alive s = true ∧
  (m_fate s' = Returned_ → m_fate s = Serving ∧ listening s = false ∧ ∃ stamp, s' = leave stamp s) ∧
  (m_fate s = ShuttingDown → m_fate s' ≠ Returned_ ∧ m_fate s' ≠ Serving).
Proof.
  unfold handle. destruct (alive s) eqn:Ha; [|done]. cbn [negb].
  assert (Hn : m_fate s ≠ Returned_) by (unfold alive in Ha; by destruct (m_fate s)).
  destruct ev as [|temporary stamp msg|c v q|call|v|c].
  - destruct (_ && _); [|done]. intros [= _ <-]. split_and!; [done..|]. intros H. change (m_fate s ≠ Returned_ ∧ m_fate s ≠ Serving). rewrite H. by split.
  - destruct (bool_decide (m_fate s = Serving)) eqn:Hf; [|done]. apply bool_decide_eq_true in Hf. cbn [negb].
    destruct (listening s); intros [= _ <-]; (split; [done|]); (split; [|by rewrite Hf]).
    + intros H. change (m_fate s = Returned_) in H. by rewrite Hf in H.
    + intros _. split_and!; [done..|by exists stamp].
  - destruct (bool_decide _); [|done]. intros [= _ <-]. pose proof (serve_call_fate c v q s) as H. cbn in H.
    split; [done|]. destruct H as [-> | [-> | ->]]; (split; [done|]); intros Hf; rewrite ?Hf; by split.
  - destruct (pending s !! call) as [[c r0]|]; [|done]. intros [= _ <-]. split_and!; [done..|]. intros H. change (m_fate s ≠ Returned_ ∧ m_fate s ≠ Serving). rewrite H. by split.
  - destruct (0 <? _)%nat; [|done]. intros [= _ <-]. split; [done|]. destruct (run_stop_fate v s) as [-> | ->]; (split; [done|]); intros Hf; rewrite ?Hf; by split.
  - destruct (bool_decide _); [|done]. intros [= _ <-]. split_and!; [done..|]. intros H. change (m_fate s ≠ Returned_ ∧ m_fate s ≠ Serving). rewrite H. by split.
Qed.

Lemma run_gone evs s rs s' : alive s = false → runs evs s = Some (rs, s') → s' = s.
Proof. destruct evs as [|ev evs]; [by intros _ [= _ <-]|]. intros Ha (r & s1 & rs1 & Hh & _)%run_cons. unfold handle in Hh. by rewrite Ha in Hh. Qed.

Lemma run_fate evs s rs s' :
  runs evs s = Some (rs, s') → alive s = true →
  (m_fate s' = Returned_ → m_fate s = Serving ∧ listening s' = false ∧ ∃ stamp s0, s' = leave stamp s0) ∧
  (m_fate s = ShuttingDown → m_fate s' ≠ Returned_).
Proof.
  induction evs as [|ev evs IH] in s, rs |- *; [intros [= _ <-] Ha; unfold alive in Ha; by destruct (m_fate s)|].
  intros (r & s1 & rs1 & Hh & Hr)%run_cons _. destruct (handle_fate _ _ _ _ Hh) as (Ha & Hret & Hsd).
  destruct (alive s1) eqn:Ha1.
  - destruct (IH _ _ Hr Ha1) as [H1 H2]. split.
    + intros H. destruct (H1 H) as (Hs & Hl & Hx). split; [|done].
      destruct (m_fate s) eqn:Hf; unfold alive in Ha; rewrite Hf in Ha; try done. by destruct (Hsd eq_refl).
    + intros H. destruct (Hsd H) as [Hn Hn']. apply H2. revert Ha1 Hn Hn'. unfold alive. by destruct (m_fate s1).
  - rewrite (run_gone _ _ _ _ Ha1 Hr). split; [|intros H; exact (proj1 (Hsd H))].
    intros H. destruct (Hret H) as (Hs & Hl & stamp & ->). split; [done|]. split; [by rewrite leave_listening|]. by eexists _, _.
Qed.

(** C34: A core that was started and could listen ends in four ways only.  It returns: then it has
    been told to shut down, does not listen, and its last act was to stop the TUN device and
    the proxy.  It is killed by a call, or crashes in one.  Or it goes on: it listens as long
    as nobody has told it to shut down, whatever [Accept] answers.  A core whose shutting down
    hangs never returns. *)
Theorem core_main_ends stamp pid rt evs rs s :
  run join certPath evs (runCoreMain stamp pid (Ok tt) rt) = Some (rs, s) →
  listening s = negb (existsb is_shutdown evs) ∧
  (m_fate s = Returned_ →
     existsb is_shutdown evs = true ∧
     ∃ rt0, CoreRuntime.shutdown rt0 = (Returned tt, runtime (service s)) ∧ list.last (rt_tunCalls (runtime (service s))) = Some TunStop) ∧
  ∀ evs' rs' s', m_fate s = ShuttingDown → run join certPath evs' s = Some (rs', s') → m_fate s' ≠ Returned_.
Proof.
  intros Hr. assert (Hl := run_listening _ _ _ _ Hr). split; [exact Hl|]. split.
  - intros H. destruct (run_fate _ _ _ _ Hr eq_refl) as [H1 _]. destruct (H1 H) as (_ & Hls & stamp' & s0 & ->).
    change (listening (runCoreMain stamp pid (Ok tt) rt)) with true in Hl. rewrite Hls in Hl. split; [by destruct (existsb _ _)|].
    exists (runtime (service s0)). revert H. unfold leave.
    destruct (CoreRuntime.shutdown (runtime (service s0))) as [[[]| |] rt1] eqn:E; try done. intros _. split; [done|].
    change (list.last (rt_tunCalls rt1) = Some TunStop). by eapply shutdown_stops_tun.
  - intros evs' rs' s' Hf Hr'. apply (run_fate _ _ _ _ Hr'); [|done]. unfold alive. by rewrite Hf.
Qed.

(** The server can be stopped: its mutex is free, and the address pool's is while the proxy runs. *)
Definition stoppable (s : core_main) : Prop :=
  let p := proxy (rt_server (runtime (service s))) in sv_mu_stuck p = false ∧ (sv_running p = true → pool_free p).

Lemma leave_ends stamp s :
  threads (rt_server (runtime (service s))) !! fresh (rt_server (runtime (service s))) = None →
  (stoppable s → m_fate (leave stamp s) = Returned_ ∧ sv_running (proxy (rt_server (runtime (service (leave stamp s))))) = false) ∧
  (¬ stoppable s → m_fate (leave stamp s) = ShuttingDown).
Proof.
  intros Hn. unfold stoppable, leave, CoreRuntime.shutdown, tell_tun, modify, mbind, M_bind, mret, M_ret.
  destruct (service s) as [rt l]. cbn [runtime] in *.
  set (rt1 := rt {{ rt_tunCalls ::= λ cs, cs ++ [TunStop] }}). change (rt_server rt) with (rt_server rt1).
  destruct (stop_cases (rt_server rt1) Hn) as [Hyes Hno]. unfold Stop, on_server. split.
  - intros H. destruct (Hyes H) as (srv & -> & Hr). by split.
  - intros H. pose proof (Hno H) as Hw. by destruct (stop_alone (rt_server rt1)) as [[| |] srv].
Qed.

Lemma loop_effect_pending q s : pending (loop_effect q s) = pending s ∧ next_call (loop_effect q s) = next_call s.
Proof. by destruct q. Qed.

(** A step leaves the other answers due. *)
Lemma handle_pending ev s r s' call a :
  handles ev s = Some (r, s') → (call < next_call s)%nat → pending s !! call = Some a → ev ≠ Replies call →
  pending s' !! call = Some a ∧ (call < next_call s')%nat.
Proof.
  unfold handle. destruct (negb (alive s)); [done|]. intros Hh Hlt Hp Hne. destruct ev as [|temporary stamp msg|c v q|call'|v|c].
  - destruct (_ && _); [|done]. by injection Hh as _ <-.
  - destruct (negb _); [done|]. destruct (listening s); injection Hh as _ <-; [done|]. unfold leave. by destruct (CoreRuntime.shutdown _) as [[] rt].
  - destruct (bool_decide _); [|done]. injection Hh as _ <-. unfold serve_call. destruct (serve _ _ _ _ _) as [[[a0| |]| |] c0]; try done.
    all: unfold returned; destruct (loop_effect_pending q (with_service (λ _, c0) s)) as [Hp' Hn'];
      change (pending (with_service (λ _, c0) s)) with (pending s) in Hp'; change (next_call (with_service (λ _, c0) s)) with (next_call s) in Hn';
      set (s0 := loop_effect q (with_service (λ _, c0) s)) in *; split; [|change (call < S (next_call s0))%nat; lia];
      match goal with |- pending (s0 {{ pending ::= insert _ (?x, ?y); next_call ::= S }}) !! _ = _ => change (<[next_call s0 := (x, y)]> (pending s0) !! call = Some a) end;
      rewrite lookup_insert_ne by lia; congruence.
  - destruct (pending s !! call') as [[c r0]|]; [|done]. injection Hh as _ <-. cbn. split; [|done]. rewrite lookup_delete_ne by congruence. done.
  - destruct (0 <? _)%nat; [|done]. injection Hh as _ <-. unfold run_stop. by destruct (stopTUN _ _) as [[[]| |] rt].
  - destruct (bool_decide _); [|done]. by injection Hh as _ <-.
Qed.

Lemma run_pending evs s rs s' call a :
  runs evs s = Some (rs, s') → (call < next_call s)%nat → pending s !! call = Some a → Replies call ∉ evs → pending s' !! call = Some a.
Proof.
  induction evs as [|ev evs IH] in s, rs |- *; [by intros [= _ <-]|]. intros (r & s1 & rs1 & Hh & Hr)%run_cons Hlt Hp Hn.
  apply not_elem_of_cons in Hn as [Hn1 Hn2]. destruct (handle_pending _ _ _ _ _ _ Hh Hlt Hp) as [Hp1 Hlt1]; [congruence|]. by eapply IH.
Qed.

(** Nobody connects to a closed listener. *)
Lemma run_deaf evs s rs s' : runs evs s = Some (rs, s') → listening s = false → Connects ∉ evs.
Proof.
  induction evs as [|ev evs IH] in s, rs |- *; [intros _ _; apply not_elem_of_nil|]. intros (r & s1 & rs1 & Hh & Hr)%run_cons Hl.
  apply not_elem_of_cons. split.
  - intros <-. unfold handle in Hh. rewrite Hl in Hh. by destruct (negb _).
  - eapply IH; [exact Hr|]. by rewrite (handle_listening _ _ _ _ Hh), Hl.
Qed.

(** C35: A call of [Shutdown] closes the listener before its answer is written.  From then on, whatever
    happens: nobody connects.  While the loop has not left it can leave at any time; when the
    server can be stopped then, the process returns with the proxy stopped and nothing happens
    any more; when a failed dial has left the pool's mutex locked under a running proxy, or
    the server's is stuck, it never returns by itself.  The answer, no error, can be written
    as long as the process lives, and is lost when it was not before the process is gone; in
    particular when the loop leaves first.  (The thread number that the server takes for
    stopping has to be unused.) *)
Theorem shutdown_answered s conn v :
  m_fate s = Serving → conn ∈ conns s →
  ∃ s1, handle join certPath (Calls conn v Shutdown) s = Some (None, s1) ∧ m_fate s1 = Serving ∧
    ∀ evs rs s2, run join certPath evs s1 = Some (rs, s2) →
      listening s2 = false ∧ Connects ∉ evs ∧
      (m_fate s2 = Serving → threads (rt_server (runtime (service s2))) !! fresh (rt_server (runtime (service s2))) = None →
       ∀ temporary stamp msg, ∃ s3, handle join certPath (AcceptFails temporary stamp msg) s2 = Some (None, s3) ∧
         (stoppable s2 →
            m_fate s3 = Returned_ ∧ sv_running (proxy (rt_server (runtime (service s3)))) = false ∧ ∀ ev, handle join certPath ev s3 = None) ∧
         (¬ stoppable s2 → ∀ evs' rs' s4, run join certPath evs' s3 = Some (rs', s4) → m_fate s4 ≠ Returned_)) ∧
      (Replies (next_call s) ∉ evs → alive s2 = true → conn ∈ conns s2 →
       ∃ s3, handle join certPath (Replies (next_call s)) s2 = Some (Some (Ok Empty), s3)) ∧
      (alive s2 = false → ∀ ev, handle join certPath ev s2 = None).
Proof.
  intros Hf Hc. set (s1 := returned conn (Ok Empty) (s {{ listening := false }})).
  assert (H1 : handles (Calls conn v Shutdown) s = Some (None, s1)).
  { unfold handle, alive. rewrite Hf. cbn [negb]. rewrite bool_decide_true by done. unfold serve_call. cbn [serve mret Svc_ret loop_effect].
    by replace (with_service (λ _, service s) s) with s by (by destruct s). }
  assert (Hgone : ∀ s ev, alive s = false → handles ev s = None) by (intros s0 ev H; unfold handle; by rewrite H).
  exists s1. split; [exact H1|]. split; [exact Hf|]. intros evs rs s2 Hr.
  assert (Hl : listening s2 = false) by (by rewrite (run_listening _ _ _ _ Hr)).
  split; [exact Hl|]. split; [by eapply run_deaf|]. split; [|split].
  - intros Hs2 Hn temporary stamp msg. exists (leave stamp s2). destruct (leave_ends stamp s2 Hn) as [Hyes Hno]. split; [|split].
    + unfold handle, alive. by rewrite Hs2, Hl.
    + intros Hst. destruct (Hyes Hst) as [H2 H3]. split; [exact H2|]. split; [exact H3|]. intros ev. apply Hgone. unfold alive. by rewrite H2.
    + intros Hst evs' rs' s4 Hr'. apply (run_fate _ _ _ _ Hr'); [|by apply Hno]. unfold alive. by rewrite (Hno Hst).
  - intros Hnot Ha Hc2. assert (Hp : pending s2 !! next_call s = Some (conn, Ok Empty)).
    { eapply run_pending; [exact Hr | change (next_call s < S (next_call s))%nat; lia | | exact Hnot].
      change (<[next_call s := (conn, Ok Empty : outcome reply)]> (pending s) !! next_call s = Some (conn, Ok Empty)). by rewrite lookup_insert_eq. }
    unfold handle. rewrite Ha, Hp. cbn [negb]. rewrite bool_decide_true by done. by eexists.
  - intros Ha ev. by apply Hgone.
Qed.

(** ** The TUN device *)

Lemma startTUN_last e rt rt' :
  startTUN e rt = (Returned (Ok tt), rt') → ∃ calls cfg port, rt_tunCalls rt' = calls ++ [TunStart cfg port].
Proof.
  unfold startTUN, mbind, M_bind, setTUNStartState, modify, mret, M_ret. cbv beta iota.
  destruct (startTUN_body e _) as [[r| |] rt1] eqn:E; intros [= -> <-]. change (rt_tunCalls (set_tun_state false (Ok tt) rt1)) with (rt_tunCalls rt1).
  revert E. unfold startTUN_body, mbind, M_bind, mret, M_ret. destruct (negb (e_elevated e)); [done|].
  destruct (CoreRuntime.IsRunning _) as [[running| |] rt2]; try done.
  destruct ((if running then _ else _ : M (outcome unit)) rt2) as [[[]| |] rt3]; try done.
  destruct (currentListenPort rt3) as [[port| |] rt4]; try done. destruct (negb (nonempty port)); [done|].
  unfold tun_config, gets, tell_tun, modify. intros [= _ <-]. by eexists _, _, _.
Qed.

Lemma run_stop_calls v s : rt_tunCalls (runtime (service (run_stop v s))) = rt_tunCalls (runtime (service s)) ++ [TunStop].
Proof. unfold run_stop, stopTUN, setTUNStartState, tell_tun, modify, mbind, M_bind, mret, M_ret. by destruct (e_tun_stop (v_run v)). Qed.

(** Stopping the TUN device is answered before it is done.  A client that stops it and, on
    the answer, starts it again can be told twice that all went well while the device is off:
    whenever the start succeeds, the stop may come after it, and the last word to the device is
    to stop. *)
Theorem stop_overtakes_start s conn v1 v2 v3 rt1 n :
  m_fate s = Serving → conn ∈ conns s → next_call s = n → startTUN (v_run v2) (runtime (service s)) = (Returned (Ok tt), rt1) →
  ∃ s', run join certPath [Calls conn v1 StopTUN; Replies n; Calls conn v2 StartTUN; Replies (S n); StopRuns v3] s = Some ([Ok Empty; Ok Empty], s') ∧
    ∃ calls cfg port, rt_tunCalls (runtime (service s')) = calls ++ [TunStart cfg port; TunStop].
Proof.
  intros Hf Hc <- Hst. destruct (startTUN_last _ _ _ Hst) as (calls & cfg & port & Hcalls).
  set (n := next_call s). set (s1 := returned conn (Ok Empty) (s {{ stops ::= S }})). set (s1' := s1 {{ pending ::= delete n }}).
  set (s2 := returned conn (Ok Empty) (with_service (λ c, c {{ runtime := rt1 }}) s1')). set (s2' := s2 {{ pending ::= delete (S n) }}).
  assert (H1 : handles (Calls conn v1 StopTUN) s = Some (None, s1)).
  { unfold handle, alive. rewrite Hf. cbn [negb]. rewrite bool_decide_true by done. unfold serve_call. cbn [serve mret Svc_ret loop_effect].
    by replace (with_service (λ _, service s) s) with s by (by destruct s). }
  assert (H1' : handles (Replies n) s1 = Some (Some (Ok Empty), s1')).
  { unfold handle, alive. change (m_fate s1) with (m_fate s). rewrite Hf. change (pending s1) with (<[n := (conn, Ok Empty : outcome reply)]> (pending s)).
    rewrite lookup_insert_eq. change (conns s1) with (conns s). by rewrite bool_decide_true. }
  assert (H2 : handles (Calls conn v2 StartTUN) s1' = Some (None, s2)).
  { unfold handle, alive. change (m_fate s1') with (m_fate s). rewrite Hf. change (conns s1') with (conns s). cbn [negb]. rewrite bool_decide_true by done.
    unfold serve_call. cbn [serve]. unfold mbind, Svc_bind, lift, CoreRuntime.StartTUN, M_bind.
    change (runtime (service s1')) with (runtime (service s)). unfold mbind, M_bind. rewrite Hst. done. }
  assert (H2' : handles (Replies (S n)) s2 = Some (Some (Ok Empty), s2')).
  { unfold handle, alive. change (m_fate s2) with (m_fate s). rewrite Hf. change (pending s2) with (<[S n := (conn, Ok Empty : outcome reply)]> (pending s1')).
    rewrite lookup_insert_eq. change (conns s2) with (conns s). by rewrite bool_decide_true. }
  assert (H3 : handles (StopRuns v3) s2' = Some (None, run_stop v3 s2')).
  { unfold handle, alive. change (m_fate s2') with (m_fate s). by rewrite Hf. }
  exists (run_stop v3 s2'). split; [cbn [run]; rewrite H1; cbn [run]; rewrite H1'; cbn [run]; rewrite H2; cbn [run]; rewrite H2'; cbn [run]; by rewrite H3|].
  exists calls, cfg, port. rewrite run_stop_calls. change (rt_tunCalls (runtime (service s2'))) with (rt_tunCalls rt1).
  by rewrite Hcalls, <- app_assoc.
Qed.

(** A start of the TUN device that panics is answered as a success; only the status tells,
    and as long as the device does not run. *)
Lemma tun_panic_answered v s rt1 e :
  startTUN (v_run v) (runtime s) = (Returned Panic, rt1) →
  ∃ s', serve join certPath v StartTUN s = (Returned (Ok Empty), s') ∧
    (ts_Running (e_tun_status e) = false → ts_Message (tun_status e (runtime s')) = "core StartTUN panic").
Proof.
  intros H. unfold serve, lift, CoreRuntime.StartTUN, mbind, Svc_bind, M_bind. rewrite H. eexists. split; [reflexivity|].
  intros Hr. unfold tun_status. by rewrite Hr.
Qed.
End main_lemmas.

(** * Witnesses *)

Definition demo_service_env : service_env :=
  mkServiceEnv free_env 4711 "C:\NovaProxy.exe" (0, 0, 0) "2026/01/01 00:00:00.000000" (λ _ _, []) (λ _, 0) (λ _, None) (λ _, "").

(** A core with one client. *)
Definition demo_main : core_main :=
  (runCoreMain "2026/01/01 00:00:00.000000" "4711" (Ok tt) demo_core) {{ conns := {[0%nat]}; next_conn := 1%nat }}.

(** The same core with a running proxy whose mutex is never released. *)
Definition locked_main : core_main :=
  with_service (λ c, c {{ runtime ::= λ rt, rt {{ rt_server := (rt_server rt) {{ proxy := (proxy (rt_server rt)) {{ sv_mu_stuck := true; sv_running := true }} }} }} }}) demo_main.

Lemma core_main_ends_witness :
  ∃ rs s, run demo_join "certs" [Connects; Calls 0 demo_service_env StartProxy; Calls 0 demo_service_env Shutdown; AcceptFails false "" "closed"]
      (runCoreMain "" "4711" (Ok tt) demo_core) = Some (rs, s) ∧
    m_fate s = Returned_ ∧ list.last (rt_tunCalls (runtime (service s))) = Some TunStop.
Proof.
  eexists _, _. split; [vm_compute; reflexivity|]. split; [vm_compute; reflexivity|].
  edestruct (core_main_ends demo_join "certs" "" "4711" demo_core [Connects; Calls 0 demo_service_env StartProxy; Calls 0 demo_service_env Shutdown; AcceptFails false "" "closed"])
    as (_ & H & _); [vm_compute; reflexivity|]. destruct (H eq_refl) as (_ & rt0 & _ & Hl). exact Hl.
Defined.

(** The answer can come after the loop has left only when stopping hangs. *)
Lemma shutdown_answered_witness :
  (∃ s1 s3, handle demo_join "certs" (Calls 0 demo_service_env Shutdown) demo_main = Some (None, s1) ∧
     handle demo_join "certs" (AcceptFails false "" "closed") s1 = Some (None, s3) ∧ m_fate s3 = Returned_ ∧ ∀ ev, handle demo_join "certs" ev s3 = None) ∧
  (∃ s1 s3, handle demo_join "certs" (Calls 0 demo_service_env Shutdown) locked_main = Some (None, s1) ∧
     handle demo_join "certs" (AcceptFails false "" "closed") s1 = Some (None, s3) ∧
     (∀ evs rs s4, run demo_join "certs" evs s3 = Some (rs, s4) → m_fate s4 ≠ Returned_)).
Proof.
  split.
  - destruct (shutdown_answered demo_join "certs" demo_main 0 demo_service_env) as (s1 & H1 & Hf & H); [by vm_compute | apply (bool_decide_eq_true_1 _); by vm_compute |].
    destruct (H [] [] s1 eq_refl) as (_ & _ & Hl & _). vm_compute in H1. injection H1 as <-.
    destruct (Hl Hf eq_refl false "" "closed") as (s3 & H3 & Hs & _). destruct Hs as (Hr & _ & Hg); [split; [by vm_compute | intros Hx; by vm_compute in Hx] |].
    eexists _, s3. split; [by vm_compute |]. split; [exact H3 |]. by split.
  - destruct (shutdown_answered demo_join "certs" locked_main 0 demo_service_env) as (s1 & H1 & Hf & H); [by vm_compute | apply (bool_decide_eq_true_1 _); by vm_compute |].
    destruct (H [] [] s1 eq_refl) as (_ & _ & Hl & _). vm_compute in H1. injection H1 as <-.
    destruct (Hl Hf eq_refl false "" "closed") as (s3 & H3 & _ & Hs). eexists _, s3. split; [by vm_compute |]. split; [exact H3 |].
    apply Hs. intros [Hx _]. by vm_compute in Hx.
Defined.

Lemma stop_overtakes_start_witness :
  ∃ s', run demo_join "certs" [Calls 0 demo_service_env StopTUN; Replies 0; Calls 0 demo_service_env StartTUN; Replies 1; StopRuns demo_service_env] demo_main = Some ([Ok Empty; Ok Empty], s') ∧
    ∃ calls cfg port, rt_tunCalls (runtime (service s')) = calls ++ [TunStart cfg port; TunStop].
Proof.
  eapply (stop_overtakes_start demo_join "certs" demo_main 0 demo_service_env demo_service_env demo_service_env).
  - by vm_compute.
  - apply (bool_decide_eq_true_1 _). by vm_compute.
  - by vm_compute.
  - vm_compute. reflexivity.
Defined.
