(* ===== verification/CoreClient.v ===== *)
(** [core_client.go]: the client through which the user interface starts the core process
    and calls it.

    A world holds the core process, if one runs, and the files that the last one left.
    Clocks are counted in pings; [filepath.Clean] is an argument. *)

From coqutil Require Import Datatypes.RecordSetters.
From S2P Require Import Prelude GoStrings GoText Types CFPool GasCache GasHTTP Settings Rules V2RayConfig V2RayCore V2RayManager Server CertManager PortManager CoreRuntime CoreService.
Import DoubleBraceUpdate.

Open Scope Z_scope.

(** * The world *)

Record process := mkProcess { p_exec : string; p_elevated : bool; p_core : coreRuntime }.

Record world := mkWorld {
  w_core : option process;
  w_silent : nat;                                    (** pings a new core does not answer yet *)
  w_last : coreRuntime;                              (** its files are those on disk *)
  w_stuck : list process;                            (** cores that do not listen any more but whose shutdown never ends *)
}.

(** What starting a process meets: the user grants the elevation, the process starts, the
    pings until it answers; and the environment of its calls. *)
Record client_env := mkClientEnv {
  c_self : outcome string;                           (** [os.Executable] *)
  c_admin : bool;                                    (** the interface runs elevated itself *)
  c_grants : bool;
  c_starts : bool;
  c_delay : nat;
  c_windows : bool;
  c_env : runtime_env;
}.

Definition C (A : Type) : Type := world → call_result A * world.

#[export] Instance C_ret : MRet C := λ A a w, (Returned a, w).

#[export] Instance C_bind : MBind C := λ A B f m w,
  match m w with
  | (Returned a, w) => f a w
  | (Waits, w) => (Waits, w)
  | (Ended, w) => (Ended, w)
  end.

Section client.
Context `{MR : MapRange} (clean : string → string) (join : string → string → string) (certPath : string) (ce : client_env).

(** A call of the core: an error when there is none to answer or it dies in the call. *)
Definition call {A} (m : runtime_env → M A) : C (outcome A) := λ w,
  match w_core w with
  | None => (Returned (Err "dial"), w)
  | Some p =>
      match m ((c_env ce) {{ e_elevated := p_elevated p }}) (p_core p) with
      | (Returned a, rt) => (Returned (Ok a), w {{ w_core := Some (p {{ p_core := rt }}) }})
      | (Waits, rt) => (Waits, w {{ w_core := Some (p {{ p_core := rt }}) }})
      | (Ended, rt) => (Returned (Err "connection is shut down"), w {{ w_core := None; w_last := rt }})
      end
  end.

(** A panic in a call ends the core, and the client reads the end of the connection. *)
Definition crash : C unit := λ w,
  (Returned tt, match w_core w with Some p => w {{ w_core := None; w_last := p_core p }} | None => w end).

Definition broken {A} : C (outcome A) := crash;; mret (Err "unexpected EOF").

(** A call of a method that answers an error of its own. *)
Definition call_err (m : runtime_env → M (outcome unit)) : C (outcome unit) :=
  r ← call m; match r with Ok Panic => broken | Ok r => mret r | Err msg => mret (Err msg) | Panic => mret Panic end.

Definition Ping : C bool := λ w,
  match w_core w with
  | None => (Returned false, w)
  | Some _ =>
      match w_silent w with
      | O => (Returned true, w)
      | S n => (Returned false, w {{ w_silent := n }})
      end
  end.

Definition flag (m : M bool) : C bool := r ← call (λ _, m); mret match r with Ok b => b | _ => false end.

Definition IsLogCaptureEnabled : C bool := flag (gets rt_logCapture).
Definition IsProxyRunning : C bool := flag CoreRuntime.IsRunning.

(** The executable and the elevation of the core. *)
Definition getInfo : C (outcome (string * bool)) := λ w,
  (Returned match w_core w with Some p => Ok (p_exec p, p_elevated p) | None => Err "dial" end, w).

(** [Core.Shutdown]: the core stops listening and ends its loop, and then itself unless its
    [shutdown] waits for ever.  Whether the answer arrives does not matter. *)
Definition Shutdown : C unit := λ w,
  match w_core w with
  | None => (Returned tt, w)
  | Some p =>
      let '(r, rt) := CoreRuntime.shutdown (p_core p) in
      (Returned tt, w {{ w_core := None; w_last := rt; w_stuck ::= λ ps, match r with Returned _ => ps | _ => p {{ p_core := rt }} :: ps end }})
  end.

(** [startCoreProcess]: only on Windows is an elevation asked for.  A process whose runtime
    cannot be made, or that finds the address of the calls taken, is gone at once. *)
Definition startCoreProcess (execPath : string) (requireElevated : bool) : C (outcome unit) := λ w,
  let elevated := c_windows ce && requireElevated in
  if elevated && negb (c_grants ce) || negb (c_starts ce) then (Returned (Err "start"), w)
  else if bool_decide (is_Some (w_core w)) then (Returned (Ok tt), w)
  else
    let rt := w_last w in
    match newCoreRuntime (c_env ce) join certPath (Rules.settingsFile (rt_rules rt)) (Rules.rulesFile (rt_rules rt)) (storeFile (rt_v2ray rt))
            (V2RayManager.settingsFile (rt_v2ray rt)) (rt_disk rt) with
    | Ok (Returned _, rt) => (Returned (Ok tt), w {{ w_core := Some (mkProcess execPath (elevated || c_admin ce) rt); w_silent := c_delay ce; w_last := rt }})
    | _ => (Returned (Ok tt), w)
    end.

(** * Keeping a core running *)

Definition sameExecutable (left right : string) : bool :=
  nonempty (TrimSpace left) && nonempty (TrimSpace right) &&
  bool_decide (clean (ToLower (TrimSpace left)) = clean (ToLower (TrimSpace right))).

(** The wait for the old core to go. *)
Fixpoint await_down (n : nat) : C unit :=
  match n with
  | O => mret tt
  | S n => pong ← Ping; if (pong : bool) then await_down n else mret tt
  end.

Fixpoint await_up (n : nat) (k : C (outcome unit)) : C (outcome unit) :=
  match n with
  | O => mret (Err "core did not become ready")
  | S n => pong ← Ping; if (pong : bool) then k else await_up n k
  end.

(** What is done once the new core answers. *)
Definition restore (requireElevated wasLog wasProxy : bool) : C (outcome unit) :=
  _ ← (if wasLog then call (λ _, startLogCapture) else mret (Ok tt)) : C (outcome unit);
  r ← (if wasProxy then call_err startProxy else mret (Ok tt)) : C (outcome unit);
  match r with
  | Ok _ =>
      if requireElevated then
        info ← getInfo;
        mret match info with
             | Ok (_, elevated) => if (elevated : bool) then Ok tt else Err "core restarted but is still not elevated"
             | Err msg => Err msg
             | Panic => Panic
             end
      else mret (Ok tt)
  | Err msg => mret (Err ("restore proxy after core restart: " +:+ msg))
  | Panic => mret Panic
  end.

Definition launch (requireElevated wasLog wasProxy : bool) : C (outcome unit) :=
  match c_self ce with
  | Ok execPath =>
      r ← startCoreProcess execPath requireElevated;
      match r with
      | Ok _ => await_up 30 (restore requireElevated wasLog wasProxy)
      | _ => mret r
      end
  | Err msg => mret (Err msg)
  | Panic => mret Panic
  end.

Definition good_core (requireElevated : bool) (execPath : string) (info : outcome (string * bool)) : bool :=
  match info with Ok (exec, elevated) => sameExecutable exec execPath && (negb requireElevated || elevated) | _ => false end.

Definition ensureRunningWithElevation (requireElevated : bool) : C (outcome unit) :=
  pong ← Ping;
  if (pong : bool) then
    wasLog ← IsLogCaptureEnabled;
    wasProxy ← IsProxyRunning;
    match c_self ce with
    | Ok execPath =>
        info ← getInfo;
        if good_core requireElevated execPath info then mret (Ok tt)
        else Shutdown;; await_down 10;; launch requireElevated wasLog wasProxy
    | Err msg => mret (Err msg)
    | Panic => mret Panic
    end
  else launch requireElevated false false.

Definition ensureRunning : C (outcome unit) := ensureRunningWithElevation false.

(** * Calls *)

(** [if err := c.ensureRunning(); err != nil { return err }] before a call. *)
Definition ensured (requireElevated : bool) (m : C (outcome unit)) : C (outcome unit) :=
  r ← ensureRunningWithElevation requireElevated; match r with Ok _ => m | _ => mret r end.

Definition StartProxy : C (outcome unit) := ensured false (call_err startProxy).
Definition StopProxy : C (outcome unit) := call_err (λ _, stopProxy).
Definition SwitchMode (mode : string) : C (outcome unit) := ensured false (call_err (λ e, CoreRuntime.SetProxyMode e mode)).

(** The empty mode when there is no answer. *)
Definition GetProxyMode : C string := r ← call (λ _, getCurrentMode); mret match r with Ok mode => mode | _ => "" end.

Definition GetRoutingMode : C string :=
  r ← call (λ _, v2ray_op GetSettings);
  mret match r with Ok s => if nonempty (s_RoutingMode s) then s_RoutingMode s else "rule" | _ => "rule" end.

Definition if_running (m : C unit) : C unit := pong ← Ping; if (pong : bool) then m else mret tt.

Definition reloadIfRunning : C unit := if_running (_ ← call_err reloadConfig; mret tt).
Definition reloadCertificateIfRunning : C unit := if_running (_ ← call_err (λ e, reloadCertificate e join certPath); mret tt).
Definition shutdownIfRunning : C unit := if_running Shutdown.

Definition GetTUNStatus : C TUNStatus :=
  r ← call getTUNStatus;
  mret match r with Ok status => status | _ => mkTUNStatus (c_windows ce) false false "" "Core not running" end.

Definition GetRouteEvents : C (list RouteEvent) := r ← call (λ _, popRouteEvents); mret match r with Ok evs => evs | _ => [] end.

(** A relay is enabled as soon as a key and an address were entered. *)
Definition relay_enabled (running : bool) (authKey googleIP : string) : bool :=
  running || (nonempty authKey && negb (bool_decide (authKey = "changeme")) && nonempty googleIP).

Definition SetGASRelay (running : bool) (authKey googleIP : string) (made : nat) : C (outcome unit) :=
  call (λ _, CoreRuntime.SetGASRelay (relay_enabled running authKey googleIP) made).

Definition SetGASDialAddr (addr : string) : C (outcome unit) := call (λ _, CoreRuntime.SetGASDialAddr addr).

Definition StopTUN : C (outcome unit) := call (λ _, mret tt).

Definition StartLogCapture : C (outcome unit) := ensured false (call (λ _, startLogCapture)).
Definition StopLogCapture : C (outcome unit) := call (λ _, stopLogCapture).

(** Nothing when there is no answer. *)
Definition GetRecentLogs (logs : string) : C string := r ← call (λ _, mret logs); mret match r with Ok logs => logs | _ => "" end.
Definition ClearLogs : C (outcome unit) := call (λ _, mret tt).
Definition GetStats (stats : Z * Z * Z) : C (Z * Z * Z) := r ← call (λ _, mret stats); mret match r with Ok stats => stats | _ => (0, 0, 0) end.

Definition SetProxyMode (mode : string) : C (outcome unit) := ensured false (call_err (λ e, CoreRuntime.SetProxyMode e mode)).

(** ** The V2Ray configurations *)

Definition V2RayGetConfigs : C (list V2RayConfig) :=
  r ← call (λ _, v2ray_op GetConfigs); mret match r with Ok configs => configs | _ => [] end.

(** [fmt.Errorf] with no arguments on a text that is used as a format.  Argument indexes
    and widths by argument are left out. *)
Definition is_flag (c : ascii) : bool :=
  bool_decide (c ∈ ["+"; "-"; "#"; " "; "."]%char) || ((48 <=? Z.of_nat (nat_of_ascii c)) && (Z.of_nat (nat_of_ascii c) <=? 57)).

Fixpoint verb_at (s : string) : option (ascii * string) :=
  match s with
  | EmptyString => None
  | String c s' => if is_flag c then verb_at s' else Some (c, s')
  end.

Fixpoint Errorf_from (fuel : nat) (s : string) : string :=
  match fuel, s with
  | S fuel, String c s =>
      if bool_decide (c = "%"%char) then
        match verb_at s with
        | None => "%!(NOVERB)"
        | Some (v, s') =>
            if bool_decide (v = "%"%char) then String "%" (Errorf_from fuel s')
            else ("%!" +:+ String v "(MISSING)") +:+ Errorf_from fuel s'
        end
      else String c (Errorf_from fuel s)
  | _, _ => EmptyString
  end.

(** Every step reads a byte. *)
Definition Errorf (s : string) : string := Errorf_from (String.length s) s.

Definition V2RayAddConfig (v : service_env) (link : string) : C (outcome (option V2RayConfig)) :=
  r ← call (λ _, add_config v link);
  match r with
  | Ok (Ok cfg) => mret (Ok (Some cfg))
  | Ok (Err msg) => mret (if nonempty msg then Err (Errorf msg) else Ok None)
  | Ok Panic => broken
  | Err msg => mret (Err msg)
  | Panic => mret Panic
  end.

Definition V2RayDeleteConfig (id : string) : C (outcome unit) := call_err (λ e, v2ray_op (DeleteConfig (e_store e) id)).
Definition V2RaySelectConfig (id : string) : C (outcome unit) := call_err (λ e, v2ray_op (SelectConfig (e_store e) id)).
Definition V2RayClearConfigs : C (outcome unit) := call_err (λ e, v2ray_op (ClearConfigs (e_store e))).

Definition V2RayGetSelectedConfig : C (option V2RayConfig) :=
  r ← call (λ _, v2ray_op GetSelectedConfig); mret match r with Ok cfg => cfg | _ => None end.

Definition V2RayStartCore : C (outcome unit) := call CoreRuntime.V2RayStartCore.
Definition V2RayStopCore : C (outcome unit) := call CoreRuntime.V2RayStopCore.

Definition V2RayGetSettings : C V2RaySettings :=
  r ← call (λ _, v2ray_op GetSettings);
  mret match r with Ok s => s | _ => mkV2RaySettings 0 0 0 0 "" false "rule" false false false false false "" "" end.

Definition V2RaySaveSettings (s : V2RaySettings) : C (outcome unit) := call_err (λ e, v2ray_op (SaveSettings (e_v2ray e) s)).

(** ** Starting the TUN device *)

(** A message that says that the start failed. *)
Definition fatal_message (msg : string) : bool :=
  nonempty (TrimSpace msg) && negb (EqualFold (TrimSpace msg) "Windows real TUN dataplane is ready") &&
  forallb (λ part, negb (Contains (ToLower msg) part)) ["startup in progress"; "starting"; "creating"; "selected"; "not running"].

(** The statuses answered until the deadline. *)
Fixpoint poll_tun (last : TUNStatus) (polls : list (outcome TUNStatus)) : outcome unit :=
  match polls with
  | [] => Err (if nonempty (TrimSpace (ts_Message last)) then "TUN startup failed: " +:+ TrimSpace (ts_Message last) else "TUN did not enter running state")
  | Ok status :: polls =>
      if ts_Running status then Ok tt
      else if fatal_message (ts_Message status) then Err (ts_Message status)
      else poll_tun status polls
  | _ :: _ => Err "Core.GetTUNStatus RPC failed"
  end.

Definition StartTUN (polls : list (outcome TUNStatus)) : C (outcome unit) :=
  r ← ensureRunningWithElevation true;
  match r with
  | Ok _ =>
      r ← call_err CoreRuntime.StartTUN;
      mret match r with Ok _ => poll_tun (mkTUNStatus false false false "" "") polls | Err msg => Err ("Core.StartTUN RPC failed: " +:+ msg) | Panic => Panic end
  | Err msg => mret (Err ("ensure elevated core failed: " +:+ msg))
  | Panic => mret Panic
  end.
End client.

(** * A restarted core *)

Section client_lemmas.
Context `{MR : MapRange} (clean : string → string) (join : string → string → string) (certPath : string) (ce : client_env).

Lemma call_read {A} (m : runtime_env → M A) w p a :
  w_core w = Some p → (∀ e, m e (p_core p) = (Returned a, p_core p)) → call ce m w = (Returned (Ok a), w).
Proof. intros Hw Hm. unfold call. rewrite Hw, Hm. destruct w, p. cbn in Hw. by subst. Qed.

Lemma flag_read (m : M bool) w p b : w_core w = Some p → m (p_core p) = (Returned b, p_core p) → flag ce m w = (Returned b, w).
Proof. intros Hw Hm. unfold flag, mbind, C_bind. by erewrite call_read. Qed.

Lemma call_returned {A} (m : runtime_env → M A) w a w' :
  call ce m w = (Returned (Ok a), w') →
  ∃ p rt, w_core w = Some p ∧ m ((c_env ce) {{ e_elevated := p_elevated p }}) (p_core p) = (Returned a, rt) ∧
    w_core w' = Some (p {{ p_core := rt }}) ∧ w_stuck w' = w_stuck w.
Proof.
  unfold call. destruct (w_core w) as [p |]; [| done].
  destruct (m _ (p_core p)) as [[b | |] rt] eqn:Hm; intros H; [| done..]. injection H as <- <-. by exists p, rt.
Qed.

Lemma call_err_ok m w w' : call_err ce m w = (Returned (Ok tt), w') → call ce m w = (Returned (Ok (Ok tt)), w').
Proof.
  unfold call_err, mbind, C_bind. destruct (call ce m w) as [[[[[] | |] | |] | |] w1]; try done. by intros [= <-].
Qed.

Lemma await_up_ok n k w w' :
  await_up n k w = (Returned (Ok tt), w') → ∃ p w1, w_core w = Some p ∧ w_core w1 = Some p ∧ w_stuck w1 = w_stuck w ∧ k w1 = (Returned (Ok tt), w').
Proof.
  induction n as [| n IH] in w |- *; [done |]. cbn [await_up]. unfold mbind, C_bind, Ping.
  destruct (w_core w) as [p |] eqn:Hw; [destruct (w_silent w) |].
  - intros H. by exists p, w.
  - intros H. apply IH in H as (p' & w1 & Hp & Hc & Hst & Hk). exists p', w1. split; [by rewrite <- Hw | by split].
  - intros H. apply IH in H as (p' & w1 & Hp & _). by rewrite Hw in Hp.
Qed.

Lemma await_down_none n w : w_core w = None → await_down n w = (Returned tt, w).
Proof. intros H. destruct n; [done |]. cbn [await_down]. unfold mbind, C_bind, Ping. by rewrite H. Qed.

(** What a core that has just started knows of the one before. *)
Definition newborn (log : bool) (rt : coreRuntime) : Prop :=
  idle rt ∧ held (rt_v2ray rt) = false ∧ sv_mode (proxy (rt_server rt)) = "mitm" ∧ rt_gasRelay rt = None ∧ rt_gasDialAddr rt = "" ∧ rt_logCapture rt = log.

Lemma started_core execPath elevated w w' :
  w_core w = None → startCoreProcess join certPath ce execPath elevated w = (Returned (Ok tt), w') →
  (w_core w' = None ∨ ∃ rt, w_core w' = Some (mkProcess execPath (c_windows ce && elevated || c_admin ce) rt) ∧ newborn false rt) ∧ w_stuck w' = w_stuck w.
Proof.
  intros Hw. unfold startCoreProcess. destruct (_ || _); [done |]. rewrite bool_decide_false by (rewrite Hw; by intros []).
  destruct (newCoreRuntime _ _ _ _ _ _ _ _) as [[[[] | |] rt] | |] eqn:Hn; intros H; injection H as <-; (split; [| done]); try by left.
  right. exists rt. split; [done |].
  destruct (Rules.LoadConfig (e_windows (c_env ce)) (e_settings (c_env ce)) (e_rules (c_env ce)) (e_rules (c_env ce))
    (NewRuleManager (Rules.settingsFile (rt_rules (w_last w))) (Rules.rulesFile (rt_rules (w_last w))))) as [[[] | |] rm] eqn:Hl;
    [| by unfold newCoreRuntime in Hn; rewrite Hl in Hn..].
  eapply boot_state in Hl as (rt2 & Hb & Hm & _ & _ & _ & _ & Hi & Hh & Hr & Hd & Hg). rewrite Hb in Hn. injection Hn as <-. by split_and!.
Qed.

Lemma startProxy_kept e log rt rt' : newborn log rt → startProxy e rt = (Returned (Ok tt), rt') → sv_running (proxy (rt_server rt')) = true ∧ kept rt rt'.
Proof.
  intros (Hi & Hh & _) Hs. destruct (startProxy_spec e rt Hi Hh) as [[rt2 H] | (r & rt2 & H & Hr)]; rewrite Hs in H; [done |].
  injection H as <- <-. destruct Hr as ((Hrun & _) & _ & _ & _ & Hk & _). by split.
Qed.

Lemma restore_log (log : bool) w p :
  w_core w = Some p → newborn false (p_core p) →
  ∃ w1 rt, (if log then call ce (λ _, startLogCapture) else mret (Ok tt) : C (outcome unit)) w = (Returned (Ok tt), w1) ∧
    w_core w1 = Some (p {{ p_core := rt }}) ∧ newborn log rt ∧ w_stuck w1 = w_stuck w.
Proof.
  intros Hw Hn. destruct log.
  - unfold call. rewrite Hw. eexists _, _. split; [done |]. split; [done |]. destruct Hn as (Hi & Hh & Hm & Hg & Hd & _). by split_and!.
  - exists w, (p_core p). split; [done |]. split; [by rewrite Hw; destruct p | done].
Qed.

Lemma restore_proxy (log run : bool) w w1 p :
  w_core w = Some p → newborn log (p_core p) → (if run then call_err ce startProxy else mret (Ok tt) : C (outcome unit)) w = (Returned (Ok tt), w1) →
  ∃ rt, w_core w1 = Some (p {{ p_core := rt }}) ∧ sv_running (proxy (rt_server rt)) = run ∧
    sv_mode (proxy (rt_server rt)) = "mitm" ∧ rt_gasRelay rt = None ∧ rt_gasDialAddr rt = "" ∧ rt_logCapture rt = log ∧ w_stuck w1 = w_stuck w.
Proof.
  intros Hw Hn H. destruct run.
  - apply call_err_ok, call_returned in H as (p' & rt & Hp & Hs & Hc & Hst). rewrite Hw in Hp. injection Hp as <-. exists rt. split; [done |].
    destruct (startProxy_kept _ _ _ _ Hn Hs) as [Hr (Hm & Hg & Hd & Hl & _)]. destruct Hn as (_ & _ & Nm & Ng & Nd & Nl).
    by rewrite Hr, Hm, Hg, Hd, Hl.
  - injection H as <-. exists (p_core p). split; [by rewrite Hw; destruct p |]. destruct Hn as ([_ Hi] & _ & Hn). rewrite Hi. destruct Hn as (? & ? & ? & ?). by split_and!.
Qed.

Lemma restore_ok require wasLog wasProxy w w' p :
  w_core w = Some p → newborn false (p_core p) → restore ce require wasLog wasProxy w = (Returned (Ok tt), w') →
  ∃ rt, w_core w' = Some (p {{ p_core := rt }}) ∧ (require = true → p_elevated p = true) ∧
    rt_logCapture rt = wasLog ∧ sv_running (proxy (rt_server rt)) = wasProxy ∧
    sv_mode (proxy (rt_server rt)) = "mitm" ∧ rt_gasRelay rt = None ∧ rt_gasDialAddr rt = "" ∧ w_stuck w' = w_stuck w.
Proof.
  intros Hw Hn. unfold restore, mbind, C_bind. destruct (restore_log wasLog w p Hw Hn) as (w1 & rt1 & -> & Hw1 & Hn1 & Hst1). cbv beta iota.
  destruct ((if wasProxy then call_err ce startProxy else mret (Ok tt) : C (outcome unit)) w1) as [[[[] | |] | |] w2] eqn:Hp; try done.
  destruct (restore_proxy wasLog wasProxy w1 w2 _ Hw1 Hn1 Hp) as (rt & Hw2 & Hr & Hm & Hg & Hd & Hl & Hst2). rewrite <- Hst1, <- Hst2. intros H. exists rt.
  destruct require.
  - unfold getInfo in H. rewrite Hw2 in H. change (p_elevated _) with (p_elevated p) in H. destruct (p_elevated p) eqn:He; [| done]. injection H as <-. rewrite Hw2. by repeat split.
  - injection H as <-. rewrite Hw2. by repeat split.
Qed.


(** ** Adding configurations *)

Lemma Errorf_from_plain fuel s :
  (String.length s ≤ fuel)%nat → ("%"%char ∉ String.list_ascii_of_string s) → Errorf_from fuel s = s.
Proof.
  induction s as [|c s IH] in fuel |- *; destruct fuel; cbn; try done; [lia|]. intros Hl Hn.
  apply not_elem_of_cons in Hn as [Hc Hn]. rewrite bool_decide_false by congruence. rewrite IH; [done|lia|done].
Qed.

Lemma Errorf_plain s : "%"%char ∉ String.list_ascii_of_string s → Errorf s = s.
Proof. intros H. by apply Errorf_from_plain. Qed.

(** Adding links through the core: the client gets the configuration the manager of the core
    added, or the manager's error, whose text is spoilt where it quotes a percent-encoded
    link; and of the core nothing but that manager has changed. *)
Theorem client_adds v link w p r m :
  w_core w = Some p → AddConfig (v_Unmarshal v) (v_fmt_v v) (e_store (v_run v)) (v_now v) link (rt_v2ray (p_core p)) = (Some r, m) →
  ∃ r' w', V2RayAddConfig ce v link w = (Returned r', w') ∧
    match r with
    | Ok cfg => r' = Ok (Some cfg) ∧ w_core w' = Some (p {{ p_core := (p_core p) {{ rt_v2ray := m }} }})
    | Err msg =>
        w_core w' = Some (p {{ p_core := (p_core p) {{ rt_v2ray := m }} }}) ∧
        (msg ≠ "" → "%"%char ∉ String.list_ascii_of_string msg → r' = Err msg)
    | Panic => w_core w' = None
    end.
Proof.
  intros Hw Ha. unfold V2RayAddConfig, mbind, C_bind, call, add_config, v2ray_op. rewrite Hw, Ha. cbv beta iota zeta.
  destruct r as [cfg|msg|].
  - eexists _, _. split; [reflexivity|]. by split.
  - eexists _, _. split; [reflexivity|]. split; [done|]. intros Hne Hp.
    unfold nonempty. rewrite bool_decide_false by done. cbn. by rewrite Errorf_plain.
  - eexists _, _. split; [reflexivity|]. done.
Qed.
End client_lemmas.

(** ** A core that is not elevated *)

Definition gas_core : coreRuntime := (snd (switchMode free_env "gas" running_core)) {{ rt_logCapture := true; rt_gasRelay := Some 7%nat }}.

Definition demo_world : world := mkWorld (Some (mkProcess "C:\NovaProxy.exe" false gas_core)) 0 gas_core [].

Definition demo_client : client_env := mkClientEnv (Ok "C:\NovaProxy.exe") false true true 3 true free_env.


Lemma restarted_core_misreports :
  fst (GetProxyMode demo_client (snd (ensureRunningWithElevation id demo_join "certs" demo_client true demo_world))) = Returned "gas".
Proof. by vm_compute. Qed.

(** ** What the status of the device says *)

(** Polling ends with the first status that runs or tells a failure. *)
Lemma poll_tun_ok last polls :
  poll_tun last polls = Ok tt → ∃ before status after, polls = (Ok <$> before) ++ Ok status :: after ∧ ts_Running status = true ∧
    Forall (λ s, ts_Running s = false ∧ fatal_message (ts_Message s) = false) before.
Proof.
  induction polls as [| [status | |] polls IH] in last |- *; [done | | done..]. cbn [poll_tun].
  destruct (ts_Running status) eqn:Hr; [intros _; by exists [], status, polls |].
  destruct (fatal_message (ts_Message status)) eqn:Hf; [done |]. intros H. apply IH in H as (before & s & after & -> & Hs & Hb).
  exists (status :: before), s, after. split; [done |]. split; [done |]. by constructor.
Qed.

Example spoilt_error : Errorf "failed: vless://u@h%20x:1 - bad port" = "failed: vless://u@h%!x(MISSING):1 - bad port".
Proof. reflexivity. Qed.
