(* ===== verification/SysProxy.v ===== *)
(** [sysproxy/sysproxy_windows.go]: the proxy settings of the Windows user, saved before the
    proxy is entered there and restored afterwards.

    The registry key is a map of values; whether it opens and takes a value is an answer of
    the system.  A time stamp of [None] is the zero time. *)

From coqutil Require Import Datatypes.RecordSetters.
From S2P Require Import Prelude GoStrings GoNet GoText.
Import DoubleBraceUpdate.

Open Scope Z_scope.

(** * State *)

Inductive reg_value := DWord (n : Z) | Sz (s : string).

Record SystemProxyStatus := mkProxyStatus { Enabled : bool; Server : string; Override : string }.

Record sys_proxy := mkSysProxy {
  registry : gmap string reg_value;
  cachedStatus : SystemProxyStatus;
  lastCheck : option Z;
  originalProxySettings : option SystemProxyStatus;
  notices : nat;                                     (** calls of [InternetSetOptionW] *)
}.

Record reg_env := mkRegEnv {
  re_now : Z;                                        (** nanoseconds *)
  re_reads : bool;                                   (** the key opens for reading *)
  re_opens : bool;                                   (** the key opens for writing *)
  re_sets : string → bool;
  re_deletes : string → bool;
}.

(** The single updates of the state. *)
Definition set_value (name : string) (v : reg_value) (s : sys_proxy) : sys_proxy := s {{ registry ::= <[name := v]> }}.
Definition delete_value (e : reg_env) (name : string) (s : sys_proxy) : sys_proxy := if re_deletes e name then s {{ registry ::= delete name }} else s.
Definition cache (st : SystemProxyStatus) (now : Z) (s : sys_proxy) : sys_proxy := s {{ cachedStatus := st; lastCheck := Some now }}.
Definition announce (s : sys_proxy) : sys_proxy := s {{ lastCheck := None; notices ::= S }}.
Definition set_original (st : SystemProxyStatus) (s : sys_proxy) : sys_proxy := s {{ originalProxySettings := Some st }}.

(** * Operations *)

Definition string_value (name : string) (m : gmap string reg_value) : string :=
  match m !! name with Some (Sz v) => TrimSpace v | _ => "" end.

Definition read_status (m : gmap string reg_value) : SystemProxyStatus :=
  mkProxyStatus (match m !! "ProxyEnable" with Some (DWord n) => n =? 1 | _ => false end) (string_value "ProxyServer" m) (string_value "ProxyOverride" m).

Definition cached (e : reg_env) (s : sys_proxy) : bool :=
  match lastCheck s with Some t => re_now e - t <? 2000000000 | None => false end.

Definition GetSystemProxyStatus (e : reg_env) (s : sys_proxy) : SystemProxyStatus * sys_proxy :=
  if cached e s then (cachedStatus s, s)
  else if negb (re_reads e) then (mkProxyStatus false "" "", s)
  else let status := read_status (registry s) in (status, cache status (re_now e) s).

(** Setting one value, and going on when it worked. *)
Definition then_set (e : reg_env) (name : string) (v : reg_value) (k : sys_proxy → outcome unit * sys_proxy) (s : sys_proxy) : outcome unit * sys_proxy :=
  if re_sets e name then k (set_value name v s) else (Err ("[sysproxy] failed to set " +:+ name), s).

Definition SetSystemProxy (e : reg_env) (enable : bool) (server : string) (s : sys_proxy) : outcome unit * sys_proxy :=
  if negb (re_opens e) then (Err "[sysproxy] failed to open registry key", s)
  else
    then_set e "ProxyEnable" (DWord (if enable then 1 else 0)) (λ s,
      if enable then
        if negb (nonempty server) then (Err "[sysproxy] server cannot be empty when enabling proxy", s)
        else
          then_set e "ProxyServer" (Sz server) (λ s,
            then_set e "ProxyOverride" (Sz "<local>") (λ s, (Ok tt, announce s)) s) s
      else (Ok tt, announce (delete_value e "ProxyOverride" (delete_value e "ProxyServer" s)))) s.

Definition EnableSystemProxy (e : reg_env) (port : Z) (s : sys_proxy) : outcome unit * sys_proxy :=
  if (port <? 1) || (65535 <? port) then (Err ("[sysproxy] invalid port: " +:+ Itoa port), s)
  else SetSystemProxy e true ("127.0.0.1:" +:+ Itoa port) s.

Definition DisableSystemProxy (e : reg_env) (s : sys_proxy) : outcome unit * sys_proxy := SetSystemProxy e false "" s.

Definition SaveOriginalProxySettings (e : reg_env) (s : sys_proxy) : outcome unit * sys_proxy :=
  let '(status, s) := GetSystemProxyStatus e s in (Ok tt, set_original status s).

Definition SetOriginalProxySettings (status : SystemProxyStatus) (s : sys_proxy) : sys_proxy := set_original status s.

Definition RestoreOriginalProxySettings (e : reg_env) (s : sys_proxy) : outcome unit * sys_proxy :=
  match originalProxySettings s with
  | None => SetSystemProxy e false "" s
  | Some settings => SetSystemProxy e (Enabled settings) (Server settings) s
  end.

(** * Lemmas *)

(** A system that answers everything. *)
Definition willing (e : reg_env) : Prop := re_reads e = true ∧ re_opens e = true ∧ (∀ n, re_sets e n = true) ∧ ∀ n, re_deletes e n = true.

(** Reads of a map after writes to it. *)
Ltac look_up :=
  repeat first [rewrite lookup_insert_eq | rewrite lookup_delete_eq | rewrite lookup_insert_ne by done | rewrite lookup_delete_ne by done].

(** A status as the registry shows it after a successful change. *)
Lemma set_reads e enable server s s' :
  willing e → SetSystemProxy e enable server s = (Ok tt, s') →
  lastCheck s' = None ∧ originalProxySettings s' = originalProxySettings s ∧
  read_status (registry s') = if enable then mkProxyStatus true (TrimSpace server) "<local>" else mkProxyStatus false "" "".
Proof.
  intros (_ & Ho & Hs & Hd). unfold SetSystemProxy, then_set, delete_value. rewrite Ho, !Hs, !Hd. cbn [negb].
  destruct enable; cbn iota.
  - destruct (nonempty server); cbn; [|done]. intros [= <-]. do 2 (split; [done|]).
    change (read_status (<["ProxyOverride" := Sz "<local>"]> (<["ProxyServer" := Sz server]> (<["ProxyEnable" := DWord 1]> (registry s)))) = mkProxyStatus true (TrimSpace server) "<local>").
    unfold read_status, string_value. by look_up.
  - intros [= <-]. do 2 (split; [done|]).
    change (read_status (delete "ProxyOverride" (delete "ProxyServer" (<["ProxyEnable" := DWord 0]> (registry s)))) = mkProxyStatus false "" "").
    unfold read_status, string_value. by look_up.
Qed.

(** A change is seen at once: the status after a successful one is read from the registry,
    not from the cache. *)
Lemma set_seen e e' enable server s s' :
  willing e → re_reads e' = true → SetSystemProxy e enable server s = (Ok tt, s') →
  fst (GetSystemProxyStatus e' s') = if enable then mkProxyStatus true (TrimSpace server) "<local>" else mkProxyStatus false "" "".
Proof.
  intros Hw Hr H. destruct (set_reads _ _ _ _ _ Hw H) as (Hl & _ & Hs). unfold GetSystemProxyStatus, cached.
  by rewrite Hl, Hr.
Qed.

(** Saving, entering the proxy and restoring, all of which the system accepts: a user who had a
    proxy gets back its address, with the exceptions "<local>" in place of the own ones; a user
    who had none has none again, but the address kept for later and its exceptions are gone.
    A user whose proxy was switched on without an address keeps Nova's: the restoring writes
    that a proxy is used before it fails for want of an address. *)
Theorem restore_settings e port s s1 s2 s3 r :
  willing e → cached e s = false →
  SaveOriginalProxySettings e s = (Ok tt, s1) → EnableSystemProxy e port s1 = (Ok tt, s2) → RestoreOriginalProxySettings e s2 = (r, s3) →
  let before := read_status (registry s) in
  let after := read_status (registry s3) in
  (Enabled before = true → Server before ≠ "" → r = Ok tt ∧ after = mkProxyStatus true (TrimSpace (Server before)) "<local>") ∧
  (Enabled before = false → r = Ok tt ∧ after = mkProxyStatus false "" "") ∧
  (Enabled before = true → Server before = "" → (∃ msg, r = Err msg) ∧ after = mkProxyStatus true (TrimSpace ("127.0.0.1:" +:+ Itoa port)) "<local>").
Proof.
  intros Hw Hc Hsave Hen Hres before after.
  assert (Ho1 : originalProxySettings s1 = Some before).
  { revert Hsave. unfold SaveOriginalProxySettings, GetSystemProxyStatus. rewrite Hc. destruct Hw as [-> _]. cbn [negb]. by intros [= <-]. }
  unfold EnableSystemProxy in Hen. destruct (_ || _); [done|].
  destruct (set_reads _ _ _ _ _ Hw Hen) as (_ & Ho2 & Hr2). rewrite Ho1 in Ho2. clear Hen Hsave Hc.
  unfold RestoreOriginalProxySettings in Hres. rewrite Ho2 in Hres.
  assert (Hgo : Enabled before = false ∨ Server before ≠ "" → r = Ok tt).
  { intros Hb. revert Hres. destruct Hw as (_ & Hop & Hs & _). unfold SetSystemProxy, then_set. rewrite Hop, !Hs. cbn [negb].
    destruct (Enabled before); cbn iota; [|by intros [= <- _]].
    destruct Hb as [|Hb]; [done|]. destruct (Server before) as [|a l]; [done|]. cbn. by intros [= <- _]. }
  split_and!.
  - intros Hb Hne. assert (Hr : r = Ok tt) by (apply Hgo; by right). subst r. split; [done|].
    destruct (set_reads _ _ _ _ _ Hw Hres) as (_ & _ & H). by rewrite Hb in H.
  - intros Hb. assert (Hr : r = Ok tt) by (apply Hgo; by left). subst r. split; [done|].
    destruct (set_reads _ _ _ _ _ Hw Hres) as (_ & _ & H). by rewrite Hb in H.
  - intros Hb He. revert Hres. destruct Hw as (_ & Hop & Hs & _). rewrite Hb, He. unfold SetSystemProxy, then_set. rewrite Hop, !Hs. cbn.
    intros [= <- <-]. split; [by eexists|]. subst after. rewrite <- Hr2.
    unfold read_status, string_value, set_value. cbn [registry]. change (registry (s2 {{ registry ::= <["ProxyEnable" := DWord 1]> }})) with (<["ProxyEnable" := DWord 1]> (registry s2)).
    look_up. unfold read_status in Hr2. injection Hr2 as He2 _ _. by rewrite He2.
Qed.

(** * Witnesses *)

Definition open_registry : reg_env := mkRegEnv 0 true true (λ _, true) (λ _, true).

Definition user_settings : sys_proxy :=
  mkSysProxy {["ProxyEnable" := DWord 1; "ProxyServer" := Sz "proxy.corp:3128"; "ProxyOverride" := Sz "*.corp"]} (mkProxyStatus false "" "") None None 0.

Lemma restore_settings_witness :
  ∃ s3, RestoreOriginalProxySettings open_registry (snd (EnableSystemProxy open_registry 7890 (snd (SaveOriginalProxySettings open_registry user_settings)))) = (Ok tt, s3) ∧
    read_status (registry s3) = mkProxyStatus true "proxy.corp:3128" "<local>".
Proof.
  eexists. split; [vm_compute; reflexivity|].
  refine (proj2 (proj1 (restore_settings open_registry 7890 user_settings _ _ _ (Ok tt) _ _ eq_refl eq_refl eq_refl) _ _)).
  - by split_and!.
  - done.
  - vm_compute. reflexivity.
  - done.
Defined.
