(* ===== verification/ErrorPage.v ===== *)
(** [proxy/error_page.go]: the pages shown for a connection that failed.

    Nothing in the repository calls [ServeErrorPage].  A Rocq string that holds a double quote
    is hard to read, so that the templates write ~ for it; [html] puts the quotes back. *)

From coqutil Require Import Datatypes.RecordSetters.
From S2P Require Import Prelude GoStrings GoText GasCache GasHTTP Types Hosts.
Import DoubleBraceUpdate.

Open Scope Z_scope.

(** * Formatting *)

(** [fmt.Sprintf] with string arguments and verbs of one letter. *)
Fixpoint Sprintf (f : string) (args : list string) : string :=
  match f with
  | EmptyString => match args with [] => "" | _ => "%!(EXTRA " +:+ Join ((λ a, "string=" +:+ a) <$> args) ", " +:+ ")" end
  | String c f =>
      if bool_decide (c = "%"%char) then
        match f with
        | EmptyString => "%!(NOVERB)"
        | String v f =>
            if bool_decide (v = "%"%char) then String v (Sprintf f args)
            else
              match args with
              | a :: args => a +:+ Sprintf f args
              | [] => ("%!" +:+ String v "(MISSING)") +:+ Sprintf f []
              end
        end
      else String c (Sprintf f args)
  end.

(** The number of its verbs, when it does not end within one. *)
Fixpoint verbs (f : string) : option nat :=
  match f with
  | EmptyString => Some O
  | String c f =>
      if bool_decide (c = "%"%char) then
        match f with
        | EmptyString => None
        | String v f => if bool_decide (v = "%"%char) then verbs f else S <$> verbs f
        end
      else verbs f
  end.

Fixpoint html (s : string) : string :=
  match s with
  | EmptyString => EmptyString
  | String c s => String (if bool_decide (c = "~"%char) then "034"%char else c) (html s)
  end.

(** * Texts *)

Record ErrorContext := mkErrorContext {
  TargetHost : string;
  RemoteIP : string;
  UpstreamSNI : string;
  WorkMode : string;
  ECHStatus : string;
  DNSNode : string;
  RawError : string;
  RequestURL : string;
}.

Record labels := mkLabels {
  l_target : string;
  l_mode : string;
  l_ip : string;
  l_sni : string;
  l_ech : string;
  l_raw : string;
  l_diag : string;
  l_action : string;
  l_detail : string;
}.

(** Persian unless English is asked for. *)
Definition page_labels (lang : string) : labels :=
  if bool_decide (lang = "en") then
    mkLabels "Target" "Work Mode" "Remote IP" "Upstream SNI" "ECH Status" "Raw Error" "Diagnosis" "Suggested Action" "Connection Details"
  else
    mkLabels "هدف" "حالت کار" "IP هدف" "نام میزبان" "وضعیت ECH" "خطای خام" "تحلیل تشخیصی" "عملیات پیشنهادی" "جزئیات اتصال".

(** The cases of the analysis, in the order in which they are tried. *)
Inductive diagnosis := SNIBlocked | TimedOut | Refused | ECHRejected | DNSFailed | Unknown.

Definition diagnose (ctx : ErrorContext) : diagnosis :=
  let err := ToLower (RawError ctx) in
  if Contains err "connection reset" || Contains err "remote error: tls: internal error" then SNIBlocked
  else if Contains err "timeout" then TimedOut
  else if Contains err "connection refused" then Refused
  else if Contains err "ech rejection" || Contains err "ech_required" then ECHRejected
  else if Contains err "no such host" || nonempty (DNSNode ctx) then DNSFailed
  else Unknown.

(** Title, analysis and suggestion. *)
Definition persian (ctx : ErrorContext) : string * string * string :=
  match diagnose ctx with
  | SNIBlocked =>
    ("مسدود شدن احتمالی SNI",
     "اتصال در مرحله دست دادن بازنشانی شد. این معمولاً زمانی رخ می‌دهد که فایروال دامنه حساس را تشخیص داده و بسته RST ارسال می‌کند.",
     "تلاش کنید ECH را فعال کنید یا SNI جعلی را تغییر دهید.")
  | TimedOut =>
    ("انقضای زمان اتصال",
     "در زمان تعیین شده امکان برقراری اتصال وجود ندارد. ممکن است سرور کند باشد یا بسته‌های شبکه در حال افت کردن باشند.",
     "محیط شبکه خود را بررسی کنید یا گره دیگری امتحان کنید.")
  | Refused =>
    ("خطای وب‌سایت یا مسدود شدن IP",
     "سرور مقصد درخواست اتصال را رد کرد. ممکن است سایت از دسترس خارج باشد یا آدرس IP در لیست سیاه فایروال قرار داشته باشد.",
     "بررسی کنید وب‌سایت در دسترس هست یا IP خروجی دیگری امتحان کنید.")
  | ECHRejected =>
    ("رد شدن ECH",
     "سرور پیکربندی Encrypted ClientHello (ECH) را رد کرد. معمولاً به این معنی است که کلید ECH به‌روز شده است.",
     "پروفایل ECH را در تنظیمات بازنشانی کنید یا موقتاً ECH را غیرفعال کنید.")
  | DNSFailed =>
    ("خطای حل DNS",
     Sprintf "عدم موفقیت در حل دامنه از طریق گره DNS پیکربندی شده [%s]." [DNSNode ctx],
     "پیکربندی DNS را بررسی کنید یا از ارائه‌دهنده پایدارتر استفاده کنید.")
  | Unknown =>
    ("خطا در اتصال",
     "امکان اتصال به سرور مقصد وجود ندارد.",
     "لطفاً اتصال شبکه یا تنظیمات پروکسی را بررسی کنید.")
  end.

Definition english (ctx : ErrorContext) : string * string * string :=
  match diagnose ctx with
  | SNIBlocked =>
    ("Suspected SNI Blockage",
     "The connection was reset during the handshake. This often happens when a firewall detects a sensitive domain and sends a RST packet.",
     "Try enabling ECH or changing the spoofed SNI.")
  | TimedOut =>
    ("Connection Timeout",
     "Could not establish connection within the allotted time. The server might be slow or network packets are being dropped.",
     "Check your network environment or try another node.")
  | Refused =>
    ("Website Error or IP Blocked",
     "The target server refused the connection. The site might be down, or the IP address is blacklisted by a firewall.",
     "Verify if the website is accessible elsewhere or try a different egress IP.")
  | ECHRejected =>
    ("ECH Rejected",
     "The server rejected the Encrypted ClientHello (ECH) configuration. This usually means the ECH key has expired.",
     "Refresh the ECH Profile in settings or temporarily disable ECH.")
  | DNSFailed =>
    ("DNS Resolution Error",
     Sprintf "Failed to resolve domain via configured DNS node [%s]." [DNSNode ctx],
     "Check your DNS configuration or use a more stable DNS provider.")
  | Unknown =>
    ("Connection Error",
     "Unable to connect to the target server.",
     "Please check your network connection or proxy settings.")
  end.

Definition page_template : string := "<!DOCTYPE html>
<html>
<head>
    <meta charset=~UTF-8~>
    <meta name=~viewport~ content=~width=device-width, initial-scale=1.0~>
	<title>NovaProxy Diagnostic</title>
    <style>
        :root {
            --bg: #0a0a0a;
            --card: #141414;
            --text: #e5e5e5;
            --text-muted: #a3a3a3;
            --accent: %s;
            --border: rgba(255, 255, 255, 0.08);
        }
        body {
            margin: 0;
            padding: 0;
            font-family: 'Inter', -apple-system, BlinkMacSystemFont, ~Segoe UI~, Roboto, sans-serif;
            background: var(--bg);
            background-image: %s;
            color: var(--text);
            display: flex;
            align-items: center;
            justify-content: center;
            min-height: 100vh;
        }
        .container {
            width: 90%%;
            max-width: 500px;
            animation: fadeIn 0.6s ease-out;
        }
        @keyframes fadeIn {
            from { opacity: 0; transform: translateY(20px); }
            to { opacity: 1; transform: translateY(0); }
        }
        .card {
            background: var(--card);
            border: 1px solid var(--border);
            border-radius: 24px;
            padding: 40px;
            box-shadow: 0 20px 40px rgba(0, 0, 0, 0.4);
            backdrop-filter: blur(10px);
        }
        .icon {
            width: 56px;
            height: 56px;
            background: var(--accent);
            border-radius: 18px;
            display: flex;
            align-items: center;
            justify-content: center;
            margin-bottom: 24px;
            box-shadow: 0 10px 20px rgba(59, 130, 246, 0.2);
        }
        h1 {
            font-size: 24px;
            font-weight: 800;
            margin: 0 0 12px 0;
            letter-spacing: -0.02em;
        }
        .analysis {
            font-size: 15px;
            line-height: 1.6;
            color: var(--text-muted);
            margin-bottom: 32px;
        }
        .section-title {
            font-size: 12px;
            font-weight: 700;
            text-transform: uppercase;
            letter-spacing: 0.1em;
            color: var(--accent);
            margin-bottom: 12px;
        }
        .suggest-card {
            background: rgba(255, 255, 255, 0.03);
            border-radius: 16px;
            padding: 16px;
            margin-bottom: 32px;
            font-size: 14px;
            border-left: 3px solid var(--accent);
        }
        .details {
            display: grid;
            grid-template-cols: auto 1fr;
            gap: 12px 20px;
            font-size: 13px;
        }
        .details-label {
            color: var(--text-muted);
            font-weight: 500;
        }
        .details-value {
            font-weight: 600;
            word-break: break-all;
            font-family: 'JetBrains Mono', 'SF Mono', monospace;
        }
        .raw-error {
            margin-top: 24px;
            padding-top: 24px;
            border-top: 1px solid var(--border);
            font-size: 11px;
            color: rgba(255, 255, 255, 0.3);
            font-family: monospace;
        }
    </style>
</head>
<body>
    <div class=~container~>
        <div class=~card~>
            <div class=~icon~>
                <svg width=~28~ height=~28~ viewBox=~0 0 24 24~ fill=~none~ stroke=~white~ stroke-width=~2.5~ stroke-linecap=~round~ stroke-linejoin=~round~><path d=~m10.27 2 1.01 2.02a2 2 0 0 0 1.44 1.1L15 6h5a2 2 0 0 1 2 2v11a2 2 0 0 1-2 2H4a2 2 0 0 1-2-2V4a2 2 0 0 1 2-2h5a2 2 0 0 1 .27.02Z~/><path d=~M12 11v4~/><path d=~M12 17h.01~/></svg>
            </div>
            <h1>%s</h1>
            <div class=~analysis~>%s</div>

            <div class=~section-title~>%s</div>
            <div class=~suggest-card~>%s</div>

            <div class=~section-title~>%s</div>
            <div class=~details~>
                <div class=~details-label~>%s:</div><div class=~details-value~>%s</div>
                <div class=~details-label~>%s:</div><div class=~details-value~>%s</div>
                <div class=~details-label~>%s:</div><div class=~details-value~>%s</div>
                <div class=~details-label~>%s:</div><div class=~details-value~>%s</div>
                <div class=~details-label~>%s:</div><div class=~details-value~>%s</div>
            </div>

            <div class=~raw-error~>
                %s: %s
            </div>
        </div>
    </div>
</body>
</html>".

Definition cert_template : string := "<!DOCTYPE html>
<html>
<head>
    <meta charset=~UTF-8~>
    <meta name=~viewport~ content=~width=device-width, initial-scale=1.0~>
    <title>Privacy Error</title>
    <style>
        body { background: #d32f2f; color: white; font-family: 'Segoe UI', Tahoma, sans-serif; margin: 0; display: flex; align-items: center; justify-content: center; min-height: 100vh; }
        .container { max-width: 600px; padding: 40px; }
        .icon { font-size: 64px; margin-bottom: 20px; }
        h1 { font-size: 32px; margin: 0 0 20px 0; font-weight: 400; }
        p { line-height: 1.6; opacity: 0.9; margin-bottom: 30px; }
        .btns { display: flex; gap: 20px; align-items: center; }
        button { background: white; color: #d32f2f; border: none; padding: 10px 24px; border-radius: 4px; font-weight: bold; cursor: pointer; }
        .advanced-btn { background: transparent; color: white; opacity: 0.8; font-size: 14px; }
        #advanced-panel { display: none; margin-top: 30px; background: rgba(0,0,0,0.1); padding: 20px; border-radius: 4px; font-size: 13px; }
        a { color: white; text-decoration: underline; }
    </style>
</head>
<body>
    <div class=~container~>
        <div class=~icon~>⚠</div>
        <h1>%s</h1>
        <p>%s</p>
        <div class=~btns~>
            <button onclick=~history.back()~>%s</button>
            <div class=~advanced-btn~ style=~cursor:pointer~ onclick=~document.getElementById('advanced-panel').style.display='block'~>%s</div>
        </div>
        <div id=~advanced-panel~>
            <p>%s</p>
            <p><a href=~%s~>%s</a></p>
            <div style=~font-family: monospace; opacity: 0.6; margin-top: 10px;~>Error: CERT_VALIDATION_FAILED<br>Detail: %s</div>
        </div>
    </div>
</body>
</html>".

Definition bypass_template : string := "<html><body style='background:#1a1a1a;color:white;font-family:sans-serif;display:flex;flex-direction:column;align-items:center;justify-content:center;height:100vh'><h1>%s</h1><p>%s</p><script>setTimeout(()=>history.back(), 2000)</script></body></html>".

(** * Pages *)

Definition generateHTML (lang title analysis suggest : string) (ctx : ErrorContext) : string :=
  let l := page_labels lang in
  Sprintf (html page_template)
    ["#3b82f6"; "linear-gradient(135deg, #1a1a1a 0%, #0d0d0d 100%)"; title; analysis; l_action l; suggest; l_detail l;
     l_target l; TargetHost ctx; l_mode l; WorkMode ctx; l_ip l; RemoteIP ctx; l_sni l; UpstreamSNI ctx; l_ech l; ECHStatus ctx;
     l_raw l; RawError ctx].

Definition renderErrorPage (lang : string) (ctx : ErrorContext) : string :=
  let '(title, analysis, suggest) := if bool_decide (lang = "fa") then persian ctx else english ctx in
  generateHTML lang title analysis suggest ctx.

Definition renderCertErrorPage (lang : string) (ctx : ErrorContext) : string :=
  let bypassURL := Sprintf "https://%s/__novaproxy_bypass_cert__?host=%s&url=%s" [TargetHost ctx; TargetHost ctx; RequestURL ctx] in
  let '(title, analysis, suggest, advanced, proceed, back) :=
    if bool_decide (lang = "en") then
      ("Your connection is not private",
       "NovaProxy detected potential risks with the site's certificate, which could be due to expiration, mismatch, or interception.",
       "We recommend returning to safety. If you trust this site, click 'Advanced' to proceed.",
       "Advanced", "Proceed to %s (unsafe)", "Back to safety")
    else
      ("اتصال شما خصوصی نیست",
       "NovaProxy ریسک‌هایی را در گواهی سایت تشخیص داد که ممکن است به دلیل انقضاء، عدم تطابق دامنه یا رهگیری باشد.",
       "توصیه می‌شود به حالت امن برگردید. اگر به این سایت اعتماد دارید، روی 'پیشرفته' کلیک کنید.",
       "پیشرفته", "ادامه به %s (غیرامن)", "بازگشت به حالت امن") in
  Sprintf (html cert_template) [title; analysis; back; advanced; suggest; bypassURL; Sprintf proceed [TargetHost ctx]; RawError ctx].

(** * Serving *)

Definition head_lines_of (status body : string) : list string :=
  ["HTTP/1.1 " +:+ status; "Content-Type: text/html"; "Content-Length: " +:+ Itoa (zlen body); "Connection: close"].

Definition response (status body : string) : string := with_eol (head_lines_of status body) +:+ CRLF +:+ body.

(** The context of a failure; [profile] also shows the ECH profile. *)
Definition error_context (profile : bool) (host ip sni : string) (rule : Rule) (err url : string) : ErrorContext :=
  mkErrorContext host ip sni (r_Mode rule)
    (if r_ECHEnabled rule then "Enabled" +:+ (if profile && nonempty (r_ECHProfileID rule) then Sprintf " (Profile: %s)" [r_ECHProfileID rule] else "")
     else "Disabled")
    "" err url.

Definition page_language (lang : string) : string := if nonempty lang then lang else "fa".

(** What is written, and the hosts whose certificates are not verified from then on;
    [req]: the path and the URL of the request, when one could be read. *)
Definition ServeErrorPage (lang host ip sni : string) (rule : Rule) (err : string) (req : option (string * string)) (bypass : gset string) : string * gset string :=
  let lang := page_language lang in
  if match req with Some (path, _) => Contains path "__novaproxy_bypass_cert__" | None => false end then
    (response "200 OK"
       (Sprintf bypass_template ["Bypass Enabled"; "Temporary certificate bypass enabled for this domain. Please refresh to continue."]),
     {[normalizeHost host]} ∪ bypass)
  else
    (response "502 Bad Gateway" (renderErrorPage lang (error_context true host ip sni rule err (match req with Some (_, url) => url | None => "" end))), bypass).

(** The status and the body. *)
Definition ServeErrorPageHTTP (lang host ip sni : string) (rule : Rule) (err : string) : Z * string :=
  (502, renderErrorPage (page_language lang) (error_context false host ip sni rule err "")).

(** An error: the code behind a pointer in a [net.OpError], if there is one, and the text. *)
Definition isRSTError (err : option (option Z * string)) (ECONNRESET WSAECONNRESET : Z) : bool :=
  match err with
  | None => false
  | Some (Some errno, _) => (errno =? ECONNRESET) || (errno =? WSAECONNRESET)
  | Some (None, text) => Contains (ToLower text) "connection reset" || Contains (ToLower text) "remote error: tls: internal error"
  end.

(** * Lemmas *)

Lemma not_zero_args (args : list string) a : Some O = Some (length args) → a ∈ args → False.
Proof. by destruct args; [intros _ ?%not_elem_of_nil|]. Qed.

(** A format with as many verbs as arguments shows every argument as it is. *)
Lemma Sprintf_shows_fuel n f args a :
  (String.length f ≤ n)%nat → verbs f = Some (length args) → a ∈ args → ∃ l r, Sprintf f args = l +:+ a +:+ r.
Proof.
  induction n as [|n IH] in f, args |- *; destruct f as [|c f]; cbn [String.length]; try (intros _ Hv Ha; by destruct (not_zero_args args a)).
  { intros H. lia. }
  intros Hn. cbn [verbs Sprintf]. destruct (bool_decide (c = "%"%char)).
  - destruct f as [|v f]; [done|]. cbn [String.length] in Hn. destruct (bool_decide (v = "%"%char)).
    + intros Hv Ha. destruct (IH f args ltac:(lia) Hv Ha) as (l & r & ->). by exists (String v l), r.
    + destruct args as [|b args]; [by intros _ ?%not_elem_of_nil|]. intros Hv. destruct (verbs f) as [k|] eqn:Hk; [|done]. injection Hv as ->.
      intros [->|Ha]%elem_of_cons; [by exists "", (Sprintf f args)|].
      destruct (IH f args ltac:(lia) Hk Ha) as (l & r & ->). exists (b +:+ l), r. by rewrite !str_app_assoc.
  - intros Hv Ha. destruct (IH f args ltac:(lia) Hv Ha) as (l & r & ->). by exists (String c l), r.
Qed.

Lemma Sprintf_shows f args a : verbs f = Some (length args) → a ∈ args → ∃ l r, Sprintf f args = l +:+ a +:+ r.
Proof. apply (Sprintf_shows_fuel (String.length f)). lia. Qed.

Lemma page_verbs : verbs (html page_template) = Some 19%nat.
Proof. vm_compute. reflexivity. Qed.

Lemma cert_verbs : verbs (html cert_template) = Some 8%nat.
Proof. vm_compute. reflexivity. Qed.

Lemma response_framed status body :
  plain status → status ≠ "" → zlen body ≤ max_int64 →
  gasExtractBody (response status body) = Some body ∧ gasParseContentLength (response status body) = Ok (zlen body).
Proof.
  intros Hp Hne Hz.
  assert (Hhead : head_ok (head_lines_of status body)).
  { unfold head_lines_of. repeat (apply list.Forall_cons; split); try done; (split; [|done]); apply plain_app; split; try done. apply plain_Itoa. }
  split; [by apply extract_head|]. unfold gasParseContentLength, SplitSeq, response.
  destruct (split_head (head_lines_of status body) (CRLF +:+ body) _ (list.Forall_impl _ _ _ Hhead (λ l, @proj1 _ _)) (le_n _)) as (fuel & _ & ->).
  change (head_lines_of status body ++ split_seq fuel (CRLF +:+ body) CRLF)
    with (["HTTP/1.1 " +:+ status; "Content-Type: text/html"] ++ ("Content-Length: " +:+ Itoa (zlen body)) :: "Connection: close" :: split_seq fuel (CRLF +:+ body) CRLF).
  rewrite content_length_skip by (repeat constructor; done). apply content_length_line. pose proof (zlen_nonneg body). lia.
Qed.

Lemma page_shows lang ctx shown :
  shown ∈ [TargetHost ctx; RemoteIP ctx; UpstreamSNI ctx; RawError ctx] → ∃ l r, renderErrorPage lang ctx = l +:+ shown +:+ r.
Proof.
  intros Hs. unfold renderErrorPage. destruct (if bool_decide (lang = "fa") then persian ctx else english ctx) as [[title analysis] suggest].
  unfold generateHTML. apply Sprintf_shows; [apply page_verbs|]. rewrite !elem_of_cons in *. tauto.
Qed.

Lemma response_shows status page shown : (∃ l r, page = l +:+ shown +:+ r) → ∃ l r, response status page = l +:+ shown +:+ r.
Proof. intros (l & r & ->). exists (with_eol (head_lines_of status (l +:+ shown +:+ r)) +:+ CRLF +:+ l), r. unfold response. by rewrite !str_app_assoc. Qed.

(** The page for a failed connection.  A reader of the response finds the whole page as the body,
    and the length announced for it is its length.  The page shows the host asked for and the
    text of the error as they are: what they contain of HTML becomes part of the page.  Only
    a request whose path names the bypass changes whose certificates are verified. *)
Theorem error_page_read lang host ip sni rule err req bypass :
  let '(text, bypass') := ServeErrorPage lang host ip sni rule err req bypass in
  (zlen text ≤ max_int64 → ∃ page, gasExtractBody text = Some page ∧ gasParseContentLength text = Ok (zlen page)) ∧
  (bypass' ≠ bypass → ∃ path url, req = Some (path, url) ∧ Contains path "__novaproxy_bypass_cert__" = true) ∧
  (bypass' = bypass ∨ bypass' = {[normalizeHost host]} ∪ bypass) ∧
  (match req with Some (path, _) => Contains path "__novaproxy_bypass_cert__" | None => false end = false →
   ∀ shown, shown ∈ [host; ip; sni; err] → ∃ l r, text = l +:+ shown +:+ r).
Proof.
  unfold ServeErrorPage. set (is_bypass := match req with Some (path, _) => _ | None => false end).
  assert (Hresp : ∀ status page, plain status → status ≠ "" → zlen (response status page) ≤ max_int64 →
    ∃ page', gasExtractBody (response status page) = Some page' ∧ gasParseContentLength (response status page) = Ok (zlen page')).
  { intros status page Hp Hne Hz. exists page. apply response_framed; [done..|]. revert Hz. unfold response, zlen. rewrite !slen_app. lia. }
  destruct is_bypass eqn:Hb.
  - split_and!; [by apply Hresp| |by right|done]. intros _. unfold is_bypass in Hb. destruct req as [[path url]|]; [|done]. by exists path, url.
  - split_and!; [by apply Hresp|done|by left|]. intros _ shown Hs. apply response_shows, page_shows. exact Hs.
Qed.

(** Any language but the two of the texts gets an English page with Persian labels. *)
Lemma mixed_languages ctx lang :
  lang ≠ "fa" → lang ≠ "en" →
  renderErrorPage lang ctx = (let '(title, analysis, suggest) := english ctx in generateHTML lang title analysis suggest ctx) ∧ page_labels lang = page_labels "fa".
Proof. intros H1 H2. unfold renderErrorPage, page_labels. by rewrite !(bool_decide_false (lang = _)). Qed.

(** * Witnesses *)

Example refused_by_peer :
  diagnose (mkErrorContext "a.example" "" "" "mitm" "Disabled" "" "dial tcp: connectex: Connection Refused" "") = Refused ∧
  diagnose (mkErrorContext "a.example" "" "" "mitm" "Disabled" "" "read: connection reset by peer (timeout)" "") = SNIBlocked.
Proof. by vm_compute. Qed.

Lemma error_page_read_witness :
  ∃ l r, fst (ServeErrorPage "en" "a.example" "192.0.2.1" "" Rule_zero "<script>alert(1)</script>" (Some ("/", "/")) ∅) = l +:+ "<script>alert(1)</script>" +:+ r.
Proof.
  destruct (error_page_read "en" "a.example" "192.0.2.1" "" Rule_zero "<script>alert(1)</script>" (Some ("/", "/")) ∅) as (_ & _ & _ & H).
  apply H; [by vm_compute|]. apply (bool_decide_eq_true_1 _). by vm_compute.
Defined.
