(* ===== verification/Tunnel.v ===== *)
(** The tunnels: [directTunnel], [directConnect], [socksTunnel], [handleGASConnect] and
    [handleV2RayConnect] of [proxy/proxy.go], [relayRawTCP] of [proxy/gas_relay.go].

    Two goroutines copy one direction each; they differ in what a goroutine closes when it
    leaves, and in what was read of the two connections before the goroutines start.  Peers act
    at any time: they send, end or reset their side, and take what is sent to them or not, when
    a write waits. *)

From coqutil Require Import Datatypes.RecordSetters.
From Stdlib Require Import Strings.Byte.
From S2P Require Import Prelude GoStrings.
Import DoubleBraceUpdate.

(** * State *)

(** One of the two connections. *)
Record endpoint := mkEnd {
  sent : list byte;              (** all its peer has sent *)
  unread : list byte;            (** what of it was not read yet *)
  ended : bool;                  (** the peer sends no more *)
  broken : bool;                 (** the peer has reset the connection *)
  closed : bool;                 (** closed on this side *)
  full : bool;                   (** its peer takes no more for the time being *)
  got : list byte;               (** what was delivered to its peer *)
}.

(** A goroutine: in [Read], in [Write], out of [io.CopyBuffer], and ended. *)
Inductive copier := Reading | Writing (chunk : list byte) | Leaving | Finished.

Record tunnel := mkTunnel { client : endpoint; upstream : endpoint; up : copier; down : copier }.

Inductive direction := Up | Down.

Definition flip (d : direction) : direction := match d with Up => Down | Down => Up end.

Definition source (d : direction) (t : tunnel) : endpoint := match d with Up => client t | Down => upstream t end.
Definition target (d : direction) (t : tunnel) : endpoint := source (flip d) t.
Definition copier_of (d : direction) (t : tunnel) : copier := match d with Up => up t | Down => down t end.

Definition on_source (d : direction) (f : endpoint → endpoint) (t : tunnel) : tunnel :=
  match d with Up => mkTunnel (f (client t)) (upstream t) (up t) (down t) | Down => mkTunnel (client t) (f (upstream t)) (up t) (down t) end.
Definition on_target (d : direction) (f : endpoint → endpoint) (t : tunnel) : tunnel := on_source (flip d) f t.
Definition set_copier (d : direction) (c : copier) (t : tunnel) : tunnel :=
  match d with Up => mkTunnel (client t) (upstream t) c (down t) | Down => mkTunnel (client t) (upstream t) (up t) c end.

(** The single updates of a connection. *)
Definition receive (bs : list byte) (e : endpoint) : endpoint := e {{ sent ::= λ l, l ++ bs; unread ::= λ l, l ++ bs }}.
Definition consume (n : nat) (e : endpoint) : endpoint := e {{ unread ::= drop n }}.
Definition append_got (bs : list byte) (e : endpoint) : endpoint := e {{ got ::= λ l, l ++ bs }}.
Definition close (e : endpoint) : endpoint := e {{ closed := true }}.
Definition finish_sending (e : endpoint) : endpoint := e {{ ended := true }}.
Definition set_full (f : bool) (e : endpoint) : endpoint := e {{ full := f }}.
Definition break (e : endpoint) : endpoint := e {{ broken := true }}.

(** * Steps *)

(** What a goroutine closes when it leaves: the connection it wrote to, both, none. *)
Inductive policy := CloseTarget | CloseBoth | CloseNone.

Definition leave (p : policy) (d : direction) (t : tunnel) : tunnel :=
  match p with
  | CloseTarget => on_target d close t
  | CloseBoth => on_source d close (on_target d close t)
  | CloseNone => t
  end.

Definition directTunnel : policy := CloseTarget.
Definition directConnect : policy := CloseTarget.
Definition socksTunnel : policy := CloseBoth.
Definition handleGASConnect : policy := CloseBoth.
Definition handleV2RayConnect : policy := CloseBoth.
Definition relayRawTCP : policy := CloseNone.

(** The buffers of [tunnelBufPool]. *)
Definition buffer : Z := 131072.

(** The goroutine of a direction reads [n] bytes, ends reading, writes, fails to write all but
    [n] bytes, leaves; or the peer it reads from acts, also on what the other goroutine writes. *)
Inductive action :=
  | Reads (d : direction) (n : nat)
  | ReadEnds (d : direction)
  | Writes (d : direction)
  | WriteFails (d : direction) (n : nat)
  | Leaves (d : direction)
  | PeerSends (d : direction) (bs : list byte)
  | PeerEnds (d : direction)
  | PeerBreaks (d : direction)
  | PeerTakes (d : direction) (more : bool).

Definition is_nil {A} (l : list A) : bool := match l with [] => true | _ => false end.

Definition no_more (e : endpoint) : bool := closed e || broken e || (ended e && is_nil (unread e)).

Definition act (p : policy) (a : action) (t : tunnel) : option tunnel :=
  match a with
  | Reads d n =>
      match copier_of d t with
      | Reading =>
          if negb (closed (source d t)) && (0 <? n)%nat && (Z.of_nat n <=? buffer)%Z && (n <=? length (unread (source d t)))%nat
          then Some (set_copier d (Writing (take n (unread (source d t)))) (on_source d (consume n) t)) else None
      | _ => None
      end
  | ReadEnds d =>
      match copier_of d t with
      | Reading => if no_more (source d t) then Some (set_copier d Leaving t) else None
      | _ => None
      end
  | Writes d =>
      match copier_of d t with
      | Writing chunk =>
          if negb (closed (target d t)) && negb (broken (target d t)) && negb (full (target d t)) then Some (set_copier d Reading (on_target d (append_got chunk) t)) else None
      | _ => None
      end
  | WriteFails d n =>
      match copier_of d t with
      | Writing chunk =>
          if closed (target d t) || broken (target d t) then Some (set_copier d Leaving (on_target d (append_got (take n chunk)) t)) else None
      | _ => None
      end
  | Leaves d =>
      match copier_of d t with
      | Leaving => Some (set_copier d Finished (leave p d t))
      | _ => None
      end
  | PeerSends d bs => if ended (source d t) || broken (source d t) then None else Some (on_source d (receive bs) t)
  | PeerEnds d => Some (on_source d finish_sending t)
  | PeerBreaks d => Some (on_source d break t)
  | PeerTakes d more => Some (on_source d (set_full (negb more)) t)
  end.

Fixpoint acts (p : policy) (l : list action) (t : tunnel) : option tunnel :=
  match l with [] => Some t | a :: l => act p a t ≫= acts p l end.

Definition fresh_end : endpoint := mkEnd [] [] false false false false [].

Definition opened : tunnel := mkTunnel fresh_end fresh_end Reading Reading.

(** ** The tunnels of the program *)

(** [directTunnel] and [directConnect]; [socksTunnel] under [socksDirect], under [socksDirect]
    after a failed TLS handshake, and through the GAS proxy; [handleGASConnect];
    [handleV2RayConnect]; [relayRawTCP]. *)
Inductive tunnels := DirectTunnel | DirectConnect | SocksDirect | SocksAfterTLS | SocksGAS | GASConnect | V2RayConnect | RawTCP.

Definition policy_of (k : tunnels) : policy :=
  match k with
  | DirectTunnel => directTunnel
  | DirectConnect => directConnect
  | SocksDirect | SocksAfterTLS | SocksGAS => socksTunnel
  | GASConnect => handleGASConnect
  | V2RayConnect => handleV2RayConnect
  | RawTCP => relayRawTCP
  end.

(** Bytes that arrived and were read into the buffer of a [bufio.Reader], or by a handshake. *)
Definition read_ahead (bs : list byte) (e : endpoint) : endpoint := consume (length bs) (receive bs e).

(** The bytes in the buffer are read before those of the connection. *)
Definition wrapHijackedConn (buffered : list byte) (e : endpoint) : endpoint := e {{ unread ::= app buffered }}.

(** What the client has sent when the tunnel starts, beyond its request: after a hijack it is in
    the server's buffer and handed back; SOCKS5 reads exactly its messages; the handshake that
    failed has read it, and so has the reader of the relay's front end. *)
Definition client_side (k : tunnels) (early : list byte) : endpoint :=
  match k with
  | DirectTunnel | DirectConnect | GASConnect | V2RayConnect => wrapHijackedConn early (read_ahead early fresh_end)
  | SocksDirect | SocksGAS => receive early fresh_end
  | SocksAfterTLS | RawTCP => read_ahead early fresh_end
  end.

(** What the upstream has sent, beyond the answer to a CONNECT: only the GAS proxy's is read
    through a buffer, which is dropped. *)
Definition upstream_side (k : tunnels) (greeting : list byte) : endpoint :=
  match k with
  | SocksGAS | GASConnect => read_ahead greeting fresh_end
  | _ => receive greeting fresh_end
  end.

Definition start (k : tunnels) (early greeting : list byte) : tunnel := mkTunnel (client_side k early) (upstream_side k greeting) Reading Reading.

(** What the goroutines do by themselves. *)
Definition internal (a : action) : bool := match a with PeerSends _ _ | PeerEnds _ | PeerBreaks _ | PeerTakes _ _ => false | _ => true end.

(** * What arrives *)

Definition finished (d : direction) (t : tunnel) : bool := match copier_of d t with Finished => true | _ => false end.

(** Who closes the connection that the goroutine of a direction writes to. *)
Definition closed_by (p : policy) (d : direction) (t : tunnel) : bool :=
  match p with CloseTarget => finished d t | CloseBoth => finished d t || finished (flip d) t | CloseNone => false end.

(** Something other than the end of the source has stopped a direction. *)
Definition disturbed (d : direction) (t : tunnel) : bool := broken (client t) || broken (upstream t) || finished (flip d) t.

(** The parts of a direction: what was passed on to the tunnel is what was delivered, what is
    being written and what was not read yet; in the end all was delivered, or it was cut. *)
Definition faithful_parts (c : copier) (src_sent src_unread tgt_got : list byte) (src_ended cut : bool) : Prop :=
  match c with
  | Reading => src_sent = tgt_got ++ src_unread
  | Writing chunk => src_sent = tgt_got ++ chunk ++ src_unread
  | Leaving | Finished => tgt_got `prefix_of` src_sent ∧ (tgt_got = src_sent ∧ src_ended = true ∨ cut = true)
  end.

Definition faithful (p : policy) (lost : list byte) (d : direction) (t : tunnel) : Prop :=
  (∀ d, closed (target d t) = closed_by p d t) ∧
  ∃ passed, sent (source d t) = lost ++ passed ∧
    faithful_parts (copier_of d t) passed (unread (source d t)) (got (target d t)) (ended (source d t)) (disturbed d t).

(** The parts after each step of a goroutine and of the peers. *)
Lemma parts_mono c s u g e e' k k' : (e = true → e' = true) → (k = true → k' = true) → faithful_parts c s u g e k → faithful_parts c s u g e' k'.
Proof. intros He Hk. destruct c; cbn; naive_solver. Qed.

Lemma parts_read n s u g e k : faithful_parts Reading s u g e k → faithful_parts (Writing (take n u)) s (drop n u) g e k.
Proof. cbn. by rewrite take_drop. Qed.

Lemma parts_end s u g e k : k || (e && is_nil u) = true → faithful_parts Reading s u g e k → faithful_parts Leaving s u g e k.
Proof.
  cbn. intros Hk ->. split; [by apply prefix_app_r|]. destruct k; [by right|]. left. destruct e, u; try done. by rewrite app_nil_r.
Qed.

Lemma parts_write chunk s u g e k : faithful_parts (Writing chunk) s u g e k → faithful_parts Reading s u (g ++ chunk) e k.
Proof. cbn. by rewrite app_assoc. Qed.

Lemma parts_fail l chunk s u g e k : k = true → l `prefix_of` chunk → faithful_parts (Writing chunk) s u g e k → faithful_parts Leaving s u (g ++ l) e k.
Proof. cbn. intros -> [r ->] ->. split; [|by right]. rewrite <- !app_assoc, app_assoc. by apply prefix_app_r. Qed.

Lemma parts_leave s u g e k k' : (k = true → k' = true) → faithful_parts Leaving s u g e k → faithful_parts Finished s u g e k'.
Proof. cbn. naive_solver. Qed.

Lemma parts_send bs c s u g e k : e = false → faithful_parts c s u g e k → faithful_parts c (s ++ bs) (u ++ bs) g e k.
Proof.
  intros ->. destruct c; cbn; [by intros ->; rewrite app_assoc|by intros ->; rewrite <- !app_assoc|..];
    (intros [Hp [[_ ?]|Hk]]; [done|]; split; [by apply prefix_app_r|by right]).
Qed.

(** The cases of a step that can be made. *)
Ltac step_cases :=
  repeat lazymatch goal with |- match ?c with _ => _ end = Some _ → _ => destruct c eqn:?; try discriminate end.

(** The flags of the connections and the goroutines. *)
Ltac flags :=
  simpl in *; try done;
  match goal with
  | b : bool |- context [?b'] => constr_eq b b'; destruct b; flags
  | c : copier |- context [?c'] => constr_eq c c'; destruct c; flags
  | b : bool, H : context [?b'] |- _ => constr_eq b b'; destruct b; flags
  | c : copier, H : context [?c'] |- _ => constr_eq c c'; destruct c; flags
  end.

Ltac parts_step :=
  first
    [ assumption
    | by apply parts_read
    | by apply parts_write
    | apply parts_send; [|eassumption]; flags
    | eapply parts_end; [|eassumption]; flags
    | eapply parts_fail; [|apply prefix_take|eassumption]; flags
    | eapply parts_leave; [|eassumption]; flags
    | eapply parts_mono; [| |eassumption]; flags ].

Lemma closed_by_step p a t t' : act p a t = Some t' → (∀ d, closed (target d t) = closed_by p d t) → ∀ d, closed (target d t') = closed_by p d t'.
Proof.
  destruct t as [[s1 u1 e1 b1 c1 f1 g1] [s2 u2 e2 b2 c2 f2 g2] cu cd]. intros Ha Hc.
  pose proof (Hc Up) as Hu. pose proof (Hc Down) as Hd. cbn in Hu, Hd. clear Hc. revert Ha.
  destruct a as [d' n|d'|d'|d' n|d'|d' bs|d'|d'|d' more], d'; cbn; step_cases; destruct p; intros [= <-] [|]; cbn in *; subst; try done; flags.
Qed.

Lemma faithful_step p lost d a t t' : act p a t = Some t' → faithful p lost d t → faithful p lost d t'.
Proof.
  intros Ha [Hc H]. split; [by eapply closed_by_step|]. pose proof (Hc Up) as Hu. pose proof (Hc Down) as Hd. clear Hc. revert Ha H Hu Hd.
  unfold disturbed, finished, no_more. destruct t as [[s1 u1 e1 b1 c1 f1 g1] [s2 u2 e2 b2 c2 f2 g2] cu cd].
  destruct a as [d' n|d'|d'|d' n|d'|d' bs|d'|d'|d' more], d', d; cbn -[faithful_parts];
    step_cases; destruct p; intros [= <-] (passed & -> & H) Hu Hd; unfold closed_by, finished, no_more in *; cbn -[faithful_parts] in *; subst;
    first [exists passed; split; [done|]; parts_step|exists (passed ++ bs); split; [by rewrite app_assoc|]; parts_step].
Qed.

Lemma acts_app p l l' t : acts p (l ++ l') t = acts p l t ≫= acts p l'.
Proof. induction l as [|a l IH] in t |- *; [done|]. cbn [acts app]. destruct (act p a t) as [t1|]; [|done]. apply IH. Qed.

(** Induction over the reachable tunnels. *)
Lemma acts_invariant p (I : tunnel → Prop) l t t' :
  (∀ a t1 t2, act p a t1 = Some t2 → I t1 → I t2) → acts p l t = Some t' → I t → I t'.
Proof.
  intros Hs. induction l as [|a l IH] in t |- *; [by intros [= <-]|]. cbn [acts]. destruct (act p a t) as [t1|] eqn:E; [|done].
  intros H Ht. by apply (IH t1 H), (Hs a t).
Qed.

(** * How a tunnel ends *)

Definition done_copying (t : tunnel) : bool := match up t, down t with Finished, Finished => true | _, _ => false end.

(** A goroutine that has ended has closed what it wrote to, unless it closes nothing. *)
Definition closes_behind (p : policy) (t : tunnel) : Prop := p ≠ CloseNone → ∀ d, copier_of d t = Finished → closed (target d t) = true.

Lemma closes_behind_step p a t t' : act p a t = Some t' → closes_behind p t → closes_behind p t'.
Proof.
  destruct t as [[s1 u1 e1 b1 c1 f1 g1] [s2 u2 e2 b2 c2 f2 g2] cu cd]. unfold closes_behind. intros Ha H Hp. specialize (H Hp).
  pose proof (H Up) as Hu. pose proof (H Down) as Hd. cbn in Hu, Hd. clear H. revert Ha.
  destruct a as [d' n|d'|d'|d' n|d'|d' bs|d'|d'|d' more], d'; cbn;
    step_cases;
    try (destruct p; try done); intros [= <-] [|]; cbn; naive_solver.
Qed.

(** Something has happened that ends a tunnel: a peer has sent its last byte or reset its
    connection, or a connection was closed. *)
Definition touched (t : tunnel) : bool :=
  ended (client t) || broken (client t) || closed (client t) || ended (upstream t) || broken (upstream t) || closed (upstream t).

(** The steps the goroutines can still make. *)
Definition weight (c : copier) : nat := match c with Reading => 2 | Writing _ => 3 | Leaving => 1 | Finished => 0 end.

Definition steps_left (t : tunnel) : nat :=
  2 * length (unread (client t)) + 2 * length (unread (upstream t)) + weight (up t) + weight (down t).

Lemma internal_decreases p a t t' : internal a = true → act p a t = Some t' → (steps_left t' < steps_left t)%nat.
Proof.
  unfold steps_left. destruct t as [[s1 u1 e1 b1 c1 f1 g1] [s2 u2 e2 b2 c2 f2 g2] cu cd].
  destruct a as [d' n|d'|d'|d' n|d'|d' bs|d'|d'|d' more], d'; intros Hi; try done; cbn -[Nat.ltb Nat.leb Nat.mul];
    step_cases;
    try (destruct p; try done); intros [= <-]; cbn -[Nat.mul]; rewrite ?length_drop; try lia;
    repeat match goal with H : _ && _ = true |- _ => apply andb_true_iff in H as [] end; rewrite ?Nat.ltb_lt, ?Nat.leb_le in *; lia.
Qed.

Lemma touched_step p a t t' : act p a t = Some t' → touched t = true → touched t' = true.
Proof.
  destruct t as [[s1 u1 e1 b1 c1 f1 g1] [s2 u2 e2 b2 c2 f2 g2] cu cd]. unfold touched. intros Ha Ht. cbn in Ht. revert Ha.
  destruct a as [d' n|d'|d'|d' n|d'|d' bs|d'|d'|d' more], d'; cbn -[orb];
    step_cases; try destruct p; intros [= <-]; cbn -[orb]; first [exact Ht|by rewrite ?orb_true_r|flags].
Qed.

(** A goroutine that waits for its peer. *)
Definition waits (d : direction) (t : tunnel) : Prop :=
  copier_of d t = Reading ∧ unread (source d t) = [] ∧ no_more (source d t) = false.

Lemma moves_or_waits p d t : full (target d t) = false → (∃ a t', internal a = true ∧ act p a t = Some t') ∨ waits d t ∨ copier_of d t = Finished.
Proof.
  intros Hf. destruct (copier_of d t) as [|chunk| |] eqn:Hc.
  - destruct (no_more (source d t)) eqn:Hn; [left; exists (ReadEnds d); cbn; rewrite Hc, Hn; by eexists|].
    destruct (unread (source d t)) as [|b u] eqn:Hu; [by right; left|].
    left. exists (Reads d 1). cbn. rewrite Hc, Hu. unfold no_more in Hn. destruct (closed (source d t)); [done|]. by eexists.
  - left. destruct (closed (target d t) || broken (target d t)) eqn:Hb.
    + exists (WriteFails d 0). cbn. rewrite Hc, Hb. by eexists.
    + exists (Writes d). cbn. apply orb_false_iff in Hb as [-> ->]. rewrite Hc, Hf. by eexists.
  - left. exists (Leaves d). cbn. rewrite Hc. by eexists.
  - by right; right.
Qed.

Lemma waits_alive d t : waits d t → closed (source d t) = false ∧ broken (source d t) = false ∧ ended (source d t) = false.
Proof.
  intros (_ & Hu & Hn). unfold no_more in Hn. rewrite Hu in Hn.
  destruct (closed (source d t)), (broken (source d t)), (ended (source d t)); done.
Qed.

Lemma can_move p t :
  p ≠ CloseNone → closes_behind p t → full (client t) = false → full (upstream t) = false → touched t = true → done_copying t = false → ∃ a t', internal a = true ∧ act p a t = Some t'.
Proof.
  intros Hp Hcb Hf1 Hf2 Ht Hd. specialize (Hcb Hp).
  destruct (moves_or_waits p Up t Hf2) as [|Hu]; [done|]. destruct (moves_or_waits p Down t Hf1) as [|Hw]; [done|]. exfalso.
  destruct Hu as [Hu|Hu], Hw as [Hw|Hw].
  - apply waits_alive in Hu as (H1 & H2 & H3), Hw as (H4 & H5 & H6). unfold touched in Ht. cbn in *. by rewrite H1, H2, H3, H4, H5, H6 in Ht.
  - apply waits_alive in Hu as (H1 & _). apply Hcb in Hw. cbn in *. congruence.
  - apply waits_alive in Hw as (H1 & _). apply Hcb in Hu. cbn in *. congruence.
  - unfold done_copying in Hd. cbn in *. by rewrite Hu, Hw in Hd.
Qed.

(** C18: A tunnel whose goroutines close behind themselves, all but the raw one of the relay, ends
    once something has happened to one of its connections: whatever the order in which they
    run, and even if the peers do nothing more but take what they are sent, the goroutines
    make a bounded number of steps, and when they can make no more both have ended and both
    connections are closed. *)
Theorem tunnel_ends p l t l' t' :
  p ≠ CloseNone → acts p l opened = Some t → touched t = true → acts p l' t = Some t' → Forall (λ a, internal a = true) l' →
  (length l' <= steps_left t)%nat ∧
  ((∀ a, internal a = true → act p a t' = None) → full (client t') = false → full (upstream t') = false → done_copying t' = true ∧ closed (client t') = true ∧ closed (upstream t') = true).
Proof.
  intros Hp Hr Ht Hl Hi. split.
  - clear Ht Hr. induction Hi as [|a l' Ha _ IH] in t, Hl |- *; [cbn; lia|]. cbn [acts] in Hl.
    destruct (act p a t) as [t1|] eqn:E; [|done]. apply (internal_decreases _ _ _ _ Ha) in E. specialize (IH _ Hl). cbn [length]. lia.
  - intros Hstuck Hf1 Hf2. assert (Hcb : closes_behind p t').
    { apply (acts_invariant p (closes_behind p) (l ++ l') opened); [apply closes_behind_step|by rewrite acts_app, Hr|intros _ []; done]. }
    assert (Ht' : touched t' = true) by (by apply (acts_invariant p (λ t, touched t = true) l' t); [apply touched_step|..]).
    destruct (done_copying t') eqn:Hd.
    + split; [done|]. unfold done_copying in Hd. destruct (up t') eqn:Hu, (down t') eqn:Hw; try done. split; [by apply (Hcb Hp Down)|by apply (Hcb Hp Up)].
    + destruct (can_move p t' Hp Hcb Hf1 Hf2 Ht' Hd) as (a & t2 & Ha & E). by rewrite (Hstuck a Ha) in E.
Qed.

(** ** What each tunnel of the program promises *)

(** The bytes that a tunnel never gets to see. *)
Definition lost (k : tunnels) (d : direction) (early greeting : list byte) : list byte :=
  match d, k with
  | Up, (SocksAfterTLS | RawTCP) => early
  | Down, (SocksGAS | GASConnect) => greeting
  | _, _ => []
  end.

(** When the receiver of a direction is told that no more will come: by the end of that
    direction, of any direction, or not by the goroutines. *)
Definition told (k : tunnels) (d : direction) (t : tunnel) : bool :=
  match k with
  | DirectTunnel | DirectConnect => finished d t
  | SocksDirect | SocksAfterTLS | SocksGAS | GASConnect | V2RayConnect => finished Up t || finished Down t
  | RawTCP => false
  end.

Lemma start_faithful k early greeting d : faithful (policy_of k) (lost k d early greeting) d (start k early greeting).
Proof.
  split; [by destruct k; intros [|]|]. destruct d; [exists (drop (length (lost k Up early greeting)) early)|exists (drop (length (lost k Down early greeting)) greeting)];
    destruct k; cbn; rewrite ?app_nil_r, ?drop_0, ?drop_all, ?app_nil_r; by split.
Qed.

Lemma closed_by_told k d t : closed_by (policy_of k) d t = told k d t.
Proof. destruct k, d; cbn; try done; apply orb_comm. Qed.

(** C17: What arrives through each of the tunnels.  But for the bytes that were read before the
    tunnel starts and are never handed on - what the GAS proxy sent with its answer to the
    CONNECT, what a client sent of a TLS handshake that failed, what the relay's front end had
    buffered - the receiver gets a beginning of what was sent, in order, including what the
    client sent early; all of what was read; and everything, when the direction has ended by
    itself: its goroutine is done, the other is not yet, and neither peer has reset its
    connection.  The receiver's connection is closed by the goroutines exactly when its own
    direction has ended in the direct tunnels, when either has in those of SOCKS5, GAS and V2Ray,
    and never in the raw relay (where the callers close after both). *)
Theorem tunnel_delivers k early greeting l t d :
  acts (policy_of k) l (start k early greeting) = Some t →
  closed (target d t) = told k d t ∧
  ∃ passed, sent (source d t) = lost k d early greeting ++ passed ∧ got (target d t) `prefix_of` passed ∧
    (copier_of d t = Reading → unread (source d t) = [] → got (target d t) = passed) ∧
    (finished d t = true → finished (flip d) t = false → broken (client t) = false → broken (upstream t) = false →
       ended (source d t) = true ∧ got (target d t) = passed).
Proof.
  intros Hr. assert (H : faithful (policy_of k) (lost k d early greeting) d t).
  { apply (acts_invariant (policy_of k) (faithful (policy_of k) (lost k d early greeting) d) l (start k early greeting)); [intros; by eapply faithful_step|done|apply start_faithful]. }
  destruct H as (Hc & passed & Hs & H). split; [by rewrite Hc, closed_by_told|]. exists passed. split; [done|].
  unfold faithful_parts, disturbed, finished in *. destruct (copier_of d t); split_and!; try done.
  - rewrite H. by apply prefix_app_r.
  - intros _ Hu. by rewrite H, Hu, app_nil_r.
  - rewrite H. by apply prefix_app_r.
  - exact (proj1 H).
  - exact (proj1 H).
  - intros _ Hf Hb1 Hb2. rewrite Hf, Hb1, Hb2 in H. destruct H as (_ & [[? ?]|?]); done.
Qed.

(** * What the policies cost *)

(** The answer to a client that has finished sending. *)
Definition deaf (g : list byte) (t : tunnel) : Prop :=
  got (client t) = g ∧ closed (upstream t) = true ∧ match down t with Writing _ => False | _ => True end.

Lemma deaf_step p g a t t' : act p a t = Some t' → deaf g t → deaf g t'.
Proof.
  destruct t as [[s1 u1 e1 b1 c1 f1 g1] [s2 u2 e2 b2 c2 f2 g2] cu cd]. unfold deaf. intros Ha Hd. cbn in Hd. revert Ha.
  destruct a as [d' n|d'|d'|d' n|d'|d' bs|d'|d'|d' more], d'; cbn;
    step_cases; try destruct p; intros [= <-]; cbn; naive_solver.
Qed.

(** A client that ends its sending, as it may while it waits for the answer, is cut off: when
    the goroutine of its direction has ended, nothing of what the upstream still sends is
    delivered, though the client would read it. *)
Theorem half_close_cuts_answer p l t l' t' :
  p ≠ CloseNone → acts p l opened = Some t → up t = Finished → down t = Reading → acts p l' t = Some t' →
  got (client t') = got (client t).
Proof.
  intros Hp Hr Hu Hd Hl. assert (Hcb : closes_behind p t) by (by apply (acts_invariant p (closes_behind p) l opened); [apply closes_behind_step|..|intros _ []]).
  apply (acts_invariant p (deaf (got (client t))) l' t); [apply deaf_step|done|]. split; [done|]. split; [by apply (Hcb Hp Up)|by rewrite Hd].
Qed.

Lemma none_closes a t t' :
  act CloseNone a t = Some t' → closed (client t) = false ∧ closed (upstream t) = false → closed (client t') = false ∧ closed (upstream t') = false.
Proof.
  destruct t as [[s1 u1 e1 b1 c1 f1 g1] [s2 u2 e2 b2 c2 f2 g2] cu cd]. intros Ha Hc. cbn in Hc. revert Ha.
  destruct a as [d' n|d'|d'|d' n|d'|d' bs|d'|d'|d' more], d'; cbn; step_cases; intros [= <-]; cbn; naive_solver.
Qed.

(** The raw relay closes nothing when one direction ends, so that the upstream is never told
    that the client has gone: when the client has ended and the upstream waits for more, no
    goroutine can move, neither connection is closed, and both last until the upstream
    acts on its own. *)
Theorem raw_relay_never_tells l t :
  acts relayRawTCP l opened = Some t → up t = Finished → down t = Reading →
  unread (upstream t) = [] → ended (upstream t) = false → broken (upstream t) = false →
  (∀ a, internal a = true → act relayRawTCP a t = None) ∧ closed (client t) = false ∧ closed (upstream t) = false.
Proof.
  intros Hr Hu Hd Hun He Hb.
  assert (Hc : closed (client t) = false ∧ closed (upstream t) = false).
  { by apply (acts_invariant CloseNone (λ t, closed (client t) = false ∧ closed (upstream t) = false) l opened); [apply none_closes|..]. }
  split; [|done]. destruct Hc as [Hc1 Hc2]. intros a Hi.
  destruct a as [[] n|[]|[]|[] n|[]|d bs|d|d|d more]; try done; cbn; rewrite ?Hu, ?Hd; try done.
  - rewrite Hun. destruct n; [by rewrite Hc2|]. by rewrite andb_false_r.
  - unfold no_more. by rewrite Hc2, Hb, He.
Qed.

(** * Witnesses *)

Definition question : list byte := [x68; x69]%byte.

(** The client asks and ends, the upstream gets the question. *)
Definition asked : list action := [PeerSends Up question; PeerEnds Up; Reads Up 2; Writes Up; ReadEnds Up; Leaves Up].

(** What is left of it, and that of a question answered too late. *)
Definition leaving : list action := [ReadEnds Down; Leaves Down].
Definition answered : list action := [PeerSends Down question; PeerEnds Down; ReadEnds Down; Leaves Down].

Lemma tunnel_ends_witness :
  ∃ t t', acts directTunnel asked opened = Some t ∧ acts directTunnel leaving t = Some t' ∧ (2 <= steps_left t)%nat ∧ done_copying t' = true.
Proof.
  eexists _, _. split; [vm_compute; reflexivity|]. split; [vm_compute; reflexivity|]. split; [|reflexivity].
  refine (proj1 (tunnel_ends directTunnel asked _ leaving _ _ eq_refl eq_refl eq_refl _)); [done|by repeat constructor].
Defined.

(** The client has sent the first byte of its question with its request, and the GAS proxy the
    first of its greeting with its answer. *)
Definition early_question : list action := [PeerSends Up [x69]%byte; PeerEnds Up; Reads Up 1; Writes Up; Reads Up 1; Writes Up; ReadEnds Up; Leaves Up; PeerSends Down [x69]%byte].

Lemma tunnel_delivers_witness :
  ∃ t, acts handleGASConnect early_question (start GASConnect [x68]%byte [x68]%byte) = Some t ∧ sent (client t) = question ∧ got (upstream t) = question ∧
    sent (upstream t) = question ∧ ∃ passed, question = [x68]%byte ++ passed ∧ got (client t) `prefix_of` passed.
Proof.
  eexists. split; [vm_compute; reflexivity|]. split; [reflexivity|]. split.
  - destruct (tunnel_delivers GASConnect [x68]%byte [x68]%byte early_question _ Up eq_refl) as (_ & passed & Hs & _ & _ & Hg).
    destruct (Hg eq_refl eq_refl eq_refl eq_refl) as [_ Hg']. exact (eq_trans Hg' (eq_sym Hs)).
  - split; [reflexivity|]. destruct (tunnel_delivers GASConnect [x68]%byte [x68]%byte early_question _ Down eq_refl) as (_ & passed & Hs & Hp & _).
    exists passed. by split.
Defined.

Lemma half_close_cuts_answer_witness :
  ∃ t t', acts directTunnel asked opened = Some t ∧ acts directTunnel answered t = Some t' ∧ sent (upstream t') = question ∧ got (client t') = [].
Proof.
  eexists _, _. split; [vm_compute; reflexivity|]. split; [vm_compute; reflexivity|]. split; [reflexivity|].
  refine (half_close_cuts_answer directTunnel asked _ answered _ _ eq_refl eq_refl eq_refl eq_refl). done.
Defined.

Lemma raw_relay_never_tells_witness :
  ∃ t, acts relayRawTCP asked opened = Some t ∧ got (upstream t) = question ∧ closed (upstream t) = false ∧ ∀ a, internal a = true → act relayRawTCP a t = None.
Proof.
  eexists. split; [vm_compute; reflexivity|]. split; [reflexivity|].
  destruct (raw_relay_never_tells asked _ eq_refl eq_refl eq_refl eq_refl eq_refl eq_refl) as (H & _ & Hc). split; [exact Hc|exact H].
Defined.
