(* ===== verification/OneConn.v ===== *)
(** [singleConnListener] and [notifyCloseConn] of [proxy/proxy.go]: how an interception serves
    its one connection with [http.Server.Serve].

    [Serve] accepts in a loop, hands each connection to a goroutine of its own and returns with
    the first error of [Accept], closing the listener; the goroutine may close its connection
    more than once.  [http.Server] is the standard library's. *)

From coqutil Require Import Datatypes.RecordSetters.
From S2P Require Import Prelude.
Import DoubleBraceUpdate.

(** * State *)

(** The loop of [Serve]: before [Accept], in the receive from [done], after its return. *)
Inductive loop := Accepting | Waiting | Returned.

#[export] Instance loop_eq_dec : EqDecision loop.
Proof. solve_decision. Defined.

Record singleConnListener := mkListener {
  once : bool;                   (** [once] has run *)
  doneOnce : bool;               (** [doneOnce] has run *)
  done : bool;                   (** the channel [done] is closed *)
  closings : nat;                (** how often it was closed; the second time panics *)
  conn_open : bool;              (** the connection itself *)
  serving : nat;                 (** connections handed to goroutines *)
  serve : loop;
}.

(** [&singleConnListener{conn: .., done: make(chan struct{})}], and [Serve] called. *)
Definition fresh_listener : singleConnListener := mkListener false false false 0 true 0 Accepting.

(** * Operations *)

(** [l.doneOnce.Do(func() { close(l.done) })] *)
Definition close_done (l : singleConnListener) : singleConnListener :=
  if doneOnce l then l else l {{ doneOnce := true; done := true; closings ::= S }}.

(** The first call hands out the connection, every other one waits for [done]. *)
Definition Accept (l : singleConnListener) : singleConnListener :=
  if once l then l {{ serve := Waiting }} else l {{ once := true; serving ::= S }}.

(** [Close] of the listener, and of the connection it handed out. *)
Definition Close (l : singleConnListener) : singleConnListener := close_done l.
Definition CloseConn (l : singleConnListener) : singleConnListener := (close_done l) {{ conn_open := false }}.

(** * Steps *)

Inductive step : singleConnListener → singleConnListener → Prop :=
  | Step_accept l : serve l = Accepting → step l (Accept l)
  | Step_received l : serve l = Waiting → done l = true → step l ((Close l) {{ serve := Returned }})
  | Step_conn_closed l : (0 < serving l)%nat → step l (CloseConn l)
  | Step_listener_closed l : step l (Close l).

(** * One connection *)

Definition listener_ok (l : singleConnListener) : Prop :=
  done l = doneOnce l ∧ closings l = (if doneOnce l then 1 else 0)%nat ∧ serving l = (if once l then 1 else 0)%nat ∧
  (conn_open l = false → done l = true) ∧ (serve l ≠ Accepting → once l = true) ∧ (serve l = Returned → done l = true).

Lemma close_done_ok l : listener_ok l → listener_ok (close_done l) ∧ done (close_done l) = true ∧ once (close_done l) = once l ∧ serve (close_done l) = serve l.
Proof.
  unfold listener_ok, close_done. destruct l as [o d0 d c co sv lo]. cbn. intros (-> & -> & -> & H1 & H2 & H3). by destruct d0.
Qed.

Lemma listener_step_ok l l' : step l l' → listener_ok l → listener_ok l'.
Proof.
  intros Hs Hok. destruct (close_done_ok _ Hok) as (Hc & Hdone & Ho & Hl). destruct Hs as [l Hs|l Hs Hd|l Hs|l];
    try destruct Hc as (H1 & H2 & H3 & H4 & H5 & H6).
  - clear - Hs Hok. destruct l as [o d0 d c co sv lo]. unfold listener_ok, Accept in *. cbn in *. destruct Hok as (H1 & H2 & H3 & H4 & H5 & H6). destruct o; cbn; split_and!; first [done|lia].
  - split_and!; try done. intros _. change (once (close_done l) = true). rewrite Ho. apply Hok. by rewrite Hs.
  - split_and!; done.
  - split_and!; done.
Qed.

Lemma reachable_ok l : rtc step fresh_listener l → listener_ok l.
Proof.
  intros H. assert (Hi : listener_ok fresh_listener) by done.
  induction H as [l|l l1 l2 Hs _ IH]; [done|]. by apply IH, (listener_step_ok _ _ Hs).
Qed.

(** What is left of [Serve] once the connection or the listener is closed. *)
Lemma serve_returns l : listener_ok l → done l = true → ∃ l', rtc step l l' ∧ serve l' = Returned.
Proof.
  intros Hok Hd.
  assert (Hw : ∀ l, serve l = Waiting → done l = true → ∃ l', rtc step l l' ∧ serve l' = Returned).
  { intros l0 H H0. exists ((Close l0) {{ serve := Returned }}). split; [by apply rtc_once, Step_received|done]. }
  assert (Ha : ∀ l, serve l = Accepting → once l = true → done l = true → ∃ l', rtc step l l' ∧ serve l' = Returned).
  { intros l0 H Ho H0. destruct (Hw (Accept l0)) as (l' & Hr & Hl); [by unfold Accept; rewrite Ho|unfold Accept; by rewrite Ho|].
    exists l'. split; [|done]. eapply rtc_l; [by apply Step_accept|done]. }
  destruct (serve l) eqn:Hs; [|by apply Hw|by exists l].
  destruct (once l) eqn:Ho; [by apply Ha|].
  destruct (Ha (Accept l)) as (l' & Hr & Hl); [unfold Accept; by rewrite Ho..|].
  exists l'. split; [|done]. eapply rtc_l; [by apply Step_accept|done].
Qed.

(** Whatever the goroutines do, the connection is served once, the channel is not closed
    twice, [Serve] does not return while nobody has closed the connection or the listener,
    and once one of them is closed it can always go on to its end. *)
Theorem one_connection l :
  rtc step fresh_listener l →
  (serving l <= 1)%nat ∧ (closings l <= 1)%nat ∧ (serve l = Returned → done l = true ∧ serving l = 1%nat) ∧
  (done l = false → conn_open l = true) ∧
  (done l = true → ∃ l', rtc step l l' ∧ serve l' = Returned).
Proof.
  intros H. apply reachable_ok in H as Hok. pose proof Hok as (H1 & H2 & H3 & H4 & H5 & H6). split_and!.
  - rewrite H3. destruct (once l); lia.
  - rewrite H2. destruct (doneOnce l); lia.
  - intros Hr. split; [by apply H6|]. by rewrite H3, H5 by (by rewrite Hr).
  - intros Hd. destruct (conn_open l); [done|]. rewrite H4 in Hd by done. done.
  - by apply serve_returns.
Qed.

(** * Witness *)

(** The goroutine of the connection closes it twice, and [Serve] ends. *)
Lemma one_connection_witness :
  ∃ l, rtc step fresh_listener l ∧ serve l = Returned ∧ serving l = 1%nat ∧ closings l = 1%nat.
Proof.
  set (l1 := Accept fresh_listener). set (l2 := CloseConn l1). set (l3 := CloseConn l2). set (l4 := Accept l3).
  set (l := (Close l4) {{ serve := Returned }}).
  assert (H : rtc step fresh_listener l).
  { apply (rtc_l _ _ l1); [by constructor|]. apply (rtc_l _ _ l2); [constructor; cbn; lia|].
    apply (rtc_l _ _ l3); [constructor; cbn; lia|]. apply (rtc_l _ _ l4); [by constructor|]. by apply rtc_once, Step_received. }
  exists l. split; [exact H|]. split; [reflexivity|]. split; [|reflexivity]. exact (proj2 (proj1 (proj2 (proj2 (one_connection l H))) eq_refl)).
Defined.
