(* ===== verification/LeafCerts.v ===== *)
(** The certificates shown to clients: the templates of [generateCert] and [generateCertNow] in
    [proxy/proxy.go], of [ensureCA] and [getCert] in [proxy/gas_relay.go], and what a client
    that checks the name of its server makes of them.

    Signing is in [MITM] and [GasProxy]; here are the names and the lifetimes. *)

From S2P Require Import Prelude GoStrings GoNet Hosts.

Open Scope Z_scope.

(** * Templates *)

(** [x509.Certificate], as far as the templates fill it in; seconds. *)
Record template := mkTemplate {
  t_CommonName : string;
  t_DNSNames : list string;
  t_IPAddresses : list IP;
  t_NotBefore : Z;
  t_NotAfter : Z;
  t_IsCA : bool;
}.

(** A host among the names, an address among the addresses. *)
Definition named (host : string) (notBefore notAfter : Z) : template :=
  match ParseIP host with
  | Some ip => mkTemplate host [] [ip] notBefore notAfter false
  | None => mkTemplate host [host] [] notBefore notAfter false
  end.

(** 24 hours. *)
Definition one_day : Z := 24 * 3600.

Definition generateCertNow (host : string) (now : Z) : template := named host now (now + one_day).

(** [AddDate]: the same day some years later. *)
Definition getCert (AddDate : Z → Z → Z) (domain : string) (now : Z) : template := named domain now (AddDate 1 now).

Definition generateCert (host : string) (now : Z) : template :=
  let host := normalizeHost host in
  mkTemplate host [host] [] now (now + one_day) false.

(** The relay's own authority. *)
Definition ensureCA (AddDate : Z → Z → Z) (now : Z) : template := mkTemplate "nova-gas" [] [] now (AddDate 10 now) true.

(** * What a client accepts *)

(** The name check of TLS clients, as in [x509.VerifyHostname], without wildcards: an address is
    looked for among the addresses, any other name among the names. *)
Definition covers (t : template) (host : string) : bool :=
  match ParseIP host with
  | Some ip => bool_decide (ip ∈ t_IPAddresses t)
  | None => existsb (EqualFold host) (t_DNSNames t)
  end.

Definition in_time (t : template) (now : Z) : bool := (t_NotBefore t <=? now) && (now <=? t_NotAfter t).

Lemma named_covers host a b : covers (named host a b) host = true.
Proof.
  unfold covers, named. destruct (ParseIP host) as [ip|] eqn:Hip.
  - apply bool_decide_eq_true_2. cbn. by apply list_elem_of_singleton.
  - cbn. by rewrite EqualFold_refl.
Qed.

Lemma named_covers_only host a b host' :
  covers (named host a b) host' = true →
  match ParseIP host' with Some ip => ParseIP host = Some ip | None => ParseIP host = None ∧ ToLower host' = ToLower host end.
Proof.
  unfold covers, named. destruct (ParseIP host') as [ip'|] eqn:H', (ParseIP host) as [ip|] eqn:H; cbn.
  - intros E%bool_decide_eq_true_1. apply list_elem_of_singleton in E. by rewrite E.
  - intros E%bool_decide_eq_true_1. by apply not_elem_of_nil in E.
  - done.
  - rewrite orb_false_r. intros E%bool_decide_eq_true_1. done.
Qed.

(** The certificates of the relays are accepted for the host they are made for, name or
    address, and for no other.  Those of the interception are accepted for every host that is
    no address; for a site visited by its address, IPv4 or IPv6, the certificate names the
    address where no client looks for it, so that every client refuses it. *)
Theorem leaf_names AddDate host now :
  covers (generateCertNow host now) host = true ∧ covers (getCert AddDate host now) host = true ∧
  (∀ host', covers (generateCertNow host now) host' = true →
     match ParseIP host' with Some ip => ParseIP host = Some ip | None => ParseIP host = None ∧ ToLower host' = ToLower host end) ∧
  covers (generateCert host now) (normalizeHost host) = bool_decide (ParseIP (normalizeHost host) = None) ∧
  in_time (generateCertNow host now) now = true ∧ in_time (generateCert host now) (now + one_day + 1) = false.
Proof.
  assert (Hday : 0 <= one_day) by (by unfold one_day).
  split_and!; [apply named_covers..|apply named_covers_only| | |].
  - unfold covers, generateCert. cbn [t_DNSNames t_IPAddresses]. destruct (ParseIP (normalizeHost host)) as [ip|].
    + rewrite (bool_decide_eq_false_2 (Some ip = None)) by done. apply bool_decide_eq_false_2, not_elem_of_nil.
    + cbn. by rewrite EqualFold_refl.
  - unfold in_time, generateCertNow, named. destruct (ParseIP host); cbn [t_NotBefore t_NotAfter]; apply andb_true_intro; rewrite !Z.leb_le; lia.
  - unfold in_time, generateCert. cbn [t_NotBefore t_NotAfter]. apply andb_false_intro2, Z.leb_gt. lia.
Qed.

(** A site visited by its address. *)
Example address_refused : covers (generateCert "192.0.2.7:443" 0) "192.0.2.7" = false ∧ covers (generateCertNow "192.0.2.7" 0) "192.0.2.7" = true.
Proof. by vm_compute. Qed.
